(* ===== verification/_CoqProject ===== *)
-Q . S2P
Prelude.v
Double.v
Paths.v
Buffers.v
Protocol.v
ProtocolFacts.v
Msgblock.v
Serialqueue.v
Trdispatch.v
Devices.v
World.v
Frames.v
Sched.v
Delays.v
SchedFacts.v
Command.v
BaseCmd.v
ObjFacts.v
Trsync.v
Stepper.v
Endstop.v
GpioCmds.v
PwmCmds.v
Inputs.v
Tmcuart.v
SpiCmds.v
I2cCmds.v
SensorBulk.v
Accelerometers.v
SosFilter.v
LoadCellProbe.v
LoadCellAdc.v
Thermocouple.v
Ldc1612.v
SpiAngle.v
Displays.v
MiscCmds.v
Callbacks.v
SerialIrq.v
CanSerial.v
UsbCdc.v
UsbCanbus.v
Firmware.v
Sample.v
BoardClocks.v
SchedProps.v
SerialFacts.v
QueueProps.v
ProtocolProps.v
Delivery.v
DispatchProps.v
TrdispatchProps.v
BaseProps.v
ConsoleProps.v
CanProps.v
UsbProps.v
BridgeProps.v
BridgeNode.v
OutputProps.v
StepperProps.v
TmcuartProps.v
BitBang.v
SpiProps.v
I2cProps.v
BulkProps.v
ProbeProps.v
Typed.v
TypeSafety.v
LoadCellProps.v
LcdProps.v
Stepcompress.v
Trapq.v
Kinematics.v
Itersolve.v
ItersolveProps.v
Steppersync.v
CompressFacts.v
StepcompressFacts.v
StepcompressProps.v
SteppersyncProps.v
