(* ===== verification/Prelude.v ===== *)
(** * Klipper: a verification library for the motion and communication core

    KlipperPlace drives a machine with two programs.  The host computes when
    each stepper has to step, packs the steps into commands and sends them over
    a serial line or CAN bus; the firmware of a micro-controller receives the
    commands, keeps them in queues and executes them from timer interrupts.
    This library models the C code of both sides, src/klippy/chelper/ of the
    host and src/src/ of the firmware, as executable definitions and proves
    what the one relies on from the other.

    ** The path of a step, and the files that model it

    Host (src/klippy/chelper/):
    - Double: the [double] arithmetic of the host, the Standard Library's
      executable IEEE 754 binary64.
    - Trapq: the queue of moves (trapq.c).  Kinematics: where a stepper is at a
      time within a move (kin_*.c), with input shaping, pressure advance and
      dual carriages.  Itersolve: the search for the times of the steps
      (itersolve.c).
    - Stepcompress: step times become [queue_step] commands (stepcompress.c).
    - Steppersync: the commands of the steppers of one micro-controller are
      merged and held back until its move queue has room (steppersync.c).
    - Serialqueue: commands are collected in blocks, sent, acknowledged and
      retransmitted (serialqueue.c, pollreactor.c).  Msgblock: the encoding and
      checking of blocks and the clock estimates (msgblock.c).
    - Trdispatch: a trigger of one micro-controller is passed on to the others
      during homing (trdispatch.c).

    Firmware (src/src/):
    - World: the structures of all files as records, the memory they live in as
      one record [world], and the monad [M] of operations that can shut the
      machine down or fault.  Paths: linked lists in that memory.  Frames: what
      an operation leaves alone.
    - Sched: timers, tasks, shutdown and the main loop (sched.c,
      generic/timer_irq.c).  Callbacks: the contract of a timer callback, as a
      type class with an instance per component.
    - Protocol and Command: encoding, framing, resynchronisation and dispatch
      (command.c, generic/crc16_ccitt.c).
    - The consoles that carry the blocks: SerialIrq (generic/serial_irq.c),
      CanSerial (generic/canserial.c, canbus.c) and UsbCdc (generic/usb_cdc.c).
      UsbCanbus: the node that is a bridge from USB to CAN at the same time
      (generic/usb_canbus.c); it takes the place of the driver below CanSerial
      (class [CanBus]).  Buffers: [memmove] and the buffers they share.
    - BoardClocks: the clocks of the ports that extend a shorter counter or
      scale another clock (avr/timer.c, stm32/stm32f0_timer.c, linux/timer.c).
    - BaseCmd: memory, move queues, object ids, configuration, statistics
      (basecmd.c).
    - Stepper, Trsync, Endstop, GpioCmds, PwmCmds and Tmcuart: the files of the
      same names.  Inputs: adccmds.c, buttons.c and pulse_counter.c.
    - Devices: the structures of the drivers below.  Delays: the busy waits that
      they share.  SpiCmds (spicmds.c, spi_software.c) and I2cCmds (i2ccmds.c,
      i2c_software.c): the buses, with the bit level protocols in software.
    - Sensors: SensorBulk (the report buffer, sensor_bulk.c), Accelerometers
      (sensor_adxl345.c, sensor_lis2dw.c, sensor_mpu9250.c, sensor_icm20948.c),
      Ldc1612 (sensor_ldc1612.c), SpiAngle (sensor_angle.c), LoadCellAdc
      (sensor_ads1220.c, sensor_hx71x.c) and Thermocouple (thermocouple.c).
    - SosFilter (sos_filter.c) and LoadCellProbe (load_cell_probe.c): the force
      of a load cell is filtered and stops the machine.
    - Displays: neopixel.c, lcd_hd44780.c and lcd_st7920.c.  MiscCmds:
      sdiocmds.c, debugcmds.c and initial_pins.c.
    - Firmware: the tables of callbacks and commands, the initial state and the
      main loop of the assembled firmware.  Sample: a board on which it runs.

    ** How the code is translated

    Integers are [Z] with the wrap-around of their C type written out ([u8] ...
    [s64]).  Structures are records with the fields of the source, enumerations
    inductive types, pointers the objects they designate: an oid, an address of
    a move node, a place in a list.  Firmware handlers are programs of the
    monad [M] over [world]; a call of [shutdown] is an outcome of its own
    ([Shut]), and so is undefined behaviour ([Fault]).  On the host [None] or a
    named outcome stands for undefined behaviour: a [NULL] dereference, a cast
    of a [double] out of range, a store behind a buffer.  Handlers that run
    with interrupts disabled are atomic; where interrupts can occur inside an
    operation (serial buffers, the bridge) the places are explicit; the threads
    of step generation are two programs that a schedule interleaves.

    Code outside the repository is a parameter: [Board] (clock readings, pins,
    converters, hardware buses, sizes of structures), [CanHw] and [UsbHw] (the CAN and USB
    drivers), [Host] (the monotonic clock and the success of CAN writes), [Libm] (the trigonometric functions), the generated
    command table of [Command].  The samples instantiate all of them.

    Loops that follow a list are structural.  Other loops carry fuel: the
    length of the linked list for the scheduler, the number of queued messages
    for building a block and for merging, one more than the 768 byte buffer can
    hold for [command_event], the number of levels for the heap, the bytes of a
    buffer or transfer for the CAN and USB tasks, the frames of a ring (16 and 32)
    for the bridge, the bits of a message for the
    TMC uart.  For these the theorems show that the fuel is enough.  A busy wait
    ends after [spin_limit] readings of the clock or faults; the theorems on
    drivers that wait assume that the clock advances far enough within them
    ([clock_live], [clock_leaves]), as the sample board's does.  The search of [compress_bisect_add]
    is shown to end within its fuel.  The search for a step time in Itersolve
    has no such bound in the code; out of fuel is an outcome there, and nothing
    is claimed about its end.

    ** What is shown

    - Delivery (with SerialFacts): host queue and firmware receiver over lines
      that lose blocks.  Every block is processed exactly once and in order
      although numbers are sent modulo sixteen; one undisturbed retransmission
      recovers everything; the buffers for writing are large enough.
    - QueueProps: the lists and byte counters of the serial queue agree with
      its contents after every operation, a block can always be built, and the
      most urgent message goes first; the reactor runs every timer that is due
      and sleeps at most a second.
    - ProtocolProps, DispatchProps (with ProtocolFacts): integer and message
      encodings round trip, the checksum is CRC-16/CCITT and detects errors
      within a byte, frames are accepted by both receivers, a block of commands
      runs exactly these handlers, responses are decoded by the host.
    - StepcompressProps (with CompressFacts, StepcompressFacts): compression
      ends with a move that fits the steps, flushing schedules every step
      within the allowed error, appending a step counts it; a compressed move
      is executed by the firmware's stepper at these times.
    - SteppersyncProps: the heap of the move queue and the merge by time; the
      threads that generate steps: no signal is lost, and under every schedule
      the results are those of working on every request at once.
    - ItersolveProps: step generation stays on the motion queue.
    - TrdispatchProps: a trigger reaches every micro-controller once.
    - SchedProps (with SchedFacts): the timer list stays sorted, dispatch runs
      the first timer and puts it in its place, deletion and reset.
    - BaseProps (with ObjFacts): move queues refine lists, allocation is
      bounded; clock and statistics.
    - ConsoleProps, CanProps, UsbProps: while a block is removed from a receive
      buffer, interrupts may add bytes and none is lost; responses leave every
      console in order, each as a whole or not at all ([TxConsole], with an
      instance per console); the administrative messages of a CAN node form a
      queue; a USB descriptor is sent in the right packets although the endpoint
      is busy in between.
    - BridgeProps: the rings of the bridge are queues at every position of their
      wrapping indices; one run of its task, with frames arriving from the bus
      in between, passes frames of the bus to the host in order and hands every
      frame of the host to the echo, the node and the bus exactly once, as its
      identifier demands.  BridgeNode: the node's responses reach the host in
      order ([CanBusLaws], which the driver of a plain node satisfies too);
      frames are only discarded when the bus stood still for 50 ms; a full ring
      makes the wait for room in the node's own query endless.
    - BoardClocks: the 32-bit clocks of AVR and STM32F0 are exact although
      their counter wraps at any moment, and Linux sets alarms for the instant
      that reads back as the requested time.
    - TmcuartProps: the events of a transmission give the wave form of its bits.
    - Typed, TypeSafety: in every state that the assembled firmware reaches,
      objects lie in slots of their type, pointers between components and the
      callbacks of timers and signals agree with these types.
    - SpiProps, I2cProps, LcdProps (with BitBang): reference devices that follow
      the pins receive the bytes that the drivers of the software buses and
      of the displays send, and the drivers read what the devices answer.
    - BulkProps: samples are reported in order, none is lost or repeated
      ([BulkSensor], with an instance per sensor that stores single samples).
    - ProbeProps, LoadCellProps: the bits of the converter give the measured
      value, the fixed point filter computes the rounded recurrence, the first
      trigger wins, and the watchdog reports missing samples.
    - StepperProps, OutputProps: positions of a stepper, stopping on a trigger;
      outputs are safe on shutdown and never stay on longer than allowed.

    ** Not modelled

    Board ports and drivers at register level other than the clocks above (with
    the counter that neopixel.c reads on AVR), the debugging commands that access
    arbitrary addresses, the release of memory, the text of statistics, and the
    host application in Python. *)
From stdpp Require Export gmap list strings sorting.
From Stdlib Require Export ZArith Lia.

(** ** Machine integers

    C integers are [Z] values kept in range by explicit wrap-around.  [u8],
    [u16], [u32] and [u64] are the conversions to the unsigned types, [s8],
    [s16], [s32] and [s64] the conversions to the signed two's complement
    types. *)

Open Scope Z_scope.

Definition u8 (x : Z) : Z := x mod 2 ^ 8.
Definition u16 (x : Z) : Z := x mod 2 ^ 16.
Definition u32 (x : Z) : Z := x mod 2 ^ 32.
Definition u64 (x : Z) : Z := x mod 2 ^ 64.
Definition s8 (x : Z) : Z := (x + 2 ^ 7) mod 2 ^ 8 - 2 ^ 7.
Definition s16 (x : Z) : Z := (x + 2 ^ 15) mod 2 ^ 16 - 2 ^ 15.
Definition s32 (x : Z) : Z := (x + 2 ^ 31) mod 2 ^ 32 - 2 ^ 31.
Definition s64 (x : Z) : Z := (x + 2 ^ 63) mod 2 ^ 64 - 2 ^ 63.

(** Range predicates of the unsigned types. *)
Definition is_u8 (x : Z) : Prop := 0 <= x < 2 ^ 8.
Definition is_u16 (x : Z) : Prop := 0 <= x < 2 ^ 16.
Definition is_u32 (x : Z) : Prop := 0 <= x < 2 ^ 32.

(** [word_lia] decides linear goals over wrapped arithmetic: it exposes the
    modulus and gives [lia] the Euclidean equations. *)
Ltac unfold_words :=
  unfold is_u8, is_u16, is_u32, u8, u16, u32, u64, s8, s16, s32, s64 in *.
Ltac word_lia := unfold_words; Z.to_euclidean_division_equations; lia.

Create HintDb word.
Create Rewrite HintDb word_rw.

Lemma u8_range x : 0 <= u8 x < 256. Proof. word_lia. Qed.
Lemma u16_range x : 0 <= u16 x < 65536. Proof. word_lia. Qed.
Lemma u32_range x : 0 <= u32 x < 2 ^ 32. Proof. word_lia. Qed.
Lemma s32_range x : - 2 ^ 31 <= s32 x < 2 ^ 31. Proof. word_lia. Qed.
Lemma u8_id x : 0 <= x < 256 -> u8 x = x. Proof. word_lia. Qed.
Lemma u16_id x : 0 <= x < 65536 -> u16 x = x. Proof. word_lia. Qed.
Lemma u32_id x : 0 <= x < 2 ^ 32 -> u32 x = x. Proof. word_lia. Qed.
Lemma s32_id x : - 2 ^ 31 <= x < 2 ^ 31 -> s32 x = x. Proof. word_lia. Qed.
Lemma u32_idem x : u32 (u32 x) = u32 x. Proof. word_lia. Qed.
Lemma u32_s32 x : u32 (s32 x) = u32 x. Proof. word_lia. Qed.
Lemma s32_u32 x : s32 (u32 x) = s32 x. Proof. word_lia. Qed.
Lemma u32_add_l a b : u32 (u32 a + b) = u32 (a + b). Proof. word_lia. Qed.
Lemma u32_add_r a b : u32 (a + u32 b) = u32 (a + b). Proof. word_lia. Qed.
Lemma u32_sub_l a b : u32 (u32 a - b) = u32 (a - b). Proof. word_lia. Qed.
Lemma u32_sub_r a b : u32 (a - u32 b) = u32 (a - b). Proof. word_lia. Qed.

#[export] Hint Resolve u8_range u16_range u32_range s32_range : word.
#[export] Hint Rewrite u32_idem u32_s32 s32_u32 u32_add_l u32_add_r u32_sub_l u32_sub_r : word_rw.

(** ** Bit tests *)

(** [flag v m] is the C truth value of [v & m]. *)
Definition flag (v m : Z) : bool := negb (Z.land v m =? 0).

Lemma flag_lor a b m : flag (Z.lor a b) m = flag a m || flag b m.
Proof.
  unfold flag. rewrite Z.land_lor_distr_l.
  destruct (Z.eqb_spec (Z.land a m) 0) as [->|Ha], (Z.eqb_spec (Z.land b m) 0) as [->|Hb];
    [done|by rewrite Z.lor_0_l; apply negb_true_iff, Z.eqb_neq|rewrite Z.lor_0_r|];
    apply negb_true_iff, Z.eqb_neq; [done|]. by intros [? ?]%Z.lor_eq_0_iff.
Qed.

Lemma flag_land a m k : flag (Z.land a m) k = flag a (Z.land m k).
Proof. unfold flag. by rewrite Z.land_assoc. Qed.

Lemma flag_lxor_other a m k : Z.land m k = 0 -> flag (Z.lxor a m) k = flag a k.
Proof.
  intros E. unfold flag. replace (Z.land (Z.lxor a m) k) with (Z.land a k); [done|].
  apply Z.bits_inj'. intros i _. apply (f_equal (fun z => Z.testbit z i)) in E.
  rewrite Z.land_spec, Z.bits_0 in E. rewrite !Z.land_spec, Z.lxor_spec.
  by destruct (Z.testbit a i), (Z.testbit m i), (Z.testbit k i).
Qed.

Lemma flag_pow2 x n : 0 <= n -> flag x (2 ^ n) = Z.testbit x n.
Proof.
  intros Hn. assert (Z.land x (2 ^ n) = if Z.testbit x n then 2 ^ n else 0) as E.
  { apply Z.bits_inj'. intros i Hi. rewrite Z.land_spec, Z.pow2_bits_eqb by done.
    destruct (Z.eqb_spec n i) as [->|Hne].
    - destruct (Z.testbit x i); [by rewrite Z.pow2_bits_eqb, Z.eqb_refl|by rewrite Z.bits_0].
    - rewrite andb_false_r. destruct (Z.testbit x n); [|by rewrite Z.bits_0].
      rewrite Z.pow2_bits_eqb by done. symmetry. by apply Z.eqb_neq. }
  unfold flag. rewrite E. destruct (Z.testbit x n); [|done].
  apply negb_true_iff, Z.eqb_neq. pose proof (Z.pow_pos_nonneg 2 n). lia.
Qed.

Lemma flag_bit31 x : 0 <= x < 2 ^ 32 -> flag x 0x80000000 = (2 ^ 31 <=? x).
Proof.
  intros Hx. change 0x80000000 with (2 ^ 31). rewrite flag_pow2, Z.testbit_eqb by lia.
  destruct (Z.leb_spec (2 ^ 31) x); [apply Z.eqb_eq|apply Z.eqb_neq]; word_lia.
Qed.

Lemma flag_0_r a : flag a 0 = false.
Proof. unfold flag. by rewrite Z.land_0_r. Qed.

(** [~m] on an 8 bit quantity. *)
Definition not8 (m : Z) : Z := u8 (Z.lnot m).

(** C booleans as integers. *)
Definition b2z (b : bool) : Z := if b then 1 else 0.

(** [ALIGN(x,a)] of compiler.h, for a power of two [a]. *)
Definition ALIGN (x a : Z) : Z := Z.land (x + (a - 1)) (Z.lnot (a - 1)).

Lemma ALIGN_ge x k : 0 <= k -> x <= ALIGN x (2 ^ k).
Proof.
  intros Hk. unfold ALIGN. assert (2 ^ k - 1 = Z.ones k) as -> by (rewrite Z.ones_equiv; lia).
  rewrite <- Z.ldiff_land, Z.ldiff_ones_r by done.
  rewrite Z.shiftl_mul_pow2, Z.shiftr_div_pow2 by done. rewrite Z.ones_equiv.
  assert (0 < 2 ^ k) as Hp by (apply Z.pow_pos_nonneg; lia).
  pose proof (Z.div_mod (x + Z.pred (2 ^ k)) (2 ^ k) ltac:(lia)).
  pose proof (Z.mod_pos_bound (x + Z.pred (2 ^ k)) (2 ^ k) Hp). lia.
Qed.

(** [DIV_ROUND_UP(n,d)] of compiler.h. *)
Definition DIV_ROUND_UP (n d : Z) : Z := (n + d - 1) / d.

(** ** Record update

    [r <| f := v |>] is [r] with field [f] replaced; [r <| f ::= g |>] applies
    [g] to the field.  A record type takes part by declaring its eta
    expansion as an [Eta] instance. *)

Class Eta (R : Type) := eta : R -> R.
Class Field {R T : Type} (proj : R -> T) := upd : (T -> T) -> R -> R.
Arguments upd {R T} proj {_} _ _.

Ltac field_updater :=
  match goal with
  | |- @Field ?R ?T ?proj =>
      let e := constr:(_ : Eta R) in
      let b := eval hnf in e in
      lazymatch eval pattern proj in b with
      | ?g _ => exact (fun f => g (fun r => f (proj r)))
      end
  end.

#[export] Hint Extern 1 (Field _) => field_updater : typeclass_instances.

Notation "r <| f := v |>" := (upd f (fun _ => v) r)
  (at level 1, left associativity, f constr at level 0, v at level 200).
Notation "r <| f ::= g |>" := (upd f g r)
  (at level 1, left associativity, f constr at level 0, g at level 200).

(** ** Lists *)

Lemma last_default {A} (x d : A) l : List.last (x :: l) d = List.last l x.
Proof.
  revert x d. induction l as [|y l IH]; intros x d; [done|].
  change (List.last (x :: y :: l) d) with (List.last (y :: l) d).
  by rewrite (IH y d), (IH y x).
Qed.

Lemma last_app_cons {A} (l1 l2 : list A) x d :
  List.last (l1 ++ x :: l2) d = List.last l2 x.
Proof.
  revert d. induction l1 as [|y l1 IH]; intros d; [apply last_default|].
  simpl app. by rewrite last_default, IH.
Qed.

Lemma Forall_filter_keep {A} (P Q : A -> Prop) `{!forall x, Decision (Q x)} l :
  Forall P l -> Forall P (filter Q l).
Proof.
  rewrite !Forall_forall. intros Hl x [_ Hx]%list_elem_of_filter. by apply Hl.
Qed.

Lemma filter_neq_id {A} `{EqDecision A} (x : A) (l : list A) : x ∉ l -> filter (fun y => y <> x) l = l.
Proof.
  induction l as [|y l IH]; [done|]. intros [Hy Hl]%not_elem_of_cons.
  rewrite filter_cons_True by congruence. by rewrite IH.
Qed.

Lemma exists_last_or_nil {A} (l : list A) : l = [] \/ exists l' x, l = l' ++ [x].
Proof. destruct l as [|y l] using rev_ind; [by left|]. right. by eexists _, _. Qed.
