(* ===== verification/Double.v ===== *)
(** * Double precision arithmetic

    The host code computes times with [double].  The operations are those of
    the Standard Library's executable specification of IEEE 754, at the
    parameters of binary64. *)
From Stdlib Require Export Floats.SpecFloat.
From S2P Require Import Prelude.

Definition double : Set := spec_float.
Definition f64 (z : Z) : double := binary_normalize 53 1024 z 0 false.
Definition fadd : double -> double -> double := SFadd 53 1024.
Definition fsub : double -> double -> double := SFsub 53 1024.
Definition fmul : double -> double -> double := SFmul 53 1024.
Definition fdiv : double -> double -> double := SFdiv 53 1024.
Definition fsqrt : double -> double := SFsqrt 53 1024.
Definition f_half : double := fdiv (f64 1) (f64 2).

(** The value rounded towards zero, [None] for infinities and not-a-number. *)
Definition f_trunc (x : double) : option Z :=
  match x with
  | S754_zero _ => Some 0
  | S754_finite s m e =>
      let v := if 0 <=? e then Zpos m * 2 ^ e else Zpos m / 2 ^ (- e) in
      Some (if s then - v else v)
  | _ => None
  end.

(** [(uint64_t)x] and [(int32_t)x], where they are defined. *)
Definition f_to_u64 (x : double) : option Z :=
  z ← f_trunc x; if (0 <=? z) && (z <? 2 ^ 64) then Some z else None.
Definition f_to_s32 (x : double) : option Z :=
  z ← f_trunc x; if (- 2 ^ 31 <=? z) && (z <? 2 ^ 31) then Some z else None.
Definition f_to_s64 (x : double) : option Z :=
  z ← f_trunc x; if (- 2 ^ 63 <=? z) && (z <? 2 ^ 63) then Some z else None.

(** The C comparisons; a comparison with not-a-number is false. *)
Definition flt (x y : double) : bool := SFltb x y.
Definition fle (x y : double) : bool := SFleb x y.
Definition feq (x y : double) : bool := SFeqb x y.

(** [x != 0.], the truth value of [x]. *)
Definition f_true (x : double) : bool := negb (feq x (f64 0)).

(** [fabs] *)
Definition f_abs : double -> double := SFabs.

(** The decimal constant [n / d]. *)
Definition f_lit (n d : Z) : double := fdiv (f64 n) (f64 d).

(** [ceil]; a value with a positive exponent is an integer. *)
Definition f_ceil (x : double) : double :=
  match x with
  | S754_finite s m e =>
      if 0 <=? e then x
      else
        let v := - ((if s then Zpos m else Zneg m) / 2 ^ (- e)) in
        if v =? 0 then S754_zero s else f64 v
  | _ => x
  end.

(** [- x], and [x != y]. *)
Definition f_neg : double -> double := SFopp.
Definition fne (x y : double) : bool := negb (feq x y).

(** ** The order of doubles

    [SFcompare] compares the sign, the exponent and the mantissa one after the
    other, so that the order is total and transitive among all values but
    not-a-number. *)

Definition f_key (x : double) : option (Z * Z * Z) :=
  match x with
  | S754_infinity s => Some (if s then -2 else 2, 0, 0)
  | S754_zero _ => Some (0, 0, 0)
  | S754_finite s m e => Some (if s then (-1, - e, Zneg m) else (1, e, Zpos m))
  | S754_nan => None
  end.

Definition key_compare (a b : Z * Z * Z) : comparison :=
  let '(a1, a2, a3) := a in
  let '(b1, b2, b3) := b in
  match a1 ?= b1 with
  | Eq => match a2 ?= b2 with Eq => a3 ?= b3 | c => c end
  | c => c
  end.

Lemma SFcompare_key x y : SFcompare x y =
  match f_key x, f_key y with Some a, Some b => Some (key_compare a b) | _, _ => None end.
Proof.
  destruct x as [s1|s1| |s1 m1 e1], y as [s2|s2| |s2 m2 e2];
    try (destruct s1); try (destruct s2); try reflexivity; cbn [SFcompare f_key key_compare].
  change (-1 ?= -1) with Eq. cbn iota.
    replace (- e1 ?= - e2) with (CompOpp (e1 ?= e2)); [by destruct (e1 ?= e2)|].
    destruct (Z.compare_spec e1 e2); cbn; symmetry;
      [apply Z.compare_eq_iff|apply Z.compare_gt_iff|apply Z.compare_lt_iff]; lia.
Qed.

(** [x] is a number. *)
Definition f_number (x : double) : Prop := f_key x <> None.

Lemma key_compare_spec a b :
  match key_compare a b with
  | Lt => a.1.1 < b.1.1 \/ a.1.1 = b.1.1 /\ (a.1.2 < b.1.2 \/ a.1.2 = b.1.2 /\ a.2 < b.2)
  | Eq => a = b
  | Gt => b.1.1 < a.1.1 \/ a.1.1 = b.1.1 /\ (b.1.2 < a.1.2 \/ a.1.2 = b.1.2 /\ b.2 < a.2)
  end.
Proof.
  destruct a as [[a1 a2] a3], b as [[b1 b2] b3]. cbn.
  destruct (Z.compare_spec a1 b1), (Z.compare_spec a2 b2), (Z.compare_spec a3 b3); subst; lia || done.
Qed.

(** What is not above a number is at most what the number is at most. *)
Lemma fle_below n w t : f_number n -> flt w n = false -> fle w t = true -> fle n t = true.
Proof.
  unfold f_number, flt, fle, SFltb, SFleb. rewrite !SFcompare_key.
  destruct (f_key n) as [kn|], (f_key w) as [kw|], (f_key t) as [kt|]; try done. intros _.
  pose proof (key_compare_spec kw kn). pose proof (key_compare_spec kw kt). pose proof (key_compare_spec kn kt).
  destruct (key_compare kw kn), (key_compare kw kt), (key_compare kn kt); subst; try done; lia.
Qed.

Lemma flt_irrefl x : flt x x = false.
Proof.
  unfold flt, SFltb. rewrite SFcompare_key. destruct (f_key x) as [k|]; [|done].
  pose proof (key_compare_spec k k). destruct (key_compare k k); try done; lia.
Qed.

Lemma flt_number x y : flt x y = true -> f_number x.
Proof. unfold flt, SFltb, f_number. rewrite SFcompare_key. by destruct (f_key x). Qed.

Lemma flt_trans x y z : flt x y = true -> flt y z = true -> flt x z = true.
Proof.
  unfold flt, SFltb. rewrite !SFcompare_key.
  destruct (f_key x) as [a|], (f_key y) as [b|], (f_key z) as [c|]; try done.
  pose proof (key_compare_spec a b). pose proof (key_compare_spec b c). pose proof (key_compare_spec a c).
  destruct (key_compare a b), (key_compare b c), (key_compare a c); subst; try done; lia.
Qed.

(** ** Results that are numbers *)

Lemma shr_1_nonneg r : 0 <= shr_m r -> 0 <= shr_m (shr_1 r).
Proof. destruct r as [[|[]|[]] ? ?]; cbn; lia. Qed.

Lemma shr_nonneg r e n : 0 <= shr_m r -> 0 <= shr_m (fst (shr r e n)).
Proof.
  intros Hr. destruct n as [|p|p]; [done| |done]. cbn [shr fst].
  revert r Hr. induction p as [p IH|p IH|]; intros r Hr; cbn [iter_pos];
    [by apply IH, IH, shr_1_nonneg|by apply IH, IH|by apply shr_1_nonneg].
Qed.

Lemma shr_fexp_nonneg m e l : 0 <= m -> 0 <= shr_m (fst (shr_fexp 53 1024 m e l)).
Proof. intros Hm. unfold shr_fexp. apply shr_nonneg. by destruct l as [|[]]. Qed.

Lemma round_number s m e l : 0 <= m -> f_number (binary_round_aux 53 1024 s m e l).
Proof.
  intros Hm. unfold binary_round_aux, f_number.
  pose proof (shr_fexp_nonneg m e l Hm) as H1. destruct (shr_fexp _ _ m e l) as [r1 e1]. cbn [fst] in H1.
  set (m2 := round_nearest_even _ _).
  assert (0 <= m2) as H2 by (unfold m2, round_nearest_even; destruct (loc_of_shr_record r1) as [|[]];
    try destruct (Z.even _); lia).
  pose proof (shr_fexp_nonneg m2 e1 loc_Exact H2) as H3. destruct (shr_fexp _ _ m2 e1 loc_Exact) as [r2 e2].
  cbn [fst] in H3. destruct (shr_m r2); [done| |lia]. by destruct (_ <=? _).
Qed.

Lemma normalize_number m e s : f_number (binary_normalize 53 1024 m e s).
Proof.
  destruct m; [done|unfold binary_normalize, binary_round; destruct (shl_align _ _ _) as [? ?];
    by apply round_number..].
Qed.

(** A difference with a finite number, and a multiple of a number. *)
Lemma fsub_number x s m e : f_number x -> f_number (fsub x (S754_finite s m e)).
Proof. destruct x as [| | |]; try done. intros _. apply normalize_number. Qed.

Lemma fsub_zero_number x s : f_number x -> f_number (fsub x (S754_zero s)).
Proof. destruct x as [[]|[]| |]; try done; by destruct s. Qed.

Lemma fmul_number x s m e : f_number x -> f_number (fmul x (S754_finite s m e)).
Proof. destruct x as [| | |]; try done. intros _. by apply round_number. Qed.

Lemma ceil_number x : f_number x -> f_number (f_ceil x).
Proof.
  destruct x as [| | |s m e]; try done. intros _. cbn [f_ceil]. destruct (0 <=? e); [done|].
  destruct (_ =? 0); [done|apply normalize_number].
Qed.

(** The exponent of a large integer does not shrink. *)
Lemma shr_exp_ge r e n : e <= snd (shr r e n).
Proof. destruct n; cbn; lia. Qed.

Lemma shr_fexp_exp_ge m e l : e <= snd (shr_fexp 53 1024 m e l).
Proof. apply shr_exp_ge. Qed.

Lemma round_exp_ge s m e l s' m' e' :
  binary_round_aux 53 1024 s m e l = S754_finite s' m' e' -> s' = s /\ e <= e'.
Proof.
  unfold binary_round_aux. pose proof (shr_fexp_exp_ge m e l) as H1. destruct (shr_fexp _ _ m e l) as [r1 e1].
  cbn [snd] in H1. set (m2 := round_nearest_even _ _). pose proof (shr_fexp_exp_ge m2 e1 loc_Exact) as H2.
  destruct (shr_fexp _ _ m2 e1 loc_Exact) as [r2 e2]. cbn [snd] in H2.
  destruct (shr_m r2); [done| |done]. destruct (_ <=? _); [|done]. intros [= <- _ <-]. split; [done|lia].
Qed.

Lemma digits2_pos_ge p : (1024 <= p)%positive -> 11 <= Zpos (digits2_pos p).
Proof.
  intros Hp. do 10 (destruct p as [p|p|]; [|try lia..]); cbn [digits2_pos]; lia.
Qed.

(** The sign of a rounded value. *)
Lemma round_sign s m e l : 0 <= m ->
  match binary_round_aux 53 1024 s m e l with
  | S754_zero s' | S754_infinity s' => s' = s
  | S754_finite s' _ e' => s' = s /\ e <= e'
  | S754_nan => False
  end.
Proof.
  intros Hm. pose proof (round_number s m e l Hm) as Hn.
  destruct (binary_round_aux _ _ s m e l) as [| | |s' m' e'] eqn:E;
    [| |by destruct Hn|by eapply round_exp_ge].
  all: revert E; unfold binary_round_aux; destruct (shr_fexp _ _ m e l) as [r1 e1];
    destruct (shr_fexp _ _ _ e1 loc_Exact) as [r2 e2]; destruct (shr_m r2); try done;
    try (by intros [= <-]); destruct (_ <=? _); congruence.
Qed.

Lemma f64_negative v : v < 0 -> flt (f64 v) (f64 1) = true.
Proof.
  destruct v as [|p|p]; try lia. intros _. unfold f64, binary_normalize, binary_round.
  destruct (shl_align _ _ _) as [m e].
  pose proof (round_sign true (Zpos m) e loc_Exact ltac:(lia)) as Hs.
  destruct (binary_round_aux _ _ true _ e loc_Exact) as [s|s| |s m' e']; try done.
  - by rewrite Hs.
  - by destruct Hs as [-> _].
Qed.

Lemma f64_large v : 1024 <= v -> flt (f64 v) (f64 1) = true \/ flt (f64 1000) (f64 v) = true.
Proof.
  intros Hv. destruct v as [|p|p]; try lia. unfold f64 at 1 4, binary_normalize, binary_round.
  pose proof (digits2_pos_ge p ltac:(lia)) as Hd.
  destruct (shl_align p 0 _) as [m e] eqn:Es.
  assert (-42 <= e) as He.
  { revert Es. unfold shl_align, fexp, SpecFloat.emin.
    destruct (_ - 0) as [|q|q] eqn:Eq; intros [= _ <-]; lia. }
  pose proof (round_sign false (Zpos m) e loc_Exact ltac:(lia)) as Hs.
  destruct (binary_round_aux _ _ false _ e loc_Exact) as [s|s| |s m' e']; try done; [by left|by rewrite Hs; right|].
  destruct Hs as [-> He']. right. unfold flt, SFltb. rewrite SFcompare_key.
  change (f_key (f64 1000)) with (Some (1, -43, 8796093022208000)). cbn [f_key key_compare]. rewrite Z.compare_refl.
  assert ((-43 ?= e') = Lt) as -> by (apply Z.compare_lt_iff; lia). done.
Qed.
