(* ===== verification/Paths.v ===== *)
(** * Singly linked lists threaded through memory

    [path nx l] says that following the links [nx] from the first element of
    [l] visits exactly [l] and then ends.  Timers, move nodes and trigger
    signals are all linked this way. *)
From S2P Require Import Prelude.

Section Paths.
Context {A : Type}.
Implicit Types (nx : A -> option A) (l : list A).

Fixpoint path nx l : Prop :=
  match l with
  | [] => True
  | x :: l' => nx x = head l' /\ path nx l'
  end.

(** [seg nx l x]: the links lead through [l] and then to [x]. *)
Fixpoint seg nx l (x : A) : Prop :=
  match l with
  | [] => True
  | y :: l' => nx y = head (l' ++ [x]) /\ seg nx l' x
  end.

Lemma path_app nx l1 x l2 :
  path nx (l1 ++ x :: l2) <-> seg nx l1 x /\ path nx (x :: l2).
Proof.
  induction l1 as [|y l1 IH]; simpl; [tauto|].
  assert (head (l1 ++ x :: l2) = head (l1 ++ [x])) as -> by by destruct l1.
  rewrite IH. simpl. tauto.
Qed.

Lemma path_ext nx nx' l :
  (forall x, x ∈ l -> nx' x = nx x) -> path nx l -> path nx' l.
Proof.
  induction l as [|y l IH]; simpl; [done|]. intros Hx [Hy Hl]. split.
  - rewrite Hx; [done|left].
  - apply IH; [|done]. intros. apply Hx. by right.
Qed.

Lemma seg_ext nx nx' l x :
  (forall y, y ∈ l -> nx' y = nx y) -> seg nx l x -> seg nx' l x.
Proof.
  induction l as [|y l IH]; simpl; [done|]. intros Hx [Hy Hl]. split.
  - rewrite Hx; [done|left].
  - apply IH; [|done]. intros. apply Hx. by right.
Qed.

(** Linking a new element [t] between [p] and [q]. *)
Lemma path_link nx nx' l1 p q l2 t :
  path nx (l1 ++ p :: q :: l2) -> NoDup (l1 ++ p :: q :: l2) ->
  t ∉ l1 ++ p :: q :: l2 ->
  nx' p = Some t -> nx' t = Some q ->
  (forall x, x <> p -> x <> t -> nx' x = nx x) ->
  path nx' (l1 ++ p :: t :: q :: l2).
Proof.
  intros Hp Hnd Ht Hpt Htq Hext.
  apply NoDup_app in Hnd as (_ & Hd & Hnd). apply NoDup_cons in Hnd as [Hpl Hnd].
  apply path_app in Hp as [Hs [_ Hq]]. apply path_app. split.
  - eapply seg_ext, Hs. intros y Hy. apply Hext.
    + intros ->. apply (Hd p); [done|left].
    + intros ->. apply Ht, elem_of_app. by left.
  - split; [done|]. split; [done|]. eapply path_ext, Hq. intros x Hx. apply Hext.
    + by intros ->.
    + intros ->. apply Ht, elem_of_app. right. by right.
Qed.

(** Unlinking the element [d] that follows [p]. *)
Lemma path_unlink nx nx' l1 p d l2 :
  path nx (l1 ++ p :: d :: l2) -> NoDup (l1 ++ p :: d :: l2) ->
  nx' p = nx d -> (forall x, x <> p -> nx' x = nx x) ->
  path nx' (l1 ++ p :: l2).
Proof.
  intros Hp Hnd Hpd Hext.
  apply NoDup_app in Hnd as (_ & Hd & Hnd). apply NoDup_cons in Hnd as [Hpl Hnd].
  apply path_app in Hp as [Hs [_ [Hnd' Hl2]]]. apply path_app. split.
  - eapply seg_ext, Hs. intros y Hy. apply Hext. intros ->. apply (Hd p); [done|left].
  - split; [congruence|]. eapply path_ext, Hl2. intros x Hx. apply Hext.
    intros ->. apply Hpl. by right.
Qed.

(** A path without repetition is no longer than the number of elements with
    a successor, plus one. *)
Lemma path_length `{Countable A} {B} (m : gmap A B) nx l :
  path nx l -> NoDup l -> (forall x, nx x <> None -> is_Some (m !! x)) ->
  (length l <= S (size m))%nat.
Proof.
  intros Hp Hnd Hm. destruct l as [|x l _] using rev_ind; [simpl; lia|].
  rewrite length_app. simpl. apply path_app in Hp as [Hs _].
  apply NoDup_app in Hnd as (Hnd & _ & _).
  assert (forall y, y ∈ l -> y ∈ dom m) as Hin.
  { clear Hnd. induction l as [|y l IH]; [intros ? []%elem_of_nil|].
    destruct Hs as [Hy Hs]. intros z [->|Hz]%elem_of_cons; [|auto].
    apply elem_of_dom, Hm. rewrite Hy. by destruct l. }
  assert (length l <= size (dom m))%nat; [|rewrite size_dom in *; lia].
  rewrite <- (size_list_to_set (C := gset A)) by done.
  apply subseteq_size. intros y Hy%elem_of_list_to_set. auto.
Qed.
End Paths.

Create HintDb paths.
#[export] Hint Resolve path_ext seg_ext : paths.
