(* ===== verification/Buffers.v ===== *)
(** * Byte buffers with a front that is consumed and an end that grows

    [memmove] and [memcpy] on byte arrays, and the two disciplines the
    consoles of the firmware use: a receive buffer whose first bytes are moved
    away while an interrupt appends behind them, and a transmit buffer of
    which a window is waiting to be sent. *)
From S2P Require Import Prelude.

(** A copy of [data] to [&buf[dst]] and [memmove(&buf[dst], &buf[src], n)]. *)
Definition copy_to (dst : nat) (data buf : list Z) : list Z :=
  take dst buf ++ data ++ drop (dst + length data) buf.
Definition memmove (dst src n : nat) (buf : list Z) : list Z :=
  copy_to dst (take n (drop src buf)) buf.

Lemma length_copy_to dst data buf :
  (dst + length data <= length buf)%nat -> length (copy_to dst data buf) = length buf.
Proof. intros. unfold copy_to. rewrite !length_app, length_take, length_drop. lia. Qed.

Lemma length_memmove dst src n buf :
  (dst + n <= length buf)%nat -> length (memmove dst src n buf) = length buf.
Proof. intros. apply length_copy_to. rewrite length_take, length_drop. lia. Qed.

Lemma take_copy_to_front i dst data buf :
  (i <= dst)%nat -> (dst <= length buf)%nat -> take i (copy_to dst data buf) = take i buf.
Proof.
  intros. unfold copy_to. rewrite take_app_le by (rewrite length_take; lia).
  rewrite take_take. f_equal. lia.
Qed.

Lemma take_copy_to dst data buf :
  (dst <= length buf)%nat ->
  take (dst + length data) (copy_to dst data buf) = take dst buf ++ data.
Proof.
  intros. unfold copy_to. rewrite take_app_ge by (rewrite length_take; lia). f_equal.
  rewrite length_take. replace (_ - _)%nat with (length data) by lia. apply take_app_length.
Qed.

Lemma drop_copy_to i dst data buf :
  (dst + length data <= i)%nat -> (dst <= length buf)%nat ->
  drop i (copy_to dst data buf) = drop i buf.
Proof.
  intros. unfold copy_to. rewrite app_assoc, drop_app_ge by (rewrite length_app, length_take; lia).
  rewrite drop_drop, length_app, length_take. f_equal. lia.
Qed.

Lemma insert_copy_to i (x : Z) buf : (i < length buf)%nat -> <[i:=x]> buf = copy_to i [x] buf.
Proof. intros. unfold copy_to. cbn [length app]. rewrite insert_take_drop, Nat.add_1_r by done. done. Qed.

(** ** Taking bytes from the front while more arrive at the end *)

(** [P] is the content the buffer would have if nothing were moved, [len] of
    its bytes are to be removed, and [copied] bytes are already in their final
    place. *)
Record popping (len copied : nat) (P buf : list Z) : Prop := {
  pop_bound : (copied + len <= length P <= length buf)%nat;
  pop_moved : take copied buf = take copied (drop len P);
  pop_rest : drop (copied + len) (take (length P) buf) = drop (copied + len) P
}.

Lemma popping_start len P buf :
  take (length P) buf = P -> (len <= length P <= length buf)%nat -> popping len 0 P buf.
Proof. intros E Hl. constructor; [lia|done|]. by rewrite E. Qed.

(** Moving up to the [n]-th byte; bytes that arrived later may be missing. *)
Lemma popping_copy len c n P buf :
  popping len c P buf -> (c <= n)%nat -> (n + len <= length P)%nat ->
  popping len n P (memmove c (c + len) (n - c) buf).
Proof.
  intros [Hb Hm Hr] Hc Hn.
  assert (take (n - c) (drop (c + len) buf) = take (n - c) (drop (c + len) P)) as E.
  { rewrite <- Hr, skipn_firstn_comm, take_take. f_equal. lia. }
  assert (length (take (n - c) (drop (c + len) P)) = n - c)%nat as El
    by (rewrite length_take, length_drop; lia).
  unfold memmove. rewrite E. constructor.
  - rewrite length_copy_to; lia.
  - replace n with (c + length (take (n - c) (drop (c + len) P)))%nat at 1 by lia.
    rewrite take_copy_to by lia. rewrite Hm.
    rewrite <- (take_drop c (take n (drop len P))), take_take, skipn_firstn_comm, drop_drop.
    f_equal; f_equal; [lia|]. f_equal. lia.
  - rewrite skipn_firstn_comm, drop_copy_to by lia. rewrite <- skipn_firstn_comm.
    replace (n + len)%nat with ((c + len) + (n - c))%nat by lia.
    by rewrite <- !(drop_drop _ (n - c) (c + len)), Hr.
Qed.

Lemma popping_arrive len c P data buf :
  popping len c P buf -> (length P + length data <= length buf)%nat ->
  popping len c (P ++ data) (copy_to (length P) data buf).
Proof.
  intros [Hb Hm Hr] Hl. constructor.
  - rewrite length_app, length_copy_to; lia.
  - rewrite take_copy_to_front by lia. rewrite Hm, drop_app_le by lia.
    rewrite take_app_le; [done|]. rewrite length_drop. lia.
  - rewrite length_app, take_copy_to by lia. rewrite !drop_app_le; [by rewrite Hr|lia|].
    rewrite length_take. lia.
Qed.

Lemma popping_done len P buf :
  popping len (length P - len) P buf -> take (length P - len) buf = drop len P.
Proof. intros [_ -> _]. apply take_ge. rewrite length_drop. lia. Qed.

(** ** The bytes waiting to be sent *)

Definition window (a b : Z) (buf : list Z) : list Z :=
  take (Z.to_nat (b - a)) (drop (Z.to_nat a) buf).

Lemma length_window a b buf :
  0 <= a <= b -> b <= Z.of_nat (length buf) -> Z.of_nat (length (window a b buf)) = b - a.
Proof. intros. unfold window. rewrite length_take, length_drop. lia. Qed.

Lemma window_empty a b buf : b <= a -> window a b buf = [].
Proof. intros. unfold window. by replace (Z.to_nat (b - a)) with 0%nat by lia. Qed.

Lemma window_app a b c buf :
  0 <= a <= b -> b <= c -> window a c buf = window a b buf ++ window b c buf.
Proof.
  intros. unfold window. rewrite <- (take_drop (Z.to_nat (b - a)) (take _ _)).
  rewrite take_take, skipn_firstn_comm, drop_drop. f_equal; f_equal; try lia. f_equal. lia.
Qed.

Lemma window_copy_end a b data buf :
  0 <= a <= b -> b + Z.of_nat (length data) <= Z.of_nat (length buf) ->
  window a (b + Z.of_nat (length data)) (copy_to (Z.to_nat b) data buf) = window a b buf ++ data.
Proof.
  intros. rewrite (window_app a b) by lia. f_equal.
  - unfold window. rewrite !take_drop_commute.
    replace (Z.to_nat a + Z.to_nat (b - a))%nat with (Z.to_nat b) by lia.
    by rewrite take_copy_to_front by lia.
  - unfold window. rewrite take_drop_commute.
    replace (Z.to_nat b + _)%nat with (Z.to_nat b + length data)%nat by lia.
    rewrite take_copy_to by lia. rewrite drop_app_ge; rewrite length_take; [|lia].
    replace (_ - _)%nat with 0%nat by lia. done.
Qed.

Lemma window_memmove a b buf :
  0 <= a <= b -> b <= Z.of_nat (length buf) ->
  window 0 (b - a) (memmove 0 (Z.to_nat a) (Z.to_nat (b - a)) buf) = window a b buf.
Proof.
  intros. unfold memmove. change (take _ (drop _ buf)) with (window a b buf).
  pose proof (length_window a b buf ltac:(lia) ltac:(lia)) as El.
  rewrite <- (Z.add_0_l (b - a)), <- El. change (copy_to 0) with (copy_to (Z.to_nat 0)).
  rewrite window_copy_end by lia. by rewrite window_empty by lia.
Qed.

(** A message stored in an empty buffer, and behind a window that was moved to
    the front. *)
Lemma window_fresh data buf :
  Z.of_nat (length data) <= Z.of_nat (length buf) ->
  window 0 (Z.of_nat (length data)) (copy_to 0 data buf) = data.
Proof.
  intros. rewrite <- (Z.add_0_l (Z.of_nat _)). change (copy_to 0) with (copy_to (Z.to_nat 0)).
  rewrite window_copy_end by lia. by rewrite window_empty by lia.
Qed.

Lemma window_moved a b data buf :
  0 <= a <= b -> b - a + Z.of_nat (length data) <= Z.of_nat (length buf) ->
  b <= Z.of_nat (length buf) ->
  window 0 (b - a + Z.of_nat (length data))
    (copy_to (Z.to_nat (b - a)) data (memmove 0 (Z.to_nat a) (Z.to_nat (b - a)) buf))
  = window a b buf ++ data.
Proof.
  intros. rewrite window_copy_end; [|lia|rewrite length_memmove; lia].
  by rewrite window_memmove by lia.
Qed.
