(* ===== verification/Protocol.v ===== *)
(** * Wire format: src/src/command.c, src/src/generic/crc16_ccitt.c

    The variable length integers, message ids, parameters, frames and the
    checksum of the protocol between the host and the micro-controller.
    Bytes are [Z] values below 256.  A [uint8_t *] into a buffer is the list of
    the bytes from that address to the end of the buffer, so that reading is
    taking the head and [p < q] is [length q < length p]; reading past the end
    of the buffer gives [None]. *)
From S2P Require Import Prelude.

(** ** Constants (command.h) *)

Definition MESSAGE_MIN : Z := 5.
Definition MESSAGE_MAX : Z := 64.
Definition MESSAGE_HEADER_SIZE : Z := 2.
Definition MESSAGE_TRAILER_SIZE : Z := 3.
Definition MESSAGE_POS_LEN : Z := 0.
Definition MESSAGE_POS_SEQ : Z := 1.
Definition MESSAGE_TRAILER_CRC : Z := 3.
Definition MESSAGE_TRAILER_SYNC : Z := 1.
Definition MESSAGE_PAYLOAD_MAX : Z := MESSAGE_MAX - MESSAGE_MIN.
Definition MESSAGE_SEQ_MASK : Z := 0x0f.
Definition MESSAGE_DEST : Z := 0x10.
Definition MESSAGE_SYNC : Z := 0x7E.

(** [buf[i]] *)
Definition byte_at (buf : list Z) (i : Z) : Z := nth (Z.to_nat i) buf 0.

(** ** Checksum (generic/crc16_ccitt.c) *)

Definition crc16_step (crc byte : Z) : Z :=
  let data := Z.lxor byte (Z.land crc 0xff) in
  let data := Z.lxor data (u8 (Z.shiftl data 4)) in
  u16 (Z.lxor (Z.lxor (Z.lor (Z.shiftl data 8) (Z.shiftr crc 8)) (u8 (Z.shiftr data 4)))
         (Z.shiftl data 3)).

Definition crc16_ccitt (buf : list Z) : Z := foldl crc16_step 0xffff buf.

(** ** Variable length quantities *)

(** [encode_int]: the bytes written at [p]. *)
Definition encode_int (v : Z) : list Z :=
  let sv := s32 v in
  let f4 := [Z.land v 0x7f] in
  let f3 := Z.lor (Z.land (Z.shiftr v 7) 0x7f) 0x80 :: f4 in
  let f2 := Z.lor (Z.land (Z.shiftr v 14) 0x7f) 0x80 :: f3 in
  let f1 := Z.lor (Z.land (Z.shiftr v 21) 0x7f) 0x80 :: f2 in
  if (sv <? Z.shiftl 3 5) && (- Z.shiftl 1 5 <=? sv) then f4
  else if (sv <? Z.shiftl 3 12) && (- Z.shiftl 1 12 <=? sv) then f3
  else if (sv <? Z.shiftl 3 19) && (- Z.shiftl 1 19 <=? sv) then f2
  else if (sv <? Z.shiftl 3 26) && (- Z.shiftl 1 26 <=? sv) then f1
  else u8 (Z.lor (Z.shiftr v 28) 0x80) :: f1.

(** The [while (c & 0x80)] loop of [parse_int]. *)
Fixpoint parse_more (c v : Z) (p : list Z) : option (Z * list Z) :=
  if flag c 0x80 then
    match p with
    | [] => None
    | c :: p => parse_more c (u32 (Z.lor (Z.shiftl v 7) (Z.land c 0x7f))) p
    end
  else Some (v, p).

(** [parse_int]: the value and the advanced pointer. *)
Definition parse_int (p : list Z) : option (Z * list Z) :=
  match p with
  | [] => None
  | c :: p =>
      let v := Z.land c 0x7f in
      let v := if Z.land c 0x60 =? 0x60 then u32 (Z.lor v (-0x20)) else v in
      parse_more c v p
  end.

(** ** Message ids *)

Definition encode_msgid (encoded_msgid : Z) : list Z :=
  if 0x80 <=? encoded_msgid
  then [u8 (Z.lor (Z.shiftr encoded_msgid 7) 0x80); Z.land encoded_msgid 0x7f]
  else [Z.land encoded_msgid 0x7f].

Definition command_parse_msgid (p : list Z) : option (Z * list Z) :=
  match p with
  | [] => None
  | c :: p =>
      if flag c 0x80 then
        match p with
        | [] => None
        | c' :: p => Some (Z.lor (Z.shiftl (Z.land c 0x7f) 7) c', p)
        end
      else Some (c, p)
  end.

(** ** Parameters *)

Inductive param_type : Set :=
| PT_uint32 | PT_int32 | PT_uint16 | PT_int16 | PT_byte
| PT_string | PT_progmem_buffer | PT_buffer.

(** [struct command_encoder] *)
Record command_encoder : Set := mkEncoder {
  ce_encoded_msgid : Z; ce_max_size : Z; ce_param_types : list param_type }.

(** Outcome of a routine that may call [shutdown]: [PErr] carries the reason,
    [POver] is a read past the end of the buffer. *)
Inductive presult (A : Type) : Type := POk (a : A) | PErr (reason : string) | POver.
Arguments POk {A} _.
Arguments PErr {A} _.
Arguments POver {A}.

(** A pointer into the receive buffer as an argument, and back: its offset. *)
Definition command_encode_ptr (buf p : list Z) : Z :=
  Z.of_nat (length buf) - Z.of_nat (length p).
Definition command_decode_ptr (buf : list Z) (v : Z) : list Z := drop (Z.to_nat v) buf.

(** [command_parsef]: [maxend] and [buf] are pointers into the same buffer as
    [p]; a [PT_buffer] argument yields its length and its offset in [buf].
    The result is the advanced pointer and the [args] array. *)
Fixpoint command_parsef (buf p maxend : list Z) (pts : list param_type)
    : presult (list Z * list Z) :=
  match pts with
  | [] => POk (p, [])
  | t :: pts =>
      if (length p <? length maxend)%nat then PErr "Command parser error" else
      match t with
      | PT_uint32 | PT_int32 | PT_uint16 | PT_int16 | PT_byte =>
          match parse_int p with
          | None => POver
          | Some (v, p) =>
              match command_parsef buf p maxend pts with
              | POk (p, args) => POk (p, v :: args)
              | e => e
              end
          end
      | PT_buffer =>
          match p with
          | [] => POver
          | len :: p =>
              if Z.of_nat (length p) - len <? Z.of_nat (length maxend)
              then PErr "Command parser error"
              else
                match command_parsef buf (drop (Z.to_nat len) p) maxend pts with
                | POk (p', args) =>
                    POk (p', len :: command_encode_ptr buf p :: args)
                | e => e
                end
          end
      | PT_string | PT_progmem_buffer => PErr "Command parser error"
      end
  end.

(** A C argument of a message: an integer, a NUL terminated string, or a
    buffer with its length. *)
Inductive va_arg : Set := VInt (v : Z) | VStr (s : list Z) | VBuf (len : Z) (s : list Z).

(** The parameter loop of [command_encodef].  [out] holds the bytes already
    written after the header and [maxend] is [max_size - MESSAGE_MIN], the
    payload position of the C pointer of that name. *)
Fixpoint encode_params (maxend : Z) (pts : list param_type) (args : list va_arg)
    (out : list Z) : presult (list Z) :=
  match pts with
  | [] => POk out
  | t :: pts =>
      let p := Z.of_nat (length out) in
      if maxend <? p then PErr "Message encode error" else
      match t, args with
      | (PT_uint32 | PT_int32 | PT_uint16 | PT_int16 | PT_byte), VInt v :: args =>
          encode_params maxend pts args (out ++ encode_int (u32 v))
      | PT_string, VStr s :: args =>
          let s := take (Z.to_nat (maxend - (p + 1))) s in
          encode_params maxend pts args (out ++ Z.of_nat (length s) :: s)
      | (PT_progmem_buffer | PT_buffer), VBuf len s :: args =>
          let v := if maxend - p <? u32 len then maxend - p else u32 len in
          encode_params maxend pts args (out ++ u8 v :: take (Z.to_nat v) s)
      | _, _ => POver
      end
  end.

(** [command_encodef]: the payload after the header; the C function returns
    the length of the whole message. *)
Definition command_encodef (ce : command_encoder) (args : list va_arg) : presult (list Z) :=
  if ce_max_size ce <=? MESSAGE_MIN then POk []
  else encode_params (ce_max_size ce - MESSAGE_MIN) (ce_param_types ce) args
         (encode_msgid (ce_encoded_msgid ce)).

(** ** Frames *)

(** [command_add_frame] around a payload, with the sender's sequence byte. *)
Definition command_add_frame (seq : Z) (payload : list Z) : list Z :=
  let msglen := MESSAGE_HEADER_SIZE + Z.of_nat (length payload) + MESSAGE_TRAILER_SIZE in
  let body := u8 msglen :: seq :: payload in
  let crc := crc16_ccitt body in
  body ++ [u8 (Z.shiftr crc 8); u8 crc; MESSAGE_SYNC].

Definition command_encode_and_frame (seq : Z) (ce : command_encoder) (args : list va_arg)
    : presult (list Z) :=
  match command_encodef ce args with
  | POk payload => POk (command_add_frame seq payload)
  | PErr r => PErr r
  | POver => POver
  end.
