(* ===== verification/ProtocolFacts.v ===== *)
(** * Properties of the wire format *)
From S2P Require Import Prelude Protocol.

(** ** Bytes *)

Definition bytes (l : list Z) : Prop := Forall (fun b => 0 <= b < 256) l.

(** [all_below n f] checks [f] on every integer from 0 to [n - 1]. *)
Definition all_below (n : nat) (f : Z -> bool) : bool := forallb f (Z.of_nat <$> seq 0 n).

Lemma all_below_spec n f :
  all_below n f = true -> forall x, 0 <= x < Z.of_nat n -> f x = true.
Proof.
  intros Hf x Hx. unfold all_below in Hf. rewrite forallb_forall in Hf. apply Hf.
  apply list_elem_of_In, list_elem_of_fmap. exists (Z.to_nat x). split; [lia|].
  apply elem_of_seq. lia.
Qed.

(** Bits of disjoint ranges add up. *)
Lemma lor_shiftl_add a n c : 0 <= n -> 0 <= c < 2 ^ n -> Z.lor (Z.shiftl a n) c = a * 2 ^ n + c.
Proof.
  intros Hn Hc. rewrite <- Z.shiftl_mul_pow2 by done. symmetry. apply Z.add_nocarry_lor.
  apply Z.bits_inj'. intros i Hi. rewrite Z.land_spec, Z.bits_0.
  destruct (Z.ltb_spec i n); [by rewrite Z.shiftl_spec_low|].
  rewrite (proj1 (Z.bounded_iff_bits_nonneg n c Hn ltac:(lia)) ltac:(lia) i) by lia.
  apply andb_false_r.
Qed.

Lemma land_127 x : Z.land x 0x7f = x mod 128.
Proof. change 0x7f with (Z.ones 7). by rewrite Z.land_ones. Qed.

(** ** Variable length quantities *)

(** The value denoted by a first byte with the seven bits [d]. *)
Definition sx (d : Z) : Z := if 96 <=? d then d - 128 else d.

Lemma vlq_digit d :
  0 <= d < 128 ->
  flag (Z.lor d 0x80) 0x80 = true /\ flag d 0x80 = false /\
  Z.land (Z.lor d 0x80) 0x7f = d /\ Z.land d 0x7f = d /\
  (if Z.land (Z.lor d 0x80) 0x60 =? 0x60 then u32 (Z.lor d (-0x20)) else d) = u32 (sx d) /\
  (if Z.land d 0x60 =? 0x60 then u32 (Z.lor d (-0x20)) else d) = u32 (sx d) /\
  u8 (Z.lor d 0x80) = Z.lor d 0x80.
Proof.
  intros Hd. pose (chk := fun d =>
    flag (Z.lor d 0x80) 0x80 && negb (flag d 0x80) &&
    (Z.land (Z.lor d 0x80) 0x7f =? d) && (Z.land d 0x7f =? d) &&
    ((if Z.land (Z.lor d 0x80) 0x60 =? 0x60 then u32 (Z.lor d (-0x20)) else d) =? u32 (sx d)) &&
    ((if Z.land d 0x60 =? 0x60 then u32 (Z.lor d (-0x20)) else d) =? u32 (sx d)) &&
    (u8 (Z.lor d 0x80) =? Z.lor d 0x80)).
  assert (chk d = true) as Hc.
  { apply (all_below_spec 128); [by vm_compute|exact Hd]. }
  unfold chk in Hc. rewrite !andb_true_iff, !Z.eqb_eq, negb_true_iff in Hc. tauto.
Qed.

Lemma parse_int_last d p : 0 <= d < 128 -> parse_int (d :: p) = Some (u32 (sx d), p).
Proof.
  intros Hd. destruct (vlq_digit d Hd) as (H1 & H2 & H3 & H4 & H5 & H6 & _).
  simpl. rewrite H4, H6. destruct p; simpl; by rewrite H2.
Qed.

Lemma parse_int_first d p :
  0 <= d < 128 -> parse_int (Z.lor d 0x80 :: p) = parse_more (Z.lor d 0x80) (u32 (sx d)) p.
Proof.
  intros Hd. destruct (vlq_digit d Hd) as (H1 & H2 & H3 & H4 & H5 & H6 & _).
  simpl. by rewrite H3, H5.
Qed.

Lemma u32_lor_digit v d : 0 <= d < 128 -> u32 (Z.lor (Z.shiftl v 7) d) = u32 (v * 128 + d).
Proof. intros. by rewrite lor_shiftl_add by lia. Qed.

Lemma parse_more_next c v d p :
  0 <= c < 128 -> 0 <= d < 128 ->
  parse_more (Z.lor c 0x80) v (Z.lor d 0x80 :: p) =
  parse_more (Z.lor d 0x80) (u32 (v * 128 + d)) p.
Proof.
  intros Hc Hd. destruct (vlq_digit c Hc) as (H1 & _).
  destruct (vlq_digit d Hd) as (_ & _ & H3 & _).
  cbn [parse_more]. by rewrite H1, H3, u32_lor_digit.
Qed.

Lemma parse_more_last c v d p :
  0 <= c < 128 -> 0 <= d < 128 ->
  parse_more (Z.lor c 0x80) v (d :: p) = Some (u32 (v * 128 + d), p).
Proof.
  intros Hc Hd. destruct (vlq_digit c Hc) as (H1 & _).
  destruct (vlq_digit d Hd) as (_ & H2 & _ & H4 & _).
  cbn [parse_more]. rewrite H1, H4, u32_lor_digit by done. destruct p; simpl; by rewrite H2.
Qed.

Ltac vlq_solve :=
  repeat match goal with
  | H : _ && _ = true |- _ => apply andb_true_iff in H as [?%Z.ltb_lt ?%Z.leb_le]
  end;
  repeat match goal with x := _ |- _ => subst x end;
  unfold sx; case_match; word_lia.

Lemma encode_parse_int v p :
  0 <= v < 2 ^ 32 -> parse_int (encode_int v ++ p) = Some (v, p).
Proof.
  intros Hv. unfold encode_int. rewrite !land_127, !Z.shiftr_div_pow2 by lia.
  change (Z.shiftl 3 5) with 96. change (Z.shiftl 1 5) with 32.
  change (Z.shiftl 3 12) with 12288. change (Z.shiftl 1 12) with 4096.
  change (Z.shiftl 3 19) with 1572864. change (Z.shiftl 1 19) with 524288.
  change (Z.shiftl 3 26) with 201326592. change (Z.shiftl 1 26) with 67108864.
  set (d0 := v mod 128). set (d1 := (v / 2 ^ 7) mod 128). set (d2 := (v / 2 ^ 14) mod 128).
  set (d3 := (v / 2 ^ 21) mod 128).
  assert (0 <= d0 < 128) by (subst d0; word_lia).
  assert (0 <= d1 < 128) by (subst d1; word_lia).
  assert (0 <= d2 < 128) by (subst d2; word_lia).
  assert (0 <= d3 < 128) by (subst d3; word_lia).
  assert (0 <= v / 2 ^ 28 < 128) by word_lia.
  destruct (vlq_digit (v / 2 ^ 28)) as (_ & _ & _ & _ & _ & _ & E8); [done|]. rewrite E8.
  repeat case_match; cbn [app].
  - rewrite parse_int_last by done. do 2 f_equal. vlq_solve.
  - rewrite parse_int_first, parse_more_last by done. do 2 f_equal. vlq_solve.
  - rewrite parse_int_first, parse_more_next, parse_more_last by done. do 2 f_equal. vlq_solve.
  - rewrite parse_int_first, !parse_more_next, parse_more_last by done. do 2 f_equal. vlq_solve.
  - rewrite parse_int_first, !parse_more_next, parse_more_last by done. do 2 f_equal. vlq_solve.
Qed.
