(* ===== verification/Msgblock.v ===== *)
(** * Host side message blocks: src/klippy/chelper/msgblock.c

    The host's copy of the checksum, the integer encoding, the frame check
    and the message buffers it queues. *)
From S2P Require Import Prelude Double Protocol.

Module Msgblock.

Fixpoint crc_loop (crc : Z) (buf : list Z) : Z :=
  match buf with
  | [] => crc
  | data :: buf =>
      let data := Z.lxor data (Z.land crc 0xff) in
      let data := Z.lxor data (u8 (Z.shiftl data 4)) in
      crc_loop
        (u16 (Z.lxor (Z.lxor (Z.lor (Z.shiftl data 8) (Z.shiftr crc 8)) (u8 (Z.shiftr data 4)))
                (Z.shiftl data 3))) buf
  end.

Definition msgblock_crc16_ccitt (buf : list Z) : Z := crc_loop 0xffff buf.

(** [memchr(buf, MESSAGE_SYNC, len)] as an offset. *)
Fixpoint find_sync (buf : list Z) : option Z :=
  match buf with
  | [] => None
  | c :: buf => if c =? MESSAGE_SYNC then Some 0 else Z.succ <$> find_sync buf
  end.

(** The [error:] label: discard bytes up to the next sync byte. *)
Definition check_error (buf : list Z) : bool * Z :=
  match find_sync buf with
  | Some i => (false, - (i + 1))
  | None => (true, - Z.of_nat (length buf))
  end.

(** [msgblock_check]: the new [need_sync] flag and the return value: 0 if more
    data is needed, the length of a valid block, or minus the number of bytes
    to discard. *)
Definition msgblock_check (need_sync : bool) (buf : list Z) : bool * Z :=
  let buf_len := Z.of_nat (length buf) in
  if buf_len <? MESSAGE_MIN then (need_sync, 0)
  else if need_sync then check_error buf
  else
    let msglen := byte_at buf MESSAGE_POS_LEN in
    if (msglen <? MESSAGE_MIN) || (MESSAGE_MAX <? msglen) then check_error buf
    else
      let msgseq := byte_at buf MESSAGE_POS_SEQ in
      if negb (Z.land msgseq (Z.lnot MESSAGE_SEQ_MASK) =? MESSAGE_DEST) then check_error buf
      else if buf_len <? msglen then (need_sync, 0)
      else if negb (byte_at buf (msglen - MESSAGE_TRAILER_SYNC) =? MESSAGE_SYNC)
      then check_error buf
      else
        let msgcrc := u16 (Z.lor (Z.shiftl (byte_at buf (msglen - MESSAGE_TRAILER_CRC)) 8)
                             (byte_at buf (msglen - MESSAGE_TRAILER_CRC + 1))) in
        let crc := msgblock_crc16_ccitt (take (Z.to_nat (msglen - MESSAGE_TRAILER_SIZE)) buf) in
        if negb (crc =? msgcrc) then check_error buf
        else (need_sync, msglen).

(** The parse loop of [msgblock_decode]; [endp] points behind the payload. *)
Fixpoint decode_loop (data_len : nat) (p endp : list Z) : option (list Z) :=
  match data_len with
  | O => if (length p =? length endp)%nat then Some [] else None
  | S n =>
      if (length p <=? length endp)%nat then None
      else
        match parse_int p with
        | None => None
        | Some (v, p) => cons v <$> decode_loop n p endp
        end
  end.

(** [msgblock_decode]: the decoded integers, or [None] for the return value -1. *)
Definition msgblock_decode (data_len : nat) (msg : list Z) : option (list Z) :=
  decode_loop data_len (drop 2 msg) (drop (length msg - 3) msg).

(** [struct queue_message], the fields used when it is on a command queue. *)
Record queue_message : Set := mkQM {
  qm_msg : list Z; qm_min_clock : Z; qm_req_clock : Z; qm_notify_id : Z }.

Definition message_alloc : queue_message := mkQM [] 0 0 0.

Definition message_fill (data : list Z) : queue_message := mkQM data 0 0 0.

(** The encoding loop of [message_alloc_and_encode]. *)
Fixpoint encode_loop (data : list Z) (out : list Z) : option (list Z) :=
  match data with
  | [] => Some out
  | v :: data =>
      let out := out ++ encode_int v in
      if MESSAGE_PAYLOAD_MAX <? Z.of_nat (length out) then None else encode_loop data out
  end.

(** A message whose encoding does not fit is left empty. *)
Definition message_alloc_and_encode (data : list Z) : queue_message :=
  match encode_loop data [] with
  | Some out => mkQM out 0 0 0
  | None => message_alloc
  end.

(** *** Clock estimation *)

(** [struct clock_estimate] *)
Record clock_estimate : Set := mkCE {
  ce_last_clock : Z; ce_conv_clock : Z; ce_conv_time : double; ce_est_freq : double }.

Definition clock_from_clock32 (ce : clock_estimate) (clock32 : Z) : Z :=
  u64 (ce_last_clock ce + s32 (clock32 - ce_last_clock ce)).

Definition clock_to_time (ce : clock_estimate) (clock : Z) : double :=
  fadd (ce_conv_time ce) (fdiv (f64 (s64 (clock - ce_conv_clock ce))) (ce_est_freq ce)).

(** [None]: the time is too far away for the conversion to [int64_t]. *)
Definition clock_from_time (ce : clock_estimate) (time : double) : option Z :=
  delta ← f_to_s64 (fadd (fmul (fsub time (ce_conv_time ce)) (ce_est_freq ce)) f_half);
  Some (u64 (delta + ce_conv_clock ce)).

Definition clock_fill (est_freq conv_time : double) (conv_clock last_clock : Z)
    : clock_estimate :=
  mkCE last_clock conv_clock conv_time est_freq.
End Msgblock.
