(* ===== verification/Serialqueue.v ===== *)
(** * The host's serial queue: src/klippy/chelper/serialqueue.c, pollreactor.c

    Queues commands until their release time, packs them into numbered blocks,
    sends at most [MAX_PENDING_BLOCKS] blocks ahead of the acknowledgements,
    retransmits, and hands received messages to the reader.

    Every handler runs with the locks it takes held, so it is one atomic step
    on the state.  The operating system is a parameter ([Host]): the clock
    readings and which writes of a CAN frame succeed.  What a handler does to
    the outside is appended to [sq_io].  Byte counters of type [int] are
    integers; a [double] that does not fit the integer it is converted to has
    undefined behaviour and makes the handler's result [None]. *)
From S2P Require Import Prelude Double Protocol Msgblock.
Import Msgblock.

(** ** Data *)

Definition MAX_CLOCK : Z := 0x7fffffffffffffff.
Definition BACKGROUND_PRIORITY_CLOCK : Z := 0x7fffffff00000000.
Definition PR_NOW : double := f64 0.
Definition PR_NEVER : double := f64 9999999999999999.
Definition MIN_RTO : double := f_lit 25 1000.
Definition MAX_RTO : double := f64 5.
Definition MAX_PENDING_BLOCKS : Z := 12.
Definition MIN_REQTIME_DELTA : double := f_lit 100 1000.
Definition MIN_BACKGROUND_DELTA : double := f_lit 5 1000.
Definition DEBUG_QUEUE_SENT : nat := 100.
Definition DEBUG_QUEUE_RECEIVE : nat := 100.
Definition CANBUS_PACKET_BITS : Z := (1 + 11 + 3 + 4) + (16 + 2 + 7 + 3).
Definition CANBUS_IFS_BITS : Z := 4.

(** [serial_fd_type] *)
Inductive fd_type : Set := SQT_UART | SQT_CAN | SQT_DEBUGFILE.

(** A [struct queue_message] on a sent or receive queue. *)
Record stamped_message : Set := mkStamped {
  sm_msg : list Z; sm_sent_time : double; sm_receive_time : double; sm_notify_id : Z }.

(** [struct command_queue]; a pointer to one is its number. *)
Record command_queue : Set := mkCQ {
  cq_ready : list queue_message; cq_upcoming : list queue_message }.
#[export] Instance eta_command_queue : Eta command_queue :=
  fun r => mkCQ (cq_ready r) (cq_upcoming r).

(** [struct fastreader]; [fr_func] identifies the callback's owner. *)
Record fastreader : Set := mkFR { fr_prefix : list Z; fr_func : Z }.

(** The functions of serialqueue.c that the reactor calls through pointers. *)
Inductive fd_callback : Set := CB_input_event | CB_kick_event.
Inductive timer_callback : Set := CB_retransmit_event | CB_command_event.

(** The descriptors that are polled, as what they designate. *)
Inductive file : Set := F_none | F_serial_fd | F_pipe_read.

(** [struct pollfd] *)
Record pollfd : Set := mkPollfd { pf_fd : file; pf_events : Z; pf_revents : Z }.
#[export] Instance eta_pollfd : Eta pollfd :=
  fun r => mkPollfd (pf_fd r) (pf_events r) (pf_revents r).

(** [struct pollreactor_timer]; [None] is a null pointer. *)
Record pollreactor_timer : Set := mkPT {
  pt_waketime : double; pt_callback : option timer_callback }.
#[export] Instance eta_pollreactor_timer : Eta pollreactor_timer :=
  fun r => mkPT (pt_waketime r) (pt_callback r).

(** [struct pollreactor]; the number of descriptors and of timers is the length
    of the arrays. *)
Record pollreactor : Set := mkPR {
  pr_must_exit : bool; pr_next_timer : double;
  pr_fds : list pollfd; pr_fd_callbacks : list (option fd_callback);
  pr_timers : list pollreactor_timer }.
#[export] Instance eta_pollreactor : Eta pollreactor := fun r =>
  mkPR (pr_must_exit r) (pr_next_timer r) (pr_fds r) (pr_fd_callbacks r) (pr_timers r).

(** Positions in these arrays. *)
Definition SQPF_SERIAL : nat := 0.
Definition SQPF_PIPE : nat := 1.
Definition SQPF_NUM : nat := 2.
Definition SQPT_RETRANSMIT : nat := 0.
Definition SQPT_COMMAND : nat := 1.
Definition SQPT_NUM : nat := 2.

(** [poll.h] *)
Definition POLLIN : Z := 0x01.
Definition POLLHUP : Z := 0x10.

(** [struct receiver] *)
Record receiver : Set := mkReceiver {
  rv_waiting : bool; rv_queue : list stamped_message; rv_old_receive : list stamped_message }.
#[export] Instance eta_receiver : Eta receiver :=
  fun r => mkReceiver (rv_waiting r) (rv_queue r) (rv_old_receive r).

(** [struct transmit_requests] *)
Record transmit_requests : Set := mkTR {
  tr_upcoming_queues : list Z; tr_upcoming_bytes : Z;
  tr_need_kick_clock : Z; tr_min_release_clock : Z }.
#[export] Instance eta_transmit_requests : Eta transmit_requests := fun r =>
  mkTR (tr_upcoming_queues r) (tr_upcoming_bytes r) (tr_need_kick_clock r)
    (tr_min_release_clock r).

(** What the code asks of the operating system. *)
Inductive io_event : Set :=
| IoWrite (data : list Z)
| IoCanFrame (can_id : Z) (data : list Z)
| IoTcflush
| IoKick.

(** [struct serialqueue], with the command queues it refers to. *)
Record serialqueue : Set := mkSQ {
  sq_pr : pollreactor;
  sq_fd_type : fd_type; sq_client_id : Z;
  sq_input_buf : list Z; sq_need_sync : bool;
  sq_receiver : receiver;
  sq_tr : transmit_requests;
  sq_receive_window : Z; sq_bittime_adjust : double; sq_idle_time : double;
  sq_ce : clock_estimate; sq_last_receive_sent_time : double;
  sq_send_seq : Z; sq_receive_seq : Z;
  sq_ignore_nak_seq : Z; sq_last_ack_seq : Z; sq_retransmit_seq : Z; sq_rtt_sample_seq : Z;
  sq_sent_queue : list stamped_message;
  sq_srtt : double; sq_rttvar : double; sq_rto : double;
  sq_ready_queues : list Z;
  sq_ready_bytes : Z; sq_need_ack_bytes : Z; sq_last_ack_bytes : Z;
  sq_notify_queue : list queue_message;
  sq_last_write_fail_time : double;
  sq_fast_readers : list fastreader;
  sq_old_sent : list stamped_message;
  sq_bytes_write : Z; sq_bytes_read : Z; sq_bytes_retransmit : Z; sq_bytes_invalid : Z;
  sq_cqs : gmap Z command_queue;
  sq_io : list io_event; sq_clock_reads : nat }.
#[export] Instance eta_serialqueue : Eta serialqueue := fun r =>
  mkSQ (sq_pr r) (sq_fd_type r) (sq_client_id r) (sq_input_buf r) (sq_need_sync r)
    (sq_receiver r) (sq_tr r) (sq_receive_window r) (sq_bittime_adjust r) (sq_idle_time r)
    (sq_ce r) (sq_last_receive_sent_time r) (sq_send_seq r) (sq_receive_seq r)
    (sq_ignore_nak_seq r) (sq_last_ack_seq r) (sq_retransmit_seq r) (sq_rtt_sample_seq r)
    (sq_sent_queue r) (sq_srtt r) (sq_rttvar r) (sq_rto r) (sq_ready_queues r)
    (sq_ready_bytes r) (sq_need_ack_bytes r) (sq_last_ack_bytes r) (sq_notify_queue r)
    (sq_last_write_fail_time r) (sq_fast_readers r) (sq_old_sent r) (sq_bytes_write r)
    (sq_bytes_read r) (sq_bytes_retransmit r) (sq_bytes_invalid r) (sq_cqs r) (sq_io r)
    (sq_clock_reads r).

(** The length of a message or a block. *)
Definition msg_len (m : list Z) : Z := Z.of_nat (length m).

(** ** The reactor's timers (pollreactor.c) *)

Definition pollreactor_alloc (num_fds num_timers : nat) : pollreactor :=
  {| pr_must_exit := false; pr_next_timer := PR_NEVER;
     pr_fds := replicate num_fds (mkPollfd F_none 0 0);
     pr_fd_callbacks := replicate num_fds None;
     pr_timers := replicate num_timers (mkPT PR_NEVER None) |}.

Definition pollreactor_add_fd (pos : nat) (fd : file) (callback : fd_callback) (write_only : bool)
    (pr : pollreactor) : pollreactor :=
  pr <| pr_fds ::= <[pos := mkPollfd fd (Z.lor POLLHUP (if write_only then 0 else POLLIN)) 0]> |>
     <| pr_fd_callbacks ::= <[pos := Some callback]> |>.

Definition pollreactor_add_timer (pos : nat) (callback : timer_callback) (pr : pollreactor)
    : pollreactor :=
  pr <| pr_timers ::= <[pos := mkPT PR_NEVER (Some callback)]> |>.

(** [pollreactor_get_timer], for one of the timers. *)
Definition pollreactor_get_timer (pr : pollreactor) (pos : nat) : double :=
  match pr_timers pr !! pos with Some timer => pt_waketime timer | None => S754_nan end.

(** [timer->waketime = t] *)
Definition set_waketime (pos : nat) (t : double) (pr : pollreactor) : pollreactor :=
  pr <| pr_timers ::= alter (fun timer => timer <| pt_waketime := t |>) pos |>.

(** [if (t < pr->next_timer) pr->next_timer = t] *)
Definition lower_next_timer (t : double) (pr : pollreactor) : pollreactor :=
  if flt t (pr_next_timer pr) then pr <| pr_next_timer := t |> else pr.

Definition pollreactor_update_timer (i : nat) (t : double) (sq : serialqueue)
    : serialqueue :=
  sq <| sq_pr ::= fun pr => lower_next_timer t (set_waketime i t pr) |>.

Definition pollreactor_do_exit (sq : serialqueue) : serialqueue :=
  sq <| sq_pr ::= fun pr => pr <| pr_must_exit := true |> |>.

Definition pollreactor_is_exit (pr : pollreactor) : bool := pr_must_exit pr.

(** ** Debug queues *)

Definition empty_stamped : stamped_message := mkStamped [] (f64 0) (f64 0) 0.

Definition debug_queue_alloc (count : nat) : list stamped_message :=
  replicate count empty_stamped.

(** [debug_queue_add]: append a message and drop the oldest. *)
Definition debug_queue_add (qm : stamped_message) (root : list stamped_message)
    : list stamped_message := tail (root ++ [qm]).

(** ** Receiving *)

(** The messages joined to the reader's queue; a waiting reader is woken. *)
Definition receive_append_wake (msgs : list stamped_message) (sq : serialqueue) : serialqueue :=
  sq <| sq_receiver ::= fun r => r <| rv_queue ::= fun q => q ++ msgs |>
                                   <| rv_waiting := false |> |>.

Definition kick_bg_thread (sq : serialqueue) : serialqueue :=
  sq <| sq_io ::= fun l => l ++ [IoKick] |>.

Definition calculate_bittime (sq : serialqueue) (bytes : Z) : double :=
  match sq_fd_type sq with
  | SQT_CAN =>
      let pkts := u32 (u32 (u32 (bytes + 8) - 1) / 8) in
      let bits := u32 (bytes * 8 + pkts * CANBUS_PACKET_BITS - CANBUS_IFS_BITS) in
      fmul (sq_bittime_adjust sq) (f64 bits)
  | _ => fmul (sq_bittime_adjust sq) (f64 (u32 bytes))
  end.

(** "Remove from sent queue": the first loop of [update_receive_seq]. *)
Fixpoint pop_acked (rseq sent_seq : Z) (sent_queue : list stamped_message) (sq : serialqueue)
    : serialqueue :=
  match sent_queue with
  | [] =>
      (* Got an ack for a message not sent; must be connection init *)
      sq <| sq_sent_queue := [] |> <| sq_send_seq := rseq |>
         <| sq_last_receive_sent_time := f64 0 |>
  | sent :: sent_queue =>
      let sq := sq <| sq_need_ack_bytes ::= fun n => n - msg_len (sm_msg sent) |>
                   <| sq_sent_queue := sent_queue |>
                   <| sq_old_sent ::= debug_queue_add sent |> in
      let sent_seq := u64 (sent_seq + 1) in
      if rseq =? sent_seq then
        sq <| sq_last_receive_sent_time := sm_receive_time sent |>
           <| sq_last_ack_bytes := msg_len (sm_msg sent) |>
      else pop_acked rseq sent_seq sent_queue sq
  end.

(** "RFC6298 rtt calculations" *)
Definition update_rtt (eventtime : double) (sq : serialqueue) : serialqueue :=
  let delta := fsub eventtime (sq_last_receive_sent_time sq) in
  let sq :=
    if negb (f_true (sq_srtt sq)) then
      sq <| sq_rttvar := fdiv delta (f64 2) |> <| sq_srtt := fmul delta (f64 10) |>
    else
      let rttvar := fdiv (fadd (fmul (f64 3) (sq_rttvar sq)) (f_abs (fsub (sq_srtt sq) delta)))
                      (f64 4) in
      let srtt := fdiv (fadd (fmul (f64 7) (sq_srtt sq)) delta) (f64 8) in
      sq <| sq_rttvar := rttvar |> <| sq_srtt := srtt |> in
  let rttvar4 := fmul (sq_rttvar sq) (f64 4) in
  let rttvar4 := if flt rttvar4 (f_lit 1 1000) then f_lit 1 1000 else rttvar4 in
  let rto := fadd (sq_srtt sq) rttvar4 in
  let rto := if flt rto MIN_RTO then MIN_RTO else if flt MAX_RTO rto then MAX_RTO else rto in
  sq <| sq_rto := rto |> <| sq_rtt_sample_seq := 0 |>.

Definition update_receive_seq (eventtime : double) (rseq : Z) (sq : serialqueue) : serialqueue :=
  let sq := pop_acked rseq (sq_receive_seq sq) (sq_sent_queue sq) sq in
  let sq := sq <| sq_receive_seq := rseq |> in
  let sq := pollreactor_update_timer SQPT_COMMAND PR_NOW sq in
  let sq := if negb (sq_rtt_sample_seq sq =? 0) && (sq_rtt_sample_seq sq <? rseq)
               && f_true (sq_last_receive_sent_time sq)
            then update_rtt eventtime sq else sq in
  match sq_sent_queue sq with
  | [] => pollreactor_update_timer SQPT_RETRANSMIT PR_NEVER sq
  | sent :: _ =>
      let nr := fadd (fadd eventtime (sq_rto sq)) (calculate_bittime sq (msg_len (sm_msg sent))) in
      pollreactor_update_timer SQPT_RETRANSMIT nr sq
  end.

(** The messages at the head of [notify_queue] whose block was processed. *)
Fixpoint split_notify (wake_seq : Z) (q : list queue_message)
    : list queue_message * list queue_message :=
  match q with
  | [] => ([], [])
  | qm :: q' =>
      if wake_seq <? qm_req_clock qm then ([], q)
      else let '(a, b) := split_notify wake_seq q' in (qm :: a, b)
  end.

(** [a] is a prefix of [b] ([memcmp]). *)
Fixpoint is_prefix (a b : list Z) : bool :=
  match a, b with
  | [], _ => true
  | x :: a, y :: b => (x =? y) && is_prefix a b
  | _, [] => false
  end.

(** The fast reader a message is for. *)
Fixpoint find_fastreader (msg : list Z) (frs : list fastreader) : option Z :=
  match frs with
  | [] => None
  | fr :: frs =>
      if (msg_len msg <? msg_len (fr_prefix fr) + MESSAGE_MIN)
         || negb (is_prefix (fr_prefix fr) (drop 2 msg))
      then find_fastreader msg frs else Some (fr_func fr)
  end.

Class Host := {
  monotonic : nat -> double;
  can_write_ok : nat -> bool
}.

Section Serialqueue.
Context `{Host}.

(** [get_monotonic] *)
Definition get_monotonic (sq : serialqueue) : double * serialqueue :=
  (monotonic (sq_clock_reads sq), sq <| sq_clock_reads ::= S |>).

(** [handle_message] on the block [msg] at the front of the input buffer; the
    result names the fast reader whose callback is to be invoked. *)
Definition handle_message (eventtime : double) (msg : list Z) (sq : serialqueue)
    : option Z * serialqueue :=
  let len := msg_len msg in
  let rseq_delta := Z.land (u32 (byte_at msg MESSAGE_POS_SEQ - sq_receive_seq sq))
                      MESSAGE_SEQ_MASK in
  let rseq := u64 (sq_receive_seq sq + rseq_delta) in
  if negb (rseq =? sq_receive_seq sq)
     && ((sq_send_seq sq <? rseq) && negb (sq_receive_seq sq =? 1)) then
    (* An ack for a message not sent?  Out of order message? *)
    (None, sq <| sq_bytes_invalid ::= fun n => u32 (n + len) |>)
  else
    let sq := if negb (rseq =? sq_receive_seq sq) then update_receive_seq eventtime rseq sq
              else sq in
    let sq := sq <| sq_bytes_read ::= fun n => u32 (n + len) |> in
    (* Check for pending messages on notify_queue *)
    let wake_seq := u64 (rseq - 1 - (if MESSAGE_MIN <? len then 1 else 0)) in
    let '(notified, rest) := split_notify wake_seq (sq_notify_queue sq) in
    let sq := sq <| sq_notify_queue := rest |> in
    let received := map (fun qm => mkStamped [] (sq_last_receive_sent_time sq) eventtime
                                     (qm_notify_id qm)) notified in
    (* Process message *)
    let '(received, sq) :=
      if len =? MESSAGE_MIN then
        (received,
         if sq_last_ack_seq sq <? rseq then sq <| sq_last_ack_seq := rseq |>
         else if (sq_ignore_nak_seq sq <? rseq)
                 && negb (match sq_sent_queue sq with [] => true | _ => false end)
         then pollreactor_update_timer SQPT_RETRANSMIT PR_NOW sq else sq)
      else
        let sent_time := if sq_retransmit_seq sq <? rseq then sq_last_receive_sent_time sq
                         else f64 0 in
        let '(now, sq) := get_monotonic sq in
        let receive_time := fsub now (calculate_bittime sq len) in
        (received ++ [mkStamped msg sent_time receive_time 0], sq) in
    let sq := match received with [] => sq | _ => receive_append_wake received sq end in
    (find_fastreader msg (sq_fast_readers sq), sq).

(** The loop of [input_event] on the buffered bytes; the callbacks of the fast
    readers are run by [run_fastreader]. *)
Fixpoint process_input (fuel : nat) (run_fastreader : Z -> list Z -> serialqueue -> serialqueue)
    (eventtime : double) (sq : serialqueue) : option serialqueue :=
  match fuel with
  | O => None
  | S fuel =>
      let '(need_sync, len) := msgblock_check (sq_need_sync sq) (sq_input_buf sq) in
      let sq := sq <| sq_need_sync := need_sync |> in
      if len =? 0 then Some sq
      else
        let msg := take (Z.to_nat len) (sq_input_buf sq) in
        let sq :=
          if 0 <? len then
            match handle_message eventtime msg sq with
            | (Some fr, sq) => run_fastreader fr msg sq
            | (None, sq) => sq
            end
          else sq <| sq_bytes_invalid ::= fun n => u32 (n - len) |> in
        process_input fuel run_fastreader eventtime
          (sq <| sq_input_buf ::= drop (Z.to_nat (Z.abs len)) |>)
  end.

(** The result of the [read] of [input_event]. *)
Inductive read_result : Set :=
| ReadFailed
| ReadBytes (data : list Z)
| ReadFrame (can_id : Z) (data : list Z).

Definition input_event (run_fastreader : Z -> list Z -> serialqueue -> serialqueue)
    (rd : read_result) (eventtime : double) (sq : serialqueue) : option serialqueue :=
  let go data :=
    let sq := sq <| sq_input_buf ::= fun b => b ++ data |> in
    process_input (S (length (sq_input_buf sq))) run_fastreader eventtime sq in
  match rd with
  | ReadFailed => Some (pollreactor_do_exit sq)
  | ReadFrame can_id data =>
      if negb (can_id =? u32 (sq_client_id sq + 1)) then Some sq else go data
  | ReadBytes data => go data
  end.

(** [kick_event], for a successful or failed read of the pipe alike. *)
Definition kick_event (sq : serialqueue) : serialqueue :=
  pollreactor_update_timer SQPT_COMMAND PR_NOW sq.

(** ** Writing *)

(** The loop that writes CAN frames. *)
Fixpoint write_frames (fuel : nat) (buf : list Z) (sq : serialqueue) : serialqueue :=
  match fuel, buf with
  | S fuel, _ :: _ =>
      let ok := can_write_ok (length (sq_io sq)) in
      let sq := sq <| sq_io ::= fun l => l ++ [IoCanFrame (sq_client_id sq) (take 8 buf)] |> in
      if ok then write_frames fuel (drop 8 buf) (sq <| sq_last_write_fail_time := f64 0 |>)
      else
        let '(curtime, sq) := get_monotonic sq in
        if negb (f_true (sq_last_write_fail_time sq)) then
          sq <| sq_last_write_fail_time := curtime |>
        else if flt (fadd (sq_last_write_fail_time sq) (f64 10)) curtime then
          pollreactor_do_exit sq
        else sq
  | _, _ => sq
  end.

Definition do_write (buf : list Z) (sq : serialqueue) : serialqueue :=
  match sq_fd_type sq with
  | SQT_CAN => write_frames (length buf) buf sq
  | _ => sq <| sq_io ::= fun l => l ++ [IoWrite buf] |>
  end.

(** [retransmit_event]: the next wake time of its timer and the state. *)
Definition retransmit_event (eventtime : double) (sq : serialqueue) : double * serialqueue :=
  let sq := match sq_fd_type sq with
            | SQT_UART => sq <| sq_io ::= fun l => l ++ [IoTcflush] |>
            | _ => sq
            end in
  let buf := MESSAGE_SYNC :: concat (map sm_msg (sq_sent_queue sq)) in
  let first_buflen := match sq_sent_queue sq with [] => 0 | qm :: _ => msg_len (sm_msg qm) + 1 end in
  let sq := do_write buf sq in
  let sq := sq <| sq_bytes_retransmit ::= fun n => u32 (n + msg_len buf) |> in
  let sq :=
    if feq (pollreactor_get_timer (sq_pr sq) SQPT_RETRANSMIT) PR_NOW then
      (* Retransmit due to nak *)
      sq <| sq_ignore_nak_seq := if sq_receive_seq sq <? sq_retransmit_seq sq
                                 then sq_retransmit_seq sq else sq_receive_seq sq |>
    else
      (* Retransmit due to timeout *)
      let rto := fmul (sq_rto sq) (f64 2) in
      sq <| sq_rto := if flt MAX_RTO rto then MAX_RTO else rto |>
         <| sq_ignore_nak_seq := sq_send_seq sq |> in
  let sq := sq <| sq_retransmit_seq := sq_send_seq sq |> <| sq_rtt_sample_seq := 0 |>
               <| sq_idle_time := fadd eventtime (calculate_bittime sq (msg_len buf)) |> in
  (fadd (fadd eventtime (sq_rto sq)) (calculate_bittime sq first_buflen), sq).

(** ** Building blocks *)

Definition get_cq (sq : serialqueue) (q : Z) : command_queue :=
  default (mkCQ [] []) (sq_cqs sq !! q).

Definition set_cq (q : Z) (cq : command_queue) (sq : serialqueue) : serialqueue :=
  sq <| sq_cqs ::= <[q := cq]> |>.

(** "Find highest priority message (message with lowest req_clock)" *)
Fixpoint find_min (sq : serialqueue) (qs : list Z) (min_clock : Z)
    (best : option (Z * queue_message)) : option (Z * queue_message) :=
  match qs with
  | [] => best
  | q :: qs =>
      match cq_ready (get_cq sq q) with
      | [] => None
      | m :: _ =>
          if qm_req_clock m <? min_clock then find_min sq qs (qm_req_clock m) (Some (q, m))
          else find_min sq qs min_clock best
      end
  end.

(** Taking [qm], the first ready message of [q], for the block being built. *)
Definition take_ready (q : Z) (qm : queue_message) (sq : serialqueue) : serialqueue :=
  let cq := (get_cq sq q) <| cq_ready ::= tail |> in
  let sq := set_cq q cq sq in
  let sq := match cq_ready cq with
            | [] => sq <| sq_ready_queues ::= List.filter (fun x => negb (x =? q)) |>
            | _ => sq
            end in
  let sq := sq <| sq_ready_bytes ::= fun n => n - msg_len (qm_msg qm) |> in
  if negb (qm_notify_id qm =? 0) then
    sq <| sq_notify_queue ::= fun l =>
            l ++ [mkQM (qm_msg qm) (qm_min_clock qm) (sq_send_seq sq) (qm_notify_id qm)] |>
  else sq.

(** The loop that appends messages to the outgoing block; [None] is the
    dereference of a missing message. *)
Fixpoint fill_block (fuel : nat) (buf : list Z) (sq : serialqueue)
    : option (list Z * serialqueue) :=
  if sq_ready_bytes sq =? 0 then Some (buf, sq)
  else
    match fuel with
    | O => None
    | S fuel =>
        match find_min sq (sq_ready_queues sq) MAX_CLOCK None with
        | None => None
        | Some (q, qm) =>
            if MESSAGE_MAX - MESSAGE_TRAILER_SIZE
               <? MESSAGE_HEADER_SIZE + msg_len buf + msg_len (qm_msg qm)
            then Some (buf, sq)
            else fill_block fuel (buf ++ qm_msg qm) (take_ready q qm sq)
        end
    end.

(** The number of messages in the ready queues. *)
Definition ready_count (sq : serialqueue) : nat :=
  list_sum (map (fun q => length (cq_ready (get_cq sq q))) (sq_ready_queues sq)).

(** "Fill header / trailer" *)
Definition frame_block (send_seq : Z) (payload : list Z) : list Z :=
  let len := msg_len payload + MESSAGE_HEADER_SIZE + MESSAGE_TRAILER_SIZE in
  let head := u8 len :: Z.lor MESSAGE_DEST (Z.land send_seq MESSAGE_SEQ_MASK) :: payload in
  let crc := msgblock_crc16_ccitt head in
  head ++ [Z.shiftr crc 8; Z.land crc 0xff; MESSAGE_SYNC].

(** [eventtime > sq->idle_time ? eventtime : sq->idle_time] *)
Definition idle_base (eventtime : double) (sq : serialqueue) : double :=
  if flt (sq_idle_time sq) eventtime then eventtime else sq_idle_time sq.

(** [build_and_send_command]: the block it built. *)
Definition build_and_send_command (pending : Z) (eventtime : double) (sq : serialqueue)
    : option (list Z * serialqueue) :=
  '(payload, sq) ← fill_block (S (ready_count sq)) [] sq;
  let block := frame_block (sq_send_seq sq) payload in
  let len := msg_len block in
  let idletime := fadd (idle_base eventtime sq) (calculate_bittime sq (pending + len)) in
  let out := mkStamped block eventtime idletime 0 in
  let sq := match sq_sent_queue sq with
            | [] => pollreactor_update_timer SQPT_RETRANSMIT (fadd idletime (sq_rto sq)) sq
            | _ => sq
            end in
  let sq := if sq_rtt_sample_seq sq =? 0 then sq <| sq_rtt_sample_seq := sq_send_seq sq |>
            else sq in
  Some (block, sq <| sq_send_seq ::= fun s => u64 (s + 1) |>
                  <| sq_need_ack_bytes ::= Z.add len |>
                  <| sq_sent_queue ::= fun l => l ++ [out] |>).

(** The messages of an upcoming queue that [ack_clock] releases, and the rest. *)
Fixpoint split_upcoming (ack_clock : Z) (q : list queue_message)
    : list queue_message * list queue_message :=
  match q with
  | [] => ([], [])
  | qm :: q' =>
      if ack_clock <? qm_min_clock qm then ([], q)
      else let '(a, b) := split_upcoming ack_clock q' in (qm :: a, b)
  end.

(** The total length of messages. *)
Definition total_len (l : list queue_message) : Z :=
  foldr (fun qm n => msg_len (qm_msg qm) + n) 0 l.

(** One queue of the loop of [check_upcoming_queues]. *)
Definition release_queue (ack_clock q : Z) (st : Z * serialqueue) : Z * serialqueue :=
  let '(min_stalled_clock, sq) := st in
  let cq := get_cq sq q in
  let not_in_ready_queues := match cq_ready cq with [] => true | _ => false end in
  let '(moved, rest) := split_upcoming ack_clock (cq_upcoming cq) in
  let min_stalled_clock :=
    match rest with
    | qm :: _ => if qm_min_clock qm <? min_stalled_clock then qm_min_clock qm
                 else min_stalled_clock
    | [] => min_stalled_clock
    end in
  let cq := mkCQ (cq_ready cq ++ moved) rest in
  let sq := set_cq q cq sq in
  let sq := sq <| sq_tr ::= fun tr => tr <| tr_upcoming_bytes ::= fun n => n - total_len moved |> |>
               <| sq_ready_bytes ::= Z.add (total_len moved) |> in
  let sq := match rest with
            | [] => sq <| sq_tr ::= fun tr => tr <| tr_upcoming_queues ::=
                            List.filter (fun x => negb (x =? q)) |> |>
            | _ => sq
            end in
  let sq := match cq_ready cq with
            | _ :: _ => if not_in_ready_queues then sq <| sq_ready_queues ::= fun l => l ++ [q] |>
                        else sq
            | [] => sq
            end in
  (min_stalled_clock, sq).

Definition check_upcoming_queues (ack_clock : Z) (sq : serialqueue) : Z * serialqueue :=
  let sq := sq <| sq_tr ::= fun tr => tr <| tr_need_kick_clock := 0 |> |> in
  let min_release_clock := tr_min_release_clock (sq_tr sq) in
  if ack_clock <? min_release_clock then (min_release_clock, sq)
  else
    let '(min_stalled_clock, sq) :=
      foldl (fun st q => release_queue ack_clock q st) (MAX_CLOCK, sq)
        (tr_upcoming_queues (sq_tr sq)) in
    (min_stalled_clock,
     sq <| sq_tr ::= fun tr => tr <| tr_min_release_clock := min_stalled_clock |> |>).

(** [update_need_kick_clock]: whether the caller must not sleep. *)
Definition update_need_kick_clock (wantclock : Z) (sq : serialqueue) : bool * serialqueue :=
  if tr_min_release_clock (sq_tr sq) <? wantclock then (true, sq)
  else (false, sq <| sq_tr ::= fun tr => tr <| tr_need_kick_clock := wantclock |> |>).

(** The lowest [req_clock] among the ready queues. *)
Fixpoint min_ready (sq : serialqueue) (bgclock : option Z) (qs : list Z) (min_ready_clock : Z)
    : option Z :=
  match qs with
  | [] => Some min_ready_clock
  | q :: qs =>
      qm ← head (cq_ready (get_cq sq q));
      req_clock ← if qm_req_clock qm =? BACKGROUND_PRIORITY_CLOCK then bgclock
                  else Some (qm_req_clock qm);
      min_ready sq bgclock qs (if req_clock <? min_ready_clock then req_clock else min_ready_clock)
  end.

(** "Check if valid to send messages": an ack is needed first. *)
Definition must_wait_ack (sq : serialqueue) : bool :=
  ((MAX_PENDING_BLOCKS <=? u64 (sq_send_seq sq - sq_receive_seq sq))
   && negb (sq_receive_seq sq =? u64 (-1)))
  || ((sq_receive_seq sq <? sq_send_seq sq) && negb (sq_receive_window sq =? 0)
      && let need_ack_bytes := sq_need_ack_bytes sq + MESSAGE_MAX in
         let need_ack_bytes := if sq_last_ack_seq sq <? sq_receive_seq sq
                               then need_ack_bytes + sq_last_ack_bytes sq else need_ack_bytes in
         sq_receive_window sq <? need_ack_bytes).

(** The end of [check_send_command]: the clock estimate is known. *)
Definition check_ready_time (pending : Z) (eventtime idletime : double)
    (ack_clock min_stalled_clock : Z) (sq : serialqueue) : option (double * serialqueue) :=
  let bgtime := if negb (pending =? 0) then idletime else sq_idle_time sq in
  let bgoffset := fadd MIN_REQTIME_DELTA MIN_BACKGROUND_DELTA in
  min_ready_clock ← min_ready sq (clock_from_time (sq_ce sq) (fadd bgtime bgoffset))
                      (sq_ready_queues sq) MAX_CLOCK;
  reqclock_delta ← f_to_u64 (fmul MIN_REQTIME_DELTA (ce_est_freq (sq_ce sq)));
  if min_ready_clock <=? u64 (ack_clock + reqclock_delta) then Some (PR_NOW, sq)
  else if negb (pending =? 0) then Some (eventtime, sq)
  else
    let wantclock := u64 (min_ready_clock - reqclock_delta) in
    let wantclock := if min_stalled_clock <? wantclock then min_stalled_clock else wantclock in
    let '(mustwake, sq) := update_need_kick_clock wantclock sq in
    if mustwake then Some (eventtime, sq)
    else Some (fadd idletime (fdiv (f64 (u64 (wantclock - ack_clock))) (ce_est_freq (sq_ce sq))), sq).

Definition check_send_command (pending : Z) (eventtime : double) (sq : serialqueue)
    : option (double * serialqueue) :=
  let idletime := fadd (idle_base eventtime sq) (calculate_bittime sq (pending + MESSAGE_MIN)) in
  ack_clock ← clock_from_time (sq_ce sq) idletime;
  let '(min_stalled_clock, sq) := check_upcoming_queues ack_clock sq in
  if must_wait_ack sq then Some (fadd eventtime (f_lit 250 1000), sq)
  else if MESSAGE_PAYLOAD_MAX <=? sq_ready_bytes sq then Some (PR_NOW, sq)
  else if negb (f_true (ce_est_freq (sq_ce sq))) then
    if negb (sq_ready_bytes sq =? 0) then Some (PR_NOW, sq)
    else
      let '(mustwake, sq) := update_need_kick_clock 1 sq in
      Some (if mustwake then eventtime else PR_NEVER, sq)
  else check_ready_time pending eventtime idletime ack_clock min_stalled_clock sq.

(** The loop of [command_event]: the bytes to write and the wake time. *)
Fixpoint command_loop (fuel : nat) (buf : list Z) (eventtime : double) (sq : serialqueue)
    : option (list Z * double * serialqueue) :=
  match fuel with
  | O => None
  | S fuel =>
      '(waketime, sq) ← check_send_command (msg_len buf) eventtime sq;
      if negb (feq waketime PR_NOW) then Some (buf, waketime, sq)
      else
        '(block, sq) ← build_and_send_command (msg_len buf) eventtime sq;
        let buf := buf ++ block in
        if MESSAGE_MAX * MAX_PENDING_BLOCKS <? msg_len buf + MESSAGE_MAX
        then Some (buf, waketime, sq)
        else command_loop fuel buf eventtime sq
  end.

(** Every iteration adds a block of at least [MESSAGE_MIN] bytes to a buffer of
    768 bytes. *)
Definition command_fuel : nat := 160.

Definition command_event (eventtime : double) (sq : serialqueue)
    : option (double * serialqueue) :=
  '(buf, waketime, sq) ← command_loop command_fuel [] eventtime sq;
  match buf with
  | [] => Some (waketime, sq)
  | _ =>
      let sq := do_write buf sq in
      let sq := sq <| sq_bytes_write ::= fun n => u32 (n + msg_len buf) |> in
      let sq := sq <| sq_idle_time := fadd (idle_base eventtime sq)
                                        (calculate_bittime sq (msg_len buf)) |> in
      Some (PR_NOW, sq)
  end.

(** ** The reactor (pollreactor.c) *)

(** [timer->callback(pr->callback_data, eventtime)]: the new wake time. *)
Definition run_timer (cb : timer_callback) (eventtime : double) (sq : serialqueue)
    : option (double * serialqueue) :=
  match cb with
  | CB_retransmit_event => Some (retransmit_event eventtime sq)
  | CB_command_event => command_event eventtime sq
  end.

(** One timer of [pollreactor_check_timers]; the call of a null pointer is
    [None]. *)
Definition check_timer (eventtime : double) (i : nat) (st : bool * serialqueue)
    : option (bool * serialqueue) :=
  let '(busy, sq) := st in
  timer ← pr_timers (sq_pr sq) !! i;
  let t := pt_waketime timer in
  '(busy, t, sq) ←
    (if fle t eventtime then
       cb ← pt_callback timer;
       '(t, sq) ← run_timer cb eventtime sq;
       Some (true, t, sq <| sq_pr ::= set_waketime i t |>)
     else Some (busy, t, sq));
  Some (busy, sq <| sq_pr ::= lower_next_timer t |>).

(** "Find and run pending timers": the loop over the positions [ps]. *)
Fixpoint check_timers_loop (eventtime : double) (ps : list nat) (st : bool * serialqueue)
    : option (bool * serialqueue) :=
  match ps with
  | [] => Some st
  | i :: ps => st ← check_timer eventtime i st; check_timers_loop eventtime ps st
  end.

(** "Calculate sleep duration" in milliseconds. *)
Definition sleep_duration (next_timer eventtime : double) : option Z :=
  let timeout := f_ceil (fmul (fsub next_timer eventtime) (f64 1000)) in
  if flt timeout (f64 1) then Some 1
  else if flt (f64 1000) timeout then Some 1000
  else f_to_s32 timeout.

(** [pollreactor_check_timers]: how long [poll] may sleep. *)
Definition pollreactor_check_timers (eventtime : double) (busy : bool) (sq : serialqueue)
    : option (Z * serialqueue) :=
  '(busy, sq) ←
    (if fle (pr_next_timer (sq_pr sq)) eventtime then
       let sq := sq <| sq_pr ::= fun pr => pr <| pr_next_timer := PR_NEVER |> |> in
       check_timers_loop eventtime (seq 0 (length (pr_timers (sq_pr sq)))) (busy, sq)
     else Some (busy, sq));
  if busy : bool then Some (0, sq)
  else timeout ← sleep_duration (pr_next_timer (sq_pr sq)) eventtime; Some (timeout, sq).

(** What [poll] reports: an error, or the events of every descriptor; [rd] is
    what a [read] of the serial port will return then. *)
Inductive poll_result : Set :=
| PollFailed
| PollReady (revents : list Z) (rd : read_result).

(** [pr->fd_callbacks[i](pr->callback_data, eventtime)] *)
Definition run_fd (run_fastreader : Z -> list Z -> serialqueue -> serialqueue)
    (cb : fd_callback) (rd : read_result) (eventtime : double) (sq : serialqueue)
    : option serialqueue :=
  match cb with
  | CB_input_event => input_event run_fastreader rd eventtime sq
  | CB_kick_event => Some (kick_event sq)
  end.

(** The loop over the positions [ps] of the descriptors. *)
Fixpoint check_fds_loop (run_fastreader : Z -> list Z -> serialqueue -> serialqueue)
    (rd : read_result) (eventtime : double) (ps : list nat) (sq : serialqueue) : option serialqueue :=
  match ps with
  | [] => Some sq
  | i :: ps =>
      fd ← pr_fds (sq_pr sq) !! i;
      sq ← (if negb (pf_revents fd =? 0) then
              cb ← mjoin (pr_fd_callbacks (sq_pr sq) !! i);
              run_fd run_fastreader cb rd eventtime sq
            else Some sq);
      check_fds_loop run_fastreader rd eventtime ps sq
  end.

(** [poll] stores the events. *)
Definition set_revents (revents : list Z) (pr : pollreactor) : pollreactor :=
  pr <| pr_fds ::= imap (fun i fd => fd <| pf_revents := nth i revents 0 |>) |>.

(** One iteration of the loop of [pollreactor_run]; [eventtime'] is the time
    when [poll] returns.  The result is [busy]. *)
Definition pollreactor_iter (run_fastreader : Z -> list Z -> serialqueue -> serialqueue)
    (eventtime eventtime' : double) (busy : bool) (ev : poll_result) (sq : serialqueue)
    : option (bool * serialqueue) :=
  '(_, sq) ← pollreactor_check_timers eventtime busy sq;
  match ev with
  | PollFailed => Some (false, pollreactor_do_exit sq)
  | PollReady revents rd =>
      let sq := sq <| sq_pr ::= set_revents revents |> in
      if existsb (fun fd => negb (pf_revents fd =? 0)) (pr_fds (sq_pr sq)) then
        sq ← check_fds_loop run_fastreader rd eventtime' (seq 0 (length (pr_fds (sq_pr sq)))) sq;
        Some (true, sq)
      else Some (false, sq)
  end.

(** [pollreactor_run] on the events that [poll] reports and the times at which
    it returns, until an exit is requested or the events end. *)
Fixpoint pollreactor_loop (run_fastreader : Z -> list Z -> serialqueue -> serialqueue)
    (eventtime : double) (busy : bool) (evs : list (double * poll_result)) (sq : serialqueue)
    : option serialqueue :=
  if pr_must_exit (sq_pr sq) then Some sq
  else
    match evs with
    | [] => Some sq
    | (eventtime', ev) :: evs =>
        '(busy, sq) ← pollreactor_iter run_fastreader eventtime eventtime' busy ev sq;
        pollreactor_loop run_fastreader eventtime' busy evs sq
    end.

Definition pollreactor_run (run_fastreader : Z -> list Z -> serialqueue -> serialqueue)
    (eventtime : double) (evs : list (double * poll_result)) (sq : serialqueue)
    : option serialqueue := pollreactor_loop run_fastreader eventtime true evs sq.

(** [background_thread]: run the reactor, then wake a waiting receiver. *)
Definition background_thread (run_fastreader : Z -> list Z -> serialqueue -> serialqueue)
    (eventtime : double) (evs : list (double * poll_result)) (sq : serialqueue)
    : option serialqueue :=
  sq ← pollreactor_run run_fastreader eventtime evs sq;
  Some (receive_append_wake [] sq).
End Serialqueue.

(** [serialqueue_exit]: the request; waiting for the thread is up to the
    system. *)
Definition serialqueue_exit (sq : serialqueue) : serialqueue :=
  kick_bg_thread (pollreactor_do_exit sq).

(** ** Interface *)

(** [serialqueue_alloc] *)
Definition serialqueue_alloc (serial_fd_type : fd_type) (client_id : Z) : serialqueue :=
  let '(receive_seq, rto) := match serial_fd_type with
                             | SQT_DEBUGFILE => (u64 (-1), PR_NEVER)
                             | _ => (1, MIN_RTO)
                             end in
  let pr := pollreactor_alloc SQPF_NUM SQPT_NUM in
  let pr := pollreactor_add_fd SQPF_SERIAL F_serial_fd CB_input_event
              (match serial_fd_type with SQT_DEBUGFILE => true | _ => false end) pr in
  let pr := pollreactor_add_fd SQPF_PIPE F_pipe_read CB_kick_event false pr in
  let pr := pollreactor_add_timer SQPT_RETRANSMIT CB_retransmit_event pr in
  let pr := pollreactor_add_timer SQPT_COMMAND CB_command_event pr in
  {| sq_pr := pr;
     sq_fd_type := serial_fd_type; sq_client_id := client_id;
     sq_input_buf := []; sq_need_sync := false;
     sq_receiver := mkReceiver false [] (debug_queue_alloc DEBUG_QUEUE_RECEIVE);
     sq_tr := mkTR [] 0 MAX_CLOCK MAX_CLOCK;
     sq_receive_window := 0; sq_bittime_adjust := f64 0; sq_idle_time := f64 0;
     sq_ce := mkCE 0 0 (f64 0) (f64 0); sq_last_receive_sent_time := f64 0;
     sq_send_seq := 1; sq_receive_seq := receive_seq;
     sq_ignore_nak_seq := 0; sq_last_ack_seq := 0; sq_retransmit_seq := 0;
     sq_rtt_sample_seq := 0; sq_sent_queue := [];
     sq_srtt := f64 0; sq_rttvar := f64 0; sq_rto := rto;
     sq_ready_queues := []; sq_ready_bytes := 0; sq_need_ack_bytes := 0; sq_last_ack_bytes := 0;
     sq_notify_queue := []; sq_last_write_fail_time := f64 0; sq_fast_readers := [];
     sq_old_sent := debug_queue_alloc DEBUG_QUEUE_SENT;
     sq_bytes_write := 0; sq_bytes_read := 0; sq_bytes_retransmit := 0; sq_bytes_invalid := 0;
     sq_cqs := ∅; sq_io := []; sq_clock_reads := 0 |}.

(** [serialqueue_alloc_commandqueue], for a queue number that is not in use. *)
Definition serialqueue_alloc_commandqueue (q : Z) (sq : serialqueue) : serialqueue :=
  set_cq q (mkCQ [] []) sq.

(** [serialqueue_free_commandqueue] refuses to free a queue that is in use. *)
Definition serialqueue_free_commandqueue (q : Z) (sq : serialqueue) : serialqueue :=
  match get_cq sq q with
  | mkCQ [] [] => sq <| sq_cqs ::= delete q |>
  | _ => sq
  end.

Definition serialqueue_add_fastreader (fr : fastreader) (sq : serialqueue) : serialqueue :=
  sq <| sq_fast_readers ::= fun l => l ++ [fr] |>.

Definition serialqueue_rm_fastreader (fr : fastreader) (sq : serialqueue) : serialqueue :=
  sq <| sq_fast_readers ::= List.filter (fun x => negb (fr_func x =? fr_func fr)) |>.

(** "Make sure min_clock is set in list": "Avoid mcu clock comparison 31-bit
    overflow issues". *)
Definition raise_min_clock (qm : queue_message) : queue_message :=
  if (u64 (qm_min_clock qm + Z.shiftl 3 29) <? qm_req_clock qm)
     && negb (qm_req_clock qm =? BACKGROUND_PRIORITY_CLOCK)
  then mkQM (qm_msg qm) (u64 (qm_req_clock qm - Z.shiftl 3 29)) (qm_req_clock qm)
         (qm_notify_id qm)
  else qm.

Definition serialqueue_send_batch (q : Z) (msgs : list queue_message) (sq : serialqueue)
    : serialqueue :=
  let msgs := map raise_min_clock msgs in
  let len := total_len msgs in
  match msgs with
  | qm :: _ =>
      if len =? 0 then sq
      else
        let min_clock := qm_min_clock qm in
        let cq := get_cq sq q in
        let '(mustwake, sq) :=
          match cq_upcoming cq with
          | [] =>
              let tr := (sq_tr sq) <| tr_upcoming_queues ::= fun l => l ++ [q] |> in
              let tr := if min_clock <? tr_min_release_clock tr
                        then tr <| tr_min_release_clock := min_clock |> else tr in
              if min_clock <? tr_need_kick_clock tr
              then (true, sq <| sq_tr := tr <| tr_need_kick_clock := 0 |> |>)
              else (false, sq <| sq_tr := tr |>)
          | _ => (false, sq)
          end in
        let sq := set_cq q (cq <| cq_upcoming ::= fun l => l ++ msgs |>) sq in
        let sq := sq <| sq_tr ::= fun tr => tr <| tr_upcoming_bytes ::= Z.add len |> |> in
        if mustwake then kick_bg_thread sq else sq
  | [] => sq
  end.

Definition serialqueue_send_one (q : Z) (qm : queue_message) (sq : serialqueue) : serialqueue :=
  serialqueue_send_batch q [qm] sq.

Definition serialqueue_send (q : Z) (msg : list Z) (min_clock req_clock notify_id : Z)
    (sq : serialqueue) : serialqueue :=
  serialqueue_send_one q (mkQM (qm_msg (message_fill msg)) min_clock req_clock notify_id) sq.

(** [serialqueue_pull]; [None]: the caller waits for a message. *)
Definition serialqueue_pull (sq : serialqueue) : option (option stamped_message) * serialqueue :=
  match rv_queue (sq_receiver sq) with
  | [] =>
      if pollreactor_is_exit (sq_pr sq) then (Some None, sq)
      else (None, sq <| sq_receiver ::= fun r => r <| rv_waiting := true |> |>)
  | qm :: q =>
      let sq := sq <| sq_receiver ::= fun r => r <| rv_queue := q |> |> in
      let sq := match sm_msg qm with
                | [] => sq
                | _ => sq <| sq_receiver ::= fun r => r <| rv_old_receive ::= debug_queue_add qm |> |>
                end in
      (Some (Some qm), sq)
  end.

Definition serialqueue_set_wire_frequency (frequency : double) (sq : serialqueue) : serialqueue :=
  sq <| sq_bittime_adjust := match sq_fd_type sq with
                             | SQT_CAN => fdiv (f64 1) frequency
                             | _ => fdiv (f64 10) frequency
                             end |>.

Definition serialqueue_set_receive_window (receive_window : Z) (sq : serialqueue) : serialqueue :=
  sq <| sq_receive_window := receive_window |>.

Definition serialqueue_set_clock_est (est_freq conv_time : double) (conv_clock last_clock : Z)
    (sq : serialqueue) : serialqueue :=
  sq <| sq_ce := clock_fill est_freq conv_time conv_clock last_clock |>.

Definition serialqueue_get_clock_est (sq : serialqueue) : clock_estimate := sq_ce sq.

(** The loop of [serialqueue_extract_old] over the old debug list. *)
Definition walk_debug (max : nat) (l : list stamped_message) : list stamped_message :=
  take max (List.filter (fun qm => negb (msg_len (sm_msg qm) =? 0)) l).

Definition serialqueue_extract_old (sentq : bool) (max : nat) (sq : serialqueue)
    : list stamped_message * serialqueue :=
  if sentq then
    (walk_debug max (sq_old_sent sq), sq <| sq_old_sent := debug_queue_alloc DEBUG_QUEUE_SENT |>)
  else
    (walk_debug max (rv_old_receive (sq_receiver sq)),
     sq <| sq_receiver ::= fun r => r <| rv_old_receive := debug_queue_alloc DEBUG_QUEUE_RECEIVE |> |>).
