(* ===== verification/Trdispatch.v ===== *)
(** * Trigger dispatch of the host: src/klippy/chelper/trdispatch.c

    While homing, every micro-controller reports that its trigger
    synchronisation object still works; the host extends the others' timeouts
    from these reports and, when one reports a trigger, triggers all others.

    The serial queues of the micro-controllers are a store indexed by number;
    a handler runs with the lock of the [struct trdispatch] held. *)
From S2P Require Import Prelude Double Protocol Msgblock Serialqueue.
Import Msgblock.

(** The serial queues. *)
Notation queues := (gmap Z serialqueue).

(** [struct trdispatch_mcu] *)
Record trdispatch_mcu : Set := mkTDM {
  tdm_fr : fastreader;
  tdm_sq : Z; tdm_cq : Z;
  tdm_trsync_oid : Z; tdm_set_timeout_msgtag : Z; tdm_trigger_msgtag : Z;
  tdm_last_status_clock : Z; tdm_expire_clock : Z;
  tdm_expire_ticks : Z; tdm_min_extend_ticks : Z;
  tdm_ce : clock_estimate }.
#[export] Instance eta_trdispatch_mcu : Eta trdispatch_mcu := fun r =>
  mkTDM (tdm_fr r) (tdm_sq r) (tdm_cq r) (tdm_trsync_oid r) (tdm_set_timeout_msgtag r)
    (tdm_trigger_msgtag r) (tdm_last_status_clock r) (tdm_expire_clock r)
    (tdm_expire_ticks r) (tdm_min_extend_ticks r) (tdm_ce r).

(** [struct trdispatch] *)
Record trdispatch : Set := mkTD {
  td_list : list trdispatch_mcu;
  td_is_active : bool; td_can_trigger : bool; td_dispatch_reason : Z }.
#[export] Instance eta_trdispatch : Eta trdispatch := fun r =>
  mkTD (td_list r) (td_is_active r) (td_can_trigger r) (td_dispatch_reason r).

(** [serialqueue_send_one] on a queue of the store. *)
Definition send_one (m : trdispatch_mcu) (qm : queue_message) (sqs : queues) : queues :=
  alter (serialqueue_send_one (tdm_cq m) qm) (tdm_sq m) sqs.

(** The message of [send_trsync_trigger]. *)
Definition trigger_message (reason : Z) (m : trdispatch_mcu) : queue_message :=
  message_alloc_and_encode [tdm_trigger_msgtag m; tdm_trsync_oid m; reason].

Definition send_trsync_trigger (reason : Z) (m : trdispatch_mcu) (sqs : queues) : queues :=
  send_one m (trigger_message reason m) sqs.

Definition send_trsync_set_timeout (m : trdispatch_mcu) (sqs : queues) : queues :=
  let qm := message_alloc_and_encode
    [tdm_set_timeout_msgtag m; tdm_trsync_oid m; u32 (tdm_expire_clock m)] in
  send_one m (mkQM (qm_msg qm) (qm_min_clock qm) (tdm_expire_clock m) (qm_notify_id qm)) sqs.

(** The state of the search for the smallest and the next smallest status
    time; the index is that of [min_tdm]. *)
Record min_times : Set := mkMin {
  mt_min_time : double; mt_next_min_time : double; mt_min_tdm : option nat }.

(** "Determine minimum acknowledged time among all mcus" *)
Fixpoint find_min_times (ms : list trdispatch_mcu) (i : nat) (a : min_times) : min_times :=
  match ms with
  | [] => a
  | m :: ms =>
      let status_time := clock_to_time (tdm_ce m) (tdm_last_status_clock m) in
      let a :=
        if flt status_time (mt_next_min_time a) then
          if flt status_time (mt_min_time a) then
            mkMin status_time (mt_min_time a) (Some i)
          else mkMin (mt_min_time a) status_time (mt_min_tdm a)
        else a in
      find_min_times ms (S i) a
  end.

Definition min_status_times (ms : list trdispatch_mcu) : min_times :=
  let a := find_min_times ms 0 (mkMin PR_NEVER PR_NEVER None) in
  if feq (mt_next_min_time a) PR_NEVER
  then mkMin (mt_min_time a) (mt_min_time a) (mt_min_tdm a) else a.

(** [(int64_t)(expire - m->expire_clock) >= m->min_extend_ticks], a comparison
    of a signed with an unsigned 64 bit number. *)
Definition must_extend (expire : Z) (m : trdispatch_mcu) : bool :=
  tdm_min_extend_ticks m <=? u64 (s64 (expire - tdm_expire_clock m)).

(** "Send trsync_set_timeout messages to other mcus (if needed)" *)
Fixpoint extend_timeouts (a : min_times) (ms : list trdispatch_mcu) (i : nat) (sqs : queues)
    : option (list trdispatch_mcu * queues) :=
  match ms with
  | [] => Some ([], sqs)
  | m :: ms =>
      let status_time := if bool_decide (mt_min_tdm a = Some i) then mt_next_min_time a
                         else mt_min_time a in
      clock ← clock_from_time (tdm_ce m) status_time;
      let expire := u64 (clock + tdm_expire_ticks m) in
      let '(m, sqs) :=
        if must_extend expire m then
          let m := m <| tdm_expire_clock := expire |> in (m, send_trsync_set_timeout m sqs)
        else (m, sqs) in
      '(ms, sqs) ← extend_timeouts a ms (S i) sqs;
      Some (m :: ms, sqs)
  end.

(** [handle_trsync_state] for the micro-controller at position [i] of the list. *)
Definition handle_trsync_state (i : nat) (data : list Z) (td : trdispatch) (sqs : queues)
    : option (trdispatch * queues) :=
  match td_list td !! i, msgblock_decode 5 data with
  | Some tdm, Some [_; oid; can_trigger; _; clock] =>
      if negb (oid =? tdm_trsync_oid tdm) then Some (td, sqs)
      else if negb (td_can_trigger td) then Some (td, sqs)
      else if can_trigger =? 0 then
        (* mcu reports trigger or timeout - propagate to all mcus *)
        Some (td <| td_can_trigger := false |>,
              foldl (fun sqs m => send_trsync_trigger (td_dispatch_reason td) m sqs) sqs (td_list td))
      else
        (* mcu is still working okay - update last_status_clock *)
        let ce := match sqs !! tdm_sq tdm with
                  | Some sq => serialqueue_get_clock_est sq
                  | None => tdm_ce tdm
                  end in
        let tdm := tdm <| tdm_ce := ce |>
                       <| tdm_last_status_clock := clock_from_clock32 ce clock |> in
        let ms := <[i := tdm]> (td_list td) in
        '(ms, sqs) ← extend_timeouts (min_status_times ms) ms 0 sqs;
        Some (td <| td_list := ms |>, sqs)
  | _, _ => Some (td, sqs)
  end.

Definition trdispatch_start (dispatch_reason : Z) (td : trdispatch) (sqs : queues)
    : trdispatch * queues :=
  if td_is_active td || (match td_list td with [] => true | _ => false end) then (td, sqs)
  else
    (td <| td_dispatch_reason := dispatch_reason |> <| td_is_active := true |>
        <| td_can_trigger := true |>,
     foldl (fun sqs m => alter (serialqueue_add_fastreader (tdm_fr m)) (tdm_sq m) sqs)
       sqs (td_list td)).

Definition trdispatch_stop (td : trdispatch) (sqs : queues) : trdispatch * queues :=
  if negb (td_is_active td) then (td, sqs)
  else
    (td <| td_is_active := false |>,
     foldl (fun sqs m => alter (serialqueue_rm_fastreader (tdm_fr m)) (tdm_sq m) sqs)
       sqs (td_list td)).

Definition trdispatch_alloc : trdispatch := mkTD [] false false 0.

(** [trdispatch_mcu_alloc]; [fr_func] identifies the new object's callback. *)
Definition trdispatch_mcu_alloc (sq cq trsync_oid set_timeout_msgtag trigger_msgtag
    state_msgtag fr_func : Z) (td : trdispatch) : trdispatch :=
  let prefix := qm_msg (message_alloc_and_encode [state_msgtag; trsync_oid]) in
  td <| td_list ::= fun l =>
    l ++ [mkTDM (mkFR prefix fr_func) sq cq trsync_oid set_timeout_msgtag trigger_msgtag
            0 0 0 0 (mkCE 0 0 (f64 0) (f64 0))] |>.

Definition trdispatch_mcu_setup (i : nat) (last_status_clock expire_clock expire_ticks
    min_extend_ticks : Z) (td : trdispatch) (sqs : queues) : trdispatch :=
  td <| td_list ::= alter (fun tdm =>
    tdm <| tdm_last_status_clock := last_status_clock |> <| tdm_expire_clock := expire_clock |>
        <| tdm_expire_ticks := expire_ticks |> <| tdm_min_extend_ticks := min_extend_ticks |>
        <| tdm_ce := match sqs !! tdm_sq tdm with
                     | Some sq => serialqueue_get_clock_est sq | None => tdm_ce tdm end |>) i |>.
