(* ===== verification/Devices.v ===== *)
(** * The structures of the device drivers

    The data of the SPI and I2C buses, the sensors, the load cell probe and the
    displays (src/src/spicmds.c, i2ccmds.c, sensor_*.c, thermocouple.c,
    sos_filter.c, load_cell_probe.c, neopixel.c, lcd_*.c, sdiocmds.c), with the
    contents of zeroed memory for each.  A [struct spidev_s *] and the like is
    the oid of the object, [NULL] is [None].  A [struct spi_software] is reached
    through its device only and is never changed, so it is stored there. *)
From S2P Require Import Prelude.

(** [struct spi_software] (spi_software.c) *)
Record spi_software : Set := mkSpiSoftware {
  ss_miso : Z; ss_mosi : Z; ss_sclk : Z; ss_sck_ticks : Z; ss_mode : Z
}.
#[export] Instance eta_spi_software : Eta spi_software := fun r =>
  mkSpiSoftware (ss_miso r) (ss_mosi r) (ss_sclk r) (ss_sck_ticks r) (ss_mode r).

(** [struct spi_config]: the bus a board's [spi_setup] was called for. *)
Record spi_config : Set := mkSpiConfig {
  cfg_bus : Z; cfg_mode : Z; cfg_rate : Z
}.
#[export] Instance eta_spi_config : Eta spi_config := fun r =>
  mkSpiConfig (cfg_bus r) (cfg_mode r) (cfg_rate r).

(** The union of [struct spidev_s]. *)
Inductive spi_union : Set :=
| SU_zero | SU_config (c : spi_config) | SU_software (s : spi_software).

(** [struct spidev_s] (spicmds.c) *)
Record spidev_s : Set := mkSpidev {
  sd_bus : spi_union; sd_pin : Z; sd_flags : Z
}.
#[export] Instance eta_spidev_s : Eta spidev_s := fun r =>
  mkSpidev (sd_bus r) (sd_pin r) (sd_flags r).
Definition spidev_s_zero : spidev_s := mkSpidev SU_zero 0 0.

(** [struct spidev_shutdown_s] (spicmds.c); a pointer to a bus device is its oid. *)
Record spidev_shutdown_s : Set := mkSpidevShutdown {
  sh_spi : option Z; sh_msg_len : Z; sh_msg : list Z
}.
#[export] Instance eta_spidev_shutdown_s : Eta spidev_shutdown_s := fun r =>
  mkSpidevShutdown (sh_spi r) (sh_msg_len r) (sh_msg r).
Definition spidev_shutdown_s_zero : spidev_shutdown_s := mkSpidevShutdown None 0 [].

(** [struct i2c_software] (i2c_software.c) *)
Record i2c_software : Set := mkI2cSoftware {
  is_scl_out : Z; is_sda_out : Z; is_scl_in : Z; is_sda_in : Z; is_addr : Z;
  is_ticks : Z
}.
#[export] Instance eta_i2c_software : Eta i2c_software := fun r =>
  mkI2cSoftware (is_scl_out r) (is_sda_out r) (is_scl_in r) (is_sda_in r) (is_addr r)
    (is_ticks r).

(** [struct i2c_config]: the bus a board's [i2c_setup] was called for. *)
Record i2c_config : Set := mkI2cConfig {
  icfg_bus : Z; icfg_rate : Z; icfg_addr : Z
}.
#[export] Instance eta_i2c_config : Eta i2c_config := fun r =>
  mkI2cConfig (icfg_bus r) (icfg_rate r) (icfg_addr r).

(** The union of [struct i2cdev_s]. *)
Inductive i2c_union : Set :=
| IU_zero | IU_hw (c : i2c_config) | IU_sw (s : i2c_software).

(** [struct i2cdev_s] (i2ccmds.h) *)
Record i2cdev_s : Set := mkI2cdev {
  id_bus : i2c_union; id_flags : Z
}.
#[export] Instance eta_i2cdev_s : Eta i2cdev_s := fun r =>
  mkI2cdev (id_bus r) (id_flags r).
Definition i2cdev_s_zero : i2cdev_s := mkI2cdev IU_zero 0.

(** [struct sensor_bulk] (sensor_bulk.h) *)
Record sensor_bulk : Set := mkSensorBulk {
  sb_sequence : Z; sb_possible_overflows : Z; sb_data_count : Z; sb_data : list Z
}.
#[export] Instance eta_sensor_bulk : Eta sensor_bulk := fun r =>
  mkSensorBulk (sb_sequence r) (sb_possible_overflows r) (sb_data_count r) (sb_data r).
Definition sensor_bulk_zero : sensor_bulk := mkSensorBulk 0 0 0 (replicate 51 0).

(** [struct adxl345] (sensor_adxl345.c); its timer is [TObj oid 0], as for all sensors below. *)
Record adxl345 : Set := mkAdxl345 {
  ax_rest_ticks : Z; ax_spi : option Z; ax_flags : Z; ax_sb : sensor_bulk
}.
#[export] Instance eta_adxl345 : Eta adxl345 := fun r =>
  mkAdxl345 (ax_rest_ticks r) (ax_spi r) (ax_flags r) (ax_sb r).
Definition adxl345_zero : adxl345 := mkAdxl345 0 None 0 sensor_bulk_zero.

(** [struct lis2dw] (sensor_lis2dw.c); [li_bus] is the union of the two pointers. *)
Record lis2dw : Set := mkLis2dw {
  li_rest_ticks : Z; li_bus : option Z; li_bus_type : Z; li_flags : Z; li_model : Z;
  li_fifo_bytes_pending : Z; li_sb : sensor_bulk
}.
#[export] Instance eta_lis2dw : Eta lis2dw := fun r =>
  mkLis2dw (li_rest_ticks r) (li_bus r) (li_bus_type r) (li_flags r) (li_model r)
    (li_fifo_bytes_pending r) (li_sb r).
Definition lis2dw_zero : lis2dw := mkLis2dw 0 None 0 0 0 0 sensor_bulk_zero.

(** [struct mpu9250] (sensor_mpu9250.c) *)
Record mpu9250 : Set := mkMpu9250 {
  mp_rest_ticks : Z; mp_i2c : option Z; mp_fifo_max : Z; mp_fifo_pkts_bytes : Z;
  mp_flags : Z; mp_sb : sensor_bulk
}.
#[export] Instance eta_mpu9250 : Eta mpu9250 := fun r =>
  mkMpu9250 (mp_rest_ticks r) (mp_i2c r) (mp_fifo_max r) (mp_fifo_pkts_bytes r)
    (mp_flags r) (mp_sb r).
Definition mpu9250_zero : mpu9250 := mkMpu9250 0 None 0 0 0 sensor_bulk_zero.

(** [struct icm20948] (sensor_icm20948.c) *)
Record icm20948 : Set := mkIcm20948 {
  ic_rest_ticks : Z; ic_i2c : option Z; ic_fifo_max : Z; ic_fifo_pkts_bytes : Z;
  ic_flags : Z; ic_sb : sensor_bulk
}.
#[export] Instance eta_icm20948 : Eta icm20948 := fun r =>
  mkIcm20948 (ic_rest_ticks r) (ic_i2c r) (ic_fifo_max r) (ic_fifo_pkts_bytes r)
    (ic_flags r) (ic_sb r).
Definition icm20948_zero : icm20948 := mkIcm20948 0 None 0 0 0 sensor_bulk_zero.

(** [struct ldc1612] (sensor_ldc1612.c) *)
Record ldc1612 : Set := mkLdc1612 {
  ld_rest_ticks : Z; ld_i2c : option Z; ld_flags : Z; ld_sb : sensor_bulk;
  ld_intb_pin : Z; ld_ts : option Z; ld_homing_flags : Z; ld_trigger_reason : Z;
  ld_error_reason : Z; ld_trigger_threshold : Z; ld_homing_clock : Z
}.
#[export] Instance eta_ldc1612 : Eta ldc1612 := fun r =>
  mkLdc1612 (ld_rest_ticks r) (ld_i2c r) (ld_flags r) (ld_sb r) (ld_intb_pin r) (ld_ts r)
    (ld_homing_flags r) (ld_trigger_reason r) (ld_error_reason r) (ld_trigger_threshold r)
    (ld_homing_clock r).
Definition ldc1612_zero : ldc1612 := mkLdc1612 0 None 0 sensor_bulk_zero 0 None 0 0 0 0 0.

(** [struct spi_angle] (sensor_angle.c) *)
Record spi_angle : Set := mkSpiAngle {
  sa_rest_ticks : Z; sa_spi : option Z; sa_flags : Z; sa_chip_type : Z;
  sa_time_shift : Z; sa_overflow : Z; sa_sb : sensor_bulk
}.
#[export] Instance eta_spi_angle : Eta spi_angle := fun r =>
  mkSpiAngle (sa_rest_ticks r) (sa_spi r) (sa_flags r) (sa_chip_type r) (sa_time_shift r)
    (sa_overflow r) (sa_sb r).
Definition spi_angle_zero : spi_angle := mkSpiAngle 0 None 0 0 0 0 sensor_bulk_zero.

(** [struct ads1220_adc] (sensor_ads1220.c) *)
Record ads1220_adc : Set := mkAds1220 {
  ad_rest_ticks : Z; ad_data_ready : Z; ad_spi : option Z; ad_pending_flag : Z;
  ad_data_count : Z; ad_sb : sensor_bulk; ad_lce : option Z
}.
#[export] Instance eta_ads1220_adc : Eta ads1220_adc := fun r =>
  mkAds1220 (ad_rest_ticks r) (ad_data_ready r) (ad_spi r) (ad_pending_flag r)
    (ad_data_count r) (ad_sb r) (ad_lce r).
Definition ads1220_adc_zero : ads1220_adc := mkAds1220 0 0 None 0 0 sensor_bulk_zero None.

(** [struct hx71x_adc] (sensor_hx71x.c) *)
Record hx71x_adc : Set := mkHx71x {
  hx_gain_channel : Z; hx_flags : Z; hx_rest_ticks : Z; hx_last_error : Z; hx_dout :
  Z; hx_sclk : Z; hx_sb : sensor_bulk; hx_lce : option Z
}.
#[export] Instance eta_hx71x_adc : Eta hx71x_adc := fun r =>
  mkHx71x (hx_gain_channel r) (hx_flags r) (hx_rest_ticks r) (hx_last_error r) (hx_dout r)
    (hx_sclk r) (hx_sb r) (hx_lce r).
Definition hx71x_adc_zero : hx71x_adc := mkHx71x 0 0 0 0 0 0 sensor_bulk_zero None.

(** [struct thermocouple_spi] (thermocouple.c) *)
Record thermocouple_spi : Set := mkThermocouple {
  th_rest_time : Z; th_min_value : Z; th_max_value : Z; th_spi : option Z;
  th_max_invalid : Z; th_invalid_count : Z; th_chip_type : Z; th_flags : Z
}.
#[export] Instance eta_thermocouple_spi : Eta thermocouple_spi := fun r =>
  mkThermocouple (th_rest_time r) (th_min_value r) (th_max_value r) (th_spi r)
    (th_max_invalid r) (th_invalid_count r) (th_chip_type r) (th_flags r).
Definition thermocouple_spi_zero : thermocouple_spi := mkThermocouple 0 0 0 None 0 0 0 0.

(** [struct sos_filter_section] (sos_filter.c) *)
Record sos_filter_section : Set := mkSosSection {
  sec_coeff : list Z; sec_state : list Z
}.
#[export] Instance eta_sos_filter_section : Eta sos_filter_section := fun r =>
  mkSosSection (sec_coeff r) (sec_state r).
Definition sos_filter_section_zero : sos_filter_section := mkSosSection (replicate 5 0)
  (replicate 2 0).

(** [struct sos_filter] (sos_filter.c) with its trailing array *)
Record sos_filter : Set := mkSosFilter {
  sf_max_sections : Z; sf_n_sections : Z; sf_coeff_frac_bits : Z; sf_is_active : Z;
  sf_coeff_rounding : Z; sf_filter : list sos_filter_section
}.
#[export] Instance eta_sos_filter : Eta sos_filter := fun r =>
  mkSosFilter (sf_max_sections r) (sf_n_sections r) (sf_coeff_frac_bits r)
    (sf_is_active r) (sf_coeff_rounding r) (sf_filter r).
Definition sos_filter_zero : sos_filter := mkSosFilter 0 0 0 0 0 [].

(** [struct load_cell_probe] (load_cell_probe.c) *)
Record load_cell_probe : Set := mkLoadCellProbe {
  lce_trigger_grams : Z; lce_trigger_ticks : Z; lce_last_sample_ticks : Z;
  lce_rest_ticks : Z; lce_homing_start_time : Z; lce_ts : option Z;
  lce_safety_counts_min : Z; lce_safety_counts_max : Z; lce_tare_counts : Z;
  lce_flags : Z; lce_trigger_reason : Z; lce_error_reason : Z; lce_watchdog_max : Z;
  lce_watchdog_count : Z; lce_trigger_grams_fixed : Z; lce_grams_per_count : Z;
  lce_sf : option Z
}.
#[export] Instance eta_load_cell_probe : Eta load_cell_probe := fun r =>
  mkLoadCellProbe (lce_trigger_grams r) (lce_trigger_ticks r) (lce_last_sample_ticks r)
    (lce_rest_ticks r) (lce_homing_start_time r) (lce_ts r) (lce_safety_counts_min r)
    (lce_safety_counts_max r) (lce_tare_counts r) (lce_flags r) (lce_trigger_reason r)
    (lce_error_reason r) (lce_watchdog_max r) (lce_watchdog_count r)
    (lce_trigger_grams_fixed r) (lce_grams_per_count r) (lce_sf r).
Definition load_cell_probe_zero : load_cell_probe := mkLoadCellProbe 0 0 0 0 0 None 0 0 0 0
  0 0 0 0 0 0 None.

(** [struct neopixel_s] (neopixel.c) with its trailing array *)
Record neopixel_s : Set := mkNeopixel {
  np_pin : Z; np_bit_max_ticks : Z; np_last_req_time : Z; np_reset_min_ticks : Z;
  np_data_size : Z; np_data : list Z
}.
#[export] Instance eta_neopixel_s : Eta neopixel_s := fun r =>
  mkNeopixel (np_pin r) (np_bit_max_ticks r) (np_last_req_time r) (np_reset_min_ticks r)
    (np_data_size r) (np_data r).
Definition neopixel_s_zero : neopixel_s := mkNeopixel 0 0 0 0 0 [].

(** [struct hd44780] (lcd_hd44780.c) *)
Record hd44780 : Set := mkHd44780 {
  hd_last_cmd_time : Z; hd_cmd_wait_ticks : Z; hd_last : Z; hd_rs : Z; hd_e : Z;
  hd_d4 : Z; hd_d5 : Z; hd_d6 : Z; hd_d7 : Z
}.
#[export] Instance eta_hd44780 : Eta hd44780 := fun r =>
  mkHd44780 (hd_last_cmd_time r) (hd_cmd_wait_ticks r) (hd_last r) (hd_rs r) (hd_e r)
    (hd_d4 r) (hd_d5 r) (hd_d6 r) (hd_d7 r).
Definition hd44780_zero : hd44780 := mkHd44780 0 0 0 0 0 0 0 0 0.

(** [struct st7920] (lcd_st7920.c) *)
Record st7920 : Set := mkSt7920 {
  lc_last_cmd_time : Z; lc_sync_wait_ticks : Z; lc_cmd_wait_ticks : Z; lc_sclk : Z;
  lc_sid : Z
}.
#[export] Instance eta_st7920 : Eta st7920 := fun r =>
  mkSt7920 (lc_last_cmd_time r) (lc_sync_wait_ticks r) (lc_cmd_wait_ticks r) (lc_sclk r)
    (lc_sid r).
Definition st7920_zero : st7920 := mkSt7920 0 0 0 0 0.

(** [struct sdiodev_s] (sdiocmds.c); [sio_config] is the bus of [sdio_setup], if it was called. *)
Record sdiodev_s : Set := mkSdiodev {
  sio_config : option Z; sio_blocksize : Z; sio_speed : Z; sio_data_buffer : list Z
}.
#[export] Instance eta_sdiodev_s : Eta sdiodev_s := fun r =>
  mkSdiodev (sio_config r) (sio_blocksize r) (sio_speed r) (sio_data_buffer r).
Definition sdiodev_s_zero : sdiodev_s := mkSdiodev None 0 0 (replicate 4096 0).
