(* ===== verification/World.v ===== *)
(** * The firmware's data model

    The structures of src/src/*.c as records (those of the device drivers are
    in Devices), the memory they live in as one
    [world] record, and the monad in which every firmware operation runs.

    Pointers are modelled by what they designate.  A [struct timer *] is a
    [tref]: one of the three static timers of sched.c, or the timer embedded
    in the object with a given oid.  A pointer to a component's structure is
    the oid it was allocated for; a pointer to a move queue node is its
    address.  [NULL] is [None]. *)
From S2P Require Import Prelude Devices.

(** ** Timers (sched.h) *)

(** A [struct timer *]; [TObj oid slot] is a timer embedded in object [oid]
    (slot 1 is the second timer of a [struct trsync]). *)
Inductive tref : Set :=
| TPeriodic
| TSentinel
| TDeleted
| TObj (oid slot : Z).

#[export] Instance tref_eq_dec : EqDecision tref.
Proof. solve_decision. Defined.

#[export] Instance tref_countable : Countable tref.
Proof.
  refine (inj_countable'
    (fun t => match t with
              | TPeriodic => inl 0%nat | TSentinel => inl 1%nat | TDeleted => inl 2%nat
              | TObj o s => inr (o, s) end)
    (fun x => match x with
              | inl 0%nat => TPeriodic | inl 1%nat => TSentinel | inl _ => TDeleted
              | inr (o, s) => TObj o s end) _).
  by intros [].
Defined.

(** The timer callbacks, i.e. the values stored in [timer.func]. *)
Inductive timer_func : Set :=
| FN_periodic_event | FN_sentinel_event | FN_deleted_event
| FN_stepper_event_full
| FN_trsync_report_event | FN_trsync_expire_event
| FN_endstop_event | FN_endstop_oversample_event
| FN_digital_toggle_event | FN_digital_load_event
| FN_pwm_event | FN_pwm_end_event
| FN_analog_in_event | FN_buttons_event | FN_counter_event
| FN_tmcuart_read_event | FN_tmcuart_read_sync_event | FN_tmcuart_send_finish_event
| FN_tmcuart_send_event | FN_tmcuart_send_sync_event
| FN_adxl345_event | FN_lis2dw_event | FN_mpu9250_event | FN_icm20948_event
| FN_ldc1612_event | FN_angle_event | FN_ads1220_event | FN_hx71x_event
| FN_thermocouple_event | FN_watchdog_event.

#[export] Instance timer_func_eq_dec : EqDecision timer_func.
Proof. solve_decision. Defined.

(** [struct timer] *)
Record timer : Set := mkTimer {
  next : option tref;
  func : option timer_func;
  waketime : Z
}.
#[export] Instance eta_timer : Eta timer :=
  fun r => mkTimer (next r) (func r) (waketime r).

(** Memory returned by [alloc_chunk] is zeroed, hence so is a fresh timer. *)
Definition timer_zero : timer := mkTimer None None 0.

(** [SF_DONE], [SF_RESCHEDULE] *)
Inductive sf_result : Set := SF_DONE | SF_RESCHEDULE.

(** ** Move queues (basecmd.h) *)

(** [struct stepper_move] (stepper.c) *)
Record stepper_move : Set := mkStepperMove {
  sm_interval : Z; sm_add : Z; sm_count : Z; sm_flags : Z }.
#[export] Instance eta_stepper_move : Eta stepper_move :=
  fun r => mkStepperMove (sm_interval r) (sm_add r) (sm_count r) (sm_flags r).

(** [struct digital_move] (gpiocmds.c) *)
Record digital_move : Set := mkDigitalMove { dm_waketime : Z; dm_on_duration : Z }.

(** [struct pwm_move] (pwmcmds.c) *)
Record pwm_move : Set := mkPwmMove { pm_waketime : Z; pm_value : Z }.

(** What the owner of a node stores behind its [struct move_node]. *)
Inductive move_data : Set :=
| MD_none
| MD_stepper (m : stepper_move)
| MD_digital (m : digital_move)
| MD_pwm (m : pwm_move).

(** [struct move_node] with the data of the structure it is embedded in. *)
Record move_node : Set := mkMoveNode { mn_next : option Z; mn_data : move_data }.
#[export] Instance eta_move_node : Eta move_node :=
  fun r => mkMoveNode (mn_next r) (mn_data r).

(** [struct move_queue_head] *)
Record move_queue_head : Set := mkMQ { mq_first : option Z; mq_last : option Z }.
#[export] Instance eta_mq : Eta move_queue_head := fun r => mkMQ (mq_first r) (mq_last r).
Definition mq_zero : move_queue_head := mkMQ None None.

(** ** Trigger signals (trsync.h) *)

(** The callbacks passed to [trsync_add_signal]. *)
Inductive signal_func : Set := SIG_stepper_stop.

(** [struct trsync_signal]; a pointer to one is the oid of the object that
    embeds it. *)
Record trsync_signal : Set := mkSignal { sg_next : option Z; sg_func : option signal_func }.
#[export] Instance eta_signal : Eta trsync_signal := fun r => mkSignal (sg_next r) (sg_func r).
Definition signal_zero : trsync_signal := mkSignal None None.

(** ** The structures of the components *)

(** [struct stepper]; its [time] is the timer [TObj oid 0], its
    [stop_signal] the signal of the same oid. *)
Record stepper : Set := mkStepper {
  st_interval : Z; st_add : Z; st_count : Z;
  st_next_step_time : Z; st_step_pulse_ticks : Z;
  st_step_pin : Z; st_dir_pin : Z;
  st_position : Z;
  st_mq : move_queue_head;
  st_flags : Z
}.
#[export] Instance eta_stepper : Eta stepper := fun r =>
  mkStepper (st_interval r) (st_add r) (st_count r) (st_next_step_time r)
    (st_step_pulse_ticks r) (st_step_pin r) (st_dir_pin r) (st_position r)
    (st_mq r) (st_flags r).
Definition stepper_zero : stepper := mkStepper 0 0 0 0 0 0 0 0 mq_zero 0.

(** [struct trsync]; [report_time] is [TObj oid 0], [expire_time] is
    [TObj oid 1]. *)
Record trsync : Set := mkTrsync {
  ts_report_ticks : Z;
  ts_signals : option Z;
  ts_flags : Z; ts_trigger_reason : Z; ts_expire_reason : Z
}.
#[export] Instance eta_trsync : Eta trsync := fun r =>
  mkTrsync (ts_report_ticks r) (ts_signals r) (ts_flags r) (ts_trigger_reason r)
    (ts_expire_reason r).
Definition trsync_zero : trsync := mkTrsync 0 None 0 0 0.

(** [struct endstop] *)
Record endstop : Set := mkEndstop {
  es_pin : Z;
  es_rest_time : Z; es_sample_time : Z; es_nextwake : Z;
  es_ts : option Z;
  es_flags : Z; es_sample_count : Z; es_trigger_count : Z; es_trigger_reason : Z
}.
#[export] Instance eta_endstop : Eta endstop := fun r =>
  mkEndstop (es_pin r) (es_rest_time r) (es_sample_time r) (es_nextwake r) (es_ts r)
    (es_flags r) (es_sample_count r) (es_trigger_count r) (es_trigger_reason r).
Definition endstop_zero : endstop := mkEndstop 0 0 0 0 None 0 0 0 0.

(** [struct digital_out_s] *)
Record digital_out_s : Set := mkDigitalOut {
  do_on_duration : Z; do_off_duration : Z; do_end_time : Z;
  do_pin : Z;
  do_max_duration : Z; do_cycle_time : Z;
  do_mq : move_queue_head;
  do_flags : Z
}.
#[export] Instance eta_digital_out : Eta digital_out_s := fun r =>
  mkDigitalOut (do_on_duration r) (do_off_duration r) (do_end_time r) (do_pin r)
    (do_max_duration r) (do_cycle_time r) (do_mq r) (do_flags r).
Definition digital_out_zero : digital_out_s := mkDigitalOut 0 0 0 0 0 0 mq_zero 0.

(** [struct pwm_out_s] *)
Record pwm_out_s : Set := mkPwmOut {
  po_pin : Z; po_max_duration : Z; po_default_value : Z; po_mq : move_queue_head
}.
#[export] Instance eta_pwm_out : Eta pwm_out_s := fun r =>
  mkPwmOut (po_pin r) (po_max_duration r) (po_default_value r) (po_mq r).
Definition pwm_out_zero : pwm_out_s := mkPwmOut 0 0 0 mq_zero.

(** [struct analog_in] *)
Record analog_in : Set := mkAnalogIn {
  ai_rest_time : Z; ai_sample_time : Z; ai_next_begin_time : Z;
  ai_value : Z; ai_min_value : Z; ai_max_value : Z;
  ai_pin : Z;
  ai_invalid_count : Z; ai_range_check_count : Z;
  ai_state : Z; ai_sample_count : Z
}.
#[export] Instance eta_analog_in : Eta analog_in := fun r =>
  mkAnalogIn (ai_rest_time r) (ai_sample_time r) (ai_next_begin_time r) (ai_value r)
    (ai_min_value r) (ai_max_value r) (ai_pin r) (ai_invalid_count r)
    (ai_range_check_count r) (ai_state r) (ai_sample_count r).
Definition analog_in_zero : analog_in := mkAnalogIn 0 0 0 0 0 0 0 0 0 0 0.

(** [struct buttons]; [bt_pins] is the trailing array [pins]. *)
Record buttons : Set := mkButtons {
  bt_rest_ticks : Z;
  bt_pressed : Z; bt_last_pressed : Z;
  bt_report_count : Z; bt_reports : list Z;
  bt_ack_count : Z; bt_retransmit_state : Z; bt_retransmit_count : Z;
  bt_button_count : Z;
  bt_pins : list Z
}.
#[export] Instance eta_buttons : Eta buttons := fun r =>
  mkButtons (bt_rest_ticks r) (bt_pressed r) (bt_last_pressed r) (bt_report_count r)
    (bt_reports r) (bt_ack_count r) (bt_retransmit_state r) (bt_retransmit_count r)
    (bt_button_count r) (bt_pins r).

(** [struct counter] *)
Record counter : Set := mkCounter {
  ct_poll_ticks : Z; ct_sample_ticks : Z; ct_next_sample_time : Z;
  ct_count : Z; ct_last_count_time : Z;
  ct_flags : Z; ct_pin : Z
}.
#[export] Instance eta_counter : Eta counter := fun r =>
  mkCounter (ct_poll_ticks r) (ct_sample_ticks r) (ct_next_sample_time r) (ct_count r)
    (ct_last_count_time r) (ct_flags r) (ct_pin r).
Definition counter_zero : counter := mkCounter 0 0 0 0 0 0 0.

(** [struct tmcuart_s] (tmcuart.c) *)
Record tmcuart_s : Set := mkTmcuart {
  tu_tx_pin : Z; tu_rx_pin : Z;
  tu_flags : Z;
  tu_pos : Z; tu_read_count : Z; tu_write_count : Z;
  tu_cfg_bit_time : Z; tu_bit_time : Z;
  tu_data : list Z
}.
#[export] Instance eta_tmcuart : Eta tmcuart_s := fun r =>
  mkTmcuart (tu_tx_pin r) (tu_rx_pin r) (tu_flags r) (tu_pos r) (tu_read_count r)
    (tu_write_count r) (tu_cfg_bit_time r) (tu_bit_time r) (tu_data r).
Definition tmcuart_zero : tmcuart_s := mkTmcuart 0 0 0 0 0 0 0 0 (replicate 10 0).

(** ** The consoles *)

(** [struct canbus_msg] (generic/canbus.h).  [cm_data] holds the bytes of
    [data] that are set. *)
Record canbus_msg : Set := mkCanMsg { cm_id : Z; cm_dlc : Z; cm_data : list Z }.
Definition canbus_msg_zero : canbus_msg := mkCanMsg 0 0 (replicate 8 0).

(** [struct canbus_data] (generic/canserial.c); its two [task_wake] variables
    are [can_tx_wake] and [can_rx_wake] below. *)
Record canbus_data : Set := mkCanData {
  cd_assigned_id : Z; cd_uuid : list Z;
  cd_transmit_pos : Z; cd_transmit_max : Z;
  cd_receive_pos : Z;
  cd_admin_pull_pos : Z; cd_admin_push_pos : Z;
  cd_admin_queue : list canbus_msg;
  cd_transmit_buf : list Z; cd_receive_buf : list Z
}.
#[export] Instance eta_canbus_data : Eta canbus_data := fun r =>
  mkCanData (cd_assigned_id r) (cd_uuid r) (cd_transmit_pos r) (cd_transmit_max r)
    (cd_receive_pos r) (cd_admin_pull_pos r) (cd_admin_push_pos r) (cd_admin_queue r)
    (cd_transmit_buf r) (cd_receive_buf r).
Definition canbus_data_zero : canbus_data :=
  mkCanData 0 (replicate 6 0) 0 0 0 0 0 (replicate 8 canbus_msg_zero) (replicate 96 0)
    (replicate 192 0).

(** The variables of generic/usb_canbus.c that a control request fills. *)
Inductive gs_var : Set := GS_host_config | GS_device_bittiming | GS_device_mode.

(** What [usb_xfer_data] (generic/usb_cdc.c and usb_canbus.c) points into:
    nothing, constant data such as a descriptor, the serial number of the
    chip, or a variable. *)
Inductive usb_region : Set :=
| UR_null | UR_const (data : list Z) | UR_serialid | UR_line_coding | UR_gs (v : gs_var).

(** The static variables of generic/usb_cdc.c and those of the control endpoint
    of generic/usb_canbus.c, of which a build has one; [line_coding] and the
    [ub_gs] variables as their bytes. *)
Record usb_cdc : Set := mkUsbCdc {
  ub_transmit_buf : list Z; ub_transmit_pos : Z;
  ub_receive_buf : list Z; ub_receive_pos : Z;
  ub_xfer_data : usb_region * Z; ub_xfer_size : Z; ub_xfer_flags : Z;
  ub_line_coding : list Z; ub_line_control_state : Z;
  ub_gs : gs_var -> list Z
}.
#[export] Instance eta_usb_cdc : Eta usb_cdc := fun r =>
  mkUsbCdc (ub_transmit_buf r) (ub_transmit_pos r) (ub_receive_buf r) (ub_receive_pos r)
    (ub_xfer_data r) (ub_xfer_size r) (ub_xfer_flags r) (ub_line_coding r)
    (ub_line_control_state r) (ub_gs r).

(** The sizes of the three structures. *)
Definition gs_var_size (v : gs_var) : Z :=
  match v with GS_host_config => 4 | GS_device_bittiming => 20 | GS_device_mode => 8 end.
Definition usb_cdc_zero : usb_cdc :=
  mkUsbCdc (replicate 192 0) 0 (replicate 128 0) 0 (UR_null, 0) 0 0 (replicate 7 0) 0
    (fun v => replicate (Z.to_nat (gs_var_size v)) 0).

(** [struct gs_host_frame] (generic/usb_canbus.c) *)
Record gs_host_frame : Set := mkGsFrame {
  gs_echo_id : Z; gs_can_id : Z;
  gs_can_dlc : Z; gs_channel : Z; gs_flags : Z; gs_reserved : Z;
  gs_data : list Z
}.
Definition gs_host_frame_zero : gs_host_frame := mkGsFrame 0 0 0 0 0 0 (replicate 8 0).

(** [struct usbcan_data] (generic/usb_canbus.c); its [wake] is [usbcan_wake]
    below. *)
Record usbcan_data : Set := mkUsbCan {
  uc_notify_local : Z; uc_usb_send_busy : Z; uc_assigned_id : Z;
  uc_bus_send_discard_time : Z; uc_bus_send_state : Z;
  uc_host_status : Z; uc_host_pull_pos : Z; uc_host_push_pos : Z;
  uc_host_frames : list gs_host_frame;
  uc_canhw_pull_pos : Z; uc_canhw_push_pos : Z;
  uc_canhw_queue : list canbus_msg
}.
#[export] Instance eta_usbcan_data : Eta usbcan_data := fun r =>
  mkUsbCan (uc_notify_local r) (uc_usb_send_busy r) (uc_assigned_id r)
    (uc_bus_send_discard_time r) (uc_bus_send_state r) (uc_host_status r)
    (uc_host_pull_pos r) (uc_host_push_pos r) (uc_host_frames r) (uc_canhw_pull_pos r)
    (uc_canhw_push_pos r) (uc_canhw_queue r).
Definition usbcan_data_zero : usbcan_data :=
  mkUsbCan 0 0 0 0 0 0 0 0 (replicate 16 gs_host_frame_zero) 0 0 (replicate 32 canbus_msg_zero).

(** ** Object ids (basecmd.c) *)

(** The [type] pointer of an oid slot: the address of the configuration
    command that allocated it. *)
Inductive otype : Set :=
| command_config_stepper_t | command_config_trsync_t | command_config_endstop_t
| command_config_digital_out_t | command_config_pwm_out_t
| command_config_analog_in_t | command_config_buttons_t | command_config_counter_t
| command_config_tmcuart_t
| command_config_spi_t | command_config_spi_shutdown_t | command_config_i2c_t
| command_config_adxl345_t | command_config_lis2dw_t | command_config_mpu9250_t
| command_config_icm20948_t | command_config_ldc1612_t | command_config_spi_angle_t
| command_config_ads1220_t | command_config_hx71x_t | command_config_thermocouple_t
| command_config_sos_filter_t | command_config_load_cell_probe_t
| command_config_neopixel_t | command_config_hd44780_t | command_config_st7920_t
| command_config_sdio_t.

#[export] Instance otype_eq_dec : EqDecision otype.
Proof. solve_decision. Defined.

(** The contents of an allocated object. *)
Inductive obj : Set :=
| O_stepper (s : stepper) | O_trsync (s : trsync) | O_endstop (s : endstop)
| O_digital_out (s : digital_out_s) | O_pwm_out (s : pwm_out_s)
| O_analog_in (s : analog_in) | O_buttons (s : buttons) | O_counter (s : counter)
| O_tmcuart (s : tmcuart_s)
| O_spidev (s : spidev_s) | O_spidev_shutdown (s : spidev_shutdown_s)
| O_i2cdev (s : i2cdev_s) | O_adxl345 (s : adxl345) | O_lis2dw (s : lis2dw)
| O_mpu9250 (s : mpu9250) | O_icm20948 (s : icm20948) | O_ldc1612 (s : ldc1612)
| O_spi_angle (s : spi_angle) | O_ads1220_adc (s : ads1220_adc)
| O_hx71x_adc (s : hx71x_adc) | O_thermocouple_spi (s : thermocouple_spi)
| O_sos_filter (s : sos_filter) | O_load_cell_probe (s : load_cell_probe)
| O_neopixel (s : neopixel_s) | O_hd44780 (s : hd44780) | O_st7920 (s : st7920)
| O_sdiodev (s : sdiodev_s).

(** [struct oid_s] *)
Record oid_s : Set := mkOid { o_type : option otype; o_data : option obj }.
#[export] Instance eta_oid : Eta oid_s := fun r => mkOid (o_type r) (o_data r).
Definition oid_zero : oid_s := mkOid None None.

(** A component structure that can be stored in an oid slot. *)
Class ObjType (T : Set) := {
  to_obj : T -> obj;
  of_obj : obj -> option T;
  of_to_obj : forall t, of_obj (to_obj t) = Some t
}.

#[export] Instance stepper_obj : ObjType stepper :=
  {| to_obj := O_stepper; of_obj o := match o with O_stepper s => Some s | _ => None end;
     of_to_obj _ := eq_refl |}.
#[export] Instance trsync_obj : ObjType trsync :=
  {| to_obj := O_trsync; of_obj o := match o with O_trsync s => Some s | _ => None end;
     of_to_obj _ := eq_refl |}.
#[export] Instance endstop_obj : ObjType endstop :=
  {| to_obj := O_endstop; of_obj o := match o with O_endstop s => Some s | _ => None end;
     of_to_obj _ := eq_refl |}.
#[export] Instance digital_out_obj : ObjType digital_out_s :=
  {| to_obj := O_digital_out; of_obj o := match o with O_digital_out s => Some s | _ => None end;
     of_to_obj _ := eq_refl |}.
#[export] Instance pwm_out_obj : ObjType pwm_out_s :=
  {| to_obj := O_pwm_out; of_obj o := match o with O_pwm_out s => Some s | _ => None end;
     of_to_obj _ := eq_refl |}.
#[export] Instance analog_in_obj : ObjType analog_in :=
  {| to_obj := O_analog_in; of_obj o := match o with O_analog_in s => Some s | _ => None end;
     of_to_obj _ := eq_refl |}.
#[export] Instance buttons_obj : ObjType buttons :=
  {| to_obj := O_buttons; of_obj o := match o with O_buttons s => Some s | _ => None end;
     of_to_obj _ := eq_refl |}.
#[export] Instance counter_obj : ObjType counter :=
  {| to_obj := O_counter; of_obj o := match o with O_counter s => Some s | _ => None end;
     of_to_obj _ := eq_refl |}.
#[export] Instance tmcuart_obj : ObjType tmcuart_s :=
  {| to_obj := O_tmcuart; of_obj o := match o with O_tmcuart s => Some s | _ => None end;
     of_to_obj _ := eq_refl |}.
#[export] Instance spidev_obj : ObjType spidev_s :=
  {| to_obj := O_spidev; of_obj o := match o with O_spidev s => Some s | _ => None end;
     of_to_obj _ := eq_refl |}.
#[export] Instance spidev_shutdown_obj : ObjType spidev_shutdown_s :=
  {| to_obj := O_spidev_shutdown; of_obj o := match o with O_spidev_shutdown s => Some s | _ => None end;
     of_to_obj _ := eq_refl |}.
#[export] Instance i2cdev_obj : ObjType i2cdev_s :=
  {| to_obj := O_i2cdev; of_obj o := match o with O_i2cdev s => Some s | _ => None end;
     of_to_obj _ := eq_refl |}.
#[export] Instance adxl345_obj : ObjType adxl345 :=
  {| to_obj := O_adxl345; of_obj o := match o with O_adxl345 s => Some s | _ => None end;
     of_to_obj _ := eq_refl |}.
#[export] Instance lis2dw_obj : ObjType lis2dw :=
  {| to_obj := O_lis2dw; of_obj o := match o with O_lis2dw s => Some s | _ => None end;
     of_to_obj _ := eq_refl |}.
#[export] Instance mpu9250_obj : ObjType mpu9250 :=
  {| to_obj := O_mpu9250; of_obj o := match o with O_mpu9250 s => Some s | _ => None end;
     of_to_obj _ := eq_refl |}.
#[export] Instance icm20948_obj : ObjType icm20948 :=
  {| to_obj := O_icm20948; of_obj o := match o with O_icm20948 s => Some s | _ => None end;
     of_to_obj _ := eq_refl |}.
#[export] Instance ldc1612_obj : ObjType ldc1612 :=
  {| to_obj := O_ldc1612; of_obj o := match o with O_ldc1612 s => Some s | _ => None end;
     of_to_obj _ := eq_refl |}.
#[export] Instance spi_angle_obj : ObjType spi_angle :=
  {| to_obj := O_spi_angle; of_obj o := match o with O_spi_angle s => Some s | _ => None end;
     of_to_obj _ := eq_refl |}.
#[export] Instance ads1220_adc_obj : ObjType ads1220_adc :=
  {| to_obj := O_ads1220_adc; of_obj o := match o with O_ads1220_adc s => Some s | _ => None end;
     of_to_obj _ := eq_refl |}.
#[export] Instance hx71x_adc_obj : ObjType hx71x_adc :=
  {| to_obj := O_hx71x_adc; of_obj o := match o with O_hx71x_adc s => Some s | _ => None end;
     of_to_obj _ := eq_refl |}.
#[export] Instance thermocouple_spi_obj : ObjType thermocouple_spi :=
  {| to_obj := O_thermocouple_spi; of_obj o := match o with O_thermocouple_spi s => Some s | _ => None end;
     of_to_obj _ := eq_refl |}.
#[export] Instance sos_filter_obj : ObjType sos_filter :=
  {| to_obj := O_sos_filter; of_obj o := match o with O_sos_filter s => Some s | _ => None end;
     of_to_obj _ := eq_refl |}.
#[export] Instance load_cell_probe_obj : ObjType load_cell_probe :=
  {| to_obj := O_load_cell_probe; of_obj o := match o with O_load_cell_probe s => Some s | _ => None end;
     of_to_obj _ := eq_refl |}.
#[export] Instance neopixel_obj : ObjType neopixel_s :=
  {| to_obj := O_neopixel; of_obj o := match o with O_neopixel s => Some s | _ => None end;
     of_to_obj _ := eq_refl |}.
#[export] Instance hd44780_obj : ObjType hd44780 :=
  {| to_obj := O_hd44780; of_obj o := match o with O_hd44780 s => Some s | _ => None end;
     of_to_obj _ := eq_refl |}.
#[export] Instance st7920_obj : ObjType st7920 :=
  {| to_obj := O_st7920; of_obj o := match o with O_st7920 s => Some s | _ => None end;
     of_to_obj _ := eq_refl |}.
#[export] Instance sdiodev_obj : ObjType sdiodev_s :=
  {| to_obj := O_sdiodev; of_obj o := match o with O_sdiodev s => Some s | _ => None end;
     of_to_obj _ := eq_refl |}.

(** ** Messages and hardware events *)

(** An argument of [sendf]; a static string stands for the id that the
    build assigns to it. *)
Inductive marg : Set := AInt (v : Z) | ABytes (l : list Z) | AStr (s : string).

(** A message handed to [console_sendf]: its format and arguments. *)
Record message : Set := mkMsg { msg_fmt : string; msg_args : list marg }.

(** What the firmware does to the pins and peripherals. *)
Inductive hw_event : Set :=
| HwOutSetup (pin val : Z) | HwOutWrite (pin val : Z) | HwOutToggle (pin : Z)
| HwInSetup (pin pull_up : Z)
| HwPwmSetup (pin cycle_time val : Z) | HwPwmWrite (pin val : Z)
| HwAdcSetup (pin : Z) | HwAdcCancel (pin : Z)
| HwOutReset (pin val : Z) | HwInReset (pin pull_up : Z)
| HwCanSend (msg : canbus_msg) | HwCanFilter (id : Z)
| HwUsbBulkIn (data : list Z) | HwUsbEp0 (data : list Z) | HwUsbStall
| HwUsbAddress (addr : Z) | HwUsbConfigure
| HwSpiSetup (c : spi_config) | HwSpiPrepare (c : spi_config)
| HwSpiTransfer (c : spi_config) (receive : bool) (data : list Z)
| HwI2cSetup (c : i2c_config) | HwI2cWrite (c : i2c_config) (data : list Z)
| HwI2cRead (c : i2c_config) (reg : list Z) (len : Z)
| HwSdioSetup (bus : Z) | HwSdioSpeed (bus speed : Z)
| HwSdioCommand (bus cmd argument wait : Z) | HwSdioPrepare (bus read blocksize timeout : Z)
| HwSdioRead (bus blocksize : Z) | HwSdioWrite (bus : Z) (data : list Z)
| HwTimerKick.

(** The [struct task_wake] variables. *)
Inductive task_wake : Set :=
| trsync_wake | analog_wake | buttons_wake | counter_wake | tmcuart_wake
| can_tx_wake | can_rx_wake | usb_bulk_in_wake | usb_bulk_out_wake | usb_ep0_wake | usbcan_wake
| adxl345_wake | lis2dw_wake | mpu9250_wake | icm20948_wake | ldc1612_wake | angle_wake
| wake_ads1220 | wake_hx71x | thermocouple_wake.
#[export] Instance task_wake_eq_dec : EqDecision task_wake.
Proof. solve_decision. Defined.

(** ** The board

    What the firmware takes from the hardware, the build configuration and
    the generated code: the readings of the clock, of the input pins and of
    the analog inputs (the n-th reading of each kind), the board's pin tables,
    its dynamic memory area, the sizes of the C structures and the
    configuration constants.  [spin_limit] bounds the polls of a busy wait.
    The drivers of the hardware buses are given by the results of their calls:
    the n-th call answers with the bytes [spi_reading n data 0], ... *)
Class Board := {
  CONFIG_CLOCK_FREQ : Z;
  CONFIG_INLINE_STEPPER_HACK : bool;
  CONFIG_WANT_STEPPER_OPTIMIZED_BOTH_EDGE : bool;
  CONFIG_MACH_AVR : bool;
  clock_reading : nat -> Z;
  pin_reading : nat -> Z -> Z;
  adc_delay_reading : nat -> Z -> Z;
  adc_reading : nat -> Z -> Z;
  gpio_out_valid : Z -> bool;
  gpio_in_valid : Z -> bool;
  gpio_pwm_valid : Z -> bool;
  gpio_adc_valid : Z -> bool;
  dynmem_start : Z;
  dynmem_end : Z;
  alignof_ptr : Z;
  sizeof_oid_s : Z;
  sizeof_gpio_in : Z;
  sizeof_obj : otype -> Z;
  sizeof_move_node : Z;
  sizeof_stepper_move : Z;
  sizeof_digital_move : Z;
  sizeof_pwm_move : Z;
  command_identify_data : list Z;
  spin_limit : nat;
  CONFIG_WANT_SPI : bool;
  CONFIG_WANT_I2C : bool;
  CONFIG_WANT_SOFTWARE_SPI : bool;
  CONFIG_WANT_SOFTWARE_I2C : bool;
  CONFIG_HAVE_STRICT_TIMING : bool;
  initial_pins : list (Z * Z);
  spi_bus_valid : Z -> bool;
  spi_reading : nat -> list Z -> nat -> Z;
  i2c_bus_valid : Z -> bool;
  i2c_result : nat -> Z;
  i2c_reading : nat -> nat -> Z;
  sdio_bus_valid : Z -> bool;
  sdio_result : nat -> Z;
  sdio_response : nat -> list Z;
  sdio_reading : nat -> nat -> Z;
  sizeof_spi_software : Z;
  sizeof_i2c_software : Z;
  sizeof_sos_section : Z
}.

(** ** The world *)

Record world : Type := mkWorld {
  (* sched.c *)
  timers : gmap tref timer;
  timer_list : tref; last_insert : tref;
  tasks_status : Z; tasks_busy : Z;
  shutdown_status : Z; shutdown_reason : string;
  woken : list task_wake;
  (* generic/timer_irq.c *)
  timer_repeat_until : Z;
  (* command.c *)
  next_sequence : Z; sync_state : Z; in_sendf : bool;
  (* basecmd.c *)
  alloc_end : Z;
  move_free_list : option Z; move_list : option Z;
  move_count : Z; move_item_size : Z;
  nodes : gmap Z move_node;
  oids : option (list oid_s); oid_count : Z;
  config_crc : Z;
  stats_send_time : Z; stats_send_time_high : Z;
  stats_count : Z; stats_sum : Z; stats_sumsq : Z;
  (* trsync.c: the signals embedded in the objects *)
  signals : gmap Z trsync_signal;
  (* the board: readings consumed so far, events and messages (newest first) *)
  clock_reads : nat; pin_reads : nat; adc_reads : nat;
  hw_trace : list hw_event;
  sent : list message;
  (* generic/canserial.c, usb_cdc.c and usb_canbus.c and the calls of their drivers *)
  candata : canbus_data; usbcdc : usb_cdc; usbcan : usbcan_data; io_calls : nat
}.
#[export] Instance eta_world : Eta world := fun w =>
  mkWorld (timers w) (timer_list w) (last_insert w) (tasks_status w) (tasks_busy w)
    (shutdown_status w) (shutdown_reason w) (woken w) (timer_repeat_until w)
    (next_sequence w) (sync_state w) (in_sendf w) (alloc_end w) (move_free_list w)
    (move_list w) (move_count w) (move_item_size w) (nodes w) (oids w) (oid_count w)
    (config_crc w) (stats_send_time w) (stats_send_time_high w) (stats_count w)
    (stats_sum w) (stats_sumsq w) (signals w) (clock_reads w) (pin_reads w)
    (adc_reads w) (hw_trace w) (sent w) (candata w) (usbcdc w) (usbcan w)
    (io_calls w).

(** ** The firmware monad

    [Ok] is a normal return, [Shut] a [longjmp] out of [sched_shutdown]
    (memory keeps the changes made so far), [Fault] an access through a null
    or wild pointer, or a loop that did not end within its fuel. *)
Inductive outcome (A : Type) : Type :=
| Ok (a : A) (w : world)
| Shut (reason : string) (w : world)
| Fault.
Arguments Ok {A} _ _.
Arguments Shut {A} _ _.
Arguments Fault {A}.

Definition M (A : Type) : Type := world -> outcome A.

#[export] Instance M_ret : MRet M := fun A a w => Ok a w.
#[export] Instance M_bind : MBind M := fun A B f m w =>
  match m w with
  | Ok a w' => f a w'
  | Shut r w' => Shut r w'
  | Fault => Fault
  end.

Definition fault {A} : M A := fun _ => Fault.

(** [sched_shutdown]: leave the current handler. *)
Definition shutdown {A} (reason : string) : M A := fun w => Shut reason w.

Definition gets {A} (f : world -> A) : M A := fun w => Ok (f w) w.
Definition modify (f : world -> world) : M unit := fun w => Ok tt (f w).
Definition when (b : bool) (m : M unit) : M unit := if b then m else mret tt.

(** Dereference of a possibly null pointer. *)
Definition deref {A} (p : option A) : M A :=
  match p with Some a => mret a | None => fault end.

(** The state after a run, whatever its outcome. *)
Definition out_world {A} (o : outcome A) : option world :=
  match o with Ok _ w | Shut _ w => Some w | Fault => None end.

(** ** Monad laws and the inversion tactics *)

Lemma bind_ok {A B} (m : M A) (f : A -> M B) w a w' :
  m w = Ok a w' -> (m ≫= f) w = f a w'.
Proof. unfold mbind, M_bind. by intros ->. Qed.

Lemma bind_shut {A B} (m : M A) (f : A -> M B) w r w' :
  m w = Shut r w' -> (m ≫= f) w = Shut r w'.
Proof. unfold mbind, M_bind. by intros ->. Qed.

Lemma bind_inv_ok {A B} (m : M A) (f : A -> M B) w b w2 :
  (m ≫= f) w = Ok b w2 -> exists a w1, m w = Ok a w1 /\ f a w1 = Ok b w2.
Proof. unfold mbind, M_bind. destruct (m w); naive_solver. Qed.

Lemma bind_assoc {A B C} (m : M A) (f : A -> M B) (g : B -> M C) w :
  ((m ≫= f) ≫= g) w = (m ≫= fun a => f a ≫= g) w.
Proof. unfold mbind, M_bind. by destruct (m w). Qed.

Lemma bind_ext {A B} (m : M A) (f g : A -> M B) w :
  (forall a w1, m w = Ok a w1 -> f a w1 = g a w1) -> (m ≫= f) w = (m ≫= g) w.
Proof. unfold mbind, M_bind. intros E. destruct (m w); [by apply E|done..]. Qed.

(** [munfold] exposes the monadic plumbing of the goal. *)
Ltac munfold :=
  unfold mbind, mret, M_bind, M_ret, gets, modify, when, deref, shutdown, fault.

(** ** Memory access *)

Definition tmr (w : world) (t : tref) : timer := default timer_zero (timers w !! t).
Definition get_timer (t : tref) : M timer := gets (fun w => tmr w t).
Definition mod_timer (t : tref) (f : timer -> timer) : M unit :=
  modify (fun w => w <| timers := <[t := f (tmr w t)]> (timers w) |>).

Lemma tmr_upd w t x u :
  tmr (w <| timers := <[t := x]> (timers w) |>) u = if decide (t = u) then x else tmr w u.
Proof. unfold tmr. cbn. rewrite lookup_insert. by case_decide. Qed.

Definition sgn (w : world) (p : Z) : trsync_signal := default signal_zero (signals w !! p).
Definition get_signal (p : Z) : M trsync_signal := gets (fun w => sgn w p).
Definition mod_signal (p : Z) (f : trsync_signal -> trsync_signal) : M unit :=
  modify (fun w => w <| signals := <[p := f (sgn w p)]> (signals w) |>).

(** [oids[i]] *)
Definition oid_slot (w : world) (i : Z) : option oid_s :=
  match oids w with Some l => l !! Z.to_nat i | None => None end.
Definition set_oid_slot (i : Z) (f : oid_s -> oid_s) (w : world) : world :=
  w <| oids ::= fmap (M := option) (alter f (Z.to_nat i)) |>.

(** The object a component pointer designates. *)
Definition obj_at (T : Set) `{ObjType T} (w : world) (p : Z) : option T :=
  match oid_slot w p with
  | Some o => match o_data o with Some d => of_obj d | None => None end
  | None => None
  end.

(** [*p] and [*p = f( *p)] for a pointer [p] to a component's structure. *)
Definition get_obj (T : Set) `{ObjType T} (p : Z) : M T := fun w =>
  match obj_at T w p with Some t => Ok t w | None => Fault end.
Definition mod_obj (T : Set) `{ObjType T} (p : Z) (f : T -> T) : M unit := fun w =>
  match obj_at T w p with
  | Some t => Ok tt (set_oid_slot p (fun o => o <| o_data := Some (to_obj (f t)) |>) w)
  | None => Fault
  end.

(** ** Board access *)

Section BoardAccess.
Context `{Board}.

Definition timer_read_time : M Z := fun w =>
  Ok (u32 (clock_reading (clock_reads w))) (w <| clock_reads ::= S |>).
Definition hw (e : hw_event) : M unit := modify (fun w => w <| hw_trace ::= cons e |>).
Definition timer_kick : M unit := hw HwTimerKick.
Definition gpio_out_write (pin val : Z) : M unit := hw (HwOutWrite pin val).
Definition gpio_out_toggle_noirq (pin : Z) : M unit := hw (HwOutToggle pin).
Definition gpio_out_toggle (pin : Z) : M unit := hw (HwOutToggle pin).
Definition gpio_out_setup (pin val : Z) : M Z :=
  if gpio_out_valid pin then hw (HwOutSetup pin val) ;; mret pin
  else shutdown "Not an output pin".
Definition gpio_out_reset (pin val : Z) : M unit := hw (HwOutReset pin val).
Definition gpio_in_reset (pin pull_up : Z) : M unit := hw (HwInReset pin pull_up).
Definition gpio_in_setup (pin pull_up : Z) : M Z :=
  if gpio_in_valid pin then hw (HwInSetup pin pull_up) ;; mret pin
  else shutdown "Not a valid input pin".
Definition gpio_in_read (pin : Z) : M Z := fun w =>
  Ok (u8 (pin_reading (pin_reads w) pin)) (w <| pin_reads ::= S |>).
Definition gpio_pwm_setup (pin cycle_time val : Z) : M Z :=
  if gpio_pwm_valid pin then hw (HwPwmSetup pin cycle_time val) ;; mret pin
  else shutdown "Not a valid PWM pin".
Definition gpio_pwm_write (pin val : Z) : M unit := hw (HwPwmWrite pin val).
Definition gpio_adc_setup (pin : Z) : M Z :=
  if gpio_adc_valid pin then hw (HwAdcSetup pin) ;; mret pin
  else shutdown "Not a valid ADC pin".
Definition gpio_adc_sample (pin : Z) : M Z := fun w =>
  Ok (u32 (adc_delay_reading (adc_reads w) pin)) (w <| adc_reads ::= S |>).
Definition gpio_adc_read (pin : Z) : M Z := fun w =>
  Ok (u16 (adc_reading (adc_reads w) pin)) (w <| adc_reads ::= S |>).
Definition gpio_adc_cancel_sample (pin : Z) : M unit := hw (HwAdcCancel pin).

(** The number of the next call of a bus driver. *)
Definition next_io : M nat := fun w => Ok (io_calls w) (w <| io_calls ::= S |>).

(** The first [n] bytes of an answer. *)
Definition answer (f : nat -> Z) (n : nat) : list Z := map (fun i => u8 (f i)) (seq 0 n).

(** The hardware SPI bus of the board; [spi_transfer] returns the bytes that are
    in the buffer afterwards. *)
Definition spi_setup (bus mode rate : Z) : M spi_config :=
  if spi_bus_valid bus
  then let c := mkSpiConfig bus mode rate in hw (HwSpiSetup c) ;; mret c
  else shutdown "Invalid spi bus".
Definition spi_prepare (c : spi_config) : M unit := hw (HwSpiPrepare c).
Definition spi_transfer (c : spi_config) (receive : bool) (data : list Z) : M (list Z) :=
  hw (HwSpiTransfer c receive data) ;;
  n ← next_io;
  mret (if receive then answer (spi_reading n data) (length data) else data).

(** The hardware I2C bus of the board: the result code, and the bytes in the
    buffer after a successful read. *)
Definition i2c_setup (bus rate addr : Z) : M i2c_config :=
  if i2c_bus_valid bus
  then let c := mkI2cConfig bus rate addr in hw (HwI2cSetup c) ;; mret c
  else shutdown "Unsupported i2c bus".
Definition i2c_write (c : i2c_config) (data : list Z) : M Z :=
  hw (HwI2cWrite c data) ;; n ← next_io; mret (i2c_result n).
Definition i2c_read (c : i2c_config) (reg read : list Z) : M (Z * list Z) :=
  hw (HwI2cRead c reg (Z.of_nat (length read))) ;;
  n ← next_io;
  mret (i2c_result n,
        if i2c_result n =? 0 then answer (i2c_reading n) (length read) else read).
End BoardAccess.
