(* ===== verification/Frames.v ===== *)
(** * What an operation leaves alone

    [Keeps R m]: every run of [m] that does not fault relates its start and
    end states by [R].  For a preorder [R] the property passes through the
    monad, so that it is established for a handler from its memory accesses;
    [frame_solve] does this, with the accesses that are allowed to change
    memory declared in the hint database [frame]. *)
From S2P Require Import Prelude World.

Class Keeps (R : world -> world -> Prop) {A} (m : M A) : Prop :=
  keeps : forall w w', out_world (m w) = Some w' -> R w w'.

Create HintDb frame.

Section Keeps.
Context (R : world -> world -> Prop) `{!PreOrder R}.

Lemma keeps_ret {A} (a : A) : Keeps R (mret a : M A).
Proof. intros w w' [= <-]. reflexivity. Qed.

Lemma keeps_gets {A} (f : world -> A) : Keeps R (gets f).
Proof. intros w w' [= <-]. reflexivity. Qed.

Lemma keeps_shutdown {A} r : Keeps R (shutdown (A := A) r).
Proof. intros w w' [= <-]. reflexivity. Qed.

Lemma keeps_fault {A} : Keeps R (fault (A := A)).
Proof. intros w w' [=]. Qed.

Lemma keeps_deref {A} (p : option A) : Keeps R (deref p).
Proof. destruct p; [apply keeps_ret|apply keeps_fault]. Qed.

Lemma keeps_modify f : (forall w, R w (f w)) -> Keeps R (modify f).
Proof. intros Hf w w' [= <-]. apply Hf. Qed.

Lemma keeps_bind {A B} (m : M A) (f : A -> M B) :
  Keeps R m -> (forall a, Keeps R (f a)) -> Keeps R (m ≫= f).
Proof.
  intros Hm Hf w w'. unfold mbind, M_bind. specialize (Hm w).
  destruct (m w) as [a w1|r w1|]; simpl; [|by auto|done].
  intros Hw. transitivity w1; [by apply Hm|by apply (Hf a)].
Qed.

Lemma keeps_when b m : Keeps R m -> Keeps R (when b m).
Proof. destruct b; [done|]. intros _. apply keeps_ret. Qed.

Lemma keeps_get_obj (T : Set) `{ObjType T} p : Keeps R (get_obj T p).
Proof. intros w w'. unfold get_obj. destruct (obj_at T w p); [|done]. intros [= <-]. reflexivity. Qed.

Lemma keeps_mod_obj (T : Set) `{ObjType T} p f :
  (forall w g, R w (set_oid_slot p g w)) -> Keeps R (mod_obj T p f).
Proof. intros Hs w w'. unfold mod_obj. destruct (obj_at T w p); [|done]. intros [= <-]. apply Hs. Qed.
End Keeps.

(** Break a handler into its memory accesses. *)
Ltac frame_step :=
  first
  [ apply keeps_ret; exact _
  | apply keeps_gets; exact _
  | apply keeps_shutdown; exact _
  | apply keeps_fault; exact _
  | apply keeps_deref; exact _
  | apply keeps_get_obj; exact _
  | apply keeps_when; [exact _|]
  | progress (auto 1 with frame)
  | apply keeps_bind; [exact _| |intro]
  | apply keeps_modify; intro
  | apply keeps_mod_obj; intros
  | match goal with
    | |- Keeps _ (match ?x with _ => _ end) => destruct x eqn:?
    | |- Keeps _ (if ?x then _ else _) => destruct x eqn:?
    end ].
Ltac frame_solve := repeat frame_step; auto with frame.

(** ** Handlers that only reschedule their own timer *)

(** The timer list is untouched, and only timer [t] has another wake time or
    callback. *)
Record own_timer (t : tref) (w w' : world) : Prop := {
  ot_list : timer_list w' = timer_list w;
  ot_last : last_insert w' = last_insert w;
  ot_next : forall u, next (tmr w' u) = next (tmr w u);
  ot_other : forall u, u <> t -> tmr w' u = tmr w u
}.

#[export] Instance own_timer_preorder t : PreOrder (own_timer t).
Proof.
  split.
  - intros w. by constructor.
  - intros w1 w2 w3 [] []. constructor; [congruence..| |]; intros.
    + by rewrite ot_next1.
    + rewrite ot_other1, ot_other0 by done. done.
Qed.

(** Any state change outside the scheduler's data. *)
Lemma own_timer_same t w w' :
  timers w' = timers w -> timer_list w' = timer_list w -> last_insert w' = last_insert w ->
  own_timer t w w'.
Proof. intros E1 E2 E3. constructor; unfold tmr; intros; by rewrite ?E1. Qed.

Lemma own_timer_mod t f :
  (forall x, next (f x) = next x) -> Keeps (own_timer t) (mod_timer t f).
Proof.
  intros Hf. apply keeps_modify. intros w. constructor; [done..| |]; unfold tmr; cbn.
  - intros u. rewrite lookup_insert. case_decide as E; [|done]. subst u. cbn. by rewrite Hf.
  - intros u Hu. by rewrite lookup_insert_ne.
Qed.

#[export] Hint Extern 2 (own_timer _ _ _) => (apply own_timer_same; done) : frame.
#[export] Hint Extern 1 (Keeps (own_timer _) (mod_timer _ _)) =>
  (apply own_timer_mod; by intros []) : frame.

(** ** Changes to the timer list only *)

(** Only links, the place holder timer, the two list pointers, the readings of
    the clock and the trace of hardware events differ. *)
Record sched_frame (w w' : world) : Prop := {
  sf_world : w' = w <| timers := timers w' |> <| timer_list := timer_list w' |>
                    <| last_insert := last_insert w' |> <| clock_reads := clock_reads w' |>
                    <| hw_trace := hw_trace w' |>;
  sf_timer : forall t, t <> TDeleted ->
    waketime (tmr w' t) = waketime (tmr w t) /\ func (tmr w' t) = func (tmr w t)
}.

#[export] Instance sched_frame_preorder : PreOrder sched_frame.
Proof.
  split.
  - intros w. constructor; [by destruct w|done].
  - intros w1 w2 w3 [E1 T1] [E2 T2]. constructor.
    + rewrite E2, E1. by destruct w3.
    + intros t Ht. destruct (T1 t Ht), (T2 t Ht). split; congruence.
Qed.

Lemma sched_frame_next t f :
  (forall x, waketime (f x) = waketime x /\ func (f x) = func x) -> Keeps sched_frame (mod_timer t f).
Proof.
  intros Hf. apply keeps_modify. intros w. constructor; [by destruct w|].
  intros u _. rewrite tmr_upd. case_decide as E; [|done]. subst u. apply Hf.
Qed.

Lemma sched_frame_deleted f : Keeps sched_frame (mod_timer TDeleted f).
Proof.
  apply keeps_modify. intros w. constructor; [by destruct w|].
  intros u Hu. rewrite tmr_upd. by rewrite decide_False.
Qed.

Lemma sched_frame_ptr w w' :
  timers w' = timers w ->
  w' = w <| timers := timers w' |> <| timer_list := timer_list w' |>
         <| last_insert := last_insert w' |> <| clock_reads := clock_reads w' |>
         <| hw_trace := hw_trace w' |> ->
  sched_frame w w'.
Proof. intros E1 E2. constructor; [done|]. intros. unfold tmr. by rewrite E1. Qed.

#[export] Hint Extern 1 (Keeps sched_frame (mod_timer TDeleted _)) =>
  (apply sched_frame_deleted) : frame.
#[export] Hint Extern 2 (Keeps sched_frame (mod_timer _ _)) =>
  (apply sched_frame_next; by intros []) : frame.
#[export] Hint Extern 2 (sched_frame ?w _) => (apply sched_frame_ptr; by destruct w) : frame.

Section Board.
Context `{Board}.
Context (R : world -> world -> Prop) `{!PreOrder R}.
Context (Rclock : forall w, R w (w <| clock_reads ::= S |>))
        (Rpin : forall w, R w (w <| pin_reads ::= S |>))
        (Radc : forall w, R w (w <| adc_reads ::= S |>))
        (Rhw : forall w e, R w (w <| hw_trace ::= cons e |>)).

Lemma keeps_read_time : Keeps R timer_read_time.
Proof. intros w w' [= <-]. apply Rclock. Qed.
Lemma keeps_in_read pin : Keeps R (gpio_in_read pin).
Proof. intros w w' [= <-]. apply Rpin. Qed.
Lemma keeps_adc_sample pin : Keeps R (gpio_adc_sample pin).
Proof. intros w w' [= <-]. apply Radc. Qed.
Lemma keeps_adc_read pin : Keeps R (gpio_adc_read pin).
Proof. intros w w' [= <-]. apply Radc. Qed.
Lemma keeps_hw e : Keeps R (hw e).
Proof. apply keeps_modify. intros. apply Rhw. Qed.
End Board.
