(* ===== verification/Delays.v ===== *)
(** * Busy waits

    The loops in which the drivers wait for the clock.  A wait ends within
    [spin_limit] polls or faults; while it waits, [irq_poll] may let interrupts
    run. *)
From S2P Require Import Prelude World Sched.

Section Delays.
Context `{Board}.

(** [while (timer_is_before(timer_read_time(), t)) ;] *)
Fixpoint spin_until (fuel : nat) (t : Z) : M unit :=
  match fuel with
  | O => fault
  | S fuel => now ← timer_read_time; if timer_is_before now t then spin_until fuel t else mret tt
  end.

(** [nsecs_to_ticks] of sensor_hx71x.c and lcd_*.c *)
Definition nsecs_to_ticks (ns : Z) : Z := timer_from_us (u32 (ns * 1000)) / 1000000.

Section Poll.
(** [irq_poll], which may run pending interrupts. *)
Variable irq_poll : M unit.

(** [while (timer_is_before(timer_read_time(), t)) irq_poll();] *)
Fixpoint poll_until (fuel : nat) (t : Z) : M unit :=
  match fuel with
  | O => fault
  | S fuel =>
      now ← timer_read_time;
      if timer_is_before now t then irq_poll ;; poll_until fuel t else mret tt
  end.

(** [while (timer_read_time() - last < ticks) irq_poll();] *)
Fixpoint poll_elapsed (fuel : nat) (last ticks : Z) : M unit :=
  match fuel with
  | O => fault
  | S fuel =>
      now ← timer_read_time;
      if u32 (now - last) <? ticks then irq_poll ;; poll_elapsed fuel last ticks else mret tt
  end.

(** [ndelay] of lcd_hd44780.c and lcd_st7920.c *)
Definition ndelay (ticks : Z) : M unit :=
  if CONFIG_MACH_AVR then mret tt
  else
    now ← timer_read_time;
    poll_until spin_limit (u32 (now + ticks)).
End Poll.
End Delays.
