(* ===== verification/SchedFacts.v ===== *)
(** * Correctness of the timer list

    The pointer structure of sched.c is related to a list [us] of timers
    ([sched_list]), ordered by wake time relative to a base [b]
    ([sched_sorted]).  [live] forgets the place holder [deleted_timer]; on
    [live] lists adding, deleting and rescheduling a timer are insertion into
    and removal from an ordered list. *)
From S2P Require Import Prelude Paths World Frames Sched.

(** ** Comparing wrapped clocks *)

Lemma timer_is_before_spec a c : timer_is_before a c = (2 ^ 31 <=? u32 (a - c)).
Proof.
  unfold timer_is_before. destruct (Z.leb_spec (2 ^ 31) (u32 (a - c)));
    [apply Z.ltb_lt|apply Z.ltb_ge]; word_lia.
Qed.

(** Inside a window of 2^31 ticks the comparison is the order of offsets. *)
Lemma timer_is_before_window b a c :
  u32 (a - b) < 2 ^ 31 -> u32 (c - b) < 2 ^ 31 ->
  timer_is_before a c = (u32 (a - b) <? u32 (c - b)).
Proof.
  intros. rewrite timer_is_before_spec.
  destruct (Z.ltb_spec (u32 (a - b)) (u32 (c - b))); [apply Z.leb_le|apply Z.leb_gt]; word_lia.
Qed.

Lemma timer_is_before_refl a : timer_is_before a a = false.
Proof. rewrite timer_is_before_spec, Z.sub_diag. apply Z.leb_gt. word_lia. Qed.

(** Every time is before one of two times that are 2^31 ticks apart. *)
Lemma timer_is_before_half a p :
  timer_is_before a p = false -> timer_is_before a (u32 (p + 2 ^ 31)) = true.
Proof. rewrite !timer_is_before_spec. intros ?%Z.leb_gt. apply Z.leb_le. word_lia. Qed.

(** ** Ordered insertion, the abstract operation *)

Section Tins.
Context {A : Type} (key : A -> Z).

Fixpoint tins (t : A) (k : Z) (l : list A) : list A :=
  match l with
  | [] => [t]
  | x :: l' => if k <? key x then t :: l else x :: tins t k l'
  end.

Definition by_key (x y : A) : Prop := key x <= key y.

Lemma tins_perm t k l : tins t k l ≡ₚ t :: l.
Proof.
  induction l as [|y l IH]; simpl; [done|]. case_match; [done|].
  rewrite IH. apply Permutation_swap.
Qed.

Lemma elem_of_tins t k l x : x ∈ tins t k l <-> x = t \/ x ∈ l.
Proof. by rewrite tins_perm, elem_of_cons. Qed.

Lemma tins_sorted t l :
  StronglySorted by_key l -> StronglySorted by_key (tins t (key t) l).
Proof.
  induction 1 as [|y l Hs IH Hy]; simpl; [repeat constructor|].
  destruct (Z.ltb_spec (key t) (key y)).
  - constructor; [by constructor|]. constructor; [unfold by_key; lia|].
    eapply Forall_impl; [done|]. unfold by_key. intros; simpl in *; lia.
  - constructor; [done|]. rewrite tins_perm. constructor; [done|done].
Qed.

(** A sorted list splits at the insertion point. *)
Lemma tins_split t k l :
  StronglySorted by_key l ->
  exists l1 l2, l = l1 ++ l2 /\ tins t k l = l1 ++ t :: l2 /\
    Forall (fun x => key x <= k) l1 /\ Forall (fun x => k < key x) l2.
Proof.
  induction 1 as [|y l Hs (l1 & l2 & -> & Ht & H1 & H2) Hy]; simpl.
  { by exists [], []. }
  destruct (Z.ltb_spec k (key y)).
  - exists [], (y :: l1 ++ l2). split_and!; [done..|].
    constructor; [done|]. eapply Forall_impl; [done|]. unfold by_key. intros; simpl in *; lia.
  - exists (y :: l1), l2. rewrite Ht. split_and!; [done..| |done]. by constructor.
Qed.

Lemma tins_first t k l : Forall (fun x => k < key x) l -> tins t k l = t :: l.
Proof. destruct 1 as [|x l Hx]; [done|]. simpl. by rewrite (proj2 (Z.ltb_lt _ _) Hx). Qed.
End Tins.

Lemma tins_ext {A} (f g : A -> Z) t k l :
  (forall x, x ∈ l -> f x = g x) -> tins f t k l = tins g t k l.
Proof.
  induction l as [|y l IH]; simpl; [done|]. intros E. rewrite (E y) by left.
  case_match; [done|]. f_equal. apply IH. intros. apply E. by right.
Qed.

Lemma filter_tins {A} (P : A -> Prop) `{!forall x, Decision (P x)} key t k l :
  StronglySorted (by_key key) l -> P t ->
  filter P (tins key t k l) = tins key t k (filter P l).
Proof.
  intros Hs Ht. destruct (tins_split key t k l Hs) as (l1 & l2 & -> & -> & H1 & H2).
  clear Hs. induction l1 as [|x l1 IH]; simpl.
  - rewrite filter_cons_True by done. symmetry. apply tins_first.
    apply Forall_forall. intros x [_ Hx]%list_elem_of_filter.
    by eapply Forall_forall in H2.
  - apply Forall_cons in H1 as [Hx H1]. rewrite !filter_cons. case_decide; simpl.
    + rewrite (proj2 (Z.ltb_ge _ _) Hx). f_equal. by apply IH.
    + by apply IH.
Qed.

(** ** The memory after linking a timer *)

Definition nxt (w : world) (t : tref) : option tref := next (tmr w t).
Definition wake (w : world) (t : tref) : Z := waketime (tmr w t).

Definition link (w : world) (prev q t : tref) : world :=
  let w1 := w <| timers := <[t := (tmr w t) <| next := Some q |>]> (timers w) |> in
  w1 <| timers := <[prev := (tmr w1 prev) <| next := Some t |>]> (timers w1) |>.

Lemma tmr_link w prev q t u :
  prev <> t ->
  tmr (link w prev q t) u =
    if decide (u = prev) then (tmr w prev) <| next := Some t |>
    else if decide (u = t) then (tmr w t) <| next := Some q |> else tmr w u.
Proof.
  intros. unfold link. rewrite !tmr_upd.
  repeat case_decide; subst; congruence.
Qed.

Lemma wake_link w prev q t u : prev <> t -> wake (link w prev q t) u = wake w u.
Proof. intros. unfold wake. rewrite tmr_link by done. repeat case_decide; by subst. Qed.

Lemma insert_timer_loop_ok l1 : forall fuel w p q l2 t wk,
  path (nxt w) (p :: l1 ++ q :: l2) ->
  Forall (fun x => timer_is_before wk (wake w x) = false) l1 ->
  timer_is_before wk (wake w q) = true ->
  (length l1 < fuel)%nat ->
  insert_timer_loop fuel p t wk w = Ok tt (link w (List.last l1 p) q t).
Proof.
  induction l1 as [|x l1 IH]; intros [|fuel] w p q l2 t wk Hp Hl Hq Hf; try (simpl in Hf; lia).
  - destruct Hp as [Hp _]. unfold nxt in Hp. simpl in *. munfold. simpl.
    rewrite Hp. simpl. unfold wake in Hq. by rewrite Hq.
  - rewrite last_default. apply Forall_cons in Hl as [Hx Hl]. destruct Hp as [Hp Hp'].
    unfold nxt in Hp. simpl in Hp. simpl. munfold. simpl.
    rewrite Hp. simpl. unfold wake in Hx. rewrite Hx.
    rewrite (IH fuel w x q l2) by (done || simpl in Hf; lia).
    done.
Qed.

(** ** The invariant *)

(** The timers on the list before the sentinel are [us]. *)
Record sched_list (w : world) (us : list tref) : Prop := {
  sl_path : path (nxt w) (us ++ [TSentinel]);
  sl_head : head us = Some (timer_list w);
  sl_nodup : NoDup (us ++ [TSentinel]);
  sl_periodic : TPeriodic ∈ us;
  sl_deleted : TDeleted ∉ tail us;
  sl_last : last_insert w ∈ us /\ last_insert w <> TDeleted;
  sl_sentinel : wake w TSentinel = u32 (wake w TPeriodic + 2 ^ 31)
}.

(** Ticks from the base [b] to a timer's wake time. *)
Definition off (b : Z) (w : world) (t : tref) : Z := u32 (wake w t - b).

(** The timers are in order and less than 2^31 ticks after [b]. *)
Definition sched_sorted (b : Z) (w : world) (us : list tref) : Prop :=
  StronglySorted (by_key (off b w)) us /\ Forall (fun t => off b w t < 2 ^ 31) us.

(** The timers of the list without the place holder. *)
Definition live (us : list tref) : list tref := filter (fun t => t <> TDeleted) us.

Lemma off_range b w t : 0 <= off b w t < 2 ^ 32.
Proof. apply u32_range. Qed.

Lemma before_off b w k t :
  u32 (k - b) < 2 ^ 31 -> off b w t < 2 ^ 31 ->
  timer_is_before k (wake w t) = (u32 (k - b) <? off b w t).
Proof. apply timer_is_before_window. Qed.

Lemma nxt_dom w t : nxt w t <> None -> is_Some (timers w !! t).
Proof. unfold nxt, tmr. destruct (timers w !! t); naive_solver. Qed.

Lemma sched_fuel w us : sched_list w us -> (length us < list_fuel w)%nat.
Proof.
  intros [Hp _ Hnd]. pose proof (path_length (timers w) _ _ Hp Hnd (nxt_dom w)) as Hl.
  rewrite length_app in Hl. simpl in Hl. unfold list_fuel. lia.
Qed.

(** Wake times and links of [us] decide the invariant. *)
Lemma sched_sorted_ext b w w' us :
  (forall t, t ∈ us -> wake w' t = wake w t) -> sched_sorted b w us -> sched_sorted b w' us.
Proof.
  intros E [Hs Hf]. assert (forall t, t ∈ us -> off b w' t = off b w t) as E'.
  { intros. unfold off. by rewrite E. }
  split; [|apply Forall_forall; intros; rewrite E' by done; by eapply Forall_forall in Hf].
  clear E Hf. induction Hs as [|x us Hs IH Hx]; constructor.
  - apply IH. intros. apply E'. by right.
  - eapply Forall_forall. intros y Hy. eapply Forall_forall in Hx; [|done].
    unfold by_key in *. rewrite !E' by (left || by right). done.
Qed.

(** The base can move up to the first timer. *)
Lemma sched_sorted_rebase b w t us :
  sched_sorted b w (t :: us) -> sched_sorted (wake w t) w (t :: us).
Proof.
  intros [Hs Hf].
  assert (forall x, x ∈ t :: us -> off (wake w t) w x = off b w x - off b w t) as E.
  { intros x Hx. pose proof (Forall_forall (fun t => off b w t < 2 ^ 31) (t :: us)) as [Hf' _].
    pose proof (Hf' Hf x Hx). pose proof (Hf' Hf t ltac:(left)).
    assert (off b w t <= off b w x).
    { apply elem_of_cons in Hx as [->|Hx]; [lia|]. apply StronglySorted_inv in Hs as [_ Hs].
      by eapply Forall_forall in Hs. }
    unfold off in *. word_lia. }
  split.
  - apply StronglySorted_inv in Hs as Hs'. revert E Hs. generalize (t :: us).
    intros l E Hs. induction Hs as [|x l Hs IH Hx]; constructor.
    + apply IH. intros. apply E. by right.
    + eapply Forall_forall. intros y Hy. eapply Forall_forall in Hx; [|done].
      unfold by_key in *. rewrite !E by (left || by right). lia.
  - apply Forall_forall. intros x Hx. rewrite E by done. pose proof (off_range b w t).
    eapply Forall_forall in Hf; [|done]. simpl in Hf. lia.
Qed.

(** ** Insertion *)

Section Insert.
Context (b : Z) (w : world) (us : list tref) (t : tref).
Let k := wake w t.
Hypothesis Hsorted : sched_sorted b w us.
Hypothesis Hk : off b w t < 2 ^ 31.
Hypothesis Hper : TPeriodic ∈ t :: us.
Hypothesis Hsent : wake w TSentinel = u32 (wake w TPeriodic + 2 ^ 31).

Lemma insert_miss x : x ∈ us -> off b w x <= off b w t -> timer_is_before k (wake w x) = false.
Proof.
  intros Hx Hle. destruct Hsorted as [_ Hf]. eapply Forall_forall in Hf; [|exact Hx].
  unfold k. rewrite (before_off b) by done. apply Z.ltb_ge. exact Hle.
Qed.

Lemma insert_hit l1 l2 :
  us = l1 ++ l2 -> Forall (fun x => off b w x <= off b w t) l1 ->
  Forall (fun x => off b w t < off b w x) l2 ->
  exists q l2', l2 ++ [TSentinel] = q :: l2' /\ timer_is_before k (wake w q) = true.
Proof.
  intros Hus H1 H2. destruct l2 as [|x l2]; simpl.
  - exists TSentinel, []. split; [done|]. rewrite Hsent. apply timer_is_before_half.
    rewrite app_nil_r in Hus. apply elem_of_cons in Hper as [<-|Hp].
    + unfold k. apply timer_is_before_refl.
    + apply insert_miss; [done|]. rewrite Hus in Hp. by eapply Forall_forall in H1.
  - exists x, (l2 ++ [TSentinel]). split; [done|]. apply Forall_cons in H2 as [Hx _].
    destruct Hsorted as [_ Hf]. eapply Forall_forall in Hf;
      [|rewrite Hus; apply elem_of_app; right; left].
    unfold k. rewrite (before_off b) by done. by apply Z.ltb_lt.
Qed.

Hypothesis Hpath : path (nxt w) (us ++ [TSentinel]).
Hypothesis Hnd : NoDup (us ++ [TSentinel]).
Hypothesis Ht : t ∉ us ++ [TSentinel].

(** Inserting from a start point [pos] whose wake time is not after the
    timer's yields the ordered list. *)
Lemma insert_from pos fuel :
  (length us < fuel)%nat ->
  (pos ∈ us /\ off b w pos <= off b w t \/
   pos = t /\ nxt w t = head (us ++ [TSentinel]) /\
   timer_is_before k (wake w (default TSentinel (head us))) = false) ->
  exists prev q, prev <> t /\
    insert_timer_loop fuel pos t k w = Ok tt (link w prev q t) /\
    path (nxt (link w prev q t)) (tins (off b w) t (off b w t) us ++ [TSentinel]).
Proof.
  intros Hfuel Hpos. destruct Hsorted as [Hs _].
  destruct (tins_split (off b w) t (off b w t) us Hs) as (l1 & l2 & Hus & Htins & H1 & H2).
  destruct (insert_hit l1 l2 Hus H1 H2) as (q & l2' & Hq & Hbq).
  assert (Forall (fun x => timer_is_before k (wake w x) = false) l1) as Hmiss.
  { apply Forall_forall. intros x Hx. eapply Forall_forall in H1; [|exact Hx].
    apply insert_miss; [|done]. rewrite Hus. apply elem_of_app. by left. }
  assert (us ++ [TSentinel] = l1 ++ q :: l2') as E by by rewrite Hus, <- app_assoc, Hq.
  assert (length l1 < fuel)%nat as Hfuel' by (rewrite Hus, length_app in Hfuel; lia).
  destruct (decide (l1 = [])) as [->|Hne].
  { exfalso. destruct Hpos as [[Hin Hle]|(_ & _ & Hb)].
    - rewrite Hus in Hin. eapply Forall_forall in H2; [|exact Hin]. simpl in H2. lia.
    - rewrite Hus in Hb. simpl in Hb. destruct l2 as [|x l2]; simpl in *; congruence. }
  destruct (exists_last Hne) as (l0 & prev & ->).
  exists prev, q. rewrite E in Hpath, Hnd, Ht. rewrite <- app_assoc in Hpath, Hnd, Ht. simpl in *.
  assert (prev <> t) as Hpt by (intros ->; apply Ht, elem_of_app; right; left).
  split_and!; [done| |].
  - destruct Hpos as [[Hin Hle]|(-> & Hnt & _)].
    + assert (pos ∈ l0 ++ [prev]) as (a1 & a2 & Ha)%list_elem_of_split.
      { rewrite Hus in Hin. apply elem_of_app in Hin as [?|Hin]; [done|].
        eapply Forall_forall in H2; [|exact Hin]. simpl in H2. lia. }
      assert (path (nxt w) (pos :: a2 ++ q :: l2')) as Hp'.
      { change (l0 ++ prev :: q :: l2') with (l0 ++ [prev] ++ q :: l2') in Hpath.
        rewrite app_assoc, Ha, <- app_assoc in Hpath. simpl in Hpath.
        by apply path_app in Hpath as [_ ?]. }
      rewrite (insert_timer_loop_ok a2 fuel w pos q l2' t k Hp').
      * f_equal. f_equal. rewrite <- (last_app_cons a1 a2 pos pos), <- Ha.
        by rewrite last_app_cons.
      * rewrite Ha in Hmiss. apply Forall_app in Hmiss as [_ Hmiss].
        by apply Forall_cons in Hmiss as [_ ?].
      * done.
      * rewrite Ha, length_app in Hfuel'. simpl in Hfuel'. lia.
    + rewrite (insert_timer_loop_ok (l0 ++ [prev]) fuel w t q l2' t k); try done.
      * by rewrite last_app_cons.
      * rewrite <- E. split; [done|]. by rewrite E, <- app_assoc.
  - rewrite Htins, <- app_assoc. simpl. rewrite Hq, <- app_assoc. simpl.
    eapply path_link; [exact Hpath|exact Hnd|exact Ht|..].
    + unfold nxt. rewrite tmr_link by done. by rewrite decide_True.
    + unfold nxt. rewrite tmr_link by done. by rewrite decide_False, decide_True by congruence.
    + intros x Hx1 Hx2. unfold nxt. rewrite tmr_link by done. by rewrite !decide_False by done.
Qed.
End Insert.

(** ** Operations on the list *)

Definition is_user (t : tref) : Prop := match t with TObj _ _ => True | _ => False end.

Lemma live_cases w us :
  sched_list w us ->
  timer_list w = TDeleted /\ us = TDeleted :: live us \/
  timer_list w <> TDeleted /\ live us = us /\ TDeleted ∉ us.
Proof.
  intros [_ Hh _ _ Hd _ _]. destruct us as [|h us]; [done|]. simpl in *. simplify_eq.
  unfold live. assert (filter (fun t => t <> TDeleted) us = us) as Hf by by apply filter_neq_id.
  destruct (decide (timer_list w = TDeleted)) as [E|E]; [left|right].
  - rewrite E, filter_cons_False, Hf by tauto. done.
  - rewrite filter_cons_True, Hf by done. split_and!; [done..|set_solver].
Qed.

Lemma elem_of_live x us : x ∈ live us <-> x <> TDeleted /\ x ∈ us.
Proof. unfold live. by rewrite list_elem_of_filter. Qed.

Lemma live_path w us : sched_list w us -> path (nxt w) (live us ++ [TSentinel]).
Proof.
  intros Hl. pose proof (sl_path _ _ Hl) as Hp.
  destruct (live_cases w us Hl) as [[_ E]|(_ & -> & _)]; [|done].
  rewrite E in Hp. simpl in Hp. tauto.
Qed.

Lemma live_nodup w us : sched_list w us -> NoDup (live us ++ [TSentinel]).
Proof.
  intros Hl. pose proof (sl_nodup _ _ Hl) as Hp.
  destruct (live_cases w us Hl) as [[_ E]|(_ & -> & _)]; [|done].
  rewrite E in Hp. simpl in Hp. by apply NoDup_cons in Hp as [_ ?].
Qed.

Lemma sched_sorted_filter (P : tref -> Prop) `{!forall x, Decision (P x)} b w us :
  sched_sorted b w us -> sched_sorted b w (filter P us).
Proof.
  intros [Hs Hf]. split; [|by apply Forall_filter_keep].
  clear Hf. induction Hs as [|x us Hs IH Hx]; [constructor|].
  rewrite filter_cons. case_decide; [|done]. constructor; [done|]. by apply Forall_filter_keep.
Qed.

Lemma live_sorted b w us : sched_sorted b w us -> sched_sorted b w (live us).
Proof. apply sched_sorted_filter. Qed.

(** A list with the place holder in front of [live us]. *)
Lemma front_list w w' us l' :
  sched_list w us ->
  timer_list w' = TDeleted -> last_insert w' = last_insert w ->
  (forall t, t <> TDeleted -> wake w' t = wake w t) ->
  path (nxt w') (TDeleted :: l' ++ [TSentinel]) -> NoDup l' ->
  TSentinel ∉ l' -> TDeleted ∉ l' -> (forall t, t ∈ live us -> t ∈ l') ->
  sched_list w' (TDeleted :: l').
Proof.
  intros Hl Htl Hli Hw Hp Hnd Hs Hd Hin.
  destruct (sl_last _ _ Hl) as [Hla Hlb].
  constructor; [done|by rewrite Htl| | |done| |].
  - apply NoDup_app. split_and!; [by constructor|set_solver|apply NoDup_singleton].
  - right. apply Hin, elem_of_live. split; [done|apply Hl].
  - rewrite Hli. split; [|done]. right. by apply Hin, elem_of_live.
  - rewrite !Hw by done. apply Hl.
Qed.

Lemma tmr_timers w w' t : timers w' = timers w -> tmr w' t = tmr w t.
Proof. unfold tmr. by intros ->. Qed.

Section Facts.
Context `{Board}.

(** The memory after [add] was put in front of the list [live us]. *)
Definition front_world (w : world) (add : tref) (nx : option tref) : world :=
  w <| timers := <[TDeleted := mkTimer (Some add) (func (tmr w TDeleted)) (wake w add)]>
                   (<[add := (tmr w add) <| next := nx |>]> (timers w)) |>
    <| timer_list := TDeleted |> <| clock_reads ::= S |> <| hw_trace ::= cons HwTimerKick |>.

Lemma sched_add_timer_front w us add :
  sched_list w us -> is_user add ->
  timer_is_before (wake w add) (wake w (timer_list w)) = true ->
  sched_add_timer add w =
    if timer_is_before (wake w add) (u32 (clock_reading (clock_reads w))) && (shutdown_status w =? 0)
    then Shut "Timer too close" (w <| clock_reads ::= S |>)
    else Ok tt (front_world w add (head (live us ++ [TSentinel]))).
Proof.
  intros Hl Hu Hb. unfold sched_add_timer, sched_try_shutdown. munfold. cbn -[timer_is_before].
  unfold wake in Hb at 1 2. rewrite Hb. unfold wake at 1.
  assert (forall w', timers w' = timers w -> timer_list w' = timer_list w ->
    ((if decide (timer_list w = TDeleted)
      then d ← get_timer TDeleted; mod_timer add (fun x => x <| next := next d |>)
      else mod_timer add (fun x => x <| next := Some (timer_list w) |>)) : M unit) w' =
    Ok tt (w' <| timers := <[add := (tmr w add) <| next := head (live us ++ [TSentinel]) |>]> (timers w) |>))
    as Hset.
  { intros w' Ew El. munfold. destruct (live_cases w us Hl) as [[E1 E2]|(E1 & E2 & _)].
    - rewrite decide_True by done. cbn. unfold mod_timer, modify. rewrite !(tmr_timers w w') by done. pose proof (sl_path _ _ Hl) as Hp.
      rewrite E2 in Hp. destruct Hp as [Hp _]. unfold nxt in Hp. by rewrite Hp, Ew.
    - rewrite decide_False by done. unfold mod_timer, modify.
      rewrite (tmr_timers w w' add) by done. rewrite E2. pose proof (sl_head _ _ Hl) as Hh.
      destruct us as [|h us]; [done|]. simpl in *. simplify_eq. by rewrite Ew. }
  destruct (timer_is_before _ (u32 _)); cbn; [destruct (shutdown_status w =? 0); [done|]|].
  all: munfold; rewrite Hset by done; unfold front_world, wake, tmr; cbn.
  all: assert (add <> TDeleted) by (by intros ->).
  all: by rewrite !insert_insert_eq, !lookup_insert_eq, !lookup_insert_ne by done.
Qed.
Lemma tmr_front w add nx u :
  add <> TDeleted ->
  tmr (front_world w add nx) u =
    if decide (u = TDeleted) then mkTimer (Some add) (func (tmr w TDeleted)) (wake w add)
    else if decide (u = add) then (tmr w add) <| next := nx |> else tmr w u.
Proof.
  intros. unfold front_world, tmr at 1. cbn. rewrite !lookup_insert.
  repeat case_decide; subst; try congruence; done.
Qed.

(** Facts about a list whose first element is not before the new timer. *)
Lemma sorted_all_after b w us h add :
  sched_sorted b w us -> head us = Some h -> off b w add < off b w h ->
  Forall (fun x => off b w add < off b w x) us.
Proof.
  intros [Hs _] Hh Hlt. destruct us as [|x us]; [done|]. simpl in Hh. simplify_eq.
  apply StronglySorted_inv in Hs as [_ Hs]. constructor; [done|].
  eapply Forall_impl; [exact Hs|]. unfold by_key. simpl. intros; lia.
Qed.

Lemma wake_front w add nx x :
  add <> TDeleted ->
  wake (front_world w add nx) x = if decide (x = TDeleted) then wake w add else wake w x.
Proof. intros. unfold wake. rewrite tmr_front by done. repeat case_decide; by subst. Qed.

Lemma front_struct w us add :
  sched_list w us -> add ∉ us -> is_user add ->
  sched_list (front_world w add (head (live us ++ [TSentinel]))) (TDeleted :: add :: live us).
Proof.
  intros Hl Hin Hu. assert (add <> TDeleted /\ add <> TSentinel) as [Hd Hse] by (split; by intros ->).
  pose proof (live_nodup _ _ Hl) as Hnd. apply NoDup_app in Hnd as (Hnd & Hns & _).
  eapply front_list; [exact Hl|done|done| | | | | |].
  - intros x Hx. rewrite wake_front by done. by rewrite decide_False.
  - simpl. unfold nxt. rewrite !tmr_front by done.
    rewrite decide_True, decide_False, decide_True by done. split_and!; [done..|].
    eapply path_ext, live_path, Hl. intros x Hx. unfold nxt. rewrite tmr_front by done.
    apply elem_of_app in Hx as [[? ?]%elem_of_live|Hx%list_elem_of_singleton]; subst;
      rewrite !decide_False; done || (by intros ->) || congruence.
  - constructor; [|done]. rewrite elem_of_live. tauto.
  - set_solver.
  - rewrite elem_of_cons, elem_of_live. naive_solver.
  - intros x Hx. by right.
Qed.

Lemma live_front us add : is_user add -> live (TDeleted :: add :: live us) = add :: live us.
Proof.
  intros Hu. unfold live at 1. rewrite filter_cons_False, filter_cons_True by (tauto || by intros ->).
  f_equal. unfold live. rewrite list_filter_filter_l; [done|naive_solver].
Qed.

Lemma front_ok b w us add w' :
  sched_list w us -> sched_sorted b w us -> add ∉ us -> is_user add ->
  off b w add < 2 ^ 31 -> off b w add < off b w (timer_list w) ->
  w' = front_world w add (head (live us ++ [TSentinel])) ->
  sched_list w' (TDeleted :: add :: live us) /\ sched_sorted b w' (TDeleted :: add :: live us) /\
  tins (off b w) add (off b w add) (live us) = add :: live us.
Proof.
  intros Hl Hs Hin Hu Hk Hlt ->. assert (add <> TDeleted) as Hd by (by intros ->).
  pose proof (sorted_all_after b w us _ add Hs (sl_head _ _ Hl) Hlt) as Hall.
  apply (Forall_filter_keep _ (fun t => t <> TDeleted)) in Hall. fold (live us) in Hall.
  split_and!; [by apply front_struct| |by apply tins_first].
  set (w' := front_world w add _).
  assert (sched_sorted b w' (add :: live us)) as [Hs' Hf'].
  { apply (sched_sorted_ext b w).
    - intros x Hx. unfold w'. rewrite wake_front by done. rewrite decide_False; [done|]. intros ->.
      rewrite elem_of_cons, elem_of_live in Hx. naive_solver.
    - destruct (live_sorted _ _ _ Hs) as [Hs1 Hf1]. split; [|by constructor].
      constructor; [done|]. eapply Forall_impl; [exact Hall|]. unfold by_key. simpl. lia. }
  assert (off b w' TDeleted = off b w' add) as E.
  { unfold off, w'. rewrite !wake_front by done. by rewrite decide_True, decide_False. }
  split; constructor; [done| |by rewrite E; apply Forall_inv in Hf'|done].
  apply StronglySorted_inv in Hs' as [_ Hs']. unfold by_key in *. rewrite E.
  constructor; [lia|done].
Qed.

(** A list ordered by insertion of [t] satisfies the invariant again. *)
Lemma tins_ok b w w' us t l :
  sched_sorted b w us -> off b w t < 2 ^ 31 ->
  l = tins (off b w) t (off b w t) us -> (forall x, wake w' x = wake w x) ->
  sched_sorted b w' l.
Proof.
  intros [Hs Hf] Hk -> Hw. apply (sched_sorted_ext b w); [done|]. split.
  - by apply tins_sorted.
  - rewrite tins_perm. by constructor.
Qed.

Lemma tins_nodup {A} (key : A -> Z) t k us x :
  NoDup (us ++ [x]) -> t ∉ us ++ [x] -> NoDup (tins key t k us ++ [x]).
Proof.
  intros. rewrite tins_perm. simpl. by constructor.
Qed.

Lemma tins_tail {A} (key : A -> Z) t k us h :
  head us = Some h -> key h <= k -> tins key t k us = h :: tins key t k (tail us).
Proof.
  destruct us as [|x us]; [done|]. simpl. intros [= ->] Hle.
  by rewrite (proj2 (Z.ltb_ge _ _) Hle).
Qed.

Lemma insert_ok b w us add :
  sched_list w us -> sched_sorted b w us -> add ∉ us -> is_user add ->
  off b w add < 2 ^ 31 -> off b w (timer_list w) <= off b w add ->
  exists prev q, insert_timer (timer_list w) add (wake w add) w = Ok tt (link w prev q add) /\
    sched_list (link w prev q add) (tins (off b w) add (off b w add) us) /\
    sched_sorted b (link w prev q add) (tins (off b w) add (off b w add) us).
Proof.
  intros Hl Hs Hin Hu Hk Hle. pose proof (sl_head _ _ Hl) as Hh.
  assert (timer_list w ∈ us) as Hhin by (destruct us; simplify_eq/=; left).
  assert (add ∉ us ++ [TSentinel]) as Hnin
    by (rewrite elem_of_app, list_elem_of_singleton; intros [?| ->]; done).
  destruct (insert_from b w us add Hs Hk ltac:(right; apply Hl) (sl_sentinel _ _ Hl)
    (sl_path _ _ Hl) (sl_nodup _ _ Hl) Hnin (timer_list w) (list_fuel w)) as (prev & q & Hpt & Hrun & Hpath).
  { by apply sched_fuel. }
  { by left. }
  exists prev, q. assert (forall x, wake (link w prev q add) x = wake w x) as Hw.
  { intros. by apply wake_link. }
  split_and!; [|constructor|by eapply tins_ok].
  - unfold insert_timer. munfold. exact Hrun.
  - done.
  - by rewrite (tins_tail _ _ _ _ _ Hh).
  - by apply tins_nodup; [apply Hl|].
  - apply elem_of_tins. right. apply Hl.
  - rewrite (tins_tail _ _ _ _ _ Hh) by done. simpl. rewrite elem_of_tins.
    intros [<-|?]; [done|]. by apply (sl_deleted _ _ Hl).
  - split; [|apply Hl]. apply elem_of_tins. right. apply Hl.
  - rewrite !Hw. apply Hl.
Qed.

Lemma list_head_in w us : sched_list w us -> timer_list w ∈ us.
Proof. intros Hl. pose proof (sl_head _ _ Hl). destruct us; simplify_eq/=. left. Qed.

(** [sched_add_timer] on every branch: the timer is inserted in wake time
    order (after timers with the same wake time), or, if it is the earliest
    and already late, the machine is asked to shut down and the list is left
    unchanged. *)
Lemma sched_add_timer_ok b w us add :
  sched_list w us -> sched_sorted b w us -> add ∉ us -> is_user add -> off b w add < 2 ^ 31 ->
  match sched_add_timer add w with
  | Ok _ w' => exists us', sched_list w' us' /\ sched_sorted b w' us' /\
      live us' = tins (off b w) add (off b w add) (live us)
  | Shut r w' => r = "Timer too close" /\ shutdown_status w = 0 /\
      timer_is_before (wake w add) (u32 (clock_reading (clock_reads w))) = true /\
      w' = w <| clock_reads ::= S |>
  | Fault => False
  end.
Proof.
  intros Hl Hs Hin Hu Hk.
  assert (off b w (timer_list w) < 2 ^ 31) as Hh.
  { destruct Hs as [_ Hf]. eapply Forall_forall in Hf; [exact Hf|by apply list_head_in]. }
  destruct (timer_is_before (wake w add) (wake w (timer_list w))) eqn:Hb.
  - rewrite (sched_add_timer_front w us add Hl Hu Hb).
    rewrite (before_off b) in Hb by done. apply Z.ltb_lt in Hb.
    destruct (timer_is_before _ (u32 _)) eqn:Hn, (Z.eqb_spec (shutdown_status w) 0); simpl; try done.
    all: destruct (front_ok b w us add _ Hl Hs Hin Hu Hk Hb eq_refl) as (Hl' & Hs' & ->).
    all: exists (TDeleted :: add :: live us); split_and!; [done..|].
    all: by apply live_front.
  - unfold sched_add_timer. munfold. cbn -[timer_is_before]. fold (wake w add).
    fold (wake w (timer_list w)). rewrite Hb.
    rewrite (before_off b) in Hb by done. apply Z.ltb_ge in Hb.
    destruct (insert_ok b w us add Hl Hs Hin Hu Hk Hb) as (prev & q & -> & Hl' & Hs').
    eexists. split_and!; [exact Hl'|exact Hs'|]. unfold live.
    apply filter_tins; [apply Hs|]. by intros ->.
Qed.

(** ** Deletion *)

Definition unlink (w : world) (prev del : tref) : world :=
  w <| timers := <[prev := (tmr w prev) <| next := nxt w del |>]> (timers w) |>.

Lemma del_timer_loop_found l1 : forall fuel w p del l2,
  path (nxt w) (p :: l1 ++ del :: l2) -> del ∉ l1 -> (length l1 < fuel)%nat ->
  del_timer_loop fuel p del w = Ok tt (unlink w (List.last l1 p) del).
Proof.
  induction l1 as [|x l1 IH]; intros [|fuel] w p del l2 Hp Hd Hf; try (simpl in Hf; lia).
  - destruct Hp as [Hp _]. unfold nxt in Hp. simpl in *. munfold. cbn.
    rewrite Hp. by rewrite decide_True.
  - rewrite last_default. apply not_elem_of_cons in Hd as [Hx Hd]. destruct Hp as [Hp Hp'].
    unfold nxt in Hp. cbn in Hp. cbn. munfold. cbn.
    rewrite Hp. rewrite decide_False by done. apply (IH fuel w x del l2); [done..|simpl in Hf; lia].
Qed.

Lemma del_timer_loop_absent l : forall fuel w p del,
  path (nxt w) (p :: l) -> del ∉ l -> (length l < fuel)%nat ->
  del_timer_loop fuel p del w = Ok tt w.
Proof.
  induction l as [|x l IH]; intros [|fuel] w p del Hp Hd Hf; try (simpl in Hf; lia).
  - destruct Hp as [Hp _]. unfold nxt in Hp. cbn in *. munfold. cbn. by rewrite Hp.
  - apply not_elem_of_cons in Hd as [Hx Hd]. destruct Hp as [Hp Hp'].
    unfold nxt in Hp. cbn in Hp. cbn. munfold. cbn.
    rewrite Hp. rewrite decide_False by done. apply IH; [done..|simpl in Hf; lia].
Qed.

Lemma unlink_list w us l1 prev del l2 :
  sched_list w us -> us = l1 ++ prev :: del :: l2 -> is_user del -> last_insert w <> del ->
  sched_list (unlink w prev del) (filter (fun x => x <> del) us).
Proof.
  intros Hl Hus Hu Hli. pose proof (sl_nodup _ _ Hl) as Hnd.
  pose proof (sl_path _ _ Hl) as Hp. pose proof (sl_head _ _ Hl) as Hh.
  assert (forall x, wake (unlink w prev del) x = wake w x) as Hw.
  { intros. unfold wake, unlink. rewrite tmr_upd. case_decide; by subst. }
  assert (filter (fun x => x <> del) us = l1 ++ prev :: l2) as Hf.
  { rewrite Hus in *. rewrite <- app_assoc in Hnd.
    apply NoDup_app in Hnd as (_ & H1 & Hnd). simpl in Hnd.
    apply NoDup_cons in Hnd as [Hp1 Hnd]. apply NoDup_cons in Hnd as [Hp2 _].
    rewrite filter_app, (filter_neq_id _ l1), filter_cons_True, filter_cons_False, filter_neq_id;
      set_solver. }
  constructor.
  - rewrite Hf, <- app_assoc. simpl. rewrite Hus, <- app_assoc in Hp, Hnd. simpl in *.
    eapply path_unlink; [exact Hp|exact Hnd|..].
    + unfold nxt, unlink. rewrite tmr_upd. by rewrite decide_True.
    + intros x Hx. unfold nxt, unlink. rewrite tmr_upd. by rewrite decide_False.
  - rewrite Hf. cbn. rewrite <- Hh, Hus. by destruct l1.
  - apply NoDup_app in Hnd as (Hnd & H1 & H2). apply NoDup_app. split_and!; [by apply NoDup_filter| |done].
    intros x [_ Hx]%list_elem_of_filter. by apply H1.
  - apply list_elem_of_filter. split; [by intros <-|apply Hl].
  - pose proof (sl_deleted _ _ Hl) as Hd. rewrite Hf. rewrite Hus in Hd.
    destruct l1; simpl in *; set_solver.
  - destruct (sl_last _ _ Hl). cbn. split; [|done]. by apply list_elem_of_filter.
  - rewrite !Hw. apply Hl.
Qed.

(** [last_insert] after deleting [del]. *)
Definition fix_last (w : world) (del : tref) : world :=
  if bool_decide (last_insert w = del) then w <| last_insert := TPeriodic |> else w.

Lemma fix_last_list w us del :
  sched_list w us -> is_user del ->
  sched_list (fix_last w del) us /\ last_insert (fix_last w del) <> del.
Proof.
  intros Hl Hu. unfold fix_last. case_bool_decide as E; [|done]. split; [|by intros <-].
  destruct Hl. constructor; try done.
Qed.

(** Removing the first timer leaves the place holder in its position. *)
Definition del_front (w : world) (del : tref) : world :=
  w <| timers := <[TDeleted := mkTimer (nxt w del) (func (tmr w TDeleted)) (wake w del)]> (timers w) |>
    <| timer_list := TDeleted |>.

Lemma tmr_del_front w del u :
  tmr (del_front w del) u =
    if decide (u = TDeleted) then mkTimer (nxt w del) (func (tmr w TDeleted)) (wake w del)
    else tmr w u.
Proof.
  unfold del_front, tmr at 1. cbn. rewrite lookup_insert. repeat case_decide; subst; done.
Qed.

Lemma del_front_ok b w del rest :
  sched_list w (del :: rest) -> sched_sorted b w (del :: rest) -> is_user del ->
  last_insert w <> del ->
  sched_list (del_front w del) (TDeleted :: rest) /\ sched_sorted b (del_front w del) (TDeleted :: rest).
Proof.
  intros Hl Hs Hu Hli.
  assert (forall x, x <> TDeleted -> wake (del_front w del) x = wake w x) as Hw.
  { intros. unfold wake. rewrite tmr_del_front. by rewrite decide_False. }
  assert (wake (del_front w del) TDeleted = wake w del) as HwD.
  { unfold wake at 1. rewrite tmr_del_front. by rewrite decide_True. }
  pose proof (sl_deleted _ _ Hl) as Hd. simpl in Hd.
  destruct (sl_last _ _ Hl) as [Hla Hlb]. pose proof (sl_nodup _ _ Hl) as Hnd.
  destruct (sl_path _ _ Hl) as [Hp1 Hp2].
  apply NoDup_cons in Hnd as [Hn1 Hnd]. split; [constructor; try done|].
  - simpl. split; [unfold nxt; rewrite tmr_del_front; by rewrite decide_True|].
    eapply path_ext, Hp2. intros x Hx. unfold nxt. rewrite tmr_del_front.
    rewrite decide_False; [done|]. intros ->. set_solver.
  - simpl. constructor; [set_solver|done].
  - pose proof (sl_periodic _ _ Hl) as [<-|?]%elem_of_cons; [done|by right].
  - cbn. split; [|done]. apply elem_of_cons in Hla as [?|?]; [done|by right].
  - rewrite !Hw by done. apply Hl.
  - destruct Hs as [Hs Hf]. apply StronglySorted_inv in Hs as [Hs1 Hs2].
    apply Forall_cons in Hf as [Hf1 Hf2].
    assert (forall x, x ∈ rest -> off b (del_front w del) x = off b w x) as Ho.
    { intros x Hx. unfold off. rewrite Hw; [done|]. by intros ->. }
    assert (sched_sorted b (del_front w del) rest) as [Hs3 Hf3].
    { apply (sched_sorted_ext b w); [|done]. intros x Hx. apply Hw. by intros ->. }
    assert (off b (del_front w del) TDeleted = off b w del) as E by (unfold off; by rewrite HwD).
    split; constructor; [done| |by rewrite E|done].
    apply Forall_forall. intros x Hx. eapply Forall_forall in Hs2; [|done].
    unfold by_key in *. rewrite E. by rewrite Ho.
Qed.

(** [sched_del_timer] removes the timer if it is on the list and changes
    nothing else; it never fails. *)
Lemma sched_del_timer_ok b w us del :
  sched_list w us -> sched_sorted b w us -> is_user del ->
  exists w' us', sched_del_timer del w = Ok tt w' /\ sched_list w' us' /\ sched_sorted b w' us' /\
    live us' = filter (fun x => x <> del) (live us).
Proof.
  intros Hl Hs Hu. destruct (fix_last_list w us del Hl Hu) as [Hl' Hli].
  assert (sched_sorted b (fix_last w del) us) as Hs'.
  { eapply sched_sorted_ext, Hs. intros. unfold fix_last. by case_bool_decide. }
  unfold sched_del_timer. munfold. pose proof (sl_head _ _ Hl) as Hh.
  destruct (decide (timer_list w = del)) as [E|E].
  - destruct us as [|h rest]; [done|]. simpl in Hh. simplify_eq.
    assert (timer_list w <> TDeleted) as Hd by (intros E; by rewrite E in Hu).
    destruct (del_front_ok b _ _ rest Hl' Hs' Hu Hli) as [Hl2 Hs2].
    exists (del_front (fix_last w (timer_list w)) (timer_list w)), (TDeleted :: rest).
    split_and!; [|done|done|].
    + cbn. rewrite !insert_insert_eq. unfold tmr, fix_last, del_front. cbn.
      rewrite lookup_insert_eq. case_bool_decide; cbn; done.
    + pose proof (sl_deleted _ _ Hl) as Hd'. simpl in Hd'.
      pose proof (sl_nodup _ _ Hl) as Hnd. apply NoDup_cons in Hnd as [Hnd _].
      unfold live. rewrite filter_cons_False, filter_cons_True, filter_cons_False by tauto.
      rewrite (filter_neq_id TDeleted) by done. rewrite filter_neq_id; [done|set_solver].
  - assert (live (filter (fun x => x <> del) us) = filter (fun x => x <> del) (live us)) as Hlive.
    { unfold live. rewrite !list_filter_filter. apply list_filter_iff. tauto. }
    pose proof (sl_path _ _ Hl) as Hp. pose proof (sched_fuel _ _ Hl) as Hfu.
    destruct (decide (del ∈ us)) as [Hin|Hin].
    + destruct us as [|h us]; [done|]. simpl in Hh. simplify_eq.
      apply elem_of_cons in Hin as [?|(l1 & l2 & E2 & Hn)%list_elem_of_split_l]; [congruence|].
      exists (unlink (fix_last w del) (List.last l1 (timer_list w)) del),
        (filter (fun x => x <> del) (timer_list w :: us)).
      destruct (exists_last (l := timer_list w :: l1) ltac:(done)) as (l0 & prev & E3).
      assert (List.last l1 (timer_list w) = prev) as Elast.
      { rewrite <- (last_default _ prev), E3. by rewrite last_app_cons. }
      split_and!; [| | |done].
      * rewrite (del_timer_loop_found l1 _ w _ del (l2 ++ [TSentinel])).
        -- unfold unlink, fix_last. cbn. by case_bool_decide.
        -- rewrite E2 in Hp. simpl in Hp. by rewrite <- app_assoc in Hp.
        -- done.
        -- rewrite E2 in Hfu. simpl in Hfu. rewrite length_app in Hfu. lia.
      * eapply unlink_list with (l1 := l0) (l2 := l2); [done| |done|done].
        rewrite Elast, E2. change (timer_list w :: l1 ++ del :: l2) with ((timer_list w :: l1) ++ del :: l2).
        by rewrite E3, <- app_assoc.
      * eapply sched_sorted_ext, sched_sorted_filter, Hs. intros x _. unfold wake, unlink.
        rewrite tmr_upd. unfold fix_last. repeat case_decide; case_bool_decide; by subst.
    + exists (fix_last w del), us. split_and!; [|done|done|].
      * destruct us as [|h us]; [done|]. simpl in Hh. simplify_eq.
        rewrite (del_timer_loop_absent (us ++ [TSentinel]) _ w); [|done| |].
        -- unfold fix_last. by case_bool_decide.
        -- set_solver.
        -- rewrite length_app. simpl in *. lia.
      * rewrite <- Hlive. by rewrite filter_neq_id.
Qed.

(** ** Dispatch *)

Lemma dispatch_done_ok b w t rest :
  sched_list w (t :: rest) -> sched_sorted b w rest -> t <> TPeriodic ->
  exists w', dispatch_update t SF_DONE w = Ok (wake w' (timer_list w')) w' /\
    sched_list w' rest /\ sched_sorted b w' rest.
Proof.
  intros Hl Hs Ht. destruct (sl_path _ _ Hl) as [Hp1 Hp2].
  pose proof (sl_periodic _ _ Hl) as [?|Hper]%elem_of_cons; [done|].
  pose proof (sl_deleted _ _ Hl) as Hd. simpl in Hd.
  destruct (sl_last _ _ Hl) as [Hla Hlb]. pose proof (sl_nodup _ _ Hl) as Hnd.
  apply NoDup_cons in Hnd as [Hn1 Hnd].
  destruct rest as [|n rest]; [by apply not_elem_of_nil in Hper|]. simpl in Hp1, Hp2.
  unfold dispatch_update. munfold. cbn. unfold nxt in Hp1. rewrite Hp1. cbn.
  exists (if bool_decide (last_insert w = t) then w <| timer_list := n |> <| last_insert := n |>
          else w <| timer_list := n |>).
  split; [by case_bool_decide|].
  split; [|case_bool_decide; eapply sched_sorted_ext, Hs; done].
  apply not_elem_of_cons in Hd as [Hd1 Hd2].
  case_bool_decide; (constructor; [exact Hp2|done|done|done|done| |apply Hl]); cbn.
  - split; [left|congruence].
  - split; [|done]. by apply elem_of_cons in Hla as [?|?].
Qed.

Lemma resched_list b w t rest prev q :
  sched_list w (t :: rest) -> t <> TDeleted -> prev <> t ->
  off b w (default TSentinel (head rest)) <= off b w t -> rest <> [] ->
  path (nxt (link w prev q t)) (tins (off b w) t (off b w t) rest ++ [TSentinel]) ->
  sched_list ((link w prev q t) <| timer_list := default TSentinel (head rest) |>
                <| last_insert := t |>) (tins (off b w) t (off b w t) rest).
Proof.
  intros Hl Hd Hpt Hle Hne Hp. pose proof (sl_nodup _ _ Hl) as Hnd.
  apply NoDup_cons in Hnd as [Hn1 Hnd].
  destruct rest as [|n rest]; [done|]. cbn [head default] in *.
  assert (head (n :: rest) = Some n) as Hh by done.
  constructor; cbn -[tins].
  - exact Hp.
  - by rewrite (tins_tail _ _ _ _ _ Hh).
  - by apply tins_nodup.
  - apply elem_of_tins, elem_of_cons, Hl.
  - rewrite (tins_tail _ _ _ _ _ Hh) by done. simpl. rewrite elem_of_tins.
    pose proof (sl_deleted _ _ Hl). set_solver.
  - split; [|done]. apply elem_of_tins. by left.
  - change (wake (link w prev q t) TSentinel = u32 (wake (link w prev q t) TPeriodic + 2 ^ 31)).
    rewrite !wake_link by done. apply Hl.
Qed.

Lemma dispatch_resched_ok b w t rest :
  sched_list w (t :: rest) -> sched_sorted b w rest -> off b w t < 2 ^ 31 -> t <> TDeleted ->
  exists w', dispatch_update t SF_RESCHEDULE w = Ok (wake w' (timer_list w')) w' /\
    sched_list w' (tins (off b w) t (off b w t) rest) /\
    sched_sorted b w' (tins (off b w) t (off b w t) rest).
Proof.
  intros Hl Hs Hk Hd. destruct (sl_path _ _ Hl) as [Hp1 Hp2].
  pose proof (sl_periodic _ _ Hl) as Hper. pose proof (sl_nodup _ _ Hl) as Hnd.
  apply NoDup_cons in Hnd as [Hn1 Hnd]. pose proof (sl_head _ _ Hl) as Hh. simpl in Hh.
  set (n := default TSentinel (head rest)).
  assert (next (tmr w t) = Some n) as Hnx by (unfold nxt in Hp1; rewrite Hp1; by destruct rest).
  unfold dispatch_update. munfold. cbn -[timer_is_before insert_timer].
  rewrite Hnx. cbn -[timer_is_before insert_timer]. fold (wake w t). fold (wake w n).
  destruct (timer_is_before (wake w t) (wake w n)) eqn:Hb.
  - (* the timer stays first *)
    assert (Forall (fun x => off b w t < off b w x) rest) as Hall.
    { destruct rest as [|x rest]; [done|]. subst n. cbn in Hb.
      pose proof Hs as [_ Hf%Forall_inv]. rewrite (before_off b) in Hb by done.
      apply Z.ltb_lt in Hb. eapply sorted_all_after with (h := x); done. }
    rewrite tins_first by done.
    exists w. simplify_eq. split_and!; [done..|]. destruct Hs as [Hs Hf].
    split; constructor; [done| |done|done].
    eapply Forall_impl; [exact Hall|]. unfold by_key. simpl. lia.
  - assert (rest <> []) as Hne.
    { intros ->. apply list_elem_of_singleton in Hper as <-. subst n. cbn in Hb.
      rewrite (sl_sentinel _ _ Hl), timer_is_before_half in Hb; [done|].
      apply timer_is_before_refl. }
    assert (n ∈ rest) as Hnin by (subst n; destruct rest; [done|left]).
    assert (off b w n <= off b w t) as Hle.
    { destruct Hs as [_ Hf]. eapply Forall_forall in Hf; [|exact Hnin].
      rewrite (before_off b) in Hb by done. by apply Z.ltb_ge in Hb. }
    set (w1 := w <| timer_list := n |>).
    set (start := if timer_is_before _ _ then n else _).
    edestruct (insert_from b w1 rest t) with (pos := start) (fuel := list_fuel w1)
      as (prev & q & Hpt & Hrun & Hpath); [done..|apply Hl|done|done|done| | |].
    { change (list_fuel w1) with (list_fuel w). apply sched_fuel in Hl.
      rewrite length_cons in Hl. lia. }
    { subst start. destruct (sl_last _ _ Hl) as [[Hla|Hla]%elem_of_cons _].
      - right. rewrite Hla. fold (wake w t). by rewrite timer_is_before_refl.
      - left. change (waketime (tmr w1 _)) with (wake w (last_insert w)).
        assert (off b w (last_insert w) < 2 ^ 31) as Hf'.
        { destruct Hs as [_ Hf]. by eapply Forall_forall in Hf. }
        destruct (timer_is_before (wake w t) (wake w (last_insert w))) eqn:Hb'; (split; [done|]); [done|].
        rewrite (before_off b) in Hb' by done. by apply Z.ltb_ge in Hb'. }
    unfold insert_timer. munfold. fold (wake w t) in Hrun.
    exists ((link w prev q t) <| timer_list := n |> <| last_insert := t |>).
    split_and!.
    + change (wake w1 t) with (wake w t) in Hrun. rewrite Hrun. cbn.
      change (wake _ n) with (wake (link w prev q t) n) at 2. by rewrite wake_link.
    + by apply resched_list.
    + eapply tins_ok; [done|done|done|]. intros x.
      change (wake _ x) with (wake (link w prev q t) x) at 1. by rewrite wake_link.
Qed.

(** ** What the operations leave alone *)

#[local] Hint Extern 1 (Keeps _ timer_read_time) => (apply keeps_read_time) : frame.

Lemma insert_timer_loop_frame fuel : forall pos t wk,
  Keeps sched_frame (insert_timer_loop fuel pos t wk).
Proof. induction fuel as [|fuel IH]; intros; simpl; unfold get_timer; frame_solve. Qed.
#[local] Hint Resolve insert_timer_loop_frame : frame.

Lemma del_timer_loop_frame fuel : forall pos del, Keeps sched_frame (del_timer_loop fuel pos del).
Proof. induction fuel as [|fuel IH]; intros; simpl; unfold get_timer; frame_solve. Qed.
#[local] Hint Resolve del_timer_loop_frame : frame.

Lemma sched_add_timer_frame add : Keeps sched_frame (sched_add_timer add).
Proof.
  unfold sched_add_timer, insert_timer, get_timer, sched_try_shutdown, timer_kick, hw. frame_solve.
Qed.

Lemma dispatch_update_frame t res : Keeps sched_frame (dispatch_update t res).
Proof. unfold dispatch_update, insert_timer, get_timer. frame_solve. Qed.

Lemma sched_del_timer_frame del : Keeps sched_frame (sched_del_timer del).
Proof. unfold sched_del_timer, get_timer. frame_solve. Qed.
End Facts.
