(* ===== verification/Command.v ===== *)
(** * Message transport in the firmware: src/src/command.c

    Finding message blocks in the receive buffer, dispatching the commands in
    a block, acknowledging them and transmitting responses. *)
From S2P Require Import Prelude Protocol World Sched.

(** [struct command_parser]; [cp_func] is the handler. *)
Record command_parser : Type := mkParser {
  cp_num_args : Z; cp_in_shutdown : bool; cp_param_types : list param_type;
  cp_func : list Z -> M unit }.

Definition CF_NEED_SYNC : Z := 1.
Definition CF_NEED_VALID : Z := 2.

Section Command.
Context `{Board}.

(** ** Transmission *)

(** [console_sendf] hands the message to the board. *)
Definition console_sendf (m : message) : M unit := modify (fun w => w <| sent ::= cons m |>).

(** [command_sendf]: a request made while another one is in progress is
    dropped. *)
Definition command_sendf (m : message) : M unit :=
  busy ← gets in_sendf;
  if (busy : bool) then mret tt
  else
    modify (fun w => w <| in_sendf := true |>) ;;
    console_sendf m ;;
    modify (fun w => w <| in_sendf := false |>).

Definition sendf (fmt : string) (args : list marg) : M unit := command_sendf (mkMsg fmt args).

Definition sendf_shutdown : M unit := modify (fun w => w <| in_sendf := false |>).

(** The empty message that acknowledges or refuses a block. *)
Definition encode_acknak : message := mkMsg "" [].

Definition command_send_ack : M unit := command_sendf encode_acknak.

Definition sched_report_shutdown : M unit :=
  r ← gets shutdown_reason;
  sendf "is_shutdown static_string_id=%hu" [AStr r].

(** ** Finding a block *)

(** [memchr(buf, MESSAGE_SYNC, len)] as an offset. *)
Fixpoint find_sync (buf : list Z) : option Z :=
  match buf with
  | [] => None
  | c :: buf => if c =? MESSAGE_SYNC then Some 0 else Z.succ <$> find_sync buf
  end.

(** The labels of [command_find_block].  The result is the return value and
    [*pop_count]. *)
Definition find_nak : M unit := command_sendf encode_acknak.

Definition find_need_sync (buf : list Z) : M (Z * Z) :=
  pop ← match find_sync buf with
        | Some i =>
            modify (fun w => w <| sync_state ::= fun s => Z.land s (not8 CF_NEED_SYNC) |>) ;;
            mret (i + 1)
        | None => mret (Z.of_nat (length buf))
        end;
  st ← gets sync_state;
  if flag st CF_NEED_VALID then mret (-1, pop)
  else
    modify (fun w => w <| sync_state ::= fun s => Z.lor s CF_NEED_VALID |>) ;;
    find_nak ;; mret (-1, pop).

Definition find_error (buf : list Z) : M (Z * Z) :=
  if byte_at buf 0 =? MESSAGE_SYNC then mret (-1, 1)
  else
    modify (fun w => w <| sync_state ::= fun s => Z.lor s CF_NEED_SYNC |>) ;;
    find_need_sync buf.

Definition command_find_block (buf : list Z) : M (Z * Z) :=
  let buf_len := Z.of_nat (length buf) in
  st ← gets sync_state;
  if (0 <? buf_len) && flag st CF_NEED_SYNC then find_need_sync buf
  else if buf_len <? MESSAGE_MIN then mret (0, 0)
  else
    let msglen := byte_at buf MESSAGE_POS_LEN in
    if (msglen <? MESSAGE_MIN) || (MESSAGE_MAX <? msglen) then find_error buf
    else
      let msgseq := byte_at buf MESSAGE_POS_SEQ in
      if negb (Z.land msgseq (Z.lnot MESSAGE_SEQ_MASK) =? MESSAGE_DEST) then find_error buf
      else if buf_len <? msglen then mret (0, 0)
      else if negb (byte_at buf (msglen - MESSAGE_TRAILER_SYNC) =? MESSAGE_SYNC)
      then find_error buf
      else
        let msgcrc := u16 (Z.lor (Z.shiftl (byte_at buf (msglen - MESSAGE_TRAILER_CRC)) 8)
                             (byte_at buf (msglen - MESSAGE_TRAILER_CRC + 1))) in
        let crc := crc16_ccitt (take (Z.to_nat (msglen - MESSAGE_TRAILER_SIZE)) buf) in
        if negb (crc =? msgcrc) then find_error buf
        else
          modify (fun w => w <| sync_state ::= fun s => Z.land s (not8 CF_NEED_VALID) |>) ;;
          ns ← gets next_sequence;
          if negb (msgseq =? ns) then find_nak ;; mret (-1, msglen)
          else
            modify (fun w => w <| next_sequence :=
              Z.lor (Z.land (msgseq + 1) MESSAGE_SEQ_MASK) MESSAGE_DEST |>) ;;
            mret (1, msglen).

(** ** Dispatching the commands of a block *)

Definition of_presult {A} (r : presult A) : M A :=
  match r with POk a => mret a | PErr e => shutdown e | POver => fault end.

Section Dispatch.
(** The command table and [irq_poll], from the build and the board. *)
Variable command_index : list command_parser.
Variable irq_poll : M unit.

Definition command_lookup_parser (cmdid : Z) : M command_parser :=
  if (cmdid =? 0) || (Z.of_nat (length command_index) <=? cmdid)
  then shutdown "Invalid command"
  else deref (command_index !! Z.to_nat cmdid).

(** The loop of [command_dispatch]; every command consumes at least one byte
    of the block, so the length of the block is enough fuel. *)
Fixpoint dispatch_loop (fuel : nat) (buf p msgend : list Z) : M unit :=
  if (length p <=? length msgend)%nat then mret tt
  else
    match fuel with
    | O => fault
    | S fuel =>
        '(cmdid, p) ← deref (command_parse_msgid p);
        cp ← command_lookup_parser cmdid;
        '(p, args) ← of_presult (command_parsef buf p msgend (cp_param_types cp));
        shut ← sched_is_shutdown;
        if (shut : bool) && negb (cp_in_shutdown cp) then
          sched_report_shutdown ;; dispatch_loop fuel buf p msgend
        else
          irq_poll ;;
          cp_func cp args ;;
          dispatch_loop fuel buf p msgend
    end.

Definition command_dispatch (buf : list Z) (msglen : Z) : M unit :=
  dispatch_loop (Z.to_nat msglen) buf (drop (Z.to_nat MESSAGE_HEADER_SIZE) buf)
    (drop (Z.to_nat (msglen - MESSAGE_TRAILER_SIZE)) buf).

Definition command_find_and_dispatch (buf : list Z) : M (Z * Z) :=
  '(ret, pop_count) ← command_find_block buf;
  (if 0 <? ret then command_dispatch buf pop_count ;; command_send_ack else mret tt) ;;
  mret (ret, pop_count).
End Dispatch.
End Command.
