(* ===== verification/BaseCmd.v ===== *)
(** * Basic infrastructure: src/src/basecmd.c

    The bump allocator, the pool of move queue nodes and the queues built
    from them, the table of object ids, the configuration commands and the
    load statistics. *)
From S2P Require Import Prelude Protocol World Sched Command.

Section BaseCmd.
Context `{Board}.

(** ** Low level allocation *)

Definition alloc_init : M unit :=
  modify (fun w => w <| alloc_end := ALIGN dynmem_start alignof_ptr |>).

(** [alloc_chunk]: the address of the chunk. *)
Definition alloc_chunk (size : Z) : M Z :=
  e ← gets alloc_end;
  if dynmem_end <? e + size then shutdown "alloc_chunk failed"
  else
    modify (fun w => w <| alloc_end := e + ALIGN size alignof_ptr |>) ;;
    mret e.

(** The counting loop of [alloc_chunks]: [can_alloc] and [p]. *)
Fixpoint count_chunks (count : nat) (size p e : Z) : Z * Z :=
  match count with
  | O => (0, p)
  | S n =>
      if p + size <=? e
      then let '(k, q) := count_chunks n size (p + size) e in (k + 1, q)
      else (0, p)
  end.

(** [alloc_chunks]: the address and [*avail]. *)
Definition alloc_chunks (size : Z) (count : nat) : M (Z * Z) :=
  e ← gets alloc_end;
  let '(can_alloc, p) := count_chunks count size e dynmem_end in
  if can_alloc =? 0 then shutdown "alloc_chunks failed"
  else
    data ← alloc_chunk (p - e);
    mret (data, u16 can_alloc).

(** ** Move queue *)

Definition node_zero : move_node := mkMoveNode None MD_none.
Definition node (w : world) (p : Z) : move_node := default node_zero (nodes w !! p).
Definition get_node (p : Z) : M move_node := gets (fun w => node w p).
Definition mod_node (p : Z) (f : move_node -> move_node) : M unit :=
  modify (fun w => w <| nodes := <[p := f (node w p)]> (nodes w) |>).

Definition is_finalized : M bool := gets (fun w => negb (move_count w =? 0)).

Definition move_free (m : Z) : M unit :=
  fl ← gets move_free_list;
  mod_node m (fun n => n <| mn_next := fl |>) ;;
  modify (fun w => w <| move_free_list := Some m |>).

Definition move_alloc : M Z :=
  fl ← gets move_free_list;
  match fl with
  | None => shutdown "Move queue overflow"
  | Some mf =>
      n ← get_node mf;
      modify (fun w => w <| move_free_list := mn_next n |>) ;;
      mret mf
  end.

(** The queue operations take and return the [struct move_queue_head], which
    is a field of the caller's object. *)
Definition move_queue_empty (mh : move_queue_head) : bool := bool_decide (mq_first mh = None).

Definition move_queue_first (mh : move_queue_head) : option Z := mq_first mh.

Definition move_queue_push (m : Z) (mh : move_queue_head) : M (Z * move_queue_head) :=
  mod_node m (fun n => n <| mn_next := None |>) ;;
  match mq_first mh with
  | Some _ =>
      l ← deref (mq_last mh);
      mod_node l (fun n => n <| mn_next := Some m |>) ;;
      mret (0, mh <| mq_last := Some m |>)
  | None => mret (1, mkMQ (Some m) (Some m))
  end.

Definition move_queue_pop (mh : move_queue_head) : M (Z * move_queue_head) :=
  mn ← deref (mq_first mh);
  n ← get_node mn;
  mret (mn, mh <| mq_first := mn_next n |>).

Definition move_queue_clear (mh : move_queue_head) : move_queue_head :=
  mh <| mq_first := None |>.

Definition move_queue_setup (size : Z) : M move_queue_head :=
  fin ← is_finalized;
  if (255 <? size) || (fin : bool) then shutdown "Invalid move request size"
  else
    modify (fun w => w <| move_item_size := Z.max size (move_item_size w) |>) ;;
    mret mq_zero.

(** The linking loop of [move_reset]; [ml] is [move_list], [sz] the item size. *)
Fixpoint move_reset_loop (n : nat) (i ml sz : Z) : M unit :=
  match n with
  | O => mret tt
  | S n =>
      mod_node (ml + i * sz) (fun x => x <| mn_next := Some (ml + (i + 1) * sz) |>) ;;
      move_reset_loop n (i + 1) ml sz
  end.

Definition move_reset : M unit :=
  cnt ← gets move_count;
  if cnt =? 0 then mret tt
  else
    ml ← (l ← gets move_list; deref l);
    sz ← gets move_item_size;
    move_reset_loop (Z.to_nat (cnt - 1)) 0 ml sz ;;
    mod_node (ml + (cnt - 1) * sz) (fun x => x <| mn_next := None |>) ;;
    modify (fun w => w <| move_free_list := Some ml |>).

(** The nodes live in the zeroed area that is allocated here. *)
Definition move_finalize : M unit :=
  fin ← is_finalized;
  if (fin : bool) then shutdown "Already finalized"
  else
    move_queue_setup sizeof_move_node ;;
    sz ← gets move_item_size;
    '(ml, cnt) ← alloc_chunks sz 1024;
    modify (fun w => w <| move_list := Some ml |> <| move_count := cnt |> <| nodes := ∅ |>) ;;
    move_reset.

(** ** Object ids *)

(** [oid_lookup]: a pointer to the object, that is, its oid; the caller
    faults if the slot has no data. *)
Definition oid_lookup (oid : Z) (type : otype) : M Z :=
  let oid := u8 oid in
  w ← gets id;
  match oid_slot w oid with
  | Some o =>
      if (oid_count w <=? oid) || negb (bool_decide (o_type o = Some type))
      then shutdown "Invalid oid type" else mret oid
  | None => if oid_count w <=? oid then shutdown "Invalid oid type" else fault
  end.

(** Zeroing the memory of a new object clears the timers and the signal
    embedded in it. *)
Definition clear_embedded (oid : Z) (w : world) : world :=
  w <| timers ::= fun m => delete (TObj oid 0) (delete (TObj oid 1) m) |>
    <| signals ::= delete oid |>.

(** [oid_alloc] for an object whose zeroed contents are [zero]. *)
Definition oid_alloc (oid : Z) (type : otype) (size : Z) (zero : obj) : M Z :=
  let oid := u8 oid in
  w ← gets id;
  if oid_count w <=? oid then shutdown "Can't assign oid" else
  o ← deref (oid_slot w oid);
  if negb (bool_decide (o_type o = None)) || negb (move_count w =? 0)
  then shutdown "Can't assign oid"
  else
    modify (set_oid_slot oid (fun o => o <| o_type := Some type |>)) ;;
    alloc_chunk size ;;
    modify (clear_embedded oid) ;;
    modify (set_oid_slot oid (fun o => o <| o_data := Some zero |>)) ;;
    mret oid.

(** [oid_next]: [Some i] if the next object of that type is [i] and its data
    pointer is not null.  256 steps of the 8 bit counter are enough. *)
Fixpoint oid_next_loop (fuel : nat) (oid : Z) (type : otype) : M (option Z) :=
  match fuel with
  | O => fault
  | S fuel =>
      let oid := u8 (oid + 1) in
      w ← gets id;
      if oid_count w <=? oid then mret None
      else
        o ← deref (oid_slot w oid);
        if bool_decide (o_type o = Some type)
        then mret (match o_data o with Some _ => Some oid | None => None end)
        else oid_next_loop fuel oid type
  end.

Definition oid_next (i : Z) (type : otype) : M (option Z) := oid_next_loop 257 i type.

(** [foreach_oid]: run [body] on every object found from the counter [pos]. *)
Fixpoint foreach_loop (fuel : nat) (pos : Z) (type : otype) (body : Z -> M unit) : M unit :=
  match fuel with
  | O => fault
  | S fuel =>
      r ← oid_next pos type;
      match r with
      | None => mret tt
      | Some oid => body oid ;; foreach_loop fuel oid type body
      end
  end.

Definition foreach_oid (type : otype) (body : Z -> M unit) : M unit :=
  foreach_loop 257 (u8 (-1)) type body.

(** The [n]-th argument of a command. *)
Definition arg (args : list Z) (n : nat) : Z := nth n args 0.

Definition command_allocate_oids (args : list Z) : M unit :=
  o ← gets oids;
  if negb (bool_decide (o = None)) then shutdown "oids already allocated"
  else
    let count := u8 (arg args 0) in
    alloc_chunk (sizeof_oid_s * count) ;;
    modify (fun w => w <| oids := Some (replicate (Z.to_nat count) oid_zero) |>
                       <| oid_count := count |>).

(** ** Configuration *)

Definition command_get_config (args : list Z) : M unit :=
  fin ← is_finalized;
  crc ← gets config_crc;
  shut ← sched_is_shutdown;
  cnt ← gets move_count;
  sendf "config is_config=%c crc=%u is_shutdown=%c move_count=%hu"
    [AInt (b2z fin); AInt crc; AInt (b2z shut); AInt cnt].

Definition command_finalize_config (args : list Z) : M unit :=
  move_finalize ;;
  modify (fun w => w <| config_crc := u32 (arg args 0) |>).

Definition config_reset (args : list Z) : M unit :=
  shut ← sched_is_shutdown;
  if negb shut then shutdown "config_reset only available when shutdown"
  else
    modify (fun w => w <| config_crc := 0 |> <| oid_count := 0 |> <| oids := None |>
      <| move_free_list := None |> <| move_list := None |>
      <| move_count := 0 |> <| move_item_size := 0 |>) ;;
    alloc_init ;;
    sched_timer_reset ;;
    sched_clear_shutdown.

(** ** Timing and load statistics *)

Definition command_get_clock (args : list Z) : M unit :=
  cur ← timer_read_time;
  sendf "clock clock=%u" [AInt cur].

Definition command_get_uptime (args : list Z) : M unit :=
  cur ← timer_read_time;
  t ← gets stats_send_time;
  h ← gets stats_send_time_high;
  let high := u32 (h + b2z (cur <? t)) in
  sendf "uptime high=%u clock=%u" [AInt high; AInt cur].

Definition timer_has_elapsed (start cur duration : Z) : bool := duration <=? u32 (cur - start).

Definition SUMSQ_BASE : Z := 256.

(** The update of [sumsq] in [stats_update]. *)
Definition next_sumsq (sumsq diff : Z) : Z :=
  let nextsumsq :=
    if diff <=? 0xffff then u32 (sumsq + u32 (u32 (diff * diff) + SUMSQ_BASE - 1) / SUMSQ_BASE)
    else if diff <=? 0xfffff then u32 (sumsq + u32 (u32 (diff + SUMSQ_BASE - 1) / SUMSQ_BASE * diff))
    else 0xffffffff in
  if nextsumsq <? sumsq then 0xffffffff else nextsumsq.

Definition stats_update (start cur : Z) : M unit :=
  let diff := u32 (cur - start) in
  modify (fun w => w <| stats_count ::= fun c => u32 (c + 1) |>
                     <| stats_sum ::= fun s => u32 (s + diff) |>
                     <| stats_sumsq ::= fun s => next_sumsq s diff |>) ;;
  t ← gets stats_send_time;
  if negb (timer_has_elapsed t cur (timer_from_us 5000000)) then mret tt
  else
    w ← gets id;
    sendf "stats count=%u sum=%u sumsq=%u"
      [AInt (stats_count w); AInt (stats_sum w); AInt (stats_sumsq w)] ;;
    modify (fun w =>
      (if cur <? stats_send_time w
       then w <| stats_send_time_high ::= fun h => u32 (h + 1) |> else w)
        <| stats_send_time := cur |>
        <| stats_count := 0 |> <| stats_sum := 0 |> <| stats_sumsq := 0 |>).

(** ** Misc commands *)

Definition command_emergency_stop (args : list Z) : M unit := shutdown "Command request".

Definition command_clear_shutdown (args : list Z) : M unit := sched_clear_shutdown.

Definition command_identify (args : list Z) : M unit :=
  let offset := u32 (arg args 0) in
  let count := u8 (arg args 1) in
  let isize := Z.of_nat (length command_identify_data) in
  let count :=
    if isize <=? offset then 0
    else if isize <? u32 (offset + count) then u8 (isize - offset)
    else count in
  sendf "identify_response offset=%u data=%.*s"
    [AInt offset; ABytes (take (Z.to_nat count) (drop (Z.to_nat offset) command_identify_data))].
End BaseCmd.
