(* ===== verification/ObjFacts.v ===== *)
(** * Symbolic execution of handlers

    Lemmas and tactics that run a handler on a state in which the objects it
    works on are known.  [put_obj p t w] is [w] with [t] stored in object [p];
    [mrun] executes the memory accesses at the head of a handler. *)
From S2P Require Import Prelude World Sched BaseCmd.

Definition put_obj {T : Set} `{ObjType T} (p : Z) (t : T) (w : world) : world :=
  set_oid_slot p (fun o => o <| o_data := Some (to_obj t) |>) w.

Section Objects.
Context {T : Set} `{ObjType T}.

Lemma get_obj_ok w p t : obj_at T w p = Some t -> get_obj T p w = Ok t w.
Proof. unfold get_obj. by intros ->. Qed.

Lemma mod_obj_ok w p f t : obj_at T w p = Some t -> mod_obj T p f w = Ok tt (put_obj p (f t) w).
Proof. unfold mod_obj, put_obj. by intros ->. Qed.

Lemma obj_at_put w p t t0 : obj_at T w p = Some t0 -> obj_at T (put_obj p t w) p = Some t.
Proof.
  unfold obj_at, oid_slot, put_obj, set_oid_slot. cbn. destruct (oids w) as [l|]; [|done].
  cbn. destruct (l !! Z.to_nat p) as [o|] eqn:E; [|done]. intros _.
  rewrite list_lookup_alter_eq, E. cbn. apply of_to_obj.
Qed.

Lemma put_put w p t1 t2 : put_obj p t2 (put_obj p t1 w) = put_obj p t2 w.
Proof.
  unfold put_obj, set_oid_slot. destruct w. cbn. unfold upd. f_equal. destruct oids as [l|]; [|done].
  cbn. f_equal. apply list_eq. intros i. destruct (decide (i = Z.to_nat p)) as [->|Hi].
  - rewrite !list_lookup_alter_eq. by destruct (l !! Z.to_nat p).
  - by rewrite !list_lookup_alter_ne by done.
Qed.
End Objects.

(** Objects at other oids are not affected. *)
Lemma obj_at_put_ne {T U : Set} `{ObjType T, ObjType U} w p q (t : T) :
  0 <= p -> 0 <= q -> p <> q -> obj_at U (put_obj p t w) q = obj_at U w q.
Proof.
  intros Hp Hq Hpq. unfold obj_at, oid_slot, put_obj, set_oid_slot. cbn.
  destruct (oids w) as [l|]; [|done]. cbn. rewrite list_lookup_alter_ne; [done|lia].
Qed.

(** A stored object, with all other fields of the state changed at will. *)
Lemma obj_at_oids {T : Set} `{ObjType T} w w' p : oids w' = oids w -> obj_at T w' p = obj_at T w p.
Proof. unfold obj_at, oid_slot. by intros ->. Qed.

(** Prove [obj_at T w p = Some ?t] from the hypotheses, through updates of
    other fields and of the object itself. *)
Ltac obj_solve :=
  cbn beta;
  lazymatch goal with
  | |- @obj_at ?T ?I (@put_obj ?T ?I ?p ?t ?w) ?p = _ => eapply obj_at_put; obj_solve
  | |- @obj_at ?T ?I (@upd _ _ ?f _ ?g ?w) ?p = ?r => change (@obj_at T I w p = r); obj_solve
  | _ => eassumption
  end.

(** One access. *)
Lemma run_get_obj {T : Set} `{ObjType T} {B} p (f : T -> M B) w t :
  obj_at T w p = Some t -> (get_obj T p ≫= f) w = f t w.
Proof. intros E. by rewrite (bind_ok _ _ _ _ _ (get_obj_ok w p t E)). Qed.

Lemma run_mod_obj {T : Set} `{ObjType T} {B} p g (f : unit -> M B) w t :
  obj_at T w p = Some t -> (mod_obj T p g ≫= f) w = f tt (put_obj p (g t) w).
Proof. intros E. by rewrite (bind_ok _ _ _ _ _ (mod_obj_ok w p g t E)). Qed.

Lemma run_gets {A B} (g : world -> A) (f : A -> M B) w : (gets g ≫= f) w = f (g w) w.
Proof. done. Qed.

Lemma run_modify {B} g (f : unit -> M B) w : (modify g ≫= f) w = f tt (g w).
Proof. done. Qed.

Lemma run_when {B} b g (f : unit -> M B) w :
  (when b (modify g) ≫= f) w = f tt (if b then g w else w).
Proof. by destruct b. Qed.

Lemma run_ret {A B} (a : A) (f : A -> M B) w : ((mret a : M A) ≫= f) w = f a w.
Proof. done. Qed.

Lemma run_bind {A B C} (m : M A) (g : A -> M B) (f : B -> M C) w :
  ((m ≫= g) ≫= f) w = (m ≫= (fun a => g a ≫= f)) w.
Proof. unfold mbind, M_bind. by destruct (m w). Qed.

Lemma run_last_get_obj {T : Set} `{ObjType T} p w t :
  obj_at T w p = Some t -> get_obj T p w = Ok t w.
Proof. apply get_obj_ok. Qed.

(** Execute accesses at the head of the handler. *)
Ltac mrun1 :=
  match goal with
  | |- context [(gets ?g ≫= ?f) ?w] => rewrite (run_gets g f w); cbn beta
  | |- context [(modify ?g ≫= ?f) ?w] => rewrite (run_modify g f w); cbn beta
  | |- context [(when ?b (modify ?g) ≫= ?f) ?w] => rewrite (run_when b g f w); cbn beta
  | |- context [(mret ?a ≫= ?f) ?w] => rewrite (run_ret a f w); cbn beta
  | |- context [(@get_obj ?T ?I ?p ≫= ?f) ?w] =>
      erewrite (@run_get_obj T I _ p f w); [|obj_solve]; cbn beta
  | |- context [(@mod_obj ?T ?I ?p ?g ≫= ?f) ?w] =>
      erewrite (@run_mod_obj T I _ p g f w); [|obj_solve]; cbn beta; rewrite ?put_put
  | |- context [@mod_obj ?T ?I ?p ?g ?w] =>
      erewrite (@mod_obj_ok T I w p g); [|obj_solve]; cbn beta; rewrite ?put_put
  | |- context [((?m ≫= ?g) ≫= ?f) ?w] => rewrite (run_bind m g f w); cbn beta
  end.
Ltac mrun := repeat mrun1.
