(* ===== verification/Trsync.v ===== *)
(** * Synchronized triggers: src/src/trsync.c *)
From S2P Require Import Prelude World Sched Command BaseCmd.

Definition TSF_CAN_TRIGGER : Z := 1.
Definition TSF_REPORT : Z := 4.

(** The timers embedded in a [struct trsync]. *)
Definition report_time (ts : Z) : tref := TObj ts 0.
Definition expire_time (ts : Z) : tref := TObj ts 1.

Section Trsync.
Context `{Board}.

Definition command_config_trsync (args : list Z) : M unit :=
  ts ← oid_alloc (arg args 0) command_config_trsync_t (sizeof_obj command_config_trsync_t)
         (O_trsync trsync_zero);
  mod_timer (report_time ts) (fun t => t <| func := Some FN_trsync_report_event |>) ;;
  mod_timer (expire_time ts) (fun t => t <| func := Some FN_trsync_expire_event |>).

Definition trsync_oid_lookup (oid : Z) : M Z := oid_lookup oid command_config_trsync_t.

Definition trsync_add_signal (ts tss : Z) (f : option signal_func) : M unit :=
  g ← get_signal tss;
  if negb (bool_decide (sg_func g = None)) || bool_decide (f = None)
  then shutdown "Can't add signal that is already active"
  else
    s ← get_obj trsync ts;
    mod_signal tss (fun g => g <| sg_func := f |>) ;;
    mod_signal tss (fun g => g <| sg_next := ts_signals s |>) ;;
    mod_obj trsync ts (fun s => s <| ts_signals := Some tss |>).

(** The loop of [trsync_clear] over the list of signals. *)
Fixpoint clear_signals_loop (fuel : nat) (tss : option Z) : M unit :=
  match tss with
  | None => mret tt
  | Some p =>
      match fuel with
      | O => fault
      | S fuel =>
          g ← get_signal p;
          mod_signal p (fun g => g <| sg_func := None |>) ;;
          mod_signal p (fun g => g <| sg_next := None |>) ;;
          clear_signals_loop fuel (sg_next g)
      end
  end.

Definition signal_fuel (w : world) : nat := S (size (signals w)).

Definition trsync_clear (ts : Z) : M unit :=
  sched_del_timer (report_time ts) ;;
  sched_del_timer (expire_time ts) ;;
  s ← get_obj trsync ts;
  fuel ← gets signal_fuel;
  clear_signals_loop fuel (ts_signals s) ;;
  mod_obj trsync ts (fun s => s <| ts_signals := None |>) ;;
  mod_obj trsync ts (fun s => s <| ts_flags := 0 |> <| ts_trigger_reason := 0 |>
                                <| ts_expire_reason := 0 |>).

Definition command_trsync_start (args : list Z) : M unit :=
  ts ← trsync_oid_lookup (arg args 0);
  trsync_clear ts ;;
  mod_obj trsync ts (fun s => s <| ts_flags := TSF_CAN_TRIGGER |>) ;;
  mod_timer (report_time ts) (fun t => t <| waketime := u32 (arg args 1) |>) ;;
  mod_obj trsync ts (fun s => s <| ts_report_ticks := u32 (arg args 2) |>) ;;
  when (negb (u32 (arg args 2) =? 0)) (sched_add_timer (report_time ts)) ;;
  mod_obj trsync ts (fun s => s <| ts_expire_reason := u8 (arg args 3) |>).

Definition command_trsync_set_timeout (args : list Z) : M unit :=
  ts ← trsync_oid_lookup (arg args 0);
  s ← get_obj trsync ts;
  when (flag (ts_flags s) TSF_CAN_TRIGGER)
    (sched_del_timer (expire_time ts) ;;
     mod_timer (expire_time ts) (fun t => t <| waketime := u32 (arg args 1) |>) ;;
     sched_add_timer (expire_time ts)).

Definition trsync_report (oid flags reason clock : Z) : M unit :=
  sendf "trsync_state oid=%c can_trigger=%c trigger_reason=%c clock=%u"
    [AInt oid; AInt (b2z (flag flags TSF_CAN_TRIGGER)); AInt reason; AInt clock].

Definition trsync_task : M unit :=
  wake ← sched_check_wake trsync_wake;
  when wake (foreach_oid command_config_trsync_t (fun oid =>
    s ← get_obj trsync oid;
    when (flag (ts_flags s) TSF_REPORT)
      (time ← timer_read_time;
       s ← get_obj trsync oid;
       mod_obj trsync oid (fun s => s <| ts_flags := Z.land (ts_flags s) (not8 TSF_REPORT) |>) ;;
       trsync_report oid (ts_flags s) (ts_trigger_reason s) time))).

Definition trsync_shutdown : M unit := foreach_oid command_config_trsync_t trsync_clear.

(** [run_signal f tss reason] calls the function stored in a signal. *)
Section Trigger.
Variable run_signal : signal_func -> Z -> Z -> M unit.

(** The loop that takes each signal off the list and calls it. *)
Fixpoint dispatch_signals (fuel : nat) (ts reason : Z) : M unit :=
  s ← get_obj trsync ts;
  match ts_signals s with
  | None => mret tt
  | Some tss =>
      match fuel with
      | O => fault
      | S fuel =>
          g ← get_signal tss;
          mod_obj trsync ts (fun s => s <| ts_signals := sg_next g |>) ;;
          mod_signal tss (fun g => g <| sg_next := None |>) ;;
          mod_signal tss (fun g => g <| sg_func := None |>) ;;
          f ← deref (sg_func g);
          run_signal f tss reason ;;
          dispatch_signals fuel ts reason
      end
  end.

Definition trsync_do_trigger (ts reason : Z) : M unit :=
  s ← get_obj trsync ts;
  if negb (flag (ts_flags s) TSF_CAN_TRIGGER) then mret tt
  else
    mod_obj trsync ts (fun s => s <| ts_trigger_reason := u8 reason |>) ;;
    mod_obj trsync ts (fun s' => s' <| ts_flags :=
      Z.lor (Z.land (ts_flags s) (not8 TSF_CAN_TRIGGER)) TSF_REPORT |>) ;;
    fuel ← gets signal_fuel;
    dispatch_signals fuel ts (u8 reason) ;;
    sched_wake_task trsync_wake.

Definition trsync_expire_event (ts : Z) : M sf_result :=
  s ← get_obj trsync ts;
  trsync_do_trigger ts (ts_expire_reason s) ;;
  mret SF_DONE.

Definition command_trsync_trigger (args : list Z) : M unit :=
  let oid := u8 (arg args 0) in
  ts ← trsync_oid_lookup oid;
  trsync_do_trigger ts (u8 (arg args 1)) ;;
  sched_del_timer (report_time ts) ;;
  sched_del_timer (expire_time ts) ;;
  mod_obj trsync ts (fun s => s <| ts_flags := 0 |>) ;;
  s ← get_obj trsync ts;
  trsync_report oid 0 (ts_trigger_reason s) 0.
End Trigger.

Definition trsync_report_event (ts : Z) : M sf_result :=
  mod_obj trsync ts (fun s => s <| ts_flags ::= fun f => Z.lor f TSF_REPORT |>) ;;
  sched_wake_task trsync_wake ;;
  s ← get_obj trsync ts;
  mod_timer (report_time ts) (fun t => t <| waketime := u32 (waketime t + ts_report_ticks s) |>) ;;
  mret SF_RESCHEDULE.
End Trsync.
