(* ===== verification/Stepper.v ===== *)
(** * Stepper motors: src/src/stepper.c *)
From S2P Require Import Prelude World Sched Delays Command BaseCmd Trsync.

Definition MF_DIR : Z := 1.
Definition POSITION_BIAS : Z := 0x40000000.
Definition SF_LAST_DIR : Z := 1.
Definition SF_NEXT_DIR : Z := 2.
Definition SF_INVERT_STEP : Z := 4.
Definition SF_NEED_RESET : Z := 8.
Definition SF_SINGLE_SCHED : Z := 16.
Definition SF_OPTIMIZED_PATH : Z := 32.
Definition SF_HAVE_ADD : Z := 64.

(** The timer embedded in a [struct stepper]. *)
Definition st_time (s : Z) : tref := TObj s 0.

Section Stepper.
Context `{Board}.

Definition HAVE_EDGE_OPTIMIZATION : bool :=
  CONFIG_INLINE_STEPPER_HACK && CONFIG_WANT_STEPPER_OPTIMIZED_BOTH_EDGE.
Definition HAVE_AVR_OPTIMIZATION : bool :=
  negb HAVE_EDGE_OPTIMIZATION && (CONFIG_INLINE_STEPPER_HACK && CONFIG_MACH_AVR).

(** The move stored in a node. *)
Definition get_stepper_move (mn : Z) : M stepper_move :=
  n ← get_node mn;
  match mn_data n with MD_stepper m => mret m | _ => fault end.
Definition set_stepper_move (mn : Z) (m : stepper_move) : M unit :=
  mod_node mn (fun n => n <| mn_data := MD_stepper m |>).

(** The scheduling part of [stepper_load_next] for [stepper_event_full]. *)
Definition load_next_full (p move_interval move_count : Z) (need_dir_change : bool)
    : M sf_result :=
  s ← get_obj stepper p;
  t ← get_timer (st_time p);
  let was_active := negb (st_count s =? 0) in
  let min_next_time := waketime t in
  let next_step_time := u32 (st_next_step_time s + move_interval) in
  mod_obj stepper p (fun s => s <| st_next_step_time := next_step_time |>) ;;
  mod_timer (st_time p) (fun t => t <| waketime := next_step_time |>) ;;
  mod_obj stepper p (fun s => s <| st_count :=
    if flag (st_flags s) SF_SINGLE_SCHED then move_count else u32 (move_count * 2) |>) ;;
  when (was_active && timer_is_before next_step_time min_next_time)
    (when (s32 (next_step_time - min_next_time) <? s32 (- timer_from_us 1000))
       (shutdown "Stepper too far in past") ;;
     mod_timer (st_time p) (fun t => t <| waketime := min_next_time |>)) ;;
  if was_active && need_dir_change then
    when (flag (st_flags s) SF_SINGLE_SCHED) (spin_until spin_limit min_next_time) ;;
    gpio_out_toggle_noirq (st_dir_pin s) ;;
    curtime ← timer_read_time;
    let min_next_time := u32 (curtime + st_step_pulse_ticks s) in
    t ← get_timer (st_time p);
    when (timer_is_before (waketime t) min_next_time)
      (mod_timer (st_time p) (fun t => t <| waketime := min_next_time |>)) ;;
    mret SF_RESCHEDULE
  else
    when need_dir_change (gpio_out_toggle_noirq (st_dir_pin s)) ;;
    mret SF_RESCHEDULE.

Definition stepper_load_next (p : Z) : M sf_result :=
  s ← get_obj stepper p;
  if move_queue_empty (st_mq s) then
    mod_obj stepper p (fun s => s <| st_count := 0 |>) ;;
    mret SF_DONE
  else
    '(mn, mq) ← move_queue_pop (st_mq s);
    mod_obj stepper p (fun s => s <| st_mq := mq |>) ;;
    m ← get_stepper_move mn;
    let move_interval := sm_interval m in
    let move_count := sm_count m in
    let move_add := sm_add m in
    let need_dir_change := flag (sm_flags m) MF_DIR in
    move_free mn ;;
    mod_obj stepper p (fun s => s <| st_position :=
      u32 ((if need_dir_change then - st_position s else st_position s) + move_count) |>) ;;
    mod_obj stepper p (fun s => s <| st_add := move_add |>
                                  <| st_interval := u32 (move_interval + move_add) |>) ;;
    if HAVE_EDGE_OPTIMIZATION && flag (st_flags s) SF_OPTIMIZED_PATH then
      mod_timer (st_time p) (fun t => t <| waketime := u32 (waketime t + move_interval) |>) ;;
      mod_obj stepper p (fun s => s <| st_count := move_count |>) ;;
      when need_dir_change (gpio_out_toggle_noirq (st_dir_pin s)) ;;
      mret SF_RESCHEDULE
    else if HAVE_AVR_OPTIMIZATION && flag (st_flags s) SF_OPTIMIZED_PATH then
      mod_timer (st_time p) (fun t => t <| waketime := u32 (waketime t + move_interval) |>) ;;
      mod_obj stepper p (fun s => s <| st_count := move_count |>) ;;
      mod_obj stepper p (fun s => s <| st_flags :=
        if negb (move_add =? 0) then Z.lor (st_flags s) SF_HAVE_ADD
        else Z.land (st_flags s) (not8 SF_HAVE_ADD) |>) ;;
      when need_dir_change (gpio_out_toggle_noirq (st_dir_pin s)) ;;
      mret SF_RESCHEDULE
    else load_next_full p move_interval move_count need_dir_change.

Definition EDGE_STEP_TICKS : Z := DIV_ROUND_UP CONFIG_CLOCK_FREQ 8000000.
Definition AVR_STEP_TICKS : Z := 40.

Definition stepper_event_edge (p : Z) : M sf_result :=
  s ← get_obj stepper p;
  gpio_out_toggle_noirq (st_step_pin s) ;;
  let count := u32 (st_count s - 1) in
  if negb (count =? 0) then
    mod_obj stepper p (fun s => s <| st_count := count |>) ;;
    mod_timer (st_time p) (fun t => t <| waketime := u32 (waketime t + st_interval s) |>) ;;
    mod_obj stepper p (fun s => s <| st_interval := u32 (st_interval s + st_add s) |>) ;;
    mret SF_RESCHEDULE
  else stepper_load_next p.

(** The AVR code works on the low 16 bits of [count]. *)
Definition stepper_event_avr (p : Z) : M sf_result :=
  s ← get_obj stepper p;
  gpio_out_toggle_noirq (st_step_pin s) ;;
  let count := u16 (u16 (st_count s) - 1) in
  if negb (count =? 0) then
    mod_obj stepper p (fun s => s <| st_count := st_count s - u16 (st_count s) + count |>) ;;
    mod_timer (st_time p) (fun t => t <| waketime := u32 (waketime t + st_interval s) |>) ;;
    gpio_out_toggle_noirq (st_step_pin s) ;;
    when (flag (st_flags s) SF_HAVE_ADD)
      (mod_obj stepper p (fun s => s <| st_interval := u32 (st_interval s + st_add s) |>)) ;;
    mret SF_RESCHEDULE
  else
    ret ← stepper_load_next p;
    gpio_out_toggle_noirq (st_step_pin s) ;;
    mret ret.

(** The [reschedule_min] label of [stepper_event_full]. *)
Definition reschedule_min (p count min_next_time : Z) : M sf_result :=
  mod_obj stepper p (fun s => s <| st_count := count |>) ;;
  mod_timer (st_time p) (fun t => t <| waketime := min_next_time |>) ;;
  mret SF_RESCHEDULE.

Definition stepper_event_full (p : Z) : M sf_result :=
  s ← get_obj stepper p;
  gpio_out_toggle_noirq (st_step_pin s) ;;
  curtime ← timer_read_time;
  let min_next_time := u32 (curtime + st_step_pulse_ticks s) in
  let count := u32 (st_count s - 1) in
  if flag count 1 && negb (flag (st_flags s) SF_SINGLE_SCHED)
  then reschedule_min p count min_next_time
  else if negb (count =? 0) then
    let next_step_time := u32 (st_next_step_time s + st_interval s) in
    mod_obj stepper p (fun s => s <| st_next_step_time := next_step_time |>) ;;
    mod_obj stepper p (fun s => s <| st_interval := u32 (st_interval s + st_add s) |>) ;;
    if timer_is_before next_step_time min_next_time
    then reschedule_min p count min_next_time
    else
      mod_obj stepper p (fun s => s <| st_count := count |>) ;;
      mod_timer (st_time p) (fun t => t <| waketime := next_step_time |>) ;;
      mret SF_RESCHEDULE
  else
    mod_timer (st_time p) (fun t => t <| waketime := min_next_time |>) ;;
    stepper_load_next p.

(** [stepper_event] on the timer of stepper [p]. *)
Definition stepper_event (p : Z) : M sf_result :=
  if HAVE_EDGE_OPTIMIZATION then stepper_event_edge p
  else if HAVE_AVR_OPTIMIZATION then stepper_event_avr p
  else stepper_event_full p.

Definition command_config_stepper (args : list Z) : M unit :=
  p ← oid_alloc (arg args 0) command_config_stepper_t (sizeof_obj command_config_stepper_t)
        (O_stepper stepper_zero);
  let invert_step := s32 (arg args 3) in
  mod_obj stepper p (fun s => s <| st_flags :=
    if 0 <? invert_step then SF_INVERT_STEP
    else if invert_step <? 0 then SF_SINGLE_SCHED else st_flags s |>) ;;
  s ← get_obj stepper p;
  step_pin ← gpio_out_setup (arg args 1) (Z.land (st_flags s) SF_INVERT_STEP);
  mod_obj stepper p (fun s => s <| st_step_pin := step_pin |>) ;;
  dir_pin ← gpio_out_setup (arg args 2) 0;
  mod_obj stepper p (fun s => s <| st_dir_pin := dir_pin |>
    <| st_position := u32 (- POSITION_BIAS) |> <| st_step_pulse_ticks := u32 (arg args 4) |>) ;;
  mq ← move_queue_setup sizeof_stepper_move;
  mod_obj stepper p (fun s => s <| st_mq := mq |>) ;;
  if HAVE_EDGE_OPTIMIZATION then
    if (invert_step <? 0) && (u32 (arg args 4) <=? EDGE_STEP_TICKS) then
      mod_obj stepper p (fun s => s <| st_flags ::= fun f => Z.lor f SF_OPTIMIZED_PATH |>)
    else mod_timer (st_time p) (fun t => t <| func := Some FN_stepper_event_full |>)
  else if HAVE_AVR_OPTIMIZATION then
    if (0 <=? invert_step) && (u32 (arg args 4) <=? AVR_STEP_TICKS) then
      mod_obj stepper p (fun s => s <| st_flags ::= fun f =>
        Z.lor f (Z.lor SF_SINGLE_SCHED SF_OPTIMIZED_PATH) |>)
    else mod_timer (st_time p) (fun t => t <| func := Some FN_stepper_event_full |>)
  else when (negb CONFIG_INLINE_STEPPER_HACK)
    (mod_timer (st_time p) (fun t => t <| func := Some FN_stepper_event_full |>)).

Definition stepper_oid_lookup (oid : Z) : M Z := oid_lookup oid command_config_stepper_t.

(** [move_queue_push(&m->node, &s->mq)] *)
Definition stepper_push (p mn : Z) : M unit :=
  s ← get_obj stepper p;
  '(_, mq) ← move_queue_push mn (st_mq s);
  mod_obj stepper p (fun s => s <| st_mq := mq |>).

Definition command_queue_step (args : list Z) : M unit :=
  p ← stepper_oid_lookup (arg args 0);
  mn ← move_alloc;
  let interval := u32 (arg args 1) in
  let count := u16 (arg args 2) in
  set_stepper_move mn (mkStepperMove interval 0 count 0) ;;
  if count =? 0 then shutdown "Invalid count parameter"
  else
    let add := s16 (arg args 3) in
    s ← get_obj stepper p;
    let turn := negb (Bool.eqb (flag (st_flags s) SF_LAST_DIR) (flag (st_flags s) SF_NEXT_DIR)) in
    let flags := if turn then Z.lxor (st_flags s) SF_LAST_DIR else st_flags s in
    set_stepper_move mn (mkStepperMove interval add count (if turn then MF_DIR else 0)) ;;
    if negb (st_count s =? 0) then
      mod_obj stepper p (fun s => s <| st_flags := flags |>) ;;
      stepper_push p mn
    else if flag flags SF_NEED_RESET then move_free mn
    else
      mod_obj stepper p (fun s => s <| st_flags := flags |>) ;;
      stepper_push p mn ;;
      stepper_load_next p ;;
      sched_add_timer (st_time p).

Definition command_set_next_step_dir (args : list Z) : M unit :=
  p ← stepper_oid_lookup (arg args 0);
  let nextdir := if negb (u32 (arg args 1) =? 0) then SF_NEXT_DIR else 0 in
  mod_obj stepper p (fun s => s <| st_flags :=
    Z.lor (Z.land (st_flags s) (not8 SF_NEXT_DIR)) nextdir |>).

Definition command_reset_step_clock (args : list Z) : M unit :=
  p ← stepper_oid_lookup (arg args 0);
  let wk := u32 (arg args 1) in
  s ← get_obj stepper p;
  if negb (st_count s =? 0) then shutdown "Can't reset time when stepper active"
  else
    mod_timer (st_time p) (fun t => t <| waketime := wk |>) ;;
    mod_obj stepper p (fun s => s <| st_next_step_time := wk |>) ;;
    mod_obj stepper p (fun s => s <| st_flags ::= fun f => Z.land f (not8 SF_NEED_RESET) |>).

Definition stepper_get_position (s : stepper) : Z :=
  let position :=
    if flag (st_flags s) SF_SINGLE_SCHED then u32 (st_position s - st_count s)
    else u32 (st_position s - st_count s / 2) in
  if flag position 0x80000000 then u32 (- position) else position.

Definition command_stepper_get_position (args : list Z) : M unit :=
  let oid := u8 (arg args 0) in
  p ← stepper_oid_lookup oid;
  s ← get_obj stepper p;
  sendf "stepper_position oid=%c pos=%i"
    [AInt oid; AInt (s32 (stepper_get_position s - POSITION_BIAS))].

(** The loop of [stepper_stop] that returns the queued moves to the pool. *)
Fixpoint drain_moves (fuel : nat) (p : Z) : M unit :=
  s ← get_obj stepper p;
  if move_queue_empty (st_mq s) then mret tt
  else
    match fuel with
    | O => fault
    | S fuel =>
        '(mn, mq) ← move_queue_pop (st_mq s);
        mod_obj stepper p (fun s => s <| st_mq := mq |>) ;;
        move_free mn ;;
        drain_moves fuel p
    end.

(** A queue has at most one node more than there are nodes in memory. *)
Definition node_fuel (w : world) : nat := S (size (nodes w)).

(** [stepper_stop] on the [stop_signal] of stepper [p]. *)
Definition stepper_stop (p reason : Z) : M unit :=
  sched_del_timer (st_time p) ;;
  mod_timer (st_time p) (fun t => t <| waketime := 0 |>) ;;
  mod_obj stepper p (fun s => s <| st_next_step_time := 0 |>) ;;
  mod_obj stepper p (fun s => s <| st_position := u32 (- stepper_get_position s) |>) ;;
  mod_obj stepper p (fun s => s <| st_count := 0 |>) ;;
  mod_obj stepper p (fun s => s <| st_flags := Z.lor
    (Z.land (st_flags s) (Z.lor (Z.lor SF_INVERT_STEP SF_SINGLE_SCHED) SF_OPTIMIZED_PATH))
    SF_NEED_RESET |>) ;;
  s ← get_obj stepper p;
  gpio_out_write (st_dir_pin s) 0 ;;
  when (negb (flag (st_flags s) SF_SINGLE_SCHED)
        || (HAVE_AVR_OPTIMIZATION && flag (st_flags s) SF_OPTIMIZED_PATH))
    (gpio_out_write (st_step_pin s) (Z.land (st_flags s) SF_INVERT_STEP)) ;;
  fuel ← gets node_fuel;
  drain_moves fuel p.

Definition command_stepper_stop_on_trigger (args : list Z) : M unit :=
  p ← stepper_oid_lookup (arg args 0);
  ts ← trsync_oid_lookup (arg args 1);
  trsync_add_signal ts p (Some SIG_stepper_stop).

Definition stepper_shutdown : M unit :=
  foreach_oid command_config_stepper_t (fun p =>
    mod_obj stepper p (fun s => s <| st_mq ::= move_queue_clear |>) ;;
    stepper_stop p 0).
End Stepper.
