(* ===== verification/Endstop.v ===== *)
(** * End stops: src/src/endstop.c

    While homing, a timer polls the pin every [rest_time]; when the pin has
    the wanted level it is read again every [sample_time], and only
    [sample_count] matching readings in a row fire the trigger. *)
From S2P Require Import Prelude World Sched Command BaseCmd Trsync.

Definition ESF_PIN_HIGH : Z := 1.
Definition ESF_HOMING : Z := 2.

(** The timer embedded in a [struct endstop]. *)
Definition es_time (e : Z) : tref := TObj e 0.

(** [(val ? ~e->flags : e->flags) & ESF_PIN_HIGH] *)
Definition pin_mismatch (val flags : Z) : bool :=
  flag (if negb (val =? 0) then Z.lnot flags else flags) ESF_PIN_HIGH.

Section Endstop.
Context `{Board}.

Section Events.
Variable run_signal : signal_func -> Z -> Z -> M unit.

Definition endstop_oversample_event (p : Z) : M sf_result :=
  e ← get_obj endstop p;
  val ← gpio_in_read (es_pin e);
  if pin_mismatch val (es_flags e) then
    mod_timer (es_time p) (fun t => t <| func := Some FN_endstop_event |>) ;;
    mod_timer (es_time p) (fun t => t <| waketime := es_nextwake e |>) ;;
    mod_obj endstop p (fun e => e <| es_trigger_count := es_sample_count e |>) ;;
    mret SF_RESCHEDULE
  else
    let count := u8 (es_trigger_count e - 1) in
    if count =? 0 then
      ts ← deref (es_ts e);
      trsync_do_trigger run_signal ts (es_trigger_reason e) ;;
      mret SF_DONE
    else
      mod_obj endstop p (fun e => e <| es_trigger_count := count |>) ;;
      mod_timer (es_time p) (fun t => t <| waketime := u32 (waketime t + es_sample_time e) |>) ;;
      mret SF_RESCHEDULE.

Definition endstop_event (p : Z) : M sf_result :=
  e ← get_obj endstop p;
  val ← gpio_in_read (es_pin e);
  t ← get_timer (es_time p);
  let nextwake := u32 (waketime t + es_rest_time e) in
  if pin_mismatch val (es_flags e) then
    mod_timer (es_time p) (fun t => t <| waketime := nextwake |>) ;;
    mret SF_RESCHEDULE
  else
    mod_obj endstop p (fun e => e <| es_nextwake := nextwake |>) ;;
    mod_timer (es_time p) (fun t => t <| func := Some FN_endstop_oversample_event |>) ;;
    endstop_oversample_event p.
End Events.

Definition command_config_endstop (args : list Z) : M unit :=
  p ← oid_alloc (arg args 0) command_config_endstop_t (sizeof_obj command_config_endstop_t)
        (O_endstop endstop_zero);
  pin ← gpio_in_setup (arg args 1) (arg args 2);
  mod_obj endstop p (fun e => e <| es_pin := pin |>).

Definition command_endstop_home (args : list Z) : M unit :=
  p ← oid_lookup (arg args 0) command_config_endstop_t;
  sched_del_timer (es_time p) ;;
  mod_timer (es_time p) (fun t => t <| waketime := u32 (arg args 1) |>) ;;
  mod_obj endstop p (fun e => e <| es_sample_time := u32 (arg args 2) |>
                                <| es_sample_count := u8 (arg args 3) |>) ;;
  if u8 (arg args 3) =? 0 then
    mod_obj endstop p (fun e => e <| es_ts := None |> <| es_flags := 0 |>)
  else
    mod_obj endstop p (fun e => e <| es_rest_time := u32 (arg args 4) |>) ;;
    mod_timer (es_time p) (fun t => t <| func := Some FN_endstop_event |>) ;;
    mod_obj endstop p (fun e => e <| es_trigger_count := es_sample_count e |>
      <| es_flags := Z.lor ESF_HOMING (if negb (u32 (arg args 5) =? 0) then ESF_PIN_HIGH else 0) |>) ;;
    ts ← trsync_oid_lookup (arg args 6);
    mod_obj endstop p (fun e => e <| es_ts := Some ts |>
                                  <| es_trigger_reason := u8 (arg args 7) |>) ;;
    sched_add_timer (es_time p).

Definition command_endstop_query_state (args : list Z) : M unit :=
  let oid := u8 (arg args 0) in
  p ← oid_lookup oid command_config_endstop_t;
  e ← get_obj endstop p;
  val ← gpio_in_read (es_pin e);
  sendf "endstop_state oid=%c homing=%c next_clock=%u pin_value=%c"
    [AInt oid; AInt (b2z (flag (es_flags e) ESF_HOMING)); AInt (es_nextwake e); AInt val].
End Endstop.
