(* ===== verification/GpioCmds.v ===== *)
(** * Digital output pins: src/src/gpiocmds.c

    Scheduled pin changes and software PWM, with the [max_duration] safety
    limit on the time a pin may stay away from its default level. *)
From S2P Require Import Prelude World Sched Command BaseCmd.

Definition DF_ON : Z := 1.
Definition DF_TOGGLING : Z := 2.
Definition DF_CHECK_END : Z := 4.
Definition DF_DEFAULT_ON : Z := 16.

(** The timer embedded in a [struct digital_out_s]. *)
Definition do_timer (d : Z) : tref := TObj d 0.

Section GpioCmds.
Context `{Board}.

(** The move stored in a node. *)
Definition get_digital_move (mn : Z) : M digital_move :=
  n ← get_node mn;
  match mn_data n with MD_digital m => mret m | _ => fault end.

Definition digital_toggle_event (p : Z) : M sf_result :=
  d ← get_obj digital_out_s p;
  gpio_out_toggle_noirq (do_pin d) ;;
  let flags := Z.lxor (do_flags d) DF_ON in
  mod_obj digital_out_s p (fun d => d <| do_flags := flags |>) ;;
  t ← get_timer (do_timer p);
  let wk := if flag flags DF_ON then u32 (waketime t + do_on_duration d)
            else u32 (waketime t + do_off_duration d) in
  if flag flags DF_CHECK_END && negb (timer_is_before wk (do_end_time d)) then
    mod_timer (do_timer p) (fun t => t <| func := Some FN_digital_load_event |>) ;;
    mod_timer (do_timer p) (fun t => t <| waketime := do_end_time d |>) ;;
    mret SF_RESCHEDULE
  else
    mod_timer (do_timer p) (fun t => t <| waketime := wk |>) ;;
    mret SF_RESCHEDULE.

(** The flags and end time of [digital_load_event] before the queue is
    examined. *)
Definition load_state (d : digital_out_s) (wk on_duration : Z) : Z * Z :=
  let flags := if negb (on_duration =? 0) then DF_ON else 0 in
  if (flags =? 0) || (do_cycle_time d <=? on_duration) then
    if negb (Bool.eqb (flags =? 0) (negb (flag (do_flags d) DF_DEFAULT_ON)))
       && negb (do_max_duration d =? 0)
    then (Z.lor flags DF_CHECK_END, u32 (wk + do_max_duration d))
    else (flags, 0)
  else
    let flags := Z.lor flags DF_TOGGLING in
    if negb (do_max_duration d =? 0)
    then (Z.lor flags DF_CHECK_END, u32 (wk + do_max_duration d))
    else (flags, 0).

(** The end of [digital_load_event]: store the flags and schedule the next
    event. *)
Definition digital_schedule (p flags end_time wk on_duration : Z) : M sf_result :=
  mod_obj digital_out_s p (fun d => d <| do_end_time := end_time |>
    <| do_flags := Z.lor flags (Z.land (do_flags d) DF_DEFAULT_ON) |>) ;;
  if negb (flag flags DF_TOGGLING) then
    if negb (flag flags DF_CHECK_END) then mret SF_DONE
    else
      mod_timer (do_timer p) (fun t => t <| waketime := end_time |>) ;;
      mret SF_RESCHEDULE
  else
    let wk' := u32 (wk + on_duration) in
    if flag flags DF_CHECK_END && negb (timer_is_before wk' end_time) then
      mod_timer (do_timer p) (fun t => t <| waketime := end_time |>) ;;
      mret SF_RESCHEDULE
    else
      mod_timer (do_timer p) (fun t => t <| func := Some FN_digital_toggle_event |>) ;;
      mod_timer (do_timer p) (fun t => t <| waketime := wk' |>) ;;
      mod_obj digital_out_s p (fun d => d <| do_on_duration := on_duration |>
        <| do_off_duration := u32 (do_cycle_time d - on_duration) |>) ;;
      mret SF_RESCHEDULE.

Definition digital_load_event (p : Z) : M sf_result :=
  d ← get_obj digital_out_s p;
  if move_queue_empty (do_mq d)
  then shutdown "Missed scheduling of next digital out event"
  else
    '(mn, mq) ← move_queue_pop (do_mq d);
    mod_obj digital_out_s p (fun d => d <| do_mq := mq |>) ;;
    m ← get_digital_move mn;
    let on_duration := dm_on_duration m in
    gpio_out_write (do_pin d) (if negb (on_duration =? 0) then DF_ON else 0) ;;
    move_free mn ;;
    t ← get_timer (do_timer p);
    let wk := waketime t in
    let '(flags, end_time) := load_state d wk on_duration in
    '(flags, end_time) ←
      (if move_queue_empty mq then mret (flags, end_time)
       else
         nn ← deref (move_queue_first mq);
         nm ← get_digital_move nn;
         if flag flags DF_CHECK_END && timer_is_before end_time (dm_waketime nm)
         then shutdown "Scheduled digital out event will exceed max_duration"
         else mret (Z.lor flags DF_CHECK_END, dm_waketime nm));
    digital_schedule p flags end_time wk on_duration.

Definition command_config_digital_out (args : list Z) : M unit :=
  pin ← gpio_out_setup (arg args 1) (b2z (negb (u32 (arg args 2) =? 0)));
  p ← oid_alloc (arg args 0) command_config_digital_out_t
        (sizeof_obj command_config_digital_out_t) (O_digital_out digital_out_zero);
  mod_obj digital_out_s p (fun d => d <| do_pin := pin |>
    <| do_flags := Z.lor (if negb (u32 (arg args 2) =? 0) then DF_ON else 0)
                         (if negb (u32 (arg args 3) =? 0) then DF_DEFAULT_ON else 0) |>
    <| do_max_duration := u32 (arg args 4) |>) ;;
  mq ← move_queue_setup sizeof_digital_move;
  mod_obj digital_out_s p (fun d => d <| do_mq := mq |>).

Definition command_set_digital_out_pwm_cycle (args : list Z) : M unit :=
  p ← oid_lookup (arg args 0) command_config_digital_out_t;
  d ← get_obj digital_out_s p;
  if negb (move_queue_empty (do_mq d))
  then shutdown "Can not set soft pwm cycle ticks while updates pending"
  else mod_obj digital_out_s p (fun d => d <| do_cycle_time := u32 (arg args 1) |>).

Definition command_queue_digital_out (args : list Z) : M unit :=
  p ← oid_lookup (arg args 0) command_config_digital_out_t;
  mn ← move_alloc;
  let time := u32 (arg args 1) in
  mod_node mn (fun n => n <| mn_data := MD_digital (mkDigitalMove time (u32 (arg args 2))) |>) ;;
  d ← get_obj digital_out_s p;
  '(first_on_queue, mq) ← move_queue_push mn (do_mq d);
  mod_obj digital_out_s p (fun d => d <| do_mq := mq |>) ;;
  if first_on_queue =? 0 then mret tt
  else
    let flags := do_flags d in
    if flag flags DF_CHECK_END && timer_is_before (do_end_time d) time
    then shutdown "Scheduled digital out event will exceed max_duration"
    else
      mod_obj digital_out_s p (fun d => d <| do_end_time := time |>
                                          <| do_flags := Z.lor flags DF_CHECK_END |>) ;;
      t ← get_timer (do_timer p);
      if flag flags DF_TOGGLING && timer_is_before (waketime t) time then mret tt
      else
        sched_del_timer (do_timer p) ;;
        mod_timer (do_timer p) (fun t => t <| waketime := time |>) ;;
        mod_timer (do_timer p) (fun t => t <| func := Some FN_digital_load_event |>) ;;
        sched_add_timer (do_timer p).

Definition command_update_digital_out (args : list Z) : M unit :=
  p ← oid_lookup (arg args 0) command_config_digital_out_t;
  sched_del_timer (do_timer p) ;;
  d ← get_obj digital_out_s p;
  if negb (move_queue_empty (do_mq d))
  then shutdown "update_digital_out not valid with active queue"
  else
    let value := u8 (arg args 1) in
    let flags := do_flags d in
    let on_flag := if negb (value =? 0) then DF_ON else 0 in
    gpio_out_write (do_pin d) on_flag ;;
    if negb (Bool.eqb (on_flag =? 0) (negb (flag flags DF_DEFAULT_ON)))
       && negb (do_max_duration d =? 0)
    then
      now ← timer_read_time;
      let end_time := u32 (now + do_max_duration d) in
      mod_obj digital_out_s p (fun d => d <| do_end_time := end_time |>) ;;
      mod_timer (do_timer p) (fun t => t <| waketime := end_time |>) ;;
      mod_timer (do_timer p) (fun t => t <| func := Some FN_digital_load_event |>) ;;
      mod_obj digital_out_s p (fun d => d <| do_flags :=
        Z.lor (Z.lor (Z.land flags DF_DEFAULT_ON) on_flag) DF_CHECK_END |>) ;;
      sched_add_timer (do_timer p)
    else
      mod_obj digital_out_s p (fun d => d <| do_flags :=
        Z.lor (Z.land flags DF_DEFAULT_ON) on_flag |>).

Definition digital_out_shutdown : M unit :=
  foreach_oid command_config_digital_out_t (fun p =>
    d ← get_obj digital_out_s p;
    gpio_out_write (do_pin d) (Z.land (do_flags d) DF_DEFAULT_ON) ;;
    mod_obj digital_out_s p (fun d => d <| do_flags :=
      if flag (do_flags d) DF_DEFAULT_ON then Z.lor DF_ON DF_DEFAULT_ON else 0 |>) ;;
    mod_obj digital_out_s p (fun d => d <| do_mq ::= move_queue_clear |>)).

Definition command_set_digital_out (args : list Z) : M unit :=
  gpio_out_setup (arg args 0) (u32 (arg args 1)) ;; mret tt.
End GpioCmds.
