(* ===== verification/PwmCmds.v ===== *)
(** * Hardware PWM pins: src/src/pwmcmds.c *)
From S2P Require Import Prelude World Sched Command BaseCmd.

(** The timer embedded in a [struct pwm_out_s]. *)
Definition po_timer (p : Z) : tref := TObj p 0.

Section PwmCmds.
Context `{Board}.

(** The move stored in a node. *)
Definition get_pwm_move (mn : Z) : M pwm_move :=
  n ← get_node mn;
  match mn_data n with MD_pwm m => mret m | _ => fault end.

Definition pwm_end_event (p : Z) : M sf_result :=
  shutdown "Missed scheduling of next hard pwm event".

Definition pwm_event (p : Z) : M sf_result :=
  s ← get_obj pwm_out_s p;
  '(mn, mq) ← move_queue_pop (po_mq s);
  mod_obj pwm_out_s p (fun s => s <| po_mq := mq |>) ;;
  m ← get_pwm_move mn;
  let value := pm_value m in
  gpio_pwm_write (po_pin s) value ;;
  move_free mn ;;
  t ← get_timer (po_timer p);
  if move_queue_empty mq then
    if (value =? po_default_value s) || (po_max_duration s =? 0) then mret SF_DONE
    else
      mod_timer (po_timer p) (fun t => t <| waketime := u32 (waketime t + po_max_duration s) |>) ;;
      mod_timer (po_timer p) (fun t => t <| func := Some FN_pwm_end_event |>) ;;
      mret SF_RESCHEDULE
  else
    nn ← deref (move_queue_first mq);
    nm ← get_pwm_move nn;
    let wake := pm_waketime nm in
    if negb (value =? po_default_value s) && negb (po_max_duration s =? 0)
       && timer_is_before (u32 (waketime t + po_max_duration s)) wake
    then shutdown "Scheduled pwm event will exceed max_duration"
    else
      mod_timer (po_timer p) (fun t => t <| waketime := wake |>) ;;
      mret SF_RESCHEDULE.

Definition command_config_pwm_out (args : list Z) : M unit :=
  pin ← gpio_pwm_setup (arg args 1) (arg args 2) (arg args 3);
  p ← oid_alloc (arg args 0) command_config_pwm_out_t (sizeof_obj command_config_pwm_out_t)
        (O_pwm_out pwm_out_zero);
  mod_obj pwm_out_s p (fun s => s <| po_pin := pin |> <| po_default_value := u16 (arg args 4) |>
                                  <| po_max_duration := u32 (arg args 5) |>) ;;
  mod_timer (po_timer p) (fun t => t <| func := Some FN_pwm_event |>) ;;
  mq ← move_queue_setup sizeof_pwm_move;
  mod_obj pwm_out_s p (fun s => s <| po_mq := mq |>).

Definition command_queue_pwm_out (args : list Z) : M unit :=
  p ← oid_lookup (arg args 0) command_config_pwm_out_t;
  mn ← move_alloc;
  let wake := u32 (arg args 1) in
  mod_node mn (fun n => n <| mn_data := MD_pwm (mkPwmMove wake (u16 (arg args 2))) |>) ;;
  s ← get_obj pwm_out_s p;
  '(need_add_timer, mq) ← move_queue_push mn (po_mq s);
  mod_obj pwm_out_s p (fun s => s <| po_mq := mq |>) ;;
  if need_add_timer =? 0 then mret tt
  else
    sched_del_timer (po_timer p) ;;
    t ← get_timer (po_timer p);
    if bool_decide (func t = Some FN_pwm_end_event) && timer_is_before (waketime t) wake
    then shutdown "Scheduled pwm event will exceed max_duration"
    else
      mod_timer (po_timer p) (fun t => t <| func := Some FN_pwm_event |>) ;;
      mod_timer (po_timer p) (fun t => t <| waketime := wake |>) ;;
      sched_add_timer (po_timer p).

Definition pwm_shutdown : M unit :=
  foreach_oid command_config_pwm_out_t (fun p =>
    s ← get_obj pwm_out_s p;
    gpio_pwm_write (po_pin s) (po_default_value s) ;;
    mod_timer (po_timer p) (fun t => t <| func := Some FN_pwm_event |>) ;;
    mod_obj pwm_out_s p (fun s => s <| po_mq ::= move_queue_clear |>)).

Definition command_set_pwm_out (args : list Z) : M unit :=
  gpio_pwm_setup (arg args 0) (arg args 1) (arg args 2) ;; mret tt.
End PwmCmds.
