(* ===== verification/Inputs.v ===== *)
(** * Inputs: src/src/adccmds.c, buttons.c and pulse_counter.c *)
From S2P Require Import Prelude World Sched Command BaseCmd.

(** ** Analog inputs: src/src/adccmds.c *)

(** The timer embedded in a [struct analog_in]. *)
Definition ai_timer (a : Z) : tref := TObj a 0.

Section AdcCmds.
Context `{Board}.

Definition analog_in_event (p : Z) : M sf_result :=
  a ← get_obj analog_in p;
  sample_delay ← gpio_adc_sample (ai_pin a);
  if negb (sample_delay =? 0) then
    mod_timer (ai_timer p) (fun t => t <| waketime := u32 (waketime t + sample_delay) |>) ;;
    mret SF_RESCHEDULE
  else
    r ← gpio_adc_read (ai_pin a);
    let '(state, value) :=
      if ai_sample_count a <=? ai_state a then (0, r)
      else (ai_state a, u16 (r + ai_value a)) in
    let state := u8 (state + 1) in
    mod_obj analog_in p (fun a => a <| ai_value := value |> <| ai_state := state |>) ;;
    if state <? ai_sample_count a then
      mod_timer (ai_timer p) (fun t => t <| waketime := u32 (waketime t + ai_sample_time a) |>) ;;
      mret SF_RESCHEDULE
    else
      (if (ai_min_value a <=? value) && (value <=? ai_max_value a) then
         mod_obj analog_in p (fun a => a <| ai_invalid_count := 0 |>)
       else
         mod_obj analog_in p (fun a => a <| ai_invalid_count ::= fun n => u8 (n + 1) |>) ;;
         a ← get_obj analog_in p;
         when (ai_range_check_count a <=? ai_invalid_count a)
           (sched_try_shutdown "ADC out of range" ;;
            mod_obj analog_in p (fun a => a <| ai_invalid_count := 0 |>))) ;;
      sched_wake_task analog_wake ;;
      let nbt := u32 (ai_next_begin_time a + ai_rest_time a) in
      mod_obj analog_in p (fun a => a <| ai_next_begin_time := nbt |>) ;;
      mod_timer (ai_timer p) (fun t => t <| waketime := nbt |>) ;;
      mret SF_RESCHEDULE.

Definition command_config_analog_in (args : list Z) : M unit :=
  pin ← gpio_adc_setup (arg args 1);
  p ← oid_alloc (arg args 0) command_config_analog_in_t (sizeof_obj command_config_analog_in_t)
        (O_analog_in analog_in_zero);
  mod_timer (ai_timer p) (fun t => t <| func := Some FN_analog_in_event |>) ;;
  mod_obj analog_in p (fun a => a <| ai_pin := pin |> <| ai_state := 1 |>).

Definition command_query_analog_in (args : list Z) : M unit :=
  p ← oid_lookup (arg args 0) command_config_analog_in_t;
  sched_del_timer (ai_timer p) ;;
  a ← get_obj analog_in p;
  gpio_adc_cancel_sample (ai_pin a) ;;
  let sample_count := u8 (arg args 3) in
  mod_obj analog_in p (fun a => a <| ai_next_begin_time := u32 (arg args 1) |>) ;;
  mod_timer (ai_timer p) (fun t => t <| waketime := u32 (arg args 1) |>) ;;
  mod_obj analog_in p (fun a => a
    <| ai_sample_time := u32 (arg args 2) |>
    <| ai_sample_count := sample_count |>
    <| ai_state := u8 (sample_count + 1) |>
    <| ai_rest_time := u32 (arg args 4) |>
    <| ai_min_value := u16 (arg args 5) |>
    <| ai_max_value := u16 (arg args 6) |>
    <| ai_range_check_count := u8 (arg args 7) |>) ;;
  when (negb (sample_count =? 0)) (sched_add_timer (ai_timer p)).

Definition analog_in_task : M unit :=
  wake ← sched_check_wake analog_wake;
  when wake (foreach_oid command_config_analog_in_t (fun oid =>
    a ← get_obj analog_in oid;
    when (ai_state a =? ai_sample_count a)
      (mod_obj analog_in oid (fun a => a <| ai_state ::= fun s => u8 (s + 1) |>) ;;
       sendf "analog_in_state oid=%c next_clock=%u value=%hu"
         [AInt oid; AInt (ai_next_begin_time a); AInt (ai_value a)]))).

Definition analog_in_shutdown : M unit :=
  foreach_oid command_config_analog_in_t (fun p =>
    a ← get_obj analog_in p;
    gpio_adc_cancel_sample (ai_pin a) ;;
    when (negb (ai_sample_count a =? 0))
      (let nbt := u32 (ai_next_begin_time a + ai_rest_time a) in
       mod_obj analog_in p (fun a => a <| ai_state := u8 (ai_sample_count a + 1) |>
                                       <| ai_next_begin_time := nbt |>) ;;
       mod_timer (ai_timer p) (fun t => t <| waketime := nbt |>) ;;
       sched_add_timer (ai_timer p))).
End AdcCmds.

(** ** User interface buttons: src/src/buttons.c *)

Definition BF_NO_RETRANSMIT : Z := 0x80.
Definition BF_PENDING : Z := 0xff.
Definition BF_ACKED : Z := 0xfe.

(** [sizeof(b->reports)] *)
Definition REPORTS_SIZE : Z := 8.

(** The timer embedded in a [struct buttons]. *)
Definition bt_time (b : Z) : tref := TObj b 0.

(** A zeroed [struct buttons] followed by [n] pins. *)
Definition buttons_zero (n : Z) : buttons :=
  mkButtons 0 0 0 0 (replicate 8 0) 0 0 0 0 (replicate (Z.to_nat n) 0).

(** Debouncing in [buttons_event]: the new [pressed] if it is to be
    reported.  A pin changes only when two readings in a row agree. *)
Definition debounce (status pressed last_pressed : Z) : option Z :=
  let diff := Z.lxor status pressed in
  if diff =? 0 then None
  else
    let debounced := not8 (Z.lxor status last_pressed) in
    if Z.land diff debounced =? 0 then None
    else Some (Z.lor (Z.land pressed (not8 debounced)) (Z.land status debounced)).

Section Buttons.
Context `{Board}.

(** The loop that reads the pins. *)
Fixpoint read_pins (pins : list Z) (bit status : Z) : M Z :=
  match pins with
  | [] => mret status
  | pin :: pins =>
      val ← gpio_in_read pin;
      read_pins pins (u8 (Z.shiftl bit 1)) (if negb (val =? 0) then Z.lor status bit else status)
  end.

Definition buttons_event (p : Z) : M sf_result :=
  b ← get_obj buttons p;
  status ← read_pins (take (Z.to_nat (bt_button_count b)) (bt_pins b)) 1 0;
  (match debounce status (bt_pressed b) (bt_last_pressed b) with
   | None => mret tt
   | Some pressed =>
       mod_obj buttons p (fun b => b <| bt_pressed := pressed |>) ;;
       when (bt_report_count b <? REPORTS_SIZE)
         (mod_obj buttons p (fun b => b
            <| bt_reports := <[Z.to_nat (bt_report_count b) := pressed]> (bt_reports b) |>
            <| bt_report_count := u8 (bt_report_count b + 1) |>) ;;
          sched_wake_task buttons_wake ;;
          mod_obj buttons p (fun b => b <| bt_retransmit_state := BF_PENDING |>))
   end) ;;
  mod_obj buttons p (fun b => b <| bt_last_pressed := status |>) ;;
  b ← get_obj buttons p;
  when (negb (flag (bt_retransmit_state b) BF_NO_RETRANSMIT))
    (let rs := u8 (bt_retransmit_state b - 1) in
     when (flag rs BF_NO_RETRANSMIT) (sched_wake_task buttons_wake) ;;
     mod_obj buttons p (fun b => b <| bt_retransmit_state := rs |>)) ;;
  mod_timer (bt_time p) (fun t => t <| waketime := u32 (waketime t + bt_rest_ticks b) |>) ;;
  mret SF_RESCHEDULE.

Definition command_config_buttons (args : list Z) : M unit :=
  let button_count := u8 (arg args 1) in
  if 8 <? button_count then shutdown "Max of 8 buttons"
  else
    p ← oid_alloc (arg args 0) command_config_buttons_t
          (sizeof_obj command_config_buttons_t + sizeof_gpio_in * button_count)
          (O_buttons (buttons_zero button_count));
    mod_obj buttons p (fun b => b <| bt_button_count := button_count |>) ;;
    mod_timer (bt_time p) (fun t => t <| func := Some FN_buttons_event |>).

Definition command_buttons_add (args : list Z) : M unit :=
  p ← oid_lookup (arg args 0) command_config_buttons_t;
  let pos := u8 (arg args 1) in
  b ← get_obj buttons p;
  if bt_button_count b <=? pos then shutdown "Set button past maximum button count"
  else
    pin ← gpio_in_setup (arg args 2) (arg args 3);
    mod_obj buttons p (fun b => b <| bt_pins := <[Z.to_nat pos := pin]> (bt_pins b) |>).

Definition command_buttons_query (args : list Z) : M unit :=
  p ← oid_lookup (arg args 0) command_config_buttons_t;
  sched_del_timer (bt_time p) ;;
  mod_timer (bt_time p) (fun t => t <| waketime := u32 (arg args 1) |>) ;;
  mod_obj buttons p (fun b => b
    <| bt_rest_ticks := u32 (arg args 2) |>
    <| bt_pressed := u8 (arg args 4) |> <| bt_last_pressed := u8 (arg args 4) |>
    <| bt_ack_count := 0 |> <| bt_report_count := 0 |>
    <| bt_retransmit_state := BF_ACKED |>
    <| bt_retransmit_count := u8 (arg args 3) |>) ;;
  if BF_NO_RETRANSMIT <=? u8 (arg args 3) then shutdown "Invalid buttons retransmit count"
  else when (negb (u32 (arg args 2) =? 0)) (sched_add_timer (bt_time p)).

(** The copying loop of [command_buttons_ack]. *)
Fixpoint shift_reports (n : nat) (i count : nat) (reports : list Z) : list Z :=
  match n with
  | O => reports
  | S n => shift_reports n (S i) count (<[i := nth (i + count) reports 0]> reports)
  end.

Definition command_buttons_ack (args : list Z) : M unit :=
  p ← oid_lookup (arg args 0) command_config_buttons_t;
  let count := u8 (arg args 1) in
  mod_obj buttons p (fun b => b <| bt_ack_count := u8 (bt_ack_count b + count) |>) ;;
  b ← get_obj buttons p;
  if bt_report_count b <=? count then
    mod_obj buttons p (fun b => b <| bt_report_count := 0 |> <| bt_retransmit_state := BF_ACKED |>)
  else
    let pending := u8 (bt_report_count b - count) in
    mod_obj buttons p (fun b => b
      <| bt_reports := shift_reports (Z.to_nat pending) 0 (Z.to_nat count) (bt_reports b) |>
      <| bt_report_count := pending |>).

Definition buttons_task : M unit :=
  wake ← sched_check_wake buttons_wake;
  when wake (foreach_oid command_config_buttons_t (fun oid =>
    b ← get_obj buttons oid;
    when ((bt_retransmit_state b =? BF_PENDING) && negb (bt_report_count b =? 0))
      (mod_obj buttons oid (fun b => b <| bt_retransmit_state := bt_retransmit_count b |>) ;;
       sendf "buttons_state oid=%c ack_count=%c state=%*s"
         [AInt oid; AInt (bt_ack_count b);
          ABytes (take (Z.to_nat (bt_report_count b)) (bt_reports b))]))).
End Buttons.

(** ** Edge counters: src/src/pulse_counter.c *)

Definition CF_PENDING : Z := 1.

(** The timer embedded in a [struct counter]. *)
Definition ct_timer (c : Z) : tref := TObj c 0.

Section PulseCounter.
Context `{Board}.

Definition counter_event (p : Z) : M sf_result :=
  c ← get_obj counter p;
  t ← get_timer (ct_timer p);
  let time := waketime t in
  let last_value := Z.land (ct_count c) 1 in
  value ← gpio_in_read (ct_pin c);
  when (negb (last_value =? value))
    (mod_obj counter p (fun c => c <| ct_count := u32 (ct_count c + 1) |>
                                   <| ct_last_count_time := time |>)) ;;
  when (timer_is_before (ct_next_sample_time c) time)
    (mod_obj counter p (fun c => c <| ct_flags ::= fun f => Z.lor f CF_PENDING |>
                                   <| ct_next_sample_time := u32 (time + ct_sample_ticks c) |>) ;;
     sched_wake_task counter_wake) ;;
  mod_timer (ct_timer p) (fun t => t <| waketime := u32 (waketime t + ct_poll_ticks c) |>) ;;
  mret SF_RESCHEDULE.

Definition command_config_counter (args : list Z) : M unit :=
  p ← oid_alloc (arg args 0) command_config_counter_t (sizeof_obj command_config_counter_t)
        (O_counter counter_zero);
  pin ← gpio_in_setup (arg args 1) (arg args 2);
  mod_obj counter p (fun c => c <| ct_pin := pin |>) ;;
  mod_timer (ct_timer p) (fun t => t <| func := Some FN_counter_event |>).

Definition command_query_counter (args : list Z) : M unit :=
  p ← oid_lookup (arg args 0) command_config_counter_t;
  sched_del_timer (ct_timer p) ;;
  mod_timer (ct_timer p) (fun t => t <| waketime := u32 (arg args 1) |>) ;;
  mod_obj counter p (fun c => c <| ct_poll_ticks := u32 (arg args 2) |>
    <| ct_sample_ticks := u32 (arg args 3) |> <| ct_next_sample_time := u32 (arg args 1) |>) ;;
  sched_add_timer (ct_timer p).

Definition counter_task : M unit :=
  wake ← sched_check_wake counter_wake;
  when wake (foreach_oid command_config_counter_t (fun oid =>
    c ← get_obj counter oid;
    when (flag (ct_flags c) CF_PENDING)
      (t ← get_timer (ct_timer oid);
       mod_obj counter oid (fun c => c <| ct_flags ::= fun f => Z.land f (not8 CF_PENDING) |>) ;;
       sendf "counter_state oid=%c next_clock=%u count=%u count_clock=%u"
         [AInt oid; AInt (waketime t); AInt (ct_count c); AInt (ct_last_count_time c)]))).
End PulseCounter.
