(* ===== verification/Tmcuart.v ===== *)
(** * Messages to TMC stepper drivers over a single wire: src/src/tmcuart.c

    A message is sent bit by bit: a timer toggles the output whenever the next
    bit differs from the level of the line.  The answer is then sampled bit by
    bit. *)
From S2P Require Import Prelude Buffers Protocol World Sched Command BaseCmd.

Definition TU_LINE_HIGH : Z := 1.
Definition TU_ACTIVE : Z := 2.
Definition TU_READ_SYNC : Z := 4.
Definition TU_REPORT : Z := 8.
Definition TU_PULLUP : Z := 16.
Definition TU_SINGLE_WIRE : Z := 32.

(** The timer embedded in a [struct tmcuart_s]. *)
Definition tu_timer (p : Z) : tref := TObj p 0.

(** [sizeof(t->data)] *)
Definition TU_DATA_SIZE : Z := 10.

(** Bit [pos] of the data. *)
Definition data_bit (data : list Z) (pos : Z) : Z :=
  Z.land (Z.shiftr (byte_at data (Z.shiftr pos 3)) (Z.land pos 0x07)) 0x01.

(** [DIV_ROUND_CLOSEST(x, 4)] for an [int32_t]; C divides towards zero. *)
Definition div4_closest (x : Z) : Z := Z.quot (x + 2) 4.

Section Tmcuart.
Context `{Board}.

Definition tmcuart_reset_line (p : Z) : M unit :=
  t ← get_obj tmcuart_s p;
  (if flag (tu_flags t) TU_SINGLE_WIRE then gpio_out_reset (tu_tx_pin t) 1
   else gpio_out_write (tu_tx_pin t) 1) ;;
  mod_obj tmcuart_s p (fun t => t <| tu_flags ::= fun f =>
    Z.lor (Z.land f (Z.lor TU_PULLUP TU_SINGLE_WIRE)) TU_LINE_HIGH |>).

Definition tmcuart_finalize (p : Z) : M sf_result :=
  tmcuart_reset_line p ;;
  mod_obj tmcuart_s p (fun t => t <| tu_flags ::= fun f => Z.lor f TU_REPORT |>) ;;
  sched_wake_task tmcuart_wake ;;
  mret SF_DONE.

Definition tmcuart_read_event (p : Z) : M sf_result :=
  t ← get_obj tmcuart_s p;
  v ← gpio_in_read (tu_rx_pin t);
  let pos := tu_pos t in
  let mask := Z.shiftl 1 (Z.land pos 0x07) in
  let data := byte_at (tu_data t) (Z.shiftr pos 3) in
  let data := if negb (v =? 0) then Z.lor data mask else Z.land data (not8 mask) in
  mod_obj tmcuart_s p (fun t => t <| tu_data ::= <[Z.to_nat (Z.shiftr pos 3) := data]> |>) ;;
  let pos := u8 (pos + 1) in
  if tu_read_count t <=? pos then tmcuart_finalize p
  else
    mod_obj tmcuart_s p (fun t => t <| tu_pos := pos |>) ;;
    mod_timer (tu_timer p) (fun tm => tm <| waketime := u32 (waketime tm + tu_bit_time t) |>) ;;
    mret SF_RESCHEDULE.

(** The end of [tmcuart_read_sync_event]. *)
Definition read_sync_wait (p : Z) : M sf_result :=
  t ← get_obj tmcuart_s p;
  mod_obj tmcuart_s p (fun t => t <| tu_pos ::= fun x => u8 (x + 1) |>) ;;
  if 64 <=? tu_pos t then
    mod_obj tmcuart_s p (fun t => t <| tu_read_count := 0 |>) ;;
    tmcuart_finalize p
  else
    mod_timer (tu_timer p) (fun tm => tm <| waketime := u32 (waketime tm + tu_bit_time t) |>) ;;
    mret SF_RESCHEDULE.

Definition tmcuart_read_sync_event (p : Z) : M sf_result :=
  t ← get_obj tmcuart_s p;
  v ← gpio_in_read (tu_rx_pin t);
  if negb (v =? 0) then
    mod_obj tmcuart_s p (fun t => t <| tu_flags ::= fun f => Z.lor f TU_READ_SYNC |>) ;;
    read_sync_wait p
  else if flag (tu_flags t) TU_READ_SYNC then
    mod_obj tmcuart_s p (fun t => t <| tu_pos := 0 |>) ;;
    mod_timer (tu_timer p) (fun tm => tm <| func := Some FN_tmcuart_read_event |>) ;;
    tmcuart_read_event p
  else read_sync_wait p.

Definition tmcuart_send_finish_event (p : Z) : M sf_result :=
  t ← get_obj tmcuart_s p;
  if tu_read_count t =? 0 then tmcuart_finalize p
  else
    when (flag (tu_flags t) TU_SINGLE_WIRE)
      (gpio_in_reset (tu_rx_pin t) (Z.land (tu_flags t) TU_PULLUP)) ;;
    mod_obj tmcuart_s p (fun t => t <| tu_pos := 0 |>) ;;
    mod_timer (tu_timer p) (fun tm => tm <| func := Some FN_tmcuart_read_sync_event |>
      <| waketime := u32 (waketime tm + tu_bit_time t * 4) |>) ;;
    mret SF_RESCHEDULE.

(** The loop of [tmcuart_send_event]: the position of the next toggle, if there
    is one, and [next].  [write_count] is below 256, so that is enough fuel. *)
Fixpoint send_scan (fuel : nat) (t : tmcuart_s) (line_state pos next : Z) : M (option Z * Z) :=
  match fuel with
  | O => fault
  | S fuel =>
      let pos := u8 (pos + 1) in
      if tu_write_count t <=? pos then mret (None, next)
      else if negb (data_bit (tu_data t) pos =? line_state) then mret (Some pos, next)
      else send_scan fuel t line_state pos (u32 (next + tu_bit_time t))
  end.

Definition tmcuart_send_event (p : Z) : M sf_result :=
  t ← get_obj tmcuart_s p;
  gpio_out_toggle_noirq (tu_tx_pin t) ;;
  mod_obj tmcuart_s p (fun t => t <| tu_flags ::= fun f => Z.lxor f TU_LINE_HIGH |>) ;;
  t ← get_obj tmcuart_s p;
  let line_state := Z.land (tu_flags t) TU_LINE_HIGH in
  '(pos, next) ← send_scan 256 t line_state (tu_pos t) (tu_bit_time t);
  match pos with
  | None =>
      mod_timer (tu_timer p) (fun tm => tm <| func := Some FN_tmcuart_send_finish_event |>
        <| waketime := u32 (waketime tm + next) |>) ;;
      mret SF_RESCHEDULE
  | Some pos =>
      mod_obj tmcuart_s p (fun t => t <| tu_pos := pos |>) ;;
      mod_timer (tu_timer p) (fun tm => tm <| waketime := u32 (waketime tm + next) |>) ;;
      mret SF_RESCHEDULE
  end.

Definition tmcuart_send_sync_event (p : Z) : M sf_result :=
  t ← get_obj tmcuart_s p;
  gpio_out_toggle_noirq (tu_tx_pin t) ;;
  cur ← timer_read_time;
  tm ← get_timer (tu_timer p);
  let pos := u8 (tu_pos t + 1) in
  mod_obj tmcuart_s p (fun t => t <| tu_flags ::= fun f => Z.lxor f TU_LINE_HIGH |>
                                  <| tu_pos := pos |>) ;;
  let offset := u32 (cur - waketime tm) in
  let plain : M sf_result :=
    mod_timer (tu_timer p) (fun tm => tm <| waketime := u32 (waketime tm + tu_cfg_bit_time t) |>) ;;
    mret SF_RESCHEDULE in
  if pos =? 1 then
    mod_obj tmcuart_s p (fun t => t <| tu_bit_time := offset |>) ;; plain
  else if 5 <=? pos then
    let start_offset := tu_bit_time t in
    let diff := s32 (offset - start_offset) in
    let bit_time := u32 (tu_cfg_bit_time t + div4_closest diff) in
    mod_obj tmcuart_s p (fun t => t <| tu_bit_time := bit_time |>) ;;
    mod_timer (tu_timer p) (fun tm => tm <| func := Some FN_tmcuart_send_event |>
      <| waketime := u32 (waketime tm + (diff + bit_time)) |>) ;;
    mret SF_RESCHEDULE
  else plain.

Definition command_config_tmcuart (args : list Z) : M unit :=
  p ← oid_alloc (arg args 0) command_config_tmcuart_t (sizeof_obj command_config_tmcuart_t)
        (O_tmcuart tmcuart_zero);
  let pull_up := u8 (arg args 2) in
  let rx_pin := arg args 1 in
  let tx_pin := arg args 3 in
  rx ← gpio_in_setup rx_pin (b2z (negb (pull_up =? 0)));
  mod_obj tmcuart_s p (fun t => t <| tu_rx_pin := rx |>) ;;
  tx ← gpio_out_setup tx_pin 1;
  mod_obj tmcuart_s p (fun t => t <| tu_tx_pin := tx |> <| tu_cfg_bit_time := u32 (arg args 4) |>
    <| tu_flags := Z.lor (Z.lor TU_LINE_HIGH (if negb (pull_up =? 0) then TU_PULLUP else 0))
                     (if rx_pin =? tx_pin then TU_SINGLE_WIRE else 0) |>).

(** [command_tmcuart_send]; [buf] is the buffer the command was parsed from,
    into which the pointer argument points. *)
Definition command_tmcuart_send (buf : list Z) (args : list Z) : M unit :=
  p ← oid_lookup (arg args 0) command_config_tmcuart_t;
  t ← get_obj tmcuart_s p;
  if flag (tu_flags t) TU_ACTIVE then mret tt
  else
    let write_len := u8 (arg args 1) in
    let write := command_decode_ptr buf (arg args 2) in
    let read_len := u8 (arg args 3) in
    if (TU_DATA_SIZE <? write_len) || (TU_DATA_SIZE <? read_len)
    then shutdown "tmcuart data too large"
    else
      mod_obj tmcuart_s p (fun t =>
        t <| tu_data ::= copy_to 0 (take (Z.to_nat write_len) write) |> <| tu_pos := 0 |>
          <| tu_flags ::= fun f =>
               Z.lor (Z.land f (Z.lor (Z.lor TU_LINE_HIGH TU_PULLUP) TU_SINGLE_WIRE)) TU_ACTIVE |>
          <| tu_write_count := u8 (write_len * 8) |> <| tu_read_count := u8 (read_len * 8) |>) ;;
      t ← get_obj tmcuart_s p;
      (if (1 <=? write_len) && (Z.land (byte_at (tu_data t) 0) 0x3f =? 0x2a) then
         mod_timer (tu_timer p) (fun tm => tm <| func := Some FN_tmcuart_send_sync_event |>)
       else
         mod_obj tmcuart_s p (fun t => t <| tu_bit_time := tu_cfg_bit_time t |>) ;;
         mod_timer (tu_timer p) (fun tm => tm <| func := Some FN_tmcuart_send_event |>)) ;;
      now ← timer_read_time;
      mod_timer (tu_timer p) (fun tm => tm <| waketime := u32 (now + timer_from_us 200) |>) ;;
      sched_add_timer (tu_timer p).

Definition tmcuart_task : M unit :=
  wake ← sched_check_wake tmcuart_wake;
  when wake (foreach_oid command_config_tmcuart_t (fun oid =>
    t ← get_obj tmcuart_s oid;
    when (flag (tu_flags t) TU_REPORT)
      (mod_obj tmcuart_s oid (fun t => t <| tu_flags ::= fun f => Z.land f (not8 TU_REPORT) |>) ;;
       sendf "tmcuart_response oid=%c read=%*s"
         [AInt oid; ABytes (take (Z.to_nat (tu_read_count t / 8)) (tu_data t))]))).

Definition tmcuart_shutdown : M unit :=
  foreach_oid command_config_tmcuart_t tmcuart_reset_line.
End Tmcuart.
