(* ===== verification/SpiCmds.v ===== *)
(** * The SPI buses: src/src/spicmds.c and src/src/spi_software.c

    A device on an SPI bus, with its chip select pin, on a bus of the board or
    on one that is emulated with three pins.  A transfer replaces the bytes of
    its buffer by the received ones; the functions return the buffer. *)
From S2P Require Import Prelude Protocol Devices World Sched Delays Command BaseCmd.

(** The [i]-th byte of a message. *)
Definition msg_at (msg : list Z) (i : nat) : Z := nth i msg 0.

Definition SF_HAVE_PIN : Z := 1.
Definition SF_SOFTWARE : Z := 2.
Definition SF_HARDWARE : Z := 4.
Definition SF_CS_ACTIVE_HIGH : Z := 8.

Section SpiSoftware.
Context `{Board}.

(** ** Software emulation *)

Definition spi_delay (t_end : Z) : M unit := spin_until spin_limit t_end.

Definition spi_software_prepare (ss : spi_software) : M unit :=
  gpio_out_write (ss_sclk ss) (Z.land (ss_mode ss) 0x02) ;;
  now ← timer_read_time;
  spi_delay (u32 (now + ss_sck_ticks ss)).

(** The loop over the bits of a byte in modes 1 and 3: [i] bits are left; the
    result is [inbuf] and [end]. *)
Fixpoint spi_bits_phase1 (i : nat) (ss : spi_software) (t1 t2 outbuf inbuf t_end : Z)
    : M (Z * Z) :=
  match i with
  | O => mret (inbuf, t_end)
  | S i =>
      spi_delay t_end ;;
      gpio_out_toggle (ss_sclk ss) ;;
      gpio_out_write (ss_mosi ss) (Z.land outbuf 0x80) ;;
      now ← timer_read_time;
      let t_end := u32 (now + t2) in
      let outbuf := u8 (Z.shiftl outbuf 1) in
      let inbuf := u8 (Z.shiftl inbuf 1) in
      spi_delay t_end ;;
      gpio_out_toggle (ss_sclk ss) ;;
      v ← gpio_in_read (ss_miso ss);
      now ← timer_read_time;
      spi_bits_phase1 i ss t1 t2 outbuf (Z.lor inbuf v) (u32 (now + t1))
  end.

(** The same in modes 0 and 2. *)
Fixpoint spi_bits_phase0 (i : nat) (ss : spi_software) (t1 t2 outbuf inbuf t_end : Z)
    : M (Z * Z) :=
  match i with
  | O => mret (inbuf, t_end)
  | S i =>
      spi_delay t_end ;;
      gpio_out_write (ss_mosi ss) (Z.land outbuf 0x80) ;;
      gpio_out_toggle (ss_sclk ss) ;;
      now ← timer_read_time;
      let t_end := u32 (now + t2) in
      let outbuf := u8 (Z.shiftl outbuf 1) in
      let inbuf := u8 (Z.shiftl inbuf 1) in
      spi_delay t_end ;;
      v ← gpio_in_read (ss_miso ss);
      gpio_out_toggle (ss_sclk ss) ;;
      now ← timer_read_time;
      spi_bits_phase0 i ss t1 t2 outbuf (Z.lor inbuf v) (u32 (now + t1))
  end.

(** The loop over the bytes; [data] is what is left of the buffer. *)
Fixpoint spi_software_bytes (ss : spi_software) (receive : bool) (t1 t2 t_end : Z)
    (data : list Z) : M (list Z) :=
  match data with
  | [] => mret []
  | outbuf :: data =>
      '(inbuf, t_end) ←
        (if flag (ss_mode ss) 0x01 then spi_bits_phase1 8 ss t1 t2 outbuf 0 t_end
         else spi_bits_phase0 8 ss t1 t2 outbuf 0 t_end);
      rest ← spi_software_bytes ss receive t1 t2 t_end data;
      mret ((if receive then inbuf else outbuf) :: rest)
  end.

Definition spi_software_transfer (ss : spi_software) (receive : bool) (data : list Z)
    : M (list Z) :=
  let t1 := Z.shiftr (ss_sck_ticks ss) 1 in
  let t2 := u32 (ss_sck_ticks ss - t1) in
  now ← timer_read_time;
  spi_software_bytes ss receive t1 t2 (u32 (now + t1)) data.
End SpiSoftware.

(** ** The devices *)

Definition spidev_oid_lookup (oid : Z) : M Z := oid_lookup oid command_config_spi_t.

Definition spidev_set_software_bus (spi : Z) (ss : spi_software) : M unit :=
  s ← get_obj spidev_s spi;
  if flag (sd_flags s) (Z.lor SF_SOFTWARE SF_HARDWARE) then shutdown "Invalid spi config"
  else mod_obj spidev_s spi (fun s => s <| sd_bus := SU_software ss |>
                                        <| sd_flags ::= fun f => Z.lor f SF_SOFTWARE |>).

Definition spidev_have_cs_pin (spi : Z) : M Z :=
  s ← get_obj spidev_s spi; mret (Z.land (sd_flags s) SF_HAVE_PIN).

Definition spidev_get_cs_pin (spi : Z) : M Z :=
  s ← get_obj spidev_s spi; mret (sd_pin s).

Section SpiCmds.
Context `{Board}.

Definition command_config_spi (args : list Z) : M unit :=
  p ← oid_alloc (arg args 0) command_config_spi_t (sizeof_obj command_config_spi_t)
        (O_spidev spidev_s_zero);
  let cs_active_high := u8 (arg args 2) in
  pin ← gpio_out_setup (arg args 1) (b2z (cs_active_high =? 0));
  mod_obj spidev_s p (fun s => s <| sd_pin := pin |>
    <| sd_flags ::= fun f =>
         Z.lor f (Z.lor SF_HAVE_PIN
                    (if negb (cs_active_high =? 0) then SF_CS_ACTIVE_HIGH else 0)) |>).

Definition command_config_spi_without_cs (args : list Z) : M unit :=
  oid_alloc (arg args 0) command_config_spi_t (sizeof_obj command_config_spi_t)
    (O_spidev spidev_s_zero) ;;
  mret tt.

Definition command_spi_set_bus (args : list Z) : M unit :=
  p ← spidev_oid_lookup (arg args 0);
  let mode := u8 (arg args 2) in
  s ← get_obj spidev_s p;
  if (3 <? mode) || flag (sd_flags s) (Z.lor SF_SOFTWARE SF_HARDWARE)
  then shutdown "Invalid spi config"
  else
    c ← spi_setup (arg args 1) mode (arg args 3);
    mod_obj spidev_s p (fun s => s <| sd_bus := SU_config c |>
                                   <| sd_flags ::= fun f => Z.lor f SF_HARDWARE |>).

Definition command_spi_set_sw_bus (args : list Z) : M unit :=
  let mode := u8 (arg args 4) in
  let pulse_ticks := u32 (arg args 5) in
  if 3 <? mode then shutdown "Invalid spi config"
  else
    p ← spidev_oid_lookup (arg args 0);
    alloc_chunk sizeof_spi_software ;;
    miso ← gpio_in_setup (arg args 1) 1;
    mosi ← gpio_out_setup (arg args 2) 0;
    sclk ← gpio_out_setup (arg args 3) 0;
    spidev_set_software_bus p (mkSpiSoftware miso mosi sclk pulse_ticks mode).

(** The bus of a device, as the flags say it is to be read from the union. *)
Definition use_software (s : spidev_s) : bool :=
  CONFIG_WANT_SOFTWARE_SPI && flag (sd_flags s) SF_SOFTWARE.
Definition software_bus (s : spidev_s) : M spi_software :=
  match sd_bus s with SU_software ss => mret ss | _ => fault end.
Definition hardware_bus (s : spidev_s) : M spi_config :=
  match sd_bus s with SU_config c => mret c | _ => fault end.

Definition spidev_transfer (spi : Z) (receive : bool) (data : list Z) : M (list Z) :=
  s ← get_obj spidev_s spi;
  let flags := sd_flags s in
  if negb (flag flags (Z.lor SF_SOFTWARE SF_HARDWARE)) then mret data
  else
    (if use_software s then ss ← software_bus s; spi_software_prepare ss
     else c ← hardware_bus s; spi_prepare c) ;;
    when (flag flags SF_HAVE_PIN)
      (gpio_out_write (sd_pin s) (b2z (flag flags SF_CS_ACTIVE_HIGH))) ;;
    data ← (if use_software s then ss ← software_bus s; spi_software_transfer ss receive data
            else c ← hardware_bus s; spi_transfer c receive data);
    when (flag flags SF_HAVE_PIN)
      (gpio_out_write (sd_pin s) (b2z (negb (flag flags SF_CS_ACTIVE_HIGH)))) ;;
    mret data.

(** A buffer argument: [len] bytes of the block the command was parsed from. *)
Definition buffer_arg (buf : list Z) (len ptr : Z) : list Z :=
  take (Z.to_nat len) (command_decode_ptr buf ptr).

Definition command_spi_transfer (buf : list Z) (args : list Z) : M unit :=
  let oid := u8 (arg args 0) in
  spi ← spidev_oid_lookup oid;
  let data_len := u8 (arg args 1) in
  data ← spidev_transfer spi true (buffer_arg buf data_len (arg args 2));
  sendf "spi_transfer_response oid=%c response=%*s" [AInt oid; ABytes data].

Definition command_spi_send (buf : list Z) (args : list Z) : M unit :=
  spi ← spidev_oid_lookup (arg args 0);
  let data_len := u8 (arg args 1) in
  spidev_transfer spi false (buffer_arg buf data_len (arg args 2)) ;;
  mret tt.

(** ** Shutdown handling *)

Definition command_config_spi_shutdown (buf : list Z) (args : list Z) : M unit :=
  spi ← spidev_oid_lookup (arg args 1);
  let shutdown_msg_len := u8 (arg args 2) in
  sd ← oid_alloc (arg args 0) command_config_spi_shutdown_t
         (sizeof_obj command_config_spi_shutdown_t + shutdown_msg_len)
         (O_spidev_shutdown spidev_shutdown_s_zero);
  mod_obj spidev_shutdown_s sd (fun s =>
    s <| sh_spi := Some spi |> <| sh_msg_len := shutdown_msg_len |>
      <| sh_msg := buffer_arg buf shutdown_msg_len (arg args 3) |>).

Definition spidev_shutdown : M unit :=
  foreach_oid command_config_spi_t (fun spi =>
    s ← get_obj spidev_s spi;
    when (flag (sd_flags s) SF_HAVE_PIN)
      (gpio_out_write (sd_pin s) (b2z (negb (flag (sd_flags s) SF_CS_ACTIVE_HIGH))))) ;;
  foreach_oid command_config_spi_shutdown_t (fun sd =>
    s ← get_obj spidev_shutdown_s sd;
    spi ← deref (sh_spi s);
    spidev_transfer spi false (sh_msg s) ;;
    mret tt).
End SpiCmds.
