(* ===== verification/I2cCmds.v ===== *)
(** * The I2C buses: src/src/i2ccmds.c and src/src/i2c_software.c

    A device on an I2C bus of the board or on one that is emulated with two
    pins.  A pin is driven low by [gpio_out_reset] and released, to be pulled
    up, by [gpio_in_reset]. *)
From S2P Require Import Prelude Protocol Devices World Sched Delays Command BaseCmd SpiCmds.

Definition IF_SOFTWARE : Z := 1.
Definition IF_HARDWARE : Z := 2.

Definition I2C_BUS_SUCCESS : Z := 0.
Definition I2C_BUS_NACK : Z := 1.
Definition I2C_BUS_TIMEOUT : Z := 2.
Definition I2C_BUS_START_NACK : Z := 3.
Definition I2C_BUS_START_READ_NACK : Z := 4.

Section I2cSoftware.
Context `{Board}.

(** ** Software emulation *)

Definition i2c_delay (ticks : Z) : M unit :=
  now ← timer_read_time;
  spin_until spin_limit (u32 (now + ticks)).

Definition i2c_software_send_ack (sw : i2c_software) (ack : bool) : M unit :=
  when (negb ack) (gpio_out_reset (is_sda_out sw) 0) ;;
  i2c_delay (is_ticks sw) ;;
  gpio_in_reset (is_scl_in sw) 1 ;;
  i2c_delay (is_ticks sw) ;;
  gpio_out_reset (is_scl_out sw) 0.

Definition i2c_software_read_ack (sw : i2c_software) (state : Z) : M Z :=
  when (state =? 0) (gpio_in_reset (is_sda_in sw) 1) ;;
  i2c_delay (is_ticks sw) ;;
  gpio_in_reset (is_scl_in sw) 1 ;;
  nack ← gpio_in_read (is_sda_in sw);
  i2c_delay (is_ticks sw) ;;
  gpio_out_reset (is_scl_out sw) 0 ;;
  mret nack.

(** The loop of [i2c_software_send_byte]: [i] bits are left; the result is
    [state]. *)
Fixpoint send_bits (i : nat) (sw : i2c_software) (b state : Z) : M Z :=
  match i with
  | O => mret state
  | S i =>
      state ←
        (if flag b 0x80 then
           when (negb (state =? 1)) (gpio_in_reset (is_sda_in sw) 1) ;; mret 1
         else
           when (0 <? state) (gpio_out_reset (is_sda_out sw) 0) ;; mret 0);
      i2c_delay (is_ticks sw) ;;
      gpio_in_reset (is_scl_in sw) 1 ;;
      i2c_delay (is_ticks sw) ;;
      gpio_out_reset (is_scl_out sw) 0 ;;
      send_bits i sw (u8 (Z.shiftl b 1)) state
  end.

Definition i2c_software_send_byte (sw : i2c_software) (b : Z) : M Z :=
  state ← send_bits 8 sw b 2;
  nack ← i2c_software_read_ack sw state;
  mret (if negb (nack =? 0) then I2C_BUS_NACK else I2C_BUS_SUCCESS).

(** The loop of [i2c_software_read_byte]. *)
Fixpoint read_bits (i : nat) (sw : i2c_software) (b : Z) : M Z :=
  match i with
  | O => mret b
  | S i =>
      i2c_delay (is_ticks sw) ;;
      gpio_in_reset (is_scl_in sw) 1 ;;
      i2c_delay (is_ticks sw) ;;
      v ← gpio_in_read (is_sda_in sw);
      gpio_out_reset (is_scl_out sw) 0 ;;
      read_bits i sw (Z.lor (u8 (Z.shiftl b 1)) v)
  end.

Definition i2c_software_read_byte (sw : i2c_software) (remaining : Z) : M Z :=
  gpio_in_reset (is_sda_in sw) 1 ;;
  b ← read_bits 8 sw 0;
  i2c_software_send_ack sw (remaining =? 0) ;;
  mret b.

Definition i2c_software_start (sw : i2c_software) (addr : Z) : M Z :=
  i2c_delay (is_ticks sw) ;;
  gpio_in_reset (is_sda_in sw) 1 ;;
  gpio_in_reset (is_scl_in sw) 1 ;;
  i2c_delay (is_ticks sw) ;;
  gpio_out_reset (is_sda_out sw) 0 ;;
  i2c_delay (is_ticks sw) ;;
  gpio_out_reset (is_scl_out sw) 0 ;;
  ret ← i2c_software_send_byte sw addr;
  mret (if ret =? I2C_BUS_NACK then I2C_BUS_START_NACK else ret).

Definition i2c_software_stop (sw : i2c_software) : M unit :=
  gpio_out_reset (is_sda_out sw) 0 ;;
  i2c_delay (is_ticks sw) ;;
  gpio_in_reset (is_scl_in sw) 1 ;;
  i2c_delay (is_ticks sw) ;;
  gpio_in_reset (is_sda_in sw) 1.

(** The loops that send bytes until one is not acknowledged; [ret] is the
    result so far. *)
Fixpoint i2c_send_bytes (sw : i2c_software) (data : list Z) (ret : Z) : M Z :=
  match data with
  | [] => mret ret
  | b :: data =>
      ret ← i2c_software_send_byte sw b;
      if negb (ret =? I2C_BUS_SUCCESS) then mret ret else i2c_send_bytes sw data ret
  end.

Definition i2c_software_write (sw : i2c_software) (write : list Z) : M Z :=
  ret ← i2c_software_start sw (is_addr sw);
  ret ← (if negb (ret =? I2C_BUS_SUCCESS) then mret ret else i2c_send_bytes sw write ret);
  i2c_software_stop sw ;;
  mret ret.

(** The loop that fills the buffer; [n] bytes are left. *)
Fixpoint i2c_read_bytes (sw : i2c_software) (n : nat) : M (list Z) :=
  match n with
  | O => mret []
  | S n =>
      b ← i2c_software_read_byte sw (Z.of_nat n);
      rest ← i2c_read_bytes sw n;
      mret (b :: rest)
  end.

(** The part of [i2c_software_read] that writes the register. *)
Definition i2c_write_reg (sw : i2c_software) (reg : list Z) : M Z :=
  match reg with
  | [] => mret I2C_BUS_SUCCESS
  | _ =>
      ret ← i2c_software_start sw (is_addr sw);
      if negb (ret =? I2C_BUS_SUCCESS) then mret ret else i2c_send_bytes sw reg ret
  end.

(** [i2c_software_read]: the result code and the buffer, which is [read] before. *)
Definition i2c_software_read (sw : i2c_software) (reg read : list Z) : M (Z * list Z) :=
  ret ← i2c_write_reg sw reg;
  r ← (if negb (ret =? I2C_BUS_SUCCESS) then mret (ret, read)
       else
         ret ← i2c_software_start sw (Z.lor (is_addr sw) 0x01);
         if negb (ret =? I2C_BUS_SUCCESS) then mret (I2C_BUS_START_READ_NACK, read)
         else data ← i2c_read_bytes sw (length read); mret (ret, data));
  i2c_software_stop sw ;;
  mret r.
End I2cSoftware.

(** ** The devices *)

Definition i2cdev_oid_lookup (oid : Z) : M Z := oid_lookup oid command_config_i2c_t.

Definition i2cdev_set_software_bus (i2c : Z) (sw : i2c_software) : M unit :=
  mod_obj i2cdev_s i2c (fun d => d <| id_bus := IU_sw sw |>
                                   <| id_flags ::= fun f => Z.lor f IF_SOFTWARE |>).

(** [i2c_shutdown_on_err]; other codes pass. *)
Definition i2c_shutdown_on_err (ret : Z) : M unit :=
  if ret =? I2C_BUS_NACK then shutdown "I2C NACK"
  else if ret =? I2C_BUS_START_NACK then shutdown "I2C START NACK"
  else if ret =? I2C_BUS_START_READ_NACK then shutdown "I2C START READ NACK"
  else if ret =? I2C_BUS_TIMEOUT then shutdown "I2C Timeout"
  else mret tt.

Section I2cCmds.
Context `{Board}.

Definition command_config_i2c (args : list Z) : M unit :=
  oid_alloc (arg args 0) command_config_i2c_t (sizeof_obj command_config_i2c_t)
    (O_i2cdev i2cdev_s_zero) ;;
  mret tt.

Definition command_i2c_set_bus (args : list Z) : M unit :=
  let addr := Z.land (arg args 3) 0x7f in
  p ← i2cdev_oid_lookup (arg args 0);
  c ← i2c_setup (arg args 1) (arg args 2) addr;
  mod_obj i2cdev_s p (fun d => d <| id_bus := IU_hw c |>
                                 <| id_flags ::= fun f => Z.lor f IF_HARDWARE |>).

Definition command_i2c_set_sw_bus (args : list Z) : M unit :=
  p ← i2cdev_oid_lookup (arg args 0);
  alloc_chunk sizeof_i2c_software ;;
  let ticks := u32 (arg args 3) in
  let addr := Z.shiftl (Z.land (arg args 4) 0x7f) 1 in
  scl_out ← gpio_out_setup (arg args 1) 1;
  scl_in ← gpio_in_setup (arg args 1) 1;
  sda_out ← gpio_out_setup (arg args 2) 1;
  sda_in ← gpio_in_setup (arg args 2) 1;
  i2cdev_set_software_bus p (mkI2cSoftware scl_out sda_out scl_in sda_in addr ticks).

Definition i2c_use_software (d : i2cdev_s) : bool :=
  CONFIG_WANT_SOFTWARE_I2C && flag (id_flags d) IF_SOFTWARE.

Definition i2c_dev_write (i2c : Z) (data : list Z) : M Z :=
  d ← get_obj i2cdev_s i2c;
  if i2c_use_software d
  then match id_bus d with IU_sw sw => i2c_software_write sw data | _ => fault end
  else match id_bus d with IU_hw c => i2c_write c data | _ => fault end.

Definition command_i2c_write (buf : list Z) (args : list Z) : M unit :=
  i2c ← oid_lookup (arg args 0) command_config_i2c_t;
  let data_len := u8 (arg args 1) in
  ret ← i2c_dev_write i2c (buffer_arg buf data_len (arg args 2));
  i2c_shutdown_on_err ret.

Definition i2c_dev_read (i2c : Z) (reg read : list Z) : M (Z * list Z) :=
  d ← get_obj i2cdev_s i2c;
  if i2c_use_software d
  then match id_bus d with IU_sw sw => i2c_software_read sw reg read | _ => fault end
  else match id_bus d with IU_hw c => i2c_read c reg read | _ => fault end.

(** The array [data] is not initialised, and not used when the read fails. *)
Definition command_i2c_read (buf : list Z) (args : list Z) : M unit :=
  let oid := u8 (arg args 0) in
  i2c ← oid_lookup oid command_config_i2c_t;
  let reg_len := u8 (arg args 1) in
  let data_len := u8 (arg args 3) in
  '(ret, data) ← i2c_dev_read i2c (buffer_arg buf reg_len (arg args 2))
                   (replicate (Z.to_nat data_len) 0);
  i2c_shutdown_on_err ret ;;
  sendf "i2c_read_response oid=%c response=%*s" [AInt oid; ABytes data].
End I2cCmds.
