(* ===== verification/SensorBulk.v ===== *)
(** * Bulk reports of measurements: src/src/sensor_bulk.c

    The buffer in which the sensors collect samples until it is sent to the
    host.  It is a member of the sensor's structure, so that the operations take
    and return it. *)
From S2P Require Import Prelude Buffers Devices World Command.

(** [ARRAY_SIZE(sb->data)] *)
Definition SB_DATA_SIZE : Z := 51.

Definition sensor_bulk_reset (sb : sensor_bulk) : sensor_bulk :=
  sb <| sb_sequence := 0 |> <| sb_possible_overflows := 0 |> <| sb_data_count := 0 |>.

Definition sensor_bulk_report (sb : sensor_bulk) (oid : Z) : M sensor_bulk :=
  sendf "sensor_bulk_data oid=%c sequence=%hu data=%*s"
    [AInt oid; AInt (sb_sequence sb); ABytes (take (Z.to_nat (sb_data_count sb)) (sb_data sb))] ;;
  mret (sb <| sb_data_count := 0 |> <| sb_sequence ::= fun s => u16 (s + 1) |>).

Definition sensor_bulk_status (sb : sensor_bulk) (oid time1 query_ticks fifo : Z) : M unit :=
  sendf "sensor_bulk_status oid=%c clock=%u query_ticks=%u next_sequence=%hu buffered=%u possible_overflows=%hu"
    [AInt oid; AInt time1; AInt query_ticks; AInt (sb_sequence sb);
     AInt (u32 (sb_data_count sb + fifo)); AInt (sb_possible_overflows sb)].

(** [sb->possible_overflows++] *)
Definition sb_overflow (sb : sensor_bulk) : sensor_bulk :=
  sb <| sb_possible_overflows ::= fun n => u16 (n + 1) |>.

(** Stores to [sb->data[sb->data_count]] and the bytes behind it. *)
Definition sb_store (bytes : list Z) (sb : sensor_bulk) : M sensor_bulk :=
  if sb_data_count sb + Z.of_nat (length bytes) <=? SB_DATA_SIZE
  then mret (sb <| sb_data ::= copy_to (Z.to_nat (sb_data_count sb)) bytes |>)
  else fault.

(** [sb->data_count += n] *)
Definition sb_advance (n : Z) (sb : sensor_bulk) : sensor_bulk :=
  sb <| sb_data_count ::= fun c => u8 (c + n) |>.

(** [if (sb->data_count + n > ARRAY_SIZE(sb->data)) sensor_bulk_report(sb, oid)] *)
Definition sb_flush_if_full (n : Z) (sb : sensor_bulk) (oid : Z) : M sensor_bulk :=
  if SB_DATA_SIZE <? sb_data_count sb + n then sensor_bulk_report sb oid else mret sb.

(** The four bytes of an [uint32_t], lowest first, as the analog sensors store
    them. *)
Definition bytes_of_u32 (v : Z) : list Z :=
  [u8 v; u8 (Z.shiftr v 8); u8 (Z.shiftr v 16); u8 (Z.shiftr v 24)].
