(* ===== verification/Accelerometers.v ===== *)
(** * Accelerometers: src/src/sensor_adxl345.c, sensor_lis2dw.c, sensor_mpu9250.c and
    sensor_icm20948.c *)
From S2P Require Import Prelude Buffers Devices World Sched Command BaseCmd SpiCmds I2cCmds SensorBulk.

(** ** The ADXL345 accelerometer: src/src/sensor_adxl345.c

    A timer wakes a task that reads one sample per run until the fifo of the
    chip is empty. *)

Definition AX_PENDING : Z := 1.
Definition AR_DATAX0 : Z := 0x32.
Definition AR_FIFO_STATUS : Z := 0x39.
Definition AM_READ : Z := 0x80.
Definition AM_MULTI : Z := 0x40.
Definition SET_FIFO_CTL : Z := 0x90.
Definition ADXL_BYTES_PER_SAMPLE : Z := 5.

(** The timer embedded in a [struct adxl345]. *)
Definition ax_timer (p : Z) : tref := TObj p 0.

(** [(b & 0xf0) && (b & 0xf0) != 0xf0] *)
Definition bad_high_bits (b : Z) : bool :=
  negb (Z.land b 0xf0 =? 0) && negb (Z.land b 0xf0 =? 0xf0).

(** The check and the packing of [adxl_query]: [fifo_status] and [d]. *)
Definition adxl_sample (msg : list Z) : Z * list Z :=
  let fifo_status := Z.land (msg_at msg 8) 0x7f in
  if bad_high_bits (msg_at msg 2) || bad_high_bits (msg_at msg 4) || bad_high_bits (msg_at msg 6)
     || negb (msg_at msg 7 =? SET_FIFO_CTL) || (32 <? fifo_status)
  then (0, replicate 5 0xff)
  else
    (fifo_status,
     [msg_at msg 1; msg_at msg 3; msg_at msg 5;
      u8 (Z.lor (Z.land (msg_at msg 2) 0x1f) (Z.shiftl (msg_at msg 6) 5));
      u8 (Z.lor (Z.land (msg_at msg 4) 0x1f) (Z.land (Z.shiftl (msg_at msg 6) 2) 0x60))]).

Definition adxl345_event (p : Z) : M sf_result :=
  mod_obj adxl345 p (fun ax => ax <| ax_flags ::= fun f => Z.lor f AX_PENDING |>) ;;
  sched_wake_task adxl345_wake ;;
  mret SF_DONE.

(** The part of [adxl_query] that stores a sample. *)
Definition adxl_add (p oid : Z) (d : list Z) : M unit :=
  ax ← get_obj adxl345 p;
  sb ← sb_store d (ax_sb ax);
  sb ← sb_flush_if_full ADXL_BYTES_PER_SAMPLE (sb_advance ADXL_BYTES_PER_SAMPLE sb) oid;
  mod_obj adxl345 p (fun ax => ax <| ax_sb := sb |>).

Section Adxl345.
Context `{Board}.

Definition command_config_adxl345 (args : list Z) : M unit :=
  p ← oid_alloc (arg args 0) command_config_adxl345_t (sizeof_obj command_config_adxl345_t)
        (O_adxl345 adxl345_zero);
  mod_timer (ax_timer p) (fun t => t <| func := Some FN_adxl345_event |>) ;;
  spi ← spidev_oid_lookup (arg args 1);
  mod_obj adxl345 p (fun ax => ax <| ax_spi := Some spi |>).

Definition adxl_reschedule_timer (p : Z) : M unit :=
  ax ← get_obj adxl345 p;
  now ← timer_read_time;
  mod_timer (ax_timer p) (fun t => t <| waketime := u32 (now + ax_rest_ticks ax) |>) ;;
  sched_add_timer (ax_timer p).

Definition adxl_query (p oid : Z) : M unit :=
  ax ← get_obj adxl345 p;
  spi ← deref (ax_spi ax);
  msg ← spidev_transfer spi true
          (Z.lor (Z.lor AR_DATAX0 AM_READ) AM_MULTI :: replicate 8 0);
  let '(fifo_status, d) := adxl_sample msg in
  adxl_add p oid d ;;
  when (31 <=? fifo_status) (mod_obj adxl345 p (fun ax => ax <| ax_sb ::= sb_overflow |>)) ;;
  if 1 <? fifo_status then sched_wake_task adxl345_wake
  else
    mod_obj adxl345 p (fun ax => ax <| ax_flags ::= fun f => Z.land f (not8 AX_PENDING) |>) ;;
    adxl_reschedule_timer p.

Definition command_query_adxl345 (args : list Z) : M unit :=
  p ← oid_lookup (arg args 0) command_config_adxl345_t;
  sched_del_timer (ax_timer p) ;;
  mod_obj adxl345 p (fun ax => ax <| ax_flags := 0 |>) ;;
  if u32 (arg args 1) =? 0 then mret tt
  else
    mod_obj adxl345 p (fun ax => ax <| ax_rest_ticks := u32 (arg args 1) |>
                                    <| ax_sb ::= sensor_bulk_reset |>) ;;
    adxl_reschedule_timer p.

Definition command_query_adxl345_status (args : list Z) : M unit :=
  p ← oid_lookup (arg args 0) command_config_adxl345_t;
  time1 ← timer_read_time;
  ax ← get_obj adxl345 p;
  spi ← deref (ax_spi ax);
  msg ← spidev_transfer spi true [Z.lor AR_FIFO_STATUS AM_READ; 0];
  time2 ← timer_read_time;
  let fifo_status := Z.land (msg_at msg 1) 0x7f in
  if 32 <? fifo_status then mret tt
  else
    ax ← get_obj adxl345 p;
    sensor_bulk_status (ax_sb ax) (u8 (arg args 0)) time1 (u32 (time2 - time1))
      (fifo_status * ADXL_BYTES_PER_SAMPLE).

Definition adxl345_task : M unit :=
  wake ← sched_check_wake adxl345_wake;
  when wake (foreach_oid command_config_adxl345_t (fun oid =>
    ax ← get_obj adxl345 oid;
    when (flag (ax_flags ax) AX_PENDING) (adxl_query oid oid))).
End Adxl345.

(** ** The LIS2DW and LIS3DH accelerometers: src/src/sensor_lis2dw.c

    Eight samples are read at a time, over SPI or I2C. *)

Definition LIS_AR_DATAX0 : Z := 0x28.
Definition LIS_AM_READ : Z := 0x80.
Definition LIS_MS_SPI : Z := 0x40.
Definition LIS_MS_I2C : Z := 0x80.
Definition LIS_FIFO_SAMPLES : Z := 0x2F.
Definition LIS_BYTES_PER_SAMPLE : Z := 6.
Definition LIS_BYTES_PER_BLOCK : Z := 48.
Definition LIS_PENDING : Z := 1.
Definition SPI_SERIAL : Z := 0.
Definition I2C_SERIAL : Z := 1.
Definition LIS2DW : Z := 0.
Definition LIS3DH : Z := 1.

Definition li_timer (p : Z) : tref := TObj p 0.

Definition lis2dw_event (p : Z) : M sf_result :=
  mod_obj lis2dw p (fun ax => ax <| li_flags ::= fun f => Z.lor f LIS_PENDING |>) ;;
  sched_wake_task lis2dw_wake ;;
  mret SF_DONE.

(** [update_fifo_status] *)
Definition update_fifo_status (fifo_status : Z) (ax : lis2dw) : lis2dw :=
  let pending :=
    if li_model ax =? LIS3DH
    then if flag fifo_status 0x20 then 0 else Z.land fifo_status 0x1F
    else Z.land fifo_status 0x3F in
  (if flag fifo_status 0x40 then ax <| li_sb ::= sb_overflow |> else ax)
    <| li_fifo_bytes_pending := u8 (pending * LIS_BYTES_PER_SAMPLE) |>.

Section Lis2dw.
Context `{Board}.

Definition command_config_lis2dw (args : list Z) : M unit :=
  p ← oid_alloc (arg args 0) command_config_lis2dw_t (sizeof_obj command_config_lis2dw_t)
        (O_lis2dw lis2dw_zero);
  mod_timer (li_timer p) (fun t => t <| func := Some FN_lis2dw_event |>) ;;
  let bus_type := u32 (arg args 2) in
  (if bus_type =? SPI_SERIAL then
     if CONFIG_WANT_SPI then
       spi ← spidev_oid_lookup (arg args 1);
       mod_obj lis2dw p (fun ax => ax <| li_bus := Some spi |> <| li_bus_type := SPI_SERIAL |>)
     else shutdown "bus_type spi unsupported"
   else if bus_type =? I2C_SERIAL then
     if CONFIG_WANT_I2C then
       i2c ← i2cdev_oid_lookup (arg args 1);
       mod_obj lis2dw p (fun ax => ax <| li_bus := Some i2c |> <| li_bus_type := I2C_SERIAL |>)
     else shutdown "bus_type i2c unsupported"
   else shutdown "bus_type invalid") ;;
  let model := u32 (arg args 3) in
  if (model =? LIS2DW) || (model =? LIS3DH)
  then mod_obj lis2dw p (fun ax => ax <| li_model := model |>)
  else shutdown "model type invalid".

Definition lis2dw_reschedule_timer (p : Z) : M unit :=
  ax ← get_obj lis2dw p;
  now ← timer_read_time;
  mod_timer (li_timer p) (fun t => t <| waketime := u32 (now + li_rest_ticks ax) |>) ;;
  sched_add_timer (li_timer p).

Definition lis_use_spi (ax : lis2dw) : bool := CONFIG_WANT_SPI && (li_bus_type ax =? SPI_SERIAL).
Definition lis_use_i2c (ax : lis2dw) : bool := CONFIG_WANT_I2C && (li_bus_type ax =? I2C_SERIAL).

(** The status register over SPI; over I2C the result code and the register. *)
Definition read_status_spi (ax : lis2dw) : M Z :=
  bus ← deref (li_bus ax);
  fifo ← spidev_transfer bus true [Z.lor LIS_FIFO_SAMPLES LIS_AM_READ; 0];
  mret (msg_at fifo 1).
Definition read_status_i2c (ax : lis2dw) : M (Z * Z) :=
  bus ← deref (li_bus ax);
  '(ret, r) ← i2c_dev_read bus [LIS_FIFO_SAMPLES] [0];
  mret (ret, msg_at r 0).

Definition query_fifo_status (p : Z) : M unit :=
  ax ← get_obj lis2dw p;
  fifo_status ←
    (if lis_use_spi ax then read_status_spi ax
     else if lis_use_i2c ax then
       '(ret, s) ← read_status_i2c ax; i2c_shutdown_on_err ret ;; mret s
     else mret 0);
  mod_obj lis2dw p (update_fifo_status fifo_status).

Definition read_fifo_block_spi (p : Z) : M unit :=
  ax ← get_obj lis2dw p;
  let cmd := Z.lor LIS_AR_DATAX0 LIS_AM_READ in
  let cmd := if li_model ax =? LIS3DH then Z.lor cmd LIS_MS_SPI else cmd in
  bus ← deref (li_bus ax);
  msg ← spidev_transfer bus true (cmd :: replicate 48 0);
  mod_obj lis2dw p (fun ax => ax <| li_sb ::= fun sb =>
    sb <| sb_data ::= copy_to 0 (take 48 (drop 1 msg)) |> |>).

(** On an error the buffer keeps its bytes. *)
Definition read_fifo_block_i2c (p : Z) : M unit :=
  ax ← get_obj lis2dw p;
  let reg := if li_model ax =? LIS3DH then Z.lor LIS_AR_DATAX0 LIS_MS_I2C else LIS_AR_DATAX0 in
  bus ← deref (li_bus ax);
  '(ret, data) ← i2c_dev_read bus [reg] (take 48 (sb_data (li_sb ax)));
  mod_obj lis2dw p (fun ax => ax <| li_sb ::= fun sb => sb <| sb_data ::= copy_to 0 data |> |>) ;;
  i2c_shutdown_on_err ret.

Definition read_fifo_block (p oid : Z) : M unit :=
  ax ← get_obj lis2dw p;
  (if lis_use_spi ax then read_fifo_block_spi p
   else if lis_use_i2c ax then read_fifo_block_i2c p
   else mret tt) ;;
  ax ← get_obj lis2dw p;
  sb ← sensor_bulk_report ((li_sb ax) <| sb_data_count := LIS_BYTES_PER_BLOCK |>) oid;
  mod_obj lis2dw p (fun ax => ax <| li_sb := sb |>
    <| li_fifo_bytes_pending ::= fun n => u8 (n - LIS_BYTES_PER_BLOCK) |>).

Definition lis2dw_query (p oid : Z) : M unit :=
  ax ← get_obj lis2dw p;
  when (li_fifo_bytes_pending ax <? LIS_BYTES_PER_BLOCK) (query_fifo_status p) ;;
  ax ← get_obj lis2dw p;
  when (LIS_BYTES_PER_BLOCK <=? li_fifo_bytes_pending ax) (read_fifo_block p oid) ;;
  ax ← get_obj lis2dw p;
  if LIS_BYTES_PER_BLOCK <=? li_fifo_bytes_pending ax then sched_wake_task lis2dw_wake
  else
    mod_obj lis2dw p (fun ax => ax <| li_flags ::= fun f => Z.land f (not8 LIS_PENDING) |>) ;;
    lis2dw_reschedule_timer p.

Definition command_query_lis2dw (args : list Z) : M unit :=
  p ← oid_lookup (arg args 0) command_config_lis2dw_t;
  sched_del_timer (li_timer p) ;;
  mod_obj lis2dw p (fun ax => ax <| li_flags := 0 |>) ;;
  if u32 (arg args 1) =? 0 then mret tt
  else
    mod_obj lis2dw p (fun ax => ax <| li_rest_ticks := u32 (arg args 1) |>
      <| li_fifo_bytes_pending := 0 |> <| li_sb ::= sensor_bulk_reset |>) ;;
    lis2dw_reschedule_timer p.

Definition command_query_lis2dw_status (args : list Z) : M unit :=
  p ← oid_lookup (arg args 0) command_config_lis2dw_t;
  ax ← get_obj lis2dw p;
  '(time1, time2, fifo_status) ←
    (if lis_use_spi ax then
       time1 ← timer_read_time;
       s ← read_status_spi ax;
       time2 ← timer_read_time;
       mret (time1, time2, s)
     else if lis_use_i2c ax then
       time1 ← timer_read_time;
       '(ret, s) ← read_status_i2c ax;
       time2 ← timer_read_time;
       i2c_shutdown_on_err ret ;;
       mret (time1, time2, s)
     else mret (0, 0, 0));
  mod_obj lis2dw p (update_fifo_status fifo_status) ;;
  ax ← get_obj lis2dw p;
  sensor_bulk_status (li_sb ax) (u8 (arg args 0)) time1 (u32 (time2 - time1))
    (li_fifo_bytes_pending ax).

Definition lis2dw_task : M unit :=
  wake ← sched_check_wake lis2dw_wake;
  when wake (foreach_oid command_config_lis2dw_t (fun oid =>
    ax ← get_obj lis2dw oid;
    when (flag (li_flags ax) LIS_PENDING) (lis2dw_query oid oid))).
End Lis2dw.

(** ** The MPU9250 accelerometer: src/src/sensor_mpu9250.c

    Eight samples are read from the fifo of the chip at a time, over I2C. *)

Definition MPU_FIFO_COUNT_H : Z := 0x72.
Definition MPU_FIFO : Z := 0x74.
Definition MPU_INT_STATUS : Z := 0x3A.
Definition MPU_FIFO_OVERFLOW_INT : Z := 0x10.
Definition MPU_BYTES_PER_BLOCK : Z := 48.
Definition MPU_PENDING : Z := 1.

Definition mp_timer (p : Z) : tref := TObj p 0.

Definition mpu9250_event (p : Z) : M sf_result :=
  mod_obj mpu9250 p (fun mp => mp <| mp_flags ::= fun f => Z.lor f MPU_PENDING |>) ;;
  sched_wake_task mpu9250_wake ;;
  mret SF_DONE.

(** [((msg[0] & 0x1f) << 8) | msg[1]] *)
Definition mp_fifo_count (msg : list Z) : Z :=
  Z.lor (Z.shiftl (Z.land (msg_at msg 0) 0x1f) 8) (msg_at msg 1).

Section Mpu9250.
Context `{Board}.

Definition command_config_mpu9250 (args : list Z) : M unit :=
  p ← oid_alloc (arg args 0) command_config_mpu9250_t (sizeof_obj command_config_mpu9250_t)
        (O_mpu9250 mpu9250_zero);
  mod_timer (mp_timer p) (fun t => t <| func := Some FN_mpu9250_event |>) ;;
  i2c ← i2cdev_oid_lookup (arg args 1);
  mod_obj mpu9250 p (fun mp => mp <| mp_i2c := Some i2c |>).

Definition mp9250_reschedule_timer (p : Z) : M unit :=
  mp ← get_obj mpu9250 p;
  now ← timer_read_time;
  mod_timer (mp_timer p) (fun t => t <| waketime := u32 (now + mp_rest_ticks mp) |>) ;;
  sched_add_timer (mp_timer p).

(** [read_mpu]: the bytes in the buffer after a successful read. *)
Definition mp_read_mpu (i2c : option Z) (reg read : list Z) : M (list Z) :=
  i2c ← deref i2c;
  '(ret, data) ← i2c_dev_read i2c reg read;
  i2c_shutdown_on_err ret ;;
  mret data.

Definition mp_get_fifo_status (p : Z) : M Z :=
  mp ← get_obj mpu9250 p;
  msg ← mp_read_mpu (mp_i2c mp) [MPU_FIFO_COUNT_H] [0; 0];
  let fifo_bytes := mp_fifo_count msg in
  mod_obj mpu9250 p (fun mp => mp <| mp_fifo_max ::= Z.max fifo_bytes |>) ;;
  mret fifo_bytes.

Definition mp9250_query (p oid : Z) : M unit :=
  mp ← get_obj mpu9250 p;
  when (mp_fifo_pkts_bytes mp <? MPU_BYTES_PER_BLOCK)
    (n ← mp_get_fifo_status p;
     mod_obj mpu9250 p (fun mp => mp <| mp_fifo_pkts_bytes := n |>)) ;;
  mp ← get_obj mpu9250 p;
  when (MPU_BYTES_PER_BLOCK <=? mp_fifo_pkts_bytes mp)
    (data ← mp_read_mpu (mp_i2c mp) [MPU_FIFO] (take 48 (sb_data (mp_sb mp)));
     mod_obj mpu9250 p (fun mp => mp
       <| mp_sb ::= fun sb => sb <| sb_data ::= copy_to 0 data |>
                                 <| sb_data_count := MPU_BYTES_PER_BLOCK |> |>
       <| mp_fifo_pkts_bytes ::= fun n => u16 (n - MPU_BYTES_PER_BLOCK) |>) ;;
     mp ← get_obj mpu9250 p;
     sb ← sensor_bulk_report (mp_sb mp) oid;
     mod_obj mpu9250 p (fun mp => mp <| mp_sb := sb |>)) ;;
  mp ← get_obj mpu9250 p;
  if MPU_BYTES_PER_BLOCK <=? mp_fifo_pkts_bytes mp then sched_wake_task mpu9250_wake
  else
    mod_obj mpu9250 p (fun mp => mp <| mp_flags ::= fun f => Z.land f (not8 MPU_PENDING) |>) ;;
    mp9250_reschedule_timer p.

Definition command_query_mpu9250 (args : list Z) : M unit :=
  p ← oid_lookup (arg args 0) command_config_mpu9250_t;
  sched_del_timer (mp_timer p) ;;
  mod_obj mpu9250 p (fun mp => mp <| mp_flags := 0 |>) ;;
  if u32 (arg args 1) =? 0 then mret tt
  else
    mod_obj mpu9250 p (fun mp => mp <| mp_rest_ticks := u32 (arg args 1) |>
      <| mp_sb ::= sensor_bulk_reset |> <| mp_fifo_max := 0 |> <| mp_fifo_pkts_bytes := 0 |>) ;;
    mp9250_reschedule_timer p.

Definition command_query_mpu9250_status (args : list Z) : M unit :=
  p ← oid_lookup (arg args 0) command_config_mpu9250_t;
  mp ← get_obj mpu9250 p;
  int_msg ← mp_read_mpu (mp_i2c mp) [MPU_INT_STATUS] [0];
  when (flag (msg_at int_msg 0) MPU_FIFO_OVERFLOW_INT)
    (mod_obj mpu9250 p (fun mp => mp <| mp_sb ::= sb_overflow |>)) ;;
  time1 ← timer_read_time;
  msg ← mp_read_mpu (mp_i2c mp) [MPU_FIFO_COUNT_H] [0; 0];
  time2 ← timer_read_time;
  mp ← get_obj mpu9250 p;
  sensor_bulk_status (mp_sb mp) (u8 (arg args 0)) time1 (u32 (time2 - time1)) (mp_fifo_count msg).

Definition mpu9250_task : M unit :=
  wake ← sched_check_wake mpu9250_wake;
  when wake (foreach_oid command_config_mpu9250_t (fun oid =>
    mp ← get_obj mpu9250 oid;
    when (flag (mp_flags mp) MPU_PENDING) (mp9250_query oid oid))).
End Mpu9250.

(** ** The ICM20948 accelerometer: src/src/sensor_icm20948.c

    Eight samples are read from the fifo of the chip at a time, over I2C. *)

Definition ICM_FIFO_COUNT_H : Z := 0x70.
Definition ICM_FIFO : Z := 0x72.
Definition ICM_INT_STATUS : Z := 0x1B.
Definition ICM_FIFO_OVERFLOW_INT : Z := 0x0F.
Definition ICM_BYTES_PER_BLOCK : Z := 48.
Definition ICM_PENDING : Z := 1.

Definition ic_timer (p : Z) : tref := TObj p 0.

Definition icm20948_event (p : Z) : M sf_result :=
  mod_obj icm20948 p (fun ic => ic <| ic_flags ::= fun f => Z.lor f ICM_PENDING |>) ;;
  sched_wake_task icm20948_wake ;;
  mret SF_DONE.

(** [((msg[0] & 0x1f) << 8) | msg[1]] *)
Definition ic_fifo_count (msg : list Z) : Z :=
  Z.lor (Z.shiftl (Z.land (msg_at msg 0) 0x1f) 8) (msg_at msg 1).

Section Icm20948.
Context `{Board}.

Definition command_config_icm20948 (args : list Z) : M unit :=
  p ← oid_alloc (arg args 0) command_config_icm20948_t (sizeof_obj command_config_icm20948_t)
        (O_icm20948 icm20948_zero);
  mod_timer (ic_timer p) (fun t => t <| func := Some FN_icm20948_event |>) ;;
  i2c ← i2cdev_oid_lookup (arg args 1);
  mod_obj icm20948 p (fun ic => ic <| ic_i2c := Some i2c |>).

Definition ic20948_reschedule_timer (p : Z) : M unit :=
  ic ← get_obj icm20948 p;
  now ← timer_read_time;
  mod_timer (ic_timer p) (fun t => t <| waketime := u32 (now + ic_rest_ticks ic) |>) ;;
  sched_add_timer (ic_timer p).

(** [read_mpu]: the bytes in the buffer after a successful read. *)
Definition ic_read_mpu (i2c : option Z) (reg read : list Z) : M (list Z) :=
  i2c ← deref i2c;
  '(ret, data) ← i2c_dev_read i2c reg read;
  i2c_shutdown_on_err ret ;;
  mret data.

Definition ic_get_fifo_status (p : Z) : M Z :=
  ic ← get_obj icm20948 p;
  msg ← ic_read_mpu (ic_i2c ic) [ICM_FIFO_COUNT_H] [0; 0];
  let fifo_bytes := ic_fifo_count msg in
  mod_obj icm20948 p (fun ic => ic <| ic_fifo_max ::= Z.max fifo_bytes |>) ;;
  mret fifo_bytes.

Definition ic20948_query (p oid : Z) : M unit :=
  ic ← get_obj icm20948 p;
  when (ic_fifo_pkts_bytes ic <? ICM_BYTES_PER_BLOCK)
    (n ← ic_get_fifo_status p;
     mod_obj icm20948 p (fun ic => ic <| ic_fifo_pkts_bytes := n |>)) ;;
  ic ← get_obj icm20948 p;
  when (ICM_BYTES_PER_BLOCK <=? ic_fifo_pkts_bytes ic)
    (data ← ic_read_mpu (ic_i2c ic) [ICM_FIFO] (take 48 (sb_data (ic_sb ic)));
     mod_obj icm20948 p (fun ic => ic
       <| ic_sb ::= fun sb => sb <| sb_data ::= copy_to 0 data |>
                                 <| sb_data_count := ICM_BYTES_PER_BLOCK |> |>
       <| ic_fifo_pkts_bytes ::= fun n => u16 (n - ICM_BYTES_PER_BLOCK) |>) ;;
     ic ← get_obj icm20948 p;
     sb ← sensor_bulk_report (ic_sb ic) oid;
     mod_obj icm20948 p (fun ic => ic <| ic_sb := sb |>)) ;;
  ic ← get_obj icm20948 p;
  if ICM_BYTES_PER_BLOCK <=? ic_fifo_pkts_bytes ic then sched_wake_task icm20948_wake
  else
    mod_obj icm20948 p (fun ic => ic <| ic_flags ::= fun f => Z.land f (not8 ICM_PENDING) |>) ;;
    ic20948_reschedule_timer p.

Definition command_query_icm20948 (args : list Z) : M unit :=
  p ← oid_lookup (arg args 0) command_config_icm20948_t;
  sched_del_timer (ic_timer p) ;;
  mod_obj icm20948 p (fun ic => ic <| ic_flags := 0 |>) ;;
  if u32 (arg args 1) =? 0 then mret tt
  else
    mod_obj icm20948 p (fun ic => ic <| ic_rest_ticks := u32 (arg args 1) |>
      <| ic_sb ::= sensor_bulk_reset |> <| ic_fifo_max := 0 |> <| ic_fifo_pkts_bytes := 0 |>) ;;
    ic20948_reschedule_timer p.

Definition command_query_icm20948_status (args : list Z) : M unit :=
  p ← oid_lookup (arg args 0) command_config_icm20948_t;
  ic ← get_obj icm20948 p;
  int_msg ← ic_read_mpu (ic_i2c ic) [ICM_INT_STATUS] [0];
  when (flag (msg_at int_msg 0) ICM_FIFO_OVERFLOW_INT)
    (mod_obj icm20948 p (fun ic => ic <| ic_sb ::= sb_overflow |>)) ;;
  time1 ← timer_read_time;
  msg ← ic_read_mpu (ic_i2c ic) [ICM_FIFO_COUNT_H] [0; 0];
  time2 ← timer_read_time;
  ic ← get_obj icm20948 p;
  sensor_bulk_status (ic_sb ic) (u8 (arg args 0)) time1 (u32 (time2 - time1)) (ic_fifo_count msg).

Definition icm20948_task : M unit :=
  wake ← sched_check_wake icm20948_wake;
  when wake (foreach_oid command_config_icm20948_t (fun oid =>
    ic ← get_obj icm20948 oid;
    when (flag (ic_flags ic) ICM_PENDING) (ic20948_query oid oid))).
End Icm20948.
