(* ===== verification/SosFilter.v ===== *)
(** * Fixed point filters: src/src/sos_filter.c

    A filter is a sequence of second order sections with coefficients and
    states in fixed point.  Signed sums wrap around as the compiler's do; a
    shift by a negative number or by more than the width is a fault. *)
From S2P Require Import Prelude Devices World Sched Command BaseCmd.

Definition SECTION_WIDTH : nat := 5.
Definition STATE_WIDTH : nat := 2.

Definition overflows_int32 (value : Z) : bool := (2 ^ 31 - 1 <? value) || (value <? - 2 ^ 31).

(** [fixed_mul] *)
Definition fixed_mul (sf : sos_filter) (coeff value : Z) : M Z :=
  let product := coeff * value + sf_coeff_rounding sf in
  let result := Z.shiftr product (sf_coeff_frac_bits sf) in
  if overflows_int32 result then shutdown "fixed_mul: overflow" else mret result.

(** [section->state[i] = v] for [section = &sf->filter[idx]] *)
Definition set_state (idx i : nat) (v : Z) (sf : sos_filter) : sos_filter :=
  sf <| sf_filter ::= alter (fun s => s <| sec_state ::= <[i := v]> |>) idx |>.

(** The loop of [sosfilt]: [n] sections are left. *)
Fixpoint sosfilt_loop (n : nat) (p : Z) (idx : nat) (cur_val : Z) : M Z :=
  match n with
  | O => mret cur_val
  | S n =>
      sf ← get_obj sos_filter p;
      s ← deref (sf_filter sf !! idx);
      let coeff i := nth i (sec_coeff s) 0 in
      let state i := nth i (sec_state s) 0 in
      next_val ← fixed_mul sf (coeff 0%nat) cur_val;
      let next_val := s32 (next_val + state 0%nat) in
      a ← fixed_mul sf (coeff 1%nat) cur_val;
      b ← fixed_mul sf (coeff 3%nat) next_val;
      mod_obj sos_filter p (set_state idx 0 (s32 (s32 (a - b) + state 1%nat))) ;;
      c ← fixed_mul sf (coeff 2%nat) cur_val;
      d ← fixed_mul sf (coeff 4%nat) next_val;
      mod_obj sos_filter p (set_state idx 1 (s32 (c - d))) ;;
      sosfilt_loop n p (S idx) next_val
  end.

Definition sosfilt (p unfiltered_value : Z) : M Z :=
  sf ← get_obj sos_filter p;
  if sf_is_active sf =? 0 then shutdown "sos_filter not property initialized"
  else if sf_n_sections sf =? 0 then mret unfiltered_value
  else sosfilt_loop (Z.to_nat (sf_n_sections sf)) p 0 unfiltered_value.

Definition sos_filter_oid_lookup (oid : Z) : M Z := oid_lookup oid command_config_sos_filter_t.

Definition validate_section_index (sf section_idx : Z) : M unit :=
  s ← get_obj sos_filter sf;
  if sf_max_sections s <=? section_idx
  then shutdown "Filter section index larger than max_sections" else mret tt.

Definition command_sos_filter_set_section (args : list Z) : M unit :=
  p ← sos_filter_oid_lookup (arg args 0);
  mod_obj sos_filter p (fun sf => sf <| sf_is_active := 0 |>) ;;
  let section_idx := u8 (arg args 1) in
  validate_section_index p section_idx ;;
  mod_obj sos_filter p (fun sf => sf <| sf_filter ::= alter (fun s =>
    s <| sec_coeff := map (fun i => s32 (arg args (i + 2))) (seq 0 SECTION_WIDTH) |>)
      (Z.to_nat section_idx) |>).

Definition command_sos_filter_set_state (args : list Z) : M unit :=
  p ← sos_filter_oid_lookup (arg args 0);
  mod_obj sos_filter p (fun sf => sf <| sf_is_active := 0 |>) ;;
  let section_idx := u8 (arg args 1) in
  validate_section_index p section_idx ;;
  mod_obj sos_filter p (fun sf => sf <| sf_filter ::= alter (fun s =>
    s <| sec_state := [s32 (arg args 2); s32 (arg args 3)] |>) (Z.to_nat section_idx) |>).

(** [1 << n] *)
Definition shl1 (n : Z) : M Z := if (0 <=? n) && (n <? 32) then mret (u32 (Z.shiftl 1 n)) else fault.

Definition command_sos_filter_activate (args : list Z) : M unit :=
  p ← sos_filter_oid_lookup (arg args 0);
  let n_sections := u8 (arg args 1) in
  sf ← get_obj sos_filter p;
  if sf_max_sections sf <? n_sections
  then shutdown "Filter section index larger than max_sections"
  else
    let coeff_int_bits := u8 (arg args 2) in
    let coeff_frac_bits := u8 (31 - coeff_int_bits) in
    mod_obj sos_filter p (fun sf => sf <| sf_n_sections := n_sections |>
                                       <| sf_coeff_frac_bits := coeff_frac_bits |>) ;;
    rounding ← shl1 (coeff_frac_bits - 1);
    mod_obj sos_filter p (fun sf => sf <| sf_coeff_rounding := rounding |>
                                       <| sf_is_active := 1 |>).

Section SosFilter.
Context `{Board}.

(** The memory holds [max_sections] zeroed sections behind the structure. *)
Definition command_config_sos_filter (args : list Z) : M unit :=
  let max_sections := u8 (arg args 1) in
  p ← oid_alloc (arg args 0) command_config_sos_filter_t
        (sizeof_obj command_config_sos_filter_t + max_sections * sizeof_sos_section)
        (O_sos_filter (sos_filter_zero
           <| sf_filter := replicate (Z.to_nat max_sections) sos_filter_section_zero |>));
  mod_obj sos_filter p (fun sf => sf <| sf_max_sections := max_sections |> <| sf_is_active := 0 |>).
End SosFilter.
