(* ===== verification/LoadCellProbe.v ===== *)
(** * Probing with a load cell: src/src/load_cell_probe.c

    While homing, each sample of the load cell is checked against a safety
    range, converted to grams, filtered and compared with the trigger force.  A
    watchdog reports when samples stop arriving. *)
From S2P Require Import Prelude Devices World Sched Command BaseCmd Trsync SosFilter.

Definition FIXEDQ2 : Z := 2.
Definition FIXEDQ2_FRAC_BITS : Z := (32 - FIXEDQ2) - 1.
Definition FIXEDQ32_FRAC_BITS : Z := FIXEDQ2_FRAC_BITS.
Definition FIXEDQ16 : Z := 16.
Definition FIXEDQ16_FRAC_BITS : Z := (32 - FIXEDQ16) - 1.
Definition FIXEDQ48_FRAC_BITS : Z := FIXEDQ16_FRAC_BITS.
Definition MAX_TRIGGER_GRAMS : Z := Z.shiftl 1 FIXEDQ16 - 1.
Definition ERROR_SAFETY_RANGE : Z := 0.
Definition ERROR_OVERFLOW : Z := 1.
Definition ERROR_WATCHDOG : Z := 2.
Definition FLAG_IS_HOMING : Z := 1.
Definition FLAG_IS_HOMING_TRIGGER : Z := 2.
Definition FLAG_AWAIT_HOMING : Z := 4.

(** The timer embedded in a [struct load_cell_probe]. *)
Definition lce_time (p : Z) : tref := TObj p 0.

Definition counts_to_grams (lce : load_cell_probe) (counts : Z) : Z :=
  let delta := s32 (counts - lce_tare_counts lce) in
  let product := delta * lce_grams_per_count lce in
  Z.shiftr product (FIXEDQ32_FRAC_BITS - FIXEDQ48_FRAC_BITS).

(** [is_flag_set], [set_flag] and [clear_flag] *)
Definition is_flag_set (mask : Z) (lce : load_cell_probe) : bool := flag mask (lce_flags lce).
Definition set_flag (mask : Z) (lce : load_cell_probe) : load_cell_probe :=
  lce <| lce_flags ::= fun f => Z.lor f mask |>.
Definition clear_flag (mask : Z) (lce : load_cell_probe) : load_cell_probe :=
  lce <| lce_flags ::= fun f => Z.land f (not8 mask) |>.

Definition load_cell_probe_oid_lookup (oid : Z) : M Z :=
  oid_lookup oid command_config_load_cell_probe_t.

Definition set_endstop_range (p safety_counts_min safety_counts_max tare_counts trigger_grams
    grams_per_count : Z) : M unit :=
  if negb (safety_counts_min <=? safety_counts_max) then shutdown "Safety range reversed"
  else if MAX_TRIGGER_GRAMS <? trigger_grams then shutdown "trigger_grams too large"
  else if (grams_per_count <? 0) || (Z.shiftl 1 FIXEDQ2_FRAC_BITS <=? grams_per_count)
  then shutdown "grams_per_count is invalid"
  else mod_obj load_cell_probe p (fun lce => lce
    <| lce_safety_counts_min := safety_counts_min |>
    <| lce_safety_counts_max := safety_counts_max |>
    <| lce_tare_counts := tare_counts |>
    <| lce_trigger_grams := trigger_grams |>
    <| lce_trigger_grams_fixed := s32 (Z.shiftl trigger_grams FIXEDQ16_FRAC_BITS) |>
    <| lce_grams_per_count := grams_per_count |>).

Section LoadCellProbe.
Context `{Board}.

Definition command_config_load_cell_probe (args : list Z) : M unit :=
  p ← oid_alloc (arg args 0) command_config_load_cell_probe_t
        (sizeof_obj command_config_load_cell_probe_t) (O_load_cell_probe load_cell_probe_zero);
  mod_obj load_cell_probe p (fun lce => lce <| lce_flags := 0 |> <| lce_trigger_ticks := 0 |>
    <| lce_watchdog_max := 0 |> <| lce_watchdog_count := 0 |>) ;;
  sf ← sos_filter_oid_lookup (arg args 1);
  mod_obj load_cell_probe p (fun lce => lce <| lce_sf := Some sf |>) ;;
  set_endstop_range p 0 0 0 0 0.

Definition command_load_cell_probe_set_range (args : list Z) : M unit :=
  p ← load_cell_probe_oid_lookup (arg args 0);
  set_endstop_range p (s32 (arg args 1)) (s32 (arg args 2)) (s32 (arg args 3))
    (u32 (arg args 4)) (s32 (arg args 5)).

Definition command_load_cell_probe_home (args : list Z) : M unit :=
  p ← load_cell_probe_oid_lookup (arg args 0);
  sched_del_timer (lce_time p) ;;
  mod_obj load_cell_probe p (fun lce =>
    (clear_flag FLAG_IS_HOMING (clear_flag FLAG_IS_HOMING_TRIGGER lce))
      <| lce_trigger_ticks := 0 |> <| lce_ts := None |>) ;;
  if u32 (arg args 3) =? 0 then mret tt
  else
    ts ← trsync_oid_lookup (arg args 1);
    mod_obj load_cell_probe p (fun lce => lce <| lce_ts := Some ts |>
      <| lce_trigger_reason := u8 (arg args 2) |> <| lce_error_reason := u8 (arg args 3) |>) ;;
    mod_timer (lce_time p) (fun t => t <| waketime := u32 (arg args 4) |>) ;;
    mod_obj load_cell_probe p (fun lce => lce <| lce_homing_start_time := u32 (arg args 4) |>
      <| lce_rest_ticks := u32 (arg args 5) |> <| lce_watchdog_max := u8 (arg args 6) |>
      <| lce_watchdog_count := 0 |>) ;;
    mod_timer (lce_time p) (fun t => t <| func := Some FN_watchdog_event |>) ;;
    mod_obj load_cell_probe p (fun lce => set_flag FLAG_AWAIT_HOMING (set_flag FLAG_IS_HOMING lce)) ;;
    sched_add_timer (lce_time p).

Definition command_load_cell_probe_query_state (args : list Z) : M unit :=
  let oid := u8 (arg args 0) in
  p ← load_cell_probe_oid_lookup oid;
  lce ← get_obj load_cell_probe p;
  sendf "load_cell_probe_state oid=%c is_homing_trigger=%c trigger_ticks=%u"
    [AInt oid; AInt (b2z (is_flag_set FLAG_IS_HOMING_TRIGGER lce)); AInt (lce_trigger_ticks lce)].

(** The call of the trigger's signals, as in Trsync. *)
Variable run_signal : signal_func -> Z -> Z -> M unit.

Definition try_trigger (p ticks : Z) : M unit :=
  lce ← get_obj load_cell_probe p;
  when (negb (is_flag_set FLAG_IS_HOMING_TRIGGER lce))
    (mod_obj load_cell_probe p (fun lce =>
       set_flag FLAG_IS_HOMING_TRIGGER (lce <| lce_trigger_ticks := ticks |>)) ;;
     ts ← deref (lce_ts lce);
     trsync_do_trigger run_signal ts (lce_trigger_reason lce)).

Definition trigger_error (p error_code : Z) : M unit :=
  lce ← get_obj load_cell_probe p;
  ts ← deref (lce_ts lce);
  trsync_do_trigger run_signal ts (u8 (lce_error_reason lce + error_code)).

(** [abs], whose result for the smallest [int] is that number. *)
Definition abs32 (v : Z) : Z := s32 (Z.abs v).

Definition load_cell_probe_report_sample (p sample : Z) : M unit :=
  lce ← get_obj load_cell_probe p;
  if negb (is_flag_set FLAG_IS_HOMING lce) then mret tt
  else
    ticks ← timer_read_time;
    mod_obj load_cell_probe p (fun lce => lce <| lce_last_sample_ticks := ticks |>
                                              <| lce_watchdog_count := 0 |>) ;;
    lce ← get_obj load_cell_probe p;
    if is_flag_set FLAG_AWAIT_HOMING lce && timer_is_before ticks (lce_homing_start_time lce)
    then mret tt
    else
      mod_obj load_cell_probe p (clear_flag FLAG_AWAIT_HOMING) ;;
      lce ← get_obj load_cell_probe p;
      if (sample <=? lce_safety_counts_min lce) || (lce_safety_counts_max lce <=? sample)
      then trigger_error p ERROR_SAFETY_RANGE
      else
        let raw_grams := counts_to_grams lce sample in
        if overflows_int32 raw_grams then trigger_error p ERROR_OVERFLOW
        else
          sf ← deref (lce_sf lce);
          filtered_grams ← sosfilt sf raw_grams;
          lce ← get_obj load_cell_probe p;
          when (lce_trigger_grams_fixed lce <=? abs32 filtered_grams)
            (try_trigger p (lce_last_sample_ticks lce)).

Definition watchdog_event (p : Z) : M sf_result :=
  lce ← get_obj load_cell_probe p;
  if negb (is_flag_set FLAG_IS_HOMING lce) || is_flag_set FLAG_IS_HOMING_TRIGGER lce
  then mret SF_DONE
  else
    when (lce_watchdog_max lce <? lce_watchdog_count lce) (trigger_error p ERROR_WATCHDOG) ;;
    mod_obj load_cell_probe p (fun lce => lce <| lce_watchdog_count ::= fun n => u8 (n + 1) |>) ;;
    lce ← get_obj load_cell_probe p;
    mod_timer (lce_time p) (fun t => t <| waketime := u32 (waketime t + lce_rest_ticks lce) |>) ;;
    mret SF_RESCHEDULE.
End LoadCellProbe.
