(* ===== verification/LoadCellAdc.v ===== *)
(** * Converters for load cells: src/src/sensor_ads1220.c and sensor_hx71x.c *)
From S2P Require Import Prelude Devices World Sched Delays Command BaseCmd Trsync SpiCmds SensorBulk LoadCellProbe.

(** ** The ADS1220 converter: src/src/sensor_ads1220.c *)

Definition ADS_BYTES_PER_SAMPLE : Z := 4.

Definition ad_timer (p : Z) : tref := TObj p 0.

(** 24 bits of two's complement extended to 32. *)
Definition sign_extend24 (counts : Z) : Z :=
  if flag counts 0x800000 then Z.lor counts 0xFF000000 else counts.

(** The measurement in a message. *)
Definition ads1220_counts (msg : list Z) : Z :=
  sign_extend24 (Z.lor (Z.lor (Z.shiftl (msg_at msg 0) 16) (Z.shiftl (msg_at msg 1) 8))
                   (msg_at msg 2)).

Definition ads1220_add_sample (p oid counts : Z) : M unit :=
  ad ← get_obj ads1220_adc p;
  sb ← sb_store (bytes_of_u32 counts) (ad_sb ad);
  sb ← sb_flush_if_full ADS_BYTES_PER_SAMPLE (sb_advance ADS_BYTES_PER_SAMPLE sb) oid;
  mod_obj ads1220_adc p (fun ad => ad <| ad_sb := sb |>).

Section Ads1220.
Context `{Board}.

Definition ads1220_is_data_ready (p : Z) : M bool :=
  ad ← get_obj ads1220_adc p;
  v ← gpio_in_read (ad_data_ready ad);
  mret (v =? 0).

Definition ads1220_event (p : Z) : M sf_result :=
  ad ← get_obj ads1220_adc p;
  let rest_ticks := ad_rest_ticks ad in
  rest_ticks ←
    (if negb (ad_pending_flag ad =? 0) then
       mod_obj ads1220_adc p (fun ad => ad <| ad_sb ::= sb_overflow |>) ;;
       mret (u32 (rest_ticks * 4))
     else
       ready ← ads1220_is_data_ready p;
       if (ready : bool) then
         mod_obj ads1220_adc p (fun ad => ad <| ad_pending_flag := 1 |>) ;;
         sched_wake_task wake_ads1220 ;;
         mret (u32 (rest_ticks * 8))
       else mret rest_ticks);
  mod_timer (ad_timer p) (fun t => t <| waketime := u32 (waketime t + rest_ticks) |>) ;;
  mret SF_RESCHEDULE.

Definition command_config_ads1220 (args : list Z) : M unit :=
  p ← oid_alloc (arg args 0) command_config_ads1220_t (sizeof_obj command_config_ads1220_t)
        (O_ads1220_adc ads1220_adc_zero);
  mod_timer (ad_timer p) (fun t => t <| func := Some FN_ads1220_event |>) ;;
  mod_obj ads1220_adc p (fun ad => ad <| ad_pending_flag := 0 |>) ;;
  spi ← spidev_oid_lookup (arg args 1);
  mod_obj ads1220_adc p (fun ad => ad <| ad_spi := Some spi |>) ;;
  pin ← gpio_in_setup (arg args 2) 0;
  mod_obj ads1220_adc p (fun ad => ad <| ad_data_ready := pin |>).

Definition ads1220_attach_load_cell_probe (args : list Z) : M unit :=
  p ← oid_lookup (arg args 0) command_config_ads1220_t;
  lce ← load_cell_probe_oid_lookup (arg args 1);
  mod_obj ads1220_adc p (fun ad => ad <| ad_lce := Some lce |>).

Definition command_query_ads1220 (args : list Z) : M unit :=
  p ← oid_lookup (arg args 0) command_config_ads1220_t;
  sched_del_timer (ad_timer p) ;;
  let rest_ticks := u32 (arg args 1) in
  mod_obj ads1220_adc p (fun ad => ad <| ad_pending_flag := 0 |> <| ad_rest_ticks := rest_ticks |>) ;;
  if rest_ticks =? 0 then mret tt
  else
    mod_obj ads1220_adc p (fun ad => ad <| ad_sb ::= sensor_bulk_reset |>) ;;
    now ← timer_read_time;
    mod_timer (ad_timer p) (fun t => t <| waketime := u32 (now + rest_ticks) |>) ;;
    sched_add_timer (ad_timer p).

Definition command_query_ads1220_status (args : list Z) : M unit :=
  let oid := u8 (arg args 0) in
  p ← oid_lookup oid command_config_ads1220_t;
  start_t ← timer_read_time;
  ready ← ads1220_is_data_ready p;
  ad ← get_obj ads1220_adc p;
  sensor_bulk_status (ad_sb ad) oid start_t 0 (if (ready : bool) then ADS_BYTES_PER_SAMPLE else 0).

Variable run_signal : signal_func -> Z -> Z -> M unit.

Definition ads1220_read_adc (p oid : Z) : M unit :=
  ad ← get_obj ads1220_adc p;
  spi ← deref (ad_spi ad);
  msg ← spidev_transfer spi true [0; 0; 0];
  mod_obj ads1220_adc p (fun ad => ad <| ad_pending_flag := 0 |>) ;;
  let counts := ads1220_counts msg in
  match ad_lce ad with
  | Some lce => load_cell_probe_report_sample run_signal lce (s32 counts)
  | None => mret tt
  end ;;
  ads1220_add_sample p oid counts.

Definition ads1220_capture_task : M unit :=
  wake ← sched_check_wake wake_ads1220;
  when wake (foreach_oid command_config_ads1220_t (fun oid =>
    ad ← get_obj ads1220_adc oid;
    when (negb (ad_pending_flag ad =? 0)) (ads1220_read_adc oid oid))).
End Ads1220.

(** ** The HX711 and HX717 converters: src/src/sensor_hx71x.c

    The chip has a clock and a data pin; the bits of a measurement are read one
    by one.  Interrupts may run between the bits. *)

Definition HX_PENDING : Z := 1.
Definition HX_OVERFLOW : Z := 2.
Definition HX_BYTES_PER_SAMPLE : Z := 4.
Definition SAMPLE_ERROR_DESYNC : Z := Z.shiftl 1 31.
Definition SAMPLE_ERROR_READ_TOO_LONG : Z := Z.shiftl 1 30.

Definition hx_timer (p : Z) : tref := TObj p 0.

(** [add_sample] *)
Definition hx71x_add_sample (p oid counts : Z) (force_flush : bool) : M unit :=
  hx ← get_obj hx71x_adc p;
  sb ← sb_store (bytes_of_u32 counts) (hx_sb hx);
  let sb := sb_advance HX_BYTES_PER_SAMPLE sb in
  sb ← (if (SB_DATA_SIZE <? sb_data_count sb + HX_BYTES_PER_SAMPLE) || force_flush
        then sensor_bulk_report sb oid else mret sb);
  mod_obj hx71x_adc p (fun hx => hx <| hx_sb := sb |>).

Section Hx71x.
Context `{Board}.

Definition MIN_PULSE_TIME : Z := nsecs_to_ticks 200.

Definition hx71x_delay_noirq : M unit :=
  if CONFIG_MACH_AVR then mret tt
  else
    now ← timer_read_time;
    spin_until spin_limit (u32 (now + MIN_PULSE_TIME)).

Definition hx71x_is_data_ready (p : Z) : M bool :=
  hx ← get_obj hx71x_adc p;
  v ← gpio_in_read (hx_dout hx);
  mret (v =? 0).

Definition hx71x_event (p : Z) : M sf_result :=
  hx ← get_obj hx71x_adc p;
  let rest_ticks := hx_rest_ticks hx in
  rest_ticks ←
    (if flag (hx_flags hx) HX_PENDING then
       mod_obj hx71x_adc p (fun hx => hx <| hx_sb ::= sb_overflow |>
                                         <| hx_flags := Z.lor HX_PENDING HX_OVERFLOW |>) ;;
       mret (u32 (rest_ticks * 4))
     else
       ready ← hx71x_is_data_ready p;
       if (ready : bool) then
         mod_obj hx71x_adc p (fun hx => hx <| hx_flags := HX_PENDING |>) ;;
         sched_wake_task wake_hx71x ;;
         mret (u32 (rest_ticks * 8))
       else mret rest_ticks);
  mod_timer (hx_timer p) (fun t => t <| waketime := u32 (waketime t + rest_ticks) |>) ;;
  mret SF_RESCHEDULE.

Definition command_config_hx71x (args : list Z) : M unit :=
  p ← oid_alloc (arg args 0) command_config_hx71x_t (sizeof_obj command_config_hx71x_t)
        (O_hx71x_adc hx71x_adc_zero);
  mod_timer (hx_timer p) (fun t => t <| func := Some FN_hx71x_event |>) ;;
  let gain_channel := u8 (arg args 1) in
  if (gain_channel <? 1) || (4 <? gain_channel)
  then shutdown "HX71x gain/channel out of range 1-4"
  else
    mod_obj hx71x_adc p (fun hx => hx <| hx_gain_channel := gain_channel |>) ;;
    dout ← gpio_in_setup (arg args 2) 1;
    mod_obj hx71x_adc p (fun hx => hx <| hx_dout := dout |>) ;;
    sclk ← gpio_out_setup (arg args 3) 0;
    mod_obj hx71x_adc p (fun hx => hx <| hx_sclk := sclk |>) ;;
    gpio_out_write sclk 1.

Definition hx71x_attach_load_cell_probe (args : list Z) : M unit :=
  p ← oid_lookup (arg args 0) command_config_hx71x_t;
  lce ← load_cell_probe_oid_lookup (arg args 1);
  mod_obj hx71x_adc p (fun hx => hx <| hx_lce := Some lce |>).

Definition command_query_hx71x (args : list Z) : M unit :=
  p ← oid_lookup (arg args 0) command_config_hx71x_t;
  sched_del_timer (hx_timer p) ;;
  let rest_ticks := u32 (arg args 1) in
  mod_obj hx71x_adc p (fun hx => hx <| hx_flags := 0 |> <| hx_last_error := 0 |>
                                    <| hx_rest_ticks := rest_ticks |>) ;;
  hx ← get_obj hx71x_adc p;
  if rest_ticks =? 0 then gpio_out_write (hx_sclk hx) 1
  else
    gpio_out_write (hx_sclk hx) 0 ;;
    mod_obj hx71x_adc p (fun hx => hx <| hx_sb ::= sensor_bulk_reset |>) ;;
    now ← timer_read_time;
    mod_timer (hx_timer p) (fun t => t <| waketime := u32 (now + rest_ticks) |>) ;;
    sched_add_timer (hx_timer p).

Definition command_query_hx71x_status (args : list Z) : M unit :=
  let oid := u8 (arg args 0) in
  p ← oid_lookup oid command_config_hx71x_t;
  start_t ← timer_read_time;
  ready ← hx71x_is_data_ready p;
  hx ← get_obj hx71x_adc p;
  sensor_bulk_status (hx_sb hx) oid start_t 0 (if (ready : bool) then HX_BYTES_PER_SAMPLE else 0).

(** [irq_poll], which lets interrupts run, and the call of the trigger's signals. *)
Variable irq_poll : M unit.
Variable run_signal : signal_func -> Z -> Z -> M unit.

Definition hx71x_delay : M unit :=
  if CONFIG_MACH_AVR then mret tt
  else
    now ← timer_read_time;
    poll_until irq_poll spin_limit (u32 (now + MIN_PULSE_TIME)).

Fixpoint raw_read_loop (num_bits : nat) (dout sclk bits_read : Z) : M Z :=
  match num_bits with
  | O => mret bits_read
  | S n =>
      gpio_out_toggle_noirq sclk ;;
      hx71x_delay_noirq ;;
      gpio_out_toggle_noirq sclk ;;
      bit ← gpio_in_read dout;
      hx71x_delay ;;
      raw_read_loop n dout sclk (Z.lor (u32 (Z.shiftl bits_read 1)) bit)
  end.

Definition hx71x_raw_read (dout sclk : Z) (num_bits : nat) : M Z :=
  raw_read_loop num_bits dout sclk 0.

Definition hx71x_read_adc (p oid : Z) : M unit :=
  hx ← get_obj hx71x_adc p;
  let gain_channel := hx_gain_channel hx in
  adc ← hx71x_raw_read (hx_dout hx) (hx_sclk hx) (Z.to_nat (24 + gain_channel));
  hx ← get_obj hx71x_adc p;
  let flags := hx_flags hx in
  mod_obj hx71x_adc p (fun hx => hx <| hx_flags := 0 |>) ;;
  let counts := sign_extend24 (Z.shiftr adc gain_channel) in
  let extras_mask := u8 (Z.shiftl 1 gain_channel - 1) in
  (if negb (Z.land adc extras_mask =? extras_mask) then
     mod_obj hx71x_adc p (fun hx => hx <| hx_last_error := SAMPLE_ERROR_DESYNC |>)
   else when (flag flags HX_OVERFLOW)
     (mod_obj hx71x_adc p (fun hx => hx <| hx_last_error := SAMPLE_ERROR_READ_TOO_LONG |>))) ;;
  hx ← get_obj hx71x_adc p;
  let counts := if negb (hx_last_error hx =? 0) then hx_last_error hx else counts in
  match hx_lce hx with
  | Some lce => when (hx_last_error hx =? 0)
                  (load_cell_probe_report_sample run_signal lce (s32 counts))
  | None => mret tt
  end ;;
  hx71x_add_sample p oid counts false.

Definition hx71x_capture_task : M unit :=
  wake ← sched_check_wake wake_hx71x;
  when wake (foreach_oid command_config_hx71x_t (fun oid =>
    hx ← get_obj hx71x_adc oid;
    when (negb (hx_flags hx =? 0)) (hx71x_read_adc oid oid))).
End Hx71x.
