(* ===== verification/Thermocouple.v ===== *)
(** * Thermocouple converters on an SPI bus: src/src/thermocouple.c

    A timer requests a measurement, a task reads and reports it and checks its
    range. *)
From S2P Require Import Prelude Devices World Sched Command BaseCmd SpiCmds.

Definition TS_CHIP_MAX31855 : Z := 0.
Definition TS_CHIP_MAX31856 : Z := 1.
Definition TS_CHIP_MAX31865 : Z := 2.
Definition TS_CHIP_MAX6675 : Z := 3.
Definition TS_PENDING : Z := 1.
Definition MAX31856_LTCBH_REG : Z := 0x0C.
Definition MAX31856_SR_REG : Z := 0x0F.
Definition MAX31865_RTDMSB_REG : Z := 0x01.
Definition MAX31865_FAULTSTAT_REG : Z := 0x07.

Definition th_timer (p : Z) : tref := TObj p 0.

(** [be32_to_cpu] and [be16_to_cpu] of the first bytes of a message. *)
Definition be32 (msg : list Z) : Z :=
  Z.lor (Z.shiftl (msg_at msg 0) 24)
    (Z.lor (Z.shiftl (msg_at msg 1) 16) (Z.lor (Z.shiftl (msg_at msg 2) 8) (msg_at msg 3))).
Definition be16 (msg : list Z) : Z := Z.lor (Z.shiftl (msg_at msg 0) 8) (msg_at msg 1).

Definition thermocouple_event (p : Z) : M sf_result :=
  sched_wake_task thermocouple_wake ;;
  mod_obj thermocouple_spi p (fun s => s <| th_flags ::= fun f => Z.lor f TS_PENDING |>) ;;
  s ← get_obj thermocouple_spi p;
  mod_timer (th_timer p) (fun t => t <| waketime := u32 (waketime t + th_rest_time s) |>) ;;
  mret SF_RESCHEDULE.

(** [fault || value < spi->min_value || value > spi->max_value] *)
Definition invalid_reading (s : thermocouple_spi) (value flt : Z) : bool :=
  negb (flt =? 0) || (value <? th_min_value s) || (th_max_value s <? value).

Section Thermocouple.
Context `{Board}.

Definition command_config_thermocouple (args : list Z) : M unit :=
  let chip_type := u8 (arg args 2) in
  if TS_CHIP_MAX6675 <? chip_type then shutdown "Invalid thermocouple chip type"
  else
    p ← oid_alloc (arg args 0) command_config_thermocouple_t
          (sizeof_obj command_config_thermocouple_t) (O_thermocouple_spi thermocouple_spi_zero);
    mod_timer (th_timer p) (fun t => t <| func := Some FN_thermocouple_event |>) ;;
    spi ← spidev_oid_lookup (arg args 1);
    mod_obj thermocouple_spi p (fun s => s <| th_spi := Some spi |> <| th_chip_type := chip_type |>).

Definition command_query_thermocouple (args : list Z) : M unit :=
  p ← oid_lookup (arg args 0) command_config_thermocouple_t;
  sched_del_timer (th_timer p) ;;
  mod_timer (th_timer p) (fun t => t <| waketime := u32 (arg args 1) |>) ;;
  mod_obj thermocouple_spi p (fun s => s <| th_rest_time := u32 (arg args 2) |>) ;;
  if u32 (arg args 2) =? 0 then mret tt
  else
    mod_obj thermocouple_spi p (fun s => s <| th_min_value := u32 (arg args 3) |>
      <| th_max_value := u32 (arg args 4) |> <| th_max_invalid := u8 (arg args 5) |>
      <| th_invalid_count := 0 |>) ;;
    sched_add_timer (th_timer p).

Definition thermocouple_respond (p next_begin_time value flt oid : Z) : M unit :=
  sendf "thermocouple_result oid=%c next_clock=%u value=%u fault=%c"
    [AInt oid; AInt next_begin_time; AInt value; AInt flt] ;;
  s ← get_obj thermocouple_spi p;
  let reset := mod_obj thermocouple_spi p (fun s => s <| th_invalid_count := 0 |>) in
  if invalid_reading s value flt then
    mod_obj thermocouple_spi p (fun s => s <| th_invalid_count ::= fun n => u8 (n + 1) |>) ;;
    s ← get_obj thermocouple_spi p;
    if th_invalid_count s <? th_max_invalid s then mret tt
    else sched_try_shutdown "Thermocouple reader fault" ;; reset
  else reset.

(** [spidev_transfer(spi->spi, 1, n, msg)] on the first [n] bytes of [msg] *)
Definition th_transfer (p : Z) (n : nat) (msg : list Z) : M (list Z) :=
  s ← get_obj thermocouple_spi p;
  spi ← deref (th_spi s);
  r ← spidev_transfer spi true (take n msg);
  mret (r ++ drop n msg).

Definition thermocouple_handle_max31855 (p next_begin_time oid : Z) : M unit :=
  msg ← th_transfer p 4 [0; 0; 0; 0];
  let value := be32 msg in
  thermocouple_respond p next_begin_time value (Z.land value 0x07) oid.

Definition thermocouple_handle_max31856 (p next_begin_time oid : Z) : M unit :=
  msg ← th_transfer p 4 [MAX31856_LTCBH_REG; 0; 0; 0];
  let value := Z.land (be32 msg) 0x00ffffff in
  msg ← th_transfer p 2 (MAX31856_SR_REG :: 0 :: drop 2 msg);
  thermocouple_respond p next_begin_time value (msg_at msg 1) oid.

Definition thermocouple_handle_max31865 (p next_begin_time oid : Z) : M unit :=
  msg ← th_transfer p 3 [MAX31865_RTDMSB_REG; 0; 0; 0];
  let value := Z.land (Z.shiftr (be32 msg) 8) 0xffff in
  msg ← th_transfer p 2 (MAX31865_FAULTSTAT_REG :: 0 :: drop 2 msg);
  let flt := u8 (Z.lor (Z.land (msg_at msg 1) (Z.lnot 0x03)) (Z.land value 0x0001)) in
  thermocouple_respond p next_begin_time value flt oid.

Definition thermocouple_handle_max6675 (p next_begin_time oid : Z) : M unit :=
  msg ← th_transfer p 2 [0; 0];
  let value := be16 msg in
  thermocouple_respond p next_begin_time value (Z.land value 0x06) oid.

Definition thermocouple_task : M unit :=
  wake ← sched_check_wake thermocouple_wake;
  when wake (foreach_oid command_config_thermocouple_t (fun oid =>
    s ← get_obj thermocouple_spi oid;
    when (flag (th_flags s) TS_PENDING)
      (t ← get_timer (th_timer oid);
       let next_begin_time := waketime t in
       mod_obj thermocouple_spi oid (fun s => s <| th_flags ::= fun f => Z.land f (not8 TS_PENDING) |>) ;;
       if th_chip_type s =? TS_CHIP_MAX31855 then thermocouple_handle_max31855 oid next_begin_time oid
       else if th_chip_type s =? TS_CHIP_MAX31856 then thermocouple_handle_max31856 oid next_begin_time oid
       else if th_chip_type s =? TS_CHIP_MAX31865 then thermocouple_handle_max31865 oid next_begin_time oid
       else if th_chip_type s =? TS_CHIP_MAX6675 then thermocouple_handle_max6675 oid next_begin_time oid
       else mret tt))).
End Thermocouple.
