(* ===== verification/Ldc1612.v ===== *)
(** * The LDC1612 eddy current sensor: src/src/sensor_ldc1612.c

    A sensor of bulk samples that can also stop the machine when its frequency
    passes a threshold. *)
From S2P Require Import Prelude Buffers Devices World Sched Command BaseCmd SpiCmds I2cCmds SensorBulk Trsync.

Definition LDC_PENDING : Z := 1.
Definition LDC_HAVE_INTB : Z := 2.
Definition LH_AWAIT_HOMING : Z := 2.
Definition LH_CAN_TRIGGER : Z := 4.
Definition SE_SENSOR_ERROR : Z := 0.
Definition SE_I2C_STATUS : Z := 1.
Definition SE_I2C_DATA : Z := 2.
Definition SE_INVALID_DATA : Z := 3.
Definition MAX_VALID_RAW_VALUE : Z := 0x03ffffff.
Definition DATA_ERROR_AMPLITUDE : Z := Z.shiftl 1 28.
Definition REG_DATA0_MSB : Z := 0x00.
Definition REG_DATA0_LSB : Z := 0x01.
Definition REG_STATUS : Z := 0x18.
Definition STATUS_UNREADCONV0 : Z := Z.shiftl 1 3.
Definition LDC_BYTES_PER_SAMPLE : Z := 4.

Definition ld_timer (p : Z) : tref := TObj p 0.

(** Stores to [d[off]], ..., where [d = &ld->sb.data[ld->sb.data_count]]. *)
Definition ldc_store (p : Z) (off : nat) (bytes : list Z) : M unit :=
  ld ← get_obj ldc1612 p;
  let sb := ld_sb ld in
  if sb_data_count sb + Z.of_nat (off + length bytes) <=? SB_DATA_SIZE then
    mod_obj ldc1612 p (fun ld => ld <| ld_sb ::= fun sb =>
      sb <| sb_data ::= copy_to (off + Z.to_nat (sb_data_count sb)) bytes |> |>)
  else fault.

(** [d[off]], [d[off + 1]] *)
Definition ldc_load (p : Z) (off : nat) : M (list Z) :=
  ld ← get_obj ldc1612 p;
  mret (take 2 (drop (off + Z.to_nat (sb_data_count (ld_sb ld))) (sb_data (ld_sb ld)))).

(** The part of [ldc1612_query] behind [out]. *)
Definition ldc_out (p oid : Z) : M unit :=
  ld ← get_obj ldc1612 p;
  sb ← sb_flush_if_full LDC_BYTES_PER_SAMPLE (sb_advance LDC_BYTES_PER_SAMPLE (ld_sb ld)) oid;
  mod_obj ldc1612 p (fun ld => ld <| ld_sb := sb |>).

Section Ldc1612.
Context `{Board}.

Definition check_intb_asserted (p : Z) : M bool :=
  ld ← get_obj ldc1612 p;
  v ← gpio_in_read (ld_intb_pin ld);
  mret (v =? 0).

Definition ldc1612_event (p : Z) : M sf_result :=
  ld ← get_obj ldc1612 p;
  when (flag (ld_flags ld) LDC_PENDING)
    (mod_obj ldc1612 p (fun ld => ld <| ld_sb ::= sb_overflow |>)) ;;
  ready ← (if negb (flag (ld_flags ld) LDC_HAVE_INTB) then mret true else check_intb_asserted p);
  when (ready : bool)
    (mod_obj ldc1612 p (fun ld => ld <| ld_flags ::= fun f => Z.lor f LDC_PENDING |>) ;;
     sched_wake_task ldc1612_wake) ;;
  mod_timer (ld_timer p) (fun t => t <| waketime := u32 (waketime t + ld_rest_ticks ld) |>) ;;
  mret SF_RESCHEDULE.

Definition command_config_ldc1612 (args : list Z) : M unit :=
  p ← oid_alloc (arg args 0) command_config_ldc1612_t (sizeof_obj command_config_ldc1612_t)
        (O_ldc1612 ldc1612_zero);
  mod_timer (ld_timer p) (fun t => t <| func := Some FN_ldc1612_event |>) ;;
  i2c ← i2cdev_oid_lookup (arg args 1);
  mod_obj ldc1612 p (fun ld => ld <| ld_i2c := Some i2c |>).

Definition command_config_ldc1612_with_intb (args : list Z) : M unit :=
  command_config_ldc1612 args ;;
  p ← oid_lookup (arg args 0) command_config_ldc1612_t;
  pin ← gpio_in_setup (arg args 2) 1;
  mod_obj ldc1612 p (fun ld => ld <| ld_intb_pin := pin |> <| ld_flags := LDC_HAVE_INTB |>).

Definition command_ldc1612_setup_home (args : list Z) : M unit :=
  p ← oid_lookup (arg args 0) command_config_ldc1612_t;
  mod_obj ldc1612 p (fun ld => ld <| ld_trigger_threshold := u32 (arg args 2) |>) ;;
  if u32 (arg args 2) =? 0 then
    mod_obj ldc1612 p (fun ld => ld <| ld_ts := None |> <| ld_homing_flags := 0 |>)
  else
    mod_obj ldc1612 p (fun ld => ld <| ld_homing_clock := u32 (arg args 1) |>) ;;
    ts ← trsync_oid_lookup (arg args 3);
    mod_obj ldc1612 p (fun ld => ld <| ld_ts := Some ts |>
      <| ld_trigger_reason := u8 (arg args 4) |> <| ld_error_reason := u8 (arg args 5) |>
      <| ld_homing_flags := Z.lor LH_AWAIT_HOMING LH_CAN_TRIGGER |>).

Definition command_query_ldc1612_home_state (args : list Z) : M unit :=
  p ← oid_lookup (arg args 0) command_config_ldc1612_t;
  ld ← get_obj ldc1612 p;
  sendf "ldc1612_home_state oid=%c homing=%c trigger_clock=%u"
    [AInt (arg args 0); AInt (b2z (flag (ld_homing_flags ld) LH_CAN_TRIGGER));
     AInt (ld_homing_clock ld)].

(** [read_reg]: the result code and the two bytes of [res], before [init]. *)
Definition read_reg (p reg : Z) (init : list Z) : M (Z * list Z) :=
  ld ← get_obj ldc1612 p;
  i2c ← deref (ld_i2c ld);
  i2c_dev_read i2c [reg] init.

(** [read_reg_status]: the result code and [*status], which is not used if the
    read failed. *)
Definition read_reg_status (p : Z) : M (Z * Z) :=
  '(ret, data) ← read_reg p REG_STATUS [0; 0];
  mret (ret, Z.lor (Z.shiftl (msg_at data 0) 8) (msg_at data 1)).

Definition command_query_ldc1612 (args : list Z) : M unit :=
  p ← oid_lookup (arg args 0) command_config_ldc1612_t;
  sched_del_timer (ld_timer p) ;;
  mod_obj ldc1612 p (fun ld => ld <| ld_flags ::= fun f => Z.land f (not8 LDC_PENDING) |>) ;;
  if u32 (arg args 1) =? 0 then mret tt
  else
    mod_obj ldc1612 p (fun ld => ld <| ld_rest_ticks := u32 (arg args 1) |>
                                    <| ld_sb ::= sensor_bulk_reset |>) ;;
    now ← timer_read_time;
    mod_timer (ld_timer p) (fun t => t <| waketime := u32 (now + u32 (arg args 1)) |>) ;;
    sched_add_timer (ld_timer p).

Definition command_query_status_ldc1612 (args : list Z) : M unit :=
  let oid := u8 (arg args 0) in
  p ← oid_lookup (arg args 0) command_config_ldc1612_t;
  ld ← get_obj ldc1612 p;
  if flag (ld_flags ld) LDC_HAVE_INTB then
    time ← timer_read_time;
    asserted ← check_intb_asserted p;
    ld ← get_obj ldc1612 p;
    sensor_bulk_status (ld_sb ld) oid time 0 (if (asserted : bool) then LDC_BYTES_PER_SAMPLE else 0)
  else
    time1 ← timer_read_time;
    '(ret, status) ← read_reg_status p;
    time2 ← timer_read_time;
    if negb (ret =? 0) then mret tt
    else
      ld ← get_obj ldc1612 p;
      sensor_bulk_status (ld_sb ld) oid time1 (u32 (time2 - time1))
        (if flag status STATUS_UNREADCONV0 then LDC_BYTES_PER_SAMPLE else 0).

Variable run_signal : signal_func -> Z -> Z -> M unit.

Definition cancel_homing (p error_code : Z) : M unit :=
  ld ← get_obj ldc1612 p;
  when (flag (ld_homing_flags ld) LH_CAN_TRIGGER)
    (mod_obj ldc1612 p (fun ld => ld <| ld_homing_flags := 0 |>) ;;
     ts ← deref (ld_ts ld);
     trsync_do_trigger run_signal ts (u8 (ld_error_reason ld + error_code))).

(** [check_data_bits]: whether the data is good. *)
Definition check_data_bits (p raw_data : Z) : M bool :=
  if Z.land raw_data (u32 (Z.lnot DATA_ERROR_AMPLITUDE)) <? MAX_VALID_RAW_VALUE then mret true
  else cancel_homing p SE_SENSOR_ERROR ;; mret false.

Definition check_home (p raw_data : Z) : M unit :=
  ld ← get_obj ldc1612 p;
  let homing_flags := ld_homing_flags ld in
  if negb (flag homing_flags LH_CAN_TRIGGER) then mret tt
  else
    good ← check_data_bits p raw_data;
    if negb good then mret tt
    else
      let data := Z.land raw_data 0x0fffffff in
      time ← timer_read_time;
      ld ← get_obj ldc1612 p;
      if flag homing_flags LH_AWAIT_HOMING && timer_is_before time (ld_homing_clock ld) then mret tt
      else
        homing_flags ←
          (if ld_trigger_threshold ld <? data then
             mod_obj ldc1612 p (fun ld => ld <| ld_homing_clock := time |>) ;;
             ts ← deref (ld_ts ld);
             trsync_do_trigger run_signal ts (ld_trigger_reason ld) ;;
             mret 0
           else mret (Z.land homing_flags (not8 LH_AWAIT_HOMING)));
        mod_obj ldc1612 p (fun ld => ld <| ld_homing_flags := homing_flags |>).

Definition report_sample_error (p error_code : Z) : M unit :=
  cancel_homing p error_code ;;
  ldc_store p 0 [0xff; 0xff; 0; u8 error_code].

(** [ret |= read_reg(ld, reg, &d[off])] *)
Definition read_into (p reg : Z) (off : nat) (ret : Z) : M Z :=
  init ← ldc_load p off;
  '(r, data) ← read_reg p reg init;
  ldc_store p off data ;;
  mret (Z.lor ret r).

(** The part of [ldc1612_query] before [out]: whether it goes on to [out]. *)
Definition ldc_sample (p : Z) : M bool :=
  '(ret, status) ← read_reg_status p;
  mod_obj ldc1612 p (fun ld => ld <| ld_flags ::= fun f => Z.land f (not8 LDC_PENDING) |>) ;;
  if negb (ret =? 0) then report_sample_error p SE_I2C_STATUS ;; mret true
  else if negb (flag status STATUS_UNREADCONV0) then mret false
  else
    ret ← read_into p REG_DATA0_MSB 0 ret;
    ret ← read_into p REG_DATA0_LSB 2 ret;
    if negb (ret =? 0) then report_sample_error p SE_I2C_DATA ;; mret true
    else
      hi ← ldc_load p 0;
      lo ← ldc_load p 2;
      if (msg_at hi 0 =? 0xff) && (msg_at hi 1 =? 0xff)
      then report_sample_error p SE_INVALID_DATA ;; mret true
      else
        check_home p (Z.lor (Z.shiftl (msg_at hi 0) 24) (Z.lor (Z.shiftl (msg_at hi 1) 16)
          (Z.lor (Z.shiftl (msg_at lo 0) 8) (msg_at lo 1)))) ;;
        mret true.

Definition ldc1612_query (p oid : Z) : M unit :=
  out ← ldc_sample p;
  when (out : bool) (ldc_out p oid).

Definition ldc1612_task : M unit :=
  wake ← sched_check_wake ldc1612_wake;
  when wake (foreach_oid command_config_ldc1612_t (fun oid =>
    ld ← get_obj ldc1612 oid;
    when (flag (ld_flags ld) LDC_PENDING) (ldc1612_query oid oid))).
End Ldc1612.
