(* ===== verification/SpiAngle.v ===== *)
(** * Magnetic angle sensors: src/src/sensor_angle.c

    A timer requests a measurement at regular times; a task reads it, with the
    delay since the request, from one of five types of chip. *)
From S2P Require Import Prelude Devices World Sched Delays Command BaseCmd SpiCmds SensorBulk SosFilter.

Definition SA_CHIP_A1333 : Z := 0.
Definition SA_CHIP_AS5047D : Z := 1.
Definition SA_CHIP_TLE5012B : Z := 2.
Definition SA_CHIP_MT6816 : Z := 3.
Definition SA_CHIP_MT6826S : Z := 4.
Definition SA_CHIP_MAX : Z := 5.
Definition TCODE_ERROR : Z := 0xff.
Definition SE_OVERFLOW : Z := 0.
Definition SE_SCHEDULE : Z := 1.
Definition SE_SPI_TIME : Z := 2.
Definition SE_CRC : Z := 3.
Definition SE_DUP : Z := 4.
Definition SE_NO_ANGLE : Z := 5.
Definition SA_PENDING : Z := 4.
Definition ANGLE_BYTES_PER_SAMPLE : Z := 3.
Definition TLE_READ : Z := 0x80.
Definition TLE_READ_LATCH : Z := Z.lor TLE_READ 0x04.
Definition TLE_REG_AVAL : Z := 0x02.

Definition sa_timer (p : Z) : tref := TObj p 0.

Definition angle_event (p : Z) : M sf_result :=
  sa ← get_obj spi_angle p;
  (if flag (sa_flags sa) SA_PENDING
   then mod_obj spi_angle p (fun sa => sa <| sa_overflow ::= fun n => u8 (n + 1) |>)
   else mod_obj spi_angle p (fun sa => sa <| sa_flags ::= fun f => Z.lor f SA_PENDING |>)) ;;
  sched_wake_task angle_wake ;;
  mod_timer (sa_timer p) (fun t => t <| waketime := u32 (waketime t + sa_rest_ticks sa) |>) ;;
  mret SF_RESCHEDULE.

Definition angle_check_report (p oid : Z) : M unit :=
  sa ← get_obj spi_angle p;
  sb ← sb_flush_if_full ANGLE_BYTES_PER_SAMPLE (sa_sb sa) oid;
  mod_obj spi_angle p (fun sa => sa <| sa_sb := sb |>).

Definition angle_add (p tcode data : Z) : M unit :=
  sa ← get_obj spi_angle p;
  sb ← sb_store [u8 tcode; u8 data; u8 (Z.shiftr data 8)] (sa_sb sa);
  mod_obj spi_angle p (fun sa => sa <| sa_sb := sb_advance ANGLE_BYTES_PER_SAMPLE sb |>).

Definition angle_add_error (p error_code : Z) : M unit := angle_add p TCODE_ERROR error_code.

(** [x >> n] for an [uint32_t] *)
Definition shr32 (x n : Z) : M Z := if n <? 32 then mret (Z.shiftr x n) else fault.

Definition angle_add_data (p stime mtime angle : Z) : M unit :=
  sa ← get_obj spi_angle p;
  let tdiff := u32 (mtime - stime) in
  let time_shift := sa_time_shift sa in
  tdiff ← (if time_shift =? 0 then mret tdiff
           else half ← shl1 (time_shift - 1); shr32 (u32 (tdiff + half)) time_shift);
  if TCODE_ERROR <=? tdiff then angle_add_error p SE_SCHEDULE else angle_add p tdiff angle.

Definition bit_parity (b0 b1 : Z) : Z :=
  let parity := Z.lxor b0 b1 in
  let parity := Z.lxor parity (Z.shiftr parity 4) in
  let parity := Z.lxor parity (Z.shiftr parity 2) in
  Z.lxor parity (Z.shiftr parity 1).

(** The loop of [crc8_mt] and [crc8], which differ in the polynomial. *)
Fixpoint crc8_bits (n : nat) (poly crc : Z) : Z :=
  match n with
  | O => crc
  | S n =>
      crc8_bits n poly
        (u8 (if flag crc 0x80 then Z.lxor (Z.shiftl crc 1) poly else Z.shiftl crc 1))
  end.
Definition crc8_mt (crc data : Z) : Z := crc8_bits 8 0x07 (Z.lxor crc data).
Definition crc8 (crc data : Z) : Z := crc8_bits 8 0x1d (Z.lxor crc data).

Section SpiAngle.
Context `{Board}.

Definition MAX_SPI_READ_TIME : Z := timer_from_us 50.

Definition command_config_spi_angle (args : list Z) : M unit :=
  let chip_type := u8 (arg args 2) in
  if SA_CHIP_MAX <? chip_type then shutdown "Invalid spi_angle chip type"
  else
    p ← oid_alloc (arg args 0) command_config_spi_angle_t (sizeof_obj command_config_spi_angle_t)
          (O_spi_angle spi_angle_zero);
    mod_timer (sa_timer p) (fun t => t <| func := Some FN_angle_event |>) ;;
    spi ← spidev_oid_lookup (arg args 1);
    mod_obj spi_angle p (fun sa => sa <| sa_spi := Some spi |>) ;;
    cs ← spidev_have_cs_pin spi;
    if cs =? 0 then shutdown "angle sensor requires cs pin"
    else mod_obj spi_angle p (fun sa => sa <| sa_chip_type := chip_type |>).

(** A transfer between two readings of the clock. *)
Definition timed_transfer (p : Z) (receive : bool) (msg : list Z) : M (Z * Z * list Z) :=
  sa ← get_obj spi_angle p;
  mtime1 ← timer_read_time;
  spi ← deref (sa_spi sa);
  msg ← spidev_transfer spi receive msg;
  mtime2 ← timer_read_time;
  mret (mtime1, mtime2, msg).

Definition too_slow (mtime1 mtime2 : Z) : bool := MAX_SPI_READ_TIME <? u32 (mtime2 - mtime1).

Definition a1333_query (p stime : Z) : M unit :=
  '(mtime1, mtime2, msg) ← timed_transfer p true [0x32; 0x00];
  if too_slow mtime1 mtime2 then angle_add_error p SE_SPI_TIME
  else if flag (msg_at msg 0) 0x80 then angle_add_error p SE_CRC
  else angle_add_data p stime mtime1 (Z.lor (Z.shiftl (msg_at msg 0) 9) (Z.shiftl (msg_at msg 1) 1)).

Definition as5047d_query (p stime : Z) : M unit :=
  '(mtime1, mtime2, _) ← timed_transfer p false [0x7F; 0xFE];
  if too_slow mtime1 mtime2 then angle_add_error p SE_SPI_TIME
  else
    sa ← get_obj spi_angle p;
    spi ← deref (sa_spi sa);
    msg ← spidev_transfer spi true [0xC0; 0x00];
    if flag (bit_parity (msg_at msg 0) (msg_at msg 1)) 1 then angle_add_error p SE_CRC
    else if flag (msg_at msg 0) 0x40 then angle_add_error p SE_NO_ANGLE
    else angle_add_data p stime mtime2
           (Z.lor (Z.shiftl (msg_at msg 0) 10) (Z.shiftl (msg_at msg 1) 2)).

Definition mt6816_query (p stime : Z) : M unit :=
  '(mtime1, mtime2, msg) ← timed_transfer p true [0x83; 0x00; 0x00];
  if too_slow mtime1 mtime2 then angle_add_error p SE_SPI_TIME
  else if flag (bit_parity (msg_at msg 1) (msg_at msg 2)) 1 then angle_add_error p SE_CRC
  else if flag (msg_at msg 2) 0x02 then angle_add_error p SE_NO_ANGLE
  else angle_add_data p stime mtime2
         (Z.lor (Z.shiftl (msg_at msg 1) 8) (Z.land (msg_at msg 2) 0xfc)).

Definition mt6826s_query (p stime : Z) : M unit :=
  '(mtime1, mtime2, msg) ← timed_transfer p true [0x30; 0x03; 0x00; 0x00; 0x00; 0x00];
  if too_slow mtime1 mtime2 then angle_add_error p SE_SPI_TIME
  else
    let crc := foldl crc8_mt 0 (take 3 (drop 2 msg)) in
    if negb (crc =? msg_at msg 5) then angle_add_error p SE_CRC
    else if flag (msg_at msg 4) 0x02 then angle_add_error p SE_NO_ANGLE
    else angle_add_data p stime mtime2 (Z.lor (Z.shiftl (msg_at msg 2) 8) (msg_at msg 3)).

Definition command_query_spi_angle (args : list Z) : M unit :=
  p ← oid_lookup (arg args 0) command_config_spi_angle_t;
  sched_del_timer (sa_timer p) ;;
  mod_obj spi_angle p (fun sa => sa <| sa_flags := 0 |>) ;;
  if u32 (arg args 2) =? 0 then mret tt
  else
    mod_timer (sa_timer p) (fun t => t <| waketime := u32 (arg args 1) |>) ;;
    mod_obj spi_angle p (fun sa => sa <| sa_rest_ticks := u32 (arg args 2) |>
      <| sa_sb ::= sensor_bulk_reset |> <| sa_time_shift := u8 (arg args 3) |>) ;;
    sched_add_timer (sa_timer p).

Variable irq_poll : M unit.

(** [while (!timer_is_before(end, timer_read_time())) irq_poll();] *)
Fixpoint udelay_loop (fuel : nat) (t_end : Z) : M unit :=
  match fuel with
  | O => fault
  | S fuel =>
      now ← timer_read_time;
      if negb (timer_is_before t_end now) then irq_poll ;; udelay_loop fuel t_end else mret tt
  end.

Definition udelay (usecs : Z) : M unit :=
  now ← timer_read_time;
  udelay_loop spin_limit (u32 (now + timer_from_us usecs)).

(** Latch the data of a tle5012b; the time of the rising edge. *)
Definition tle5012b_latch (spi : Z) : M Z :=
  cs_pin ← spidev_get_cs_pin spi;
  gpio_out_write cs_pin 0 ;;
  udelay 1 ;;
  gpio_out_write cs_pin 1 ;;
  timer_read_time.

Definition tle5012b_query (p stime : Z) : M unit :=
  sa ← get_obj spi_angle p;
  spi ← deref (sa_spi sa);
  mtime ← tle5012b_latch spi;
  msg ← spidev_transfer spi true
          (TLE_READ_LATCH :: Z.lor (Z.shiftl TLE_REG_AVAL 4) 0x03 :: replicate 8 0);
  let crc := foldl crc8 0x05 (take 6 (drop 2 msg)) in
  if negb (Z.land (Z.lnot crc) 0xff =? msg_at msg 9) then angle_add_error p SE_CRC
  else if negb (flag (msg_at msg 8) (Z.shiftl 1 4)) then angle_add_error p SE_NO_ANGLE
  else if negb (flag (msg_at msg 2) 0x80) then angle_add_error p SE_DUP
  else if timer_from_us (32 * 32 * 1000000 / 750000) <? u32 (mtime - stime)
  then angle_add_error p SE_SCHEDULE
  else angle_add p (Z.land (Z.shiftr (msg_at msg 6) 1) 0x3f)
         (Z.lor (Z.shiftl (msg_at msg 2) 9) (Z.shiftl (msg_at msg 3) 1)).

Definition command_spi_angle_transfer (buf : list Z) (args : list Z) : M unit :=
  let oid := u8 (arg args 0) in
  p ← oid_lookup oid command_config_spi_angle_t;
  let data := buffer_arg buf (u8 (arg args 1)) (arg args 2) in
  sa ← get_obj spi_angle p;
  '(mtime, data) ←
    (if sa_chip_type sa =? SA_CHIP_TLE5012B then
       spi ← deref (sa_spi sa);
       mtime ← tle5012b_latch spi;
       data ← spidev_transfer spi true data;
       mret (mtime, data)
     else
       '(mtime1, mtime2, data) ← timed_transfer p true data;
       mret (if sa_chip_type sa =? SA_CHIP_AS5047D then mtime2 else mtime1,
             if too_slow mtime1 mtime2 then [] else data));
  sendf "spi_angle_transfer_response oid=%c clock=%u response=%*s"
    [AInt oid; AInt mtime; ABytes data].

(** [while (overflow--) { ... }] *)
Fixpoint report_overflows (n : nat) (p oid : Z) : M unit :=
  match n with
  | O => mret tt
  | S n => angle_add_error p SE_OVERFLOW ;; angle_check_report p oid ;; report_overflows n p oid
  end.

(** The query for the type of the chip. *)
Definition chip_query (p chip stime : Z) : M unit :=
  if chip =? SA_CHIP_A1333 then a1333_query p stime
  else if chip =? SA_CHIP_AS5047D then as5047d_query p stime
  else if chip =? SA_CHIP_TLE5012B then tle5012b_query p stime
  else if chip =? SA_CHIP_MT6816 then mt6816_query p stime
  else if chip =? SA_CHIP_MT6826S then mt6826s_query p stime
  else mret tt.

Definition spi_angle_task : M unit :=
  wake ← sched_check_wake angle_wake;
  when wake (foreach_oid command_config_spi_angle_t (fun oid =>
    sa ← get_obj spi_angle oid;
    when (flag (sa_flags sa) SA_PENDING)
      (t ← get_timer (sa_timer oid);
       mod_obj spi_angle oid (fun sa => sa <| sa_flags := 0 |> <| sa_overflow := 0 |>) ;;
       let stime := u32 (waketime t - sa_rest_ticks sa) in
       report_overflows (Z.to_nat (sa_overflow sa)) oid oid ;;
       chip_query oid (sa_chip_type sa) stime ;;
       angle_check_report oid oid))).
End SpiAngle.
