(* ===== verification/Displays.v ===== *)
(** * Leds and displays: src/src/neopixel.c, lcd_hd44780.c and lcd_st7920.c *)
From S2P Require Import Prelude Buffers Devices World Sched Delays Command BaseCmd SpiCmds.

(** ** WS2812 leds: src/src/neopixel.c

    Each bit is sent as a long or a short pulse.  Modelled for boards whose
    clock is [timer_read_time]; the code for AVR reads another counter and has
    no delays. *)

Section Neopixel.
Context `{Board}.

(** [nsecs_to_ticks] of neopixel.c, which rounds up. *)
Definition neopixel_nsecs_to_ticks (ns : Z) : Z :=
  u32 (timer_from_us (u32 (ns * 1000)) + (1000000 - 1)) / 1000000.

Definition neopixel_check_elapsed (t1 t2 ticks : Z) : bool := ticks <=? u32 (t2 - t1).

Definition neopixel_get_time : M Z := timer_read_time.

(** The loop of [neopixel_delay] *)
Fixpoint neopixel_delay_loop (fuel : nat) (start ticks : Z) : M unit :=
  match fuel with
  | O => fault
  | S fuel =>
      now ← neopixel_get_time;
      if negb (neopixel_check_elapsed start now ticks) then neopixel_delay_loop fuel start ticks
      else mret tt
  end.
Definition neopixel_delay (start ticks : Z) : M unit := neopixel_delay_loop spin_limit start ticks.

Definition PULSE_LONG_TICKS : Z := neopixel_nsecs_to_ticks 800.
Definition EDGE_MIN_TICKS : Z := neopixel_nsecs_to_ticks 200.
Definition BIT_MIN_TICKS : Z := neopixel_nsecs_to_ticks 1250.

Definition command_config_neopixel (args : list Z) : M unit :=
  pin ← gpio_out_setup (arg args 1) 0;
  let data_size := u16 (arg args 2) in
  if flag data_size 0x8000 then shutdown "Invalid neopixel data_size"
  else
    p ← oid_alloc (arg args 0) command_config_neopixel_t
          (sizeof_obj command_config_neopixel_t + data_size)
          (O_neopixel (neopixel_s_zero <| np_data := replicate (Z.to_nat data_size) 0 |>));
    mod_obj neopixel_s p (fun n => n <| np_pin := pin |> <| np_data_size := data_size |>
      <| np_bit_max_ticks := u32 (arg args 3) |> <| np_reset_min_ticks := u32 (arg args 4) |>).

(** A one bit; the new [last_start], or [None] if the pulse came too late. *)
Definition long_pulse (pin last_start bit_max_ticks : Z) : M (option Z) :=
  neopixel_delay last_start BIT_MIN_TICKS ;;
  start ← neopixel_get_time;
  gpio_out_toggle_noirq pin ;;
  if neopixel_check_elapsed last_start start bit_max_ticks then mret None
  else
    neopixel_delay start PULSE_LONG_TICKS ;;
    gpio_out_toggle_noirq pin ;;
    now ← neopixel_get_time;
    neopixel_delay now EDGE_MIN_TICKS ;;
    mret (Some start).

(** A zero bit. *)
Definition short_pulse (pin last_start bit_max_ticks : Z) : M (option Z) :=
  neopixel_delay last_start BIT_MIN_TICKS ;;
  start ← neopixel_get_time;
  gpio_out_toggle_noirq pin ;;
  neopixel_delay start EDGE_MIN_TICKS ;;
  gpio_out_toggle_noirq pin ;;
  if neopixel_check_elapsed last_start start bit_max_ticks then mret None
  else mret (Some start).

(** The loop over the bits of a byte. *)
Fixpoint send_bits_loop (bits : nat) (pin byte last_start bit_max_ticks : Z) : M (option Z) :=
  match bits with
  | O => mret (Some last_start)
  | S bits =>
      r ← (if flag byte 0x80 then long_pulse pin last_start bit_max_ticks
           else short_pulse pin last_start bit_max_ticks);
      match r with
      | None => mret None
      | Some last_start => send_bits_loop bits pin (u8 (Z.shiftl byte 1)) last_start bit_max_ticks
      end
  end.

(** The loop over the bytes. *)
Fixpoint send_bytes_loop (data : list Z) (pin last_start bit_max_ticks : Z) : M bool :=
  match data with
  | [] => mret true
  | byte :: data =>
      r ← send_bits_loop 8 pin byte last_start bit_max_ticks;
      match r with
      | None => mret false
      | Some last_start => send_bytes_loop data pin last_start bit_max_ticks
      end
  end.

Variable irq_poll : M unit.

(** [send_data] of neopixel.c: whether the result is 0. *)
Definition send_data (p : Z) : M bool :=
  n ← get_obj neopixel_s p;
  poll_elapsed irq_poll spin_limit (np_last_req_time n) (np_reset_min_ticks n) ;;
  n ← get_obj neopixel_s p;
  last_start ← neopixel_get_time;
  ok ← send_bytes_loop (take (Z.to_nat (np_data_size n)) (np_data n)) (np_pin n) last_start
         (np_bit_max_ticks n);
  when (negb ok) (gpio_out_write (np_pin n) 0) ;;
  now ← timer_read_time;
  mod_obj neopixel_s p (fun n => n <| np_last_req_time := now |>) ;;
  mret ok.

Definition command_neopixel_send (args : list Z) : M unit :=
  let oid := u8 (arg args 0) in
  p ← oid_lookup oid command_config_neopixel_t;
  ok ← send_data p;
  sendf "neopixel_result oid=%c success=%c" [AInt oid; AInt (b2z ok)].
End Neopixel.

(** [command_neopixel_update]; a copy behind the array is a fault. *)
Definition command_neopixel_update (buf : list Z) (args : list Z) : M unit :=
  p ← oid_lookup (arg args 0) command_config_neopixel_t;
  let pos := u32 (arg args 1) in
  let data_len := u8 (arg args 2) in
  let data := buffer_arg buf data_len (arg args 3) in
  n ← get_obj neopixel_s p;
  if flag pos 0x8000 || (np_data_size n <? u32 (pos + data_len))
  then shutdown "Invalid neopixel update command"
  else if Z.of_nat (length (np_data n)) <? pos + data_len then fault
  else mod_obj neopixel_s p (fun n => n <| np_data ::= copy_to (Z.to_nat pos) data |>).

(** ** The HD44780 display: src/src/lcd_hd44780.c

    A display with a 4 bit parallel interface: bytes are sent as two nibbles,
    the data lines are toggled where they differ from the last nibble. *)

Section Hd44780.
Context `{Board}.

Definition hd44780_shutdown : M unit :=
  foreach_oid command_config_hd44780_t (fun p =>
    h ← get_obj hd44780 p;
    gpio_out_write (hd_rs h) 0 ;;
    gpio_out_write (hd_e h) 0 ;;
    gpio_out_write (hd_d4 h) 0 ;;
    gpio_out_write (hd_d5 h) 0 ;;
    gpio_out_write (hd_d6 h) 0 ;;
    gpio_out_write (hd_d7 h) 0 ;;
    mod_obj hd44780 p (fun h => h <| hd_last := 0 |>)).

Variable irq_poll : M unit.

Definition hd44780_xmit_bits (toggle e d4 d5 d6 d7 : Z) : M unit :=
  gpio_out_toggle e ;;
  when (flag toggle 0x10) (gpio_out_toggle d4) ;;
  when (flag toggle 0x20) (gpio_out_toggle d5) ;;
  when (flag toggle 0x40) (gpio_out_toggle d6) ;;
  when (flag toggle 0x80) (gpio_out_toggle d7) ;;
  ndelay irq_poll (nsecs_to_ticks 230) ;;
  gpio_out_toggle e.

Definition hd44780_xmit_byte (p data : Z) : M unit :=
  h ← get_obj hd44780 p;
  let bits toggle := hd44780_xmit_bits toggle (hd_e h) (hd_d4 h) (hd_d5 h) (hd_d6 h) (hd_d7 h) in
  bits (Z.lxor (hd_last h) data) ;;
  let last := u8 (Z.shiftl data 4) in
  mod_obj hd44780 p (fun h => h <| hd_last := last |>) ;;
  ndelay irq_poll (nsecs_to_ticks (500 - 230)) ;;
  bits (Z.lxor data last).

(** The loop of [hd44780_xmit]: the new [last_cmd_time]. *)
Fixpoint hd44780_xmit_loop (p : Z) (data : list Z) (last_cmd_time cmd_wait_ticks : Z) : M Z :=
  match data with
  | [] => mret last_cmd_time
  | b :: data =>
      poll_elapsed irq_poll spin_limit last_cmd_time cmd_wait_ticks ;;
      hd44780_xmit_byte p b ;;
      now ← timer_read_time;
      hd44780_xmit_loop p data now cmd_wait_ticks
  end.

Definition hd44780_xmit (p : Z) (data : list Z) : M unit :=
  h ← get_obj hd44780 p;
  t ← hd44780_xmit_loop p data (hd_last_cmd_time h) (hd_cmd_wait_ticks h);
  mod_obj hd44780 p (fun h => h <| hd_last_cmd_time := t |>).

Definition command_config_hd44780 (args : list Z) : M unit :=
  p ← oid_alloc (arg args 0) command_config_hd44780_t (sizeof_obj command_config_hd44780_t)
        (O_hd44780 hd44780_zero);
  rs ← gpio_out_setup (arg args 1) 0;
  mod_obj hd44780 p (fun h => h <| hd_rs := rs |>) ;;
  e ← gpio_out_setup (arg args 2) 0;
  mod_obj hd44780 p (fun h => h <| hd_e := e |>) ;;
  d4 ← gpio_out_setup (arg args 3) 0;
  mod_obj hd44780 p (fun h => h <| hd_d4 := d4 |>) ;;
  d5 ← gpio_out_setup (arg args 4) 0;
  mod_obj hd44780 p (fun h => h <| hd_d5 := d5 |>) ;;
  d6 ← gpio_out_setup (arg args 5) 0;
  mod_obj hd44780 p (fun h => h <| hd_d6 := d6 |>) ;;
  d7 ← gpio_out_setup (arg args 6) 0;
  mod_obj hd44780 p (fun h => h <| hd_d7 := d7 |>) ;;
  let delay_ticks := u32 (arg args 7) in
  if negb CONFIG_HAVE_STRICT_TIMING then
    mod_obj hd44780 p (fun h => h <| hd_cmd_wait_ticks := delay_ticks |>)
  else
    t_start ← timer_read_time;
    hd44780_xmit_byte p 0 ;;
    t_end ← timer_read_time;
    let diff := u32 (t_end - t_start) in
    when (diff <? delay_ticks)
      (mod_obj hd44780 p (fun h => h <| hd_cmd_wait_ticks := u32 (delay_ticks - diff) |>)).

Definition command_hd44780_send_cmds (buf : list Z) (args : list Z) : M unit :=
  p ← oid_lookup (arg args 0) command_config_hd44780_t;
  h ← get_obj hd44780 p;
  gpio_out_write (hd_rs h) 0 ;;
  hd44780_xmit p (buffer_arg buf (u8 (arg args 1)) (arg args 2)).

Definition command_hd44780_send_data (buf : list Z) (args : list Z) : M unit :=
  p ← oid_lookup (arg args 0) command_config_hd44780_t;
  h ← get_obj hd44780 p;
  gpio_out_write (hd_rs h) 1 ;;
  hd44780_xmit p (buffer_arg buf (u8 (arg args 1)) (arg args 2)).
End Hd44780.

(** ** The ST7920 display: src/src/lcd_st7920.c

    A display with a serial interface: the data line is toggled where a bit
    differs from the one before. *)

Definition SYNC_CMD : Z := 0xf8.
Definition SYNC_DATA : Z := 0xfa.

Section St7920.
Context `{Board}.

Definition st7920_shutdown : M unit :=
  foreach_oid command_config_st7920_t (fun p =>
    s ← get_obj st7920 p;
    gpio_out_write (lc_sclk s) 0 ;;
    gpio_out_write (lc_sid s) 0).

Variable irq_poll : M unit.

(** The loop of [st7920_xmit_byte]: [n] bits are left. *)
Fixpoint xmit_bits (n : nat) (sclk sid data : Z) : M unit :=
  match n with
  | O => mret tt
  | S n =>
      data ← (if flag data 0x80 then gpio_out_toggle sid ;; mret (not8 data) else mret data);
      ndelay irq_poll (nsecs_to_ticks 200) ;;
      gpio_out_toggle sclk ;;
      ndelay irq_poll (nsecs_to_ticks 200) ;;
      gpio_out_toggle sclk ;;
      xmit_bits n sclk sid (u8 (Z.shiftl data 1))
  end.

Definition st7920_xmit_byte (p data : Z) : M unit :=
  s ← get_obj st7920 p;
  xmit_bits 8 (lc_sclk s) (lc_sid s) data.

(** One command byte: its two halves, with the wait in between; the time
    afterwards. *)
Definition st7920_xmit_cmd (p cmd last_cmd_time wait_ticks : Z) : M Z :=
  st7920_xmit_byte p (Z.land cmd 0xf0) ;;
  poll_elapsed irq_poll spin_limit last_cmd_time wait_ticks ;;
  st7920_xmit_byte p (u8 (Z.shiftl cmd 4)) ;;
  timer_read_time.

(** The loop over the bytes behind the first one. *)
Fixpoint st7920_xmit_loop (p : Z) (cmds : list Z) (last_cmd_time wait_ticks : Z) : M Z :=
  match cmds with
  | [] => mret last_cmd_time
  | cmd :: cmds =>
      t ← st7920_xmit_cmd p cmd last_cmd_time wait_ticks;
      st7920_xmit_loop p cmds t wait_ticks
  end.

Definition st7920_xmit (p : Z) (cmds : list Z) : M unit :=
  match cmds with
  | [] => mret tt
  | cmd :: cmds =>
      s ← get_obj st7920 p;
      t ← st7920_xmit_cmd p cmd (lc_last_cmd_time s) (lc_sync_wait_ticks s);
      s ← get_obj st7920 p;
      t ← st7920_xmit_loop p cmds t (lc_cmd_wait_ticks s);
      mod_obj st7920 p (fun s => s <| lc_last_cmd_time := t |>)
  end.

Definition command_config_st7920 (args : list Z) : M unit :=
  p ← oid_alloc (arg args 0) command_config_st7920_t (sizeof_obj command_config_st7920_t)
        (O_st7920 st7920_zero);
  sclk ← gpio_out_setup (arg args 2) 0;
  mod_obj st7920 p (fun s => s <| lc_sclk := sclk |>) ;;
  sid ← gpio_out_setup (arg args 3) 0;
  mod_obj st7920 p (fun s => s <| lc_sid := sid |>) ;;
  gpio_out_setup (arg args 1) 1 ;;
  let sync_delay_ticks := u32 (arg args 4) in
  let cmd_delay_ticks := u32 (arg args 5) in
  if negb CONFIG_HAVE_STRICT_TIMING then
    mod_obj st7920 p (fun s => s <| lc_sync_wait_ticks := sync_delay_ticks |>
                                 <| lc_cmd_wait_ticks := cmd_delay_ticks |>)
  else
    st7920_xmit_byte p SYNC_CMD ;;
    st7920_xmit_byte p 0x20 ;;
    t_start ← timer_read_time;
    st7920_xmit_byte p 0x00 ;;
    t_end ← timer_read_time;
    mod_obj st7920 p (fun s => s <| lc_last_cmd_time := t_end |>) ;;
    let diff := u32 (t_end - t_start) in
    when (diff <? sync_delay_ticks)
      (mod_obj st7920 p (fun s => s <| lc_sync_wait_ticks := u32 (sync_delay_ticks - diff) |>)) ;;
    when (diff <? cmd_delay_ticks)
      (mod_obj st7920 p (fun s => s <| lc_cmd_wait_ticks := u32 (cmd_delay_ticks - diff) |>)).

Definition command_st7920_send_cmds (buf : list Z) (args : list Z) : M unit :=
  p ← oid_lookup (arg args 0) command_config_st7920_t;
  st7920_xmit_byte p SYNC_CMD ;;
  st7920_xmit p (buffer_arg buf (u8 (arg args 1)) (arg args 2)).

Definition command_st7920_send_data (buf : list Z) (args : list Z) : M unit :=
  p ← oid_lookup (arg args 0) command_config_st7920_t;
  st7920_xmit_byte p SYNC_DATA ;;
  st7920_xmit p (buffer_arg buf (u8 (arg args 1)) (arg args 2)).
End St7920.
