(* ===== verification/MiscCmds.v ===== *)
(** * SDIO, debugging and initial pins: src/src/sdiocmds.c, debugcmds.c and
    initial_pins.c *)
From S2P Require Import Prelude Buffers Devices World Sched Command BaseCmd SpiCmds.

(** ** Memory cards on an SDIO bus: src/src/sdiocmds.c

    The host moves blocks between a buffer in memory and the card.  The driver
    of the board is given by the results of its calls. *)

Definition TIMEOUT_MSEC : Z := 500.

(** [sizeof(sdio->data_buffer)] *)
Definition SDIO_BUFFER_SIZE : Z := 4096.

Definition sdiodev_oid_lookup (oid : Z) : M Z := oid_lookup oid command_config_sdio_t.

(** [TIMEOUT_MSEC*sdio->speed/1000] *)
Definition sdio_timeout (s : sdiodev_s) : Z := u32 (TIMEOUT_MSEC * sio_speed s) / 1000.

(** [command_sdio_write_data_buffer]; a copy outside the array is a fault. *)
Definition command_sdio_write_data_buffer (buf : list Z) (args : list Z) : M unit :=
  let offset := u32 (arg args 1) in
  let write_data_len := u8 (arg args 2) in
  let write_data := buffer_arg buf write_data_len (arg args 3) in
  p ← sdiodev_oid_lookup (u8 (arg args 0));
  if u32 (offset + write_data_len) <=? SDIO_BUFFER_SIZE then
    if offset + write_data_len <=? SDIO_BUFFER_SIZE then
      mod_obj sdiodev_s p (fun s => s <| sio_data_buffer ::= copy_to (Z.to_nat offset) write_data |>)
    else fault
  else mret tt.

(** [command_sdio_read_data_buffer]; likewise for the bytes that are sent. *)
Definition command_sdio_read_data_buffer (args : list Z) : M unit :=
  let oid := u8 (arg args 0) in
  let offset := u32 (arg args 1) in
  let len := u8 (arg args 2) in
  p ← sdiodev_oid_lookup oid;
  s ← get_obj sdiodev_s p;
  let len := if SDIO_BUFFER_SIZE <? u32 (offset + len) then 0 else len in
  if (0 <? len) && (SDIO_BUFFER_SIZE <? offset + len) then fault
  else
    sendf "sdio_read_data_buffer_response oid=%c data=%*s"
      [AInt oid; ABytes (take (Z.to_nat len) (drop (Z.to_nat offset) (sio_data_buffer s)))].

Section SdioCmds.
Context `{Board}.

(** *** The driver of the board *)

Definition sdio_setup (bus : Z) : M Z :=
  if sdio_bus_valid bus then hw (HwSdioSetup bus) ;; mret bus else shutdown "Invalid sdio bus".
Definition sdio_set_speed (bus speed : Z) : M unit := hw (HwSdioSpeed bus speed).
(** The error code and the bytes of the response. *)
Definition sdio_send_command (bus cmd argument wait : Z) : M (Z * list Z) :=
  hw (HwSdioCommand bus cmd argument wait) ;;
  n ← next_io;
  mret (u8 (sdio_result n), take 16 (sdio_response n)).
Definition sdio_prepare_data_transfer (bus read blocksize timeout : Z) : M Z :=
  hw (HwSdioPrepare bus read blocksize timeout) ;; n ← next_io; mret (u8 (sdio_result n)).
Definition sdio_read_data (bus blocksize : Z) : M (Z * list Z) :=
  hw (HwSdioRead bus blocksize) ;;
  n ← next_io;
  mret (u8 (sdio_result n), answer (sdio_reading n) (Z.to_nat blocksize)).
Definition sdio_write_data (bus : Z) (data : list Z) : M Z :=
  hw (HwSdioWrite bus data) ;; n ← next_io; mret (u8 (sdio_result n)).

(** *** The commands *)

Definition command_config_sdio (args : list Z) : M unit :=
  p ← oid_alloc (arg args 0) command_config_sdio_t (sizeof_obj command_config_sdio_t)
        (O_sdiodev sdiodev_s_zero);
  mod_obj sdiodev_s p (fun s => s <| sio_blocksize := u32 (arg args 1) |> <| sio_speed := 400000 |>).

Definition command_sdio_set_bus (args : list Z) : M unit :=
  p ← sdiodev_oid_lookup (arg args 0);
  bus ← sdio_setup (arg args 1);
  mod_obj sdiodev_s p (fun s => s <| sio_config := Some bus |>).

Definition command_sdio_set_speed (args : list Z) : M unit :=
  p ← sdiodev_oid_lookup (arg args 0);
  mod_obj sdiodev_s p (fun s => s <| sio_speed := u32 (arg args 1) |>) ;;
  s ← get_obj sdiodev_s p;
  bus ← deref (sio_config s);
  sdio_set_speed bus (sio_speed s).

Definition command_sdio_send_command (args : list Z) : M unit :=
  let oid := u8 (arg args 0) in
  p ← sdiodev_oid_lookup oid;
  s ← get_obj sdiodev_s p;
  bus ← deref (sio_config s);
  '(err, response) ← sdio_send_command bus (u8 (arg args 1)) (u32 (arg args 2)) (u8 (arg args 3));
  sendf "sdio_send_command_response oid=%c error=%c response=%*s"
    [AInt oid; AInt err; ABytes response].

(** The common part of a read and a write: [err] and [data_len]; [body] moves
    the block. *)
Definition sdio_transfer (p read cmd argument : Z) (body : Z -> M Z) : M (Z * Z) :=
  s ← get_obj sdiodev_s p;
  bus ← deref (sio_config s);
  err ← sdio_prepare_data_transfer bus read (sio_blocksize s) (sdio_timeout s);
  if negb (err =? 0) then mret (err, 0)
  else
    '(err, _) ← sdio_send_command bus cmd argument 1;
    if negb (err =? 0) then mret (err, 0)
    else if sio_blocksize s <=? SDIO_BUFFER_SIZE then err ← body bus; mret (err, sio_blocksize s)
    else mret (err, 0).

Definition command_sdio_read_data (args : list Z) : M unit :=
  let oid := u8 (arg args 0) in
  p ← sdiodev_oid_lookup oid;
  '(err, data_len) ← sdio_transfer p 1 (u8 (arg args 1)) (u32 (arg args 2)) (fun bus =>
    s ← get_obj sdiodev_s p;
    '(err, data) ← sdio_read_data bus (sio_blocksize s);
    mod_obj sdiodev_s p (fun s => s <| sio_data_buffer ::= copy_to 0 data |>) ;;
    mret err);
  sendf "sdio_read_data_response oid=%c error=%c read=%u" [AInt oid; AInt err; AInt data_len].

Definition command_sdio_write_data (args : list Z) : M unit :=
  let oid := u8 (arg args 0) in
  p ← sdiodev_oid_lookup oid;
  '(err, data_len) ← sdio_transfer p 0 (u8 (arg args 1)) (u32 (arg args 2)) (fun bus =>
    s ← get_obj sdiodev_s p;
    sdio_write_data bus (take (Z.to_nat (sio_blocksize s)) (sio_data_buffer s)));
  sendf "sdio_write_data_response oid=%c error=%c write=%u" [AInt oid; AInt err; AInt data_len].
End SdioCmds.

(** ** Debugging commands and the pins set at start: src/src/debugcmds.c and
    src/src/initial_pins.c

    [debug_read] and [debug_write] access memory at an arbitrary address and are
    not modelled. *)

Definition command_debug_ping (buf : list Z) (args : list Z) : M unit :=
  sendf "pong data=%*s" [ABytes (buffer_arg buf (u8 (arg args 0)) (arg args 1))].

Definition command_debug_nop (args : list Z) : M unit := mret tt.

Definition IP_OUT_HIGH : Z := 1.

Section InitialPins.
Context `{Board}.

(** The loop over the generated table. *)
Fixpoint setup_pins (pins : list (Z * Z)) : M unit :=
  match pins with
  | [] => mret tt
  | (pin, flags) :: pins => gpio_out_setup pin (Z.land flags IP_OUT_HIGH) ;; setup_pins pins
  end.

Definition initial_pins_setup : M unit := setup_pins initial_pins.
End InitialPins.
