(* ===== verification/Callbacks.v ===== *)
(** * The scheduler's contract with timer callbacks

    [LocalCallback t m] is what the scheduler needs from a callback [m] of
    timer [t]: it may change the timer's own wake time and function but leaves
    the rest of the timer list alone.  The instances discharge the contract
    for the callbacks of every component that does not stop other timers. *)
From S2P Require Import Prelude World Frames Sched Delays Command BaseCmd Trsync Stepper GpioCmds PwmCmds Inputs Tmcuart SpiCmds Accelerometers Ldc1612 SpiAngle LoadCellAdc Thermocouple.

Class LocalCallback (t : tref) (m : M sf_result) : Prop :=
  local_callback : Keeps (own_timer t) m.

Section Callbacks.
Context `{Board}.

#[local] Hint Extern 1 (Keeps _ timer_read_time) => (apply keeps_read_time) : frame.
#[local] Hint Extern 1 (Keeps _ (gpio_in_read _)) => (apply keeps_in_read) : frame.
#[local] Hint Extern 1 (Keeps _ (gpio_adc_sample _)) => (apply keeps_adc_sample) : frame.
#[local] Hint Extern 1 (Keeps _ (gpio_adc_read _)) => (apply keeps_adc_read) : frame.
#[local] Hint Extern 1 (Keeps _ (gpio_out_write _ _)) => (apply keeps_hw) : frame.
#[local] Hint Extern 1 (Keeps _ (gpio_out_toggle_noirq _)) => (apply keeps_hw) : frame.
#[local] Hint Extern 1 (Keeps _ (gpio_pwm_write _ _)) => (apply keeps_hw) : frame.

(** Unfold the helpers of a handler and break it up. *)
Ltac local_solve :=
  unfold LocalCallback, sched_wake_task, sched_wake_tasks, sched_try_shutdown, move_free,
    move_queue_pop, get_stepper_move, get_digital_move, get_pwm_move, reschedule_min,
    get_timer, get_node, mod_node;
  frame_solve.

#[export] Instance counter_event_local p : LocalCallback (ct_timer p) (counter_event p).
Proof. unfold counter_event. local_solve. Qed.

Lemma read_pins_local t pins : forall bit status, Keeps (own_timer t) (read_pins pins bit status).
Proof. induction pins as [|pin pins IH]; intros; simpl; frame_solve. Qed.
#[local] Hint Resolve read_pins_local : frame.

#[export] Instance buttons_event_local p : LocalCallback (bt_time p) (buttons_event p).
Proof. unfold buttons_event. local_solve. Qed.

#[export] Instance analog_in_event_local p : LocalCallback (ai_timer p) (analog_in_event p).
Proof. unfold analog_in_event. local_solve. Qed.

#[export] Instance pwm_event_local p : LocalCallback (po_timer p) (pwm_event p).
Proof. unfold pwm_event. local_solve. Qed.

#[export] Instance pwm_end_event_local p : LocalCallback (po_timer p) (pwm_end_event p).
Proof. unfold pwm_end_event. local_solve. Qed.

#[export] Instance digital_toggle_event_local p :
  LocalCallback (do_timer p) (digital_toggle_event p).
Proof. unfold digital_toggle_event. local_solve. Qed.

#[export] Instance digital_load_event_local p :
  LocalCallback (do_timer p) (digital_load_event p).
Proof. unfold digital_load_event, digital_schedule. local_solve. Qed.

#[export] Instance trsync_report_event_local p :
  LocalCallback (report_time p) (trsync_report_event p).
Proof. unfold trsync_report_event. local_solve. Qed.

#[local] Hint Extern 1 (Keeps _ (gpio_out_reset _ _)) => (apply keeps_hw) : frame.
#[local] Hint Extern 1 (Keeps _ (gpio_in_reset _ _)) => (apply keeps_hw) : frame.

Lemma send_scan_local t fuel tu : forall line pos next, Keeps (own_timer t) (send_scan fuel tu line pos next).
Proof. induction fuel as [|fuel IH]; intros; simpl; frame_solve. Qed.
#[local] Hint Resolve send_scan_local : frame.

#[export] Instance tmcuart_send_event_local p : LocalCallback (tu_timer p) (tmcuart_send_event p).
Proof. unfold tmcuart_send_event. local_solve. Qed.

#[export] Instance tmcuart_send_sync_event_local p :
  LocalCallback (tu_timer p) (tmcuart_send_sync_event p).
Proof. unfold tmcuart_send_sync_event. local_solve. Qed.

#[export] Instance tmcuart_send_finish_event_local p :
  LocalCallback (tu_timer p) (tmcuart_send_finish_event p).
Proof. unfold tmcuart_send_finish_event, tmcuart_finalize, tmcuart_reset_line. local_solve. Qed.

#[export] Instance tmcuart_read_event_local p : LocalCallback (tu_timer p) (tmcuart_read_event p).
Proof. unfold tmcuart_read_event, tmcuart_finalize, tmcuart_reset_line. local_solve. Qed.

#[export] Instance tmcuart_read_sync_event_local p :
  LocalCallback (tu_timer p) (tmcuart_read_sync_event p).
Proof.
  unfold tmcuart_read_sync_event, tmcuart_read_event, read_sync_wait, tmcuart_finalize,
    tmcuart_reset_line. local_solve.
Qed.

Lemma spin_until_local t fuel : forall x, Keeps (own_timer t) (spin_until fuel x).
Proof. induction fuel as [|fuel IH]; intros; simpl; frame_solve. Qed.
#[local] Hint Resolve spin_until_local : frame.

Lemma stepper_load_next_local p : Keeps (own_timer (st_time p)) (stepper_load_next p).
Proof. unfold stepper_load_next, load_next_full. local_solve. Qed.
#[local] Hint Resolve stepper_load_next_local : frame.

#[export] Instance stepper_event_full_local p :
  LocalCallback (st_time p) (stepper_event_full p).
Proof. unfold stepper_event_full. local_solve. Qed.

#[export] Instance stepper_event_local p : LocalCallback (st_time p) (stepper_event p).
Proof.
  unfold stepper_event, stepper_event_edge, stepper_event_avr.
  repeat case_match; [local_solve..|apply stepper_event_full_local].
Qed.

#[export] Instance deleted_event_local : LocalCallback TDeleted deleted_event.
Proof. unfold deleted_event. local_solve. Qed.
(** *** The sensors *)

#[export] Instance adxl345_event_local p : LocalCallback (ax_timer p) (adxl345_event p).
Proof. unfold adxl345_event. local_solve. Qed.

#[export] Instance lis2dw_event_local p : LocalCallback (li_timer p) (lis2dw_event p).
Proof. unfold lis2dw_event. local_solve. Qed.

#[export] Instance mpu9250_event_local p : LocalCallback (mp_timer p) (mpu9250_event p).
Proof. unfold mpu9250_event. local_solve. Qed.

#[export] Instance icm20948_event_local p : LocalCallback (ic_timer p) (icm20948_event p).
Proof. unfold icm20948_event. local_solve. Qed.

#[export] Instance ldc1612_event_local p : LocalCallback (ld_timer p) (ldc1612_event p).
Proof. unfold ldc1612_event, check_intb_asserted. local_solve. Qed.

#[export] Instance angle_event_local p : LocalCallback (sa_timer p) (angle_event p).
Proof. unfold angle_event. local_solve. Qed.

#[export] Instance ads1220_event_local p : LocalCallback (ad_timer p) (ads1220_event p).
Proof. unfold ads1220_event, ads1220_is_data_ready. local_solve. Qed.

#[export] Instance hx71x_event_local p : LocalCallback (hx_timer p) (hx71x_event p).
Proof. unfold hx71x_event, hx71x_is_data_ready. local_solve. Qed.

#[export] Instance thermocouple_event_local p :
  LocalCallback (th_timer p) (thermocouple_event p).
Proof. unfold thermocouple_event. local_solve. Qed.
End Callbacks.
