(* ===== verification/SerialIrq.v ===== *)
(** * Interrupt driven serial console: src/src/generic/serial_irq.c

    The receive interrupt appends to [receive_buf] while the console task
    consumes from its front; the transmit interrupt takes bytes from
    [transmit_buf] while responses are appended.  The interrupts that may
    occur in the middle of a task are explicit arguments: lists of bytes that
    arrive, or numbers of bytes that are sent, at each such point. *)
From S2P Require Import Prelude Buffers Protocol World Sched Command.

Definition RX_BUFFER_SIZE : Z := 192.

(** [sizeof(transmit_buf)] *)
Definition TX_BUFFER_SIZE : Z := 96.

(** The static variables of the file. *)
Record serial : Set := mkSerial {
  receive_buf : list Z; receive_pos : Z;
  transmit_buf : list Z; transmit_pos : Z; transmit_max : Z;
  tx_irq_enabled : bool
}.
#[export] Instance eta_serial : Eta serial := fun s =>
  mkSerial (receive_buf s) (receive_pos s) (transmit_buf s) (transmit_pos s)
    (transmit_max s) (tx_irq_enabled s).
Definition serial_zero : serial :=
  mkSerial (replicate (Z.to_nat RX_BUFFER_SIZE) 0) 0
    (replicate (Z.to_nat TX_BUFFER_SIZE) 0) 0 0 false.

(** ** Reception *)

(** The store to the buffer in [serial_rx_byte]; the wake up of the tasks is
    in [serial_rx_byte] itself. *)
Definition rx_store (data : Z) (s : serial) : serial :=
  if RX_BUFFER_SIZE <=? receive_pos s then s
  else s <| receive_buf := <[Z.to_nat (receive_pos s) := data]> (receive_buf s) |>
         <| receive_pos := u8 (receive_pos s + 1) |>.

Definition serial_rx_byte (data : Z) (s : serial) : M serial :=
  when (data =? MESSAGE_SYNC) sched_wake_tasks ;;
  mret (rx_store data s).

Fixpoint rx_bytes (data : list Z) (s : serial) : M serial :=
  match data with
  | [] => mret s
  | c :: data => s ← serial_rx_byte c s; rx_bytes data s
  end.

(** One pass of [console_pop_input]: what is copied for a given [rpos]. *)
Definition pop_copy (len copied rpos : Z) (s : serial) : Z * serial :=
  let needcopy := u8 (rpos - len) in
  if needcopy =? 0 then (copied, s)
  else (needcopy,
        s <| receive_buf ::= memmove (Z.to_nat copied) (Z.to_nat (copied + len))
                               (Z.to_nat (needcopy - copied)) |>).

(** One pass of the loop up to the moment interrupts are disabled.  The receive
    interrupt stores [early] between the reading of [receive_pos] and the
    copying, and [late] after the copying. *)
Definition pop_pass (early late : list Z) (len copied : Z) (s : serial) : M (Z * serial) :=
  let rpos := receive_pos s in
  s ← rx_bytes early s;
  let '(copied, s) := pop_copy len copied rpos s in
  when (negb (u8 (rpos - len) =? 0)) sched_wake_tasks ;;
  s ← rx_bytes late s;
  mret (copied, s).

(** The loop of [console_pop_input].  The [i]-th element of [irqs] is what
    arrives in its [i]-th pass; nothing arrives once it is empty. *)
Fixpoint pop_input_loop (irqs : list (list Z * list Z)) (len copied : Z) (s : serial)
    : M serial :=
  let rpos := receive_pos s in
  let needcopy := u8 (rpos - len) in
  let '(early, late) := default ([], []) (head irqs) in
  '(copied, s) ← pop_pass early late len copied s;
  match irqs with
  | _ :: irqs =>
      if negb (rpos =? receive_pos s) then pop_input_loop irqs len copied s
      else mret (s <| receive_pos := needcopy |>)
  | [] => mret (s <| receive_pos := needcopy |>)
  end.

Definition console_pop_input (irqs : list (list Z * list Z)) (len : Z) (s : serial) : M serial :=
  pop_input_loop irqs len 0 s.

Section Console.
Context `{Board}.
Variable command_index : list command_parser.
Variable irq_poll : M unit.
(** [CONFIG_HAVE_BOOTLOADER_REQUEST] and the board's [bootloader_request]. *)
Variable have_bootloader_request : bool.
Variable bootloader_request : M unit.

(** The 32 bytes that request the bootloader. *)
Definition bootloader_string : list Z :=
  [32; 0x1c; 32] ++ map (fun c => Z.of_nat (Ascii.nat_of_ascii c))
    (String.list_ascii_of_string "Request Serial Bootloader!! ~").

(** [console_task]; [during] arrives while the block is dispatched. *)
Definition console_task (during : list Z) (irqs : list (list Z * list Z)) (s : serial)
    : M serial :=
  let rpos := receive_pos s in
  '(ret, pop_count) ← command_find_block (take (Z.to_nat rpos) (receive_buf s));
  s ← (if 0 <? ret then
         command_dispatch command_index irq_poll (receive_buf s) pop_count ;;
         rx_bytes during s
       else mret s);
  if ret =? 0 then mret s
  else
    when (have_bootloader_request && (ret <? 0) && (pop_count =? 32)
          && bool_decide (take 32 (receive_buf s) = bootloader_string))
      bootloader_request ;;
    s ← console_pop_input irqs pop_count s;
    when (0 <? ret) command_send_ack ;;
    mret s.
End Console.

(** ** Transmission *)

(** [serial_get_tx_byte]: the byte, or [None] for the return value -1. *)
Definition serial_get_tx_byte (s : serial) : option Z * serial :=
  if transmit_max s <=? transmit_pos s then (None, s)
  else (Some (byte_at (transmit_buf s) (transmit_pos s)),
        s <| transmit_pos := u8 (transmit_pos s + 1) |>).

(** The transmit interrupt running [n] times: the bytes sent. *)
Fixpoint tx_irqs (n : nat) (s : serial) : list Z * serial :=
  match n with
  | O => ([], s)
  | S n =>
      match serial_get_tx_byte s with
      | (None, s) => ([], s)
      | (Some c, s) => let '(l, s) := tx_irqs n s in (c :: l, s)
      end
  end.

(** The part of [console_sendf] that finds room for a message of at most
    [max_size] bytes.  [n] bytes are sent between the reading of
    [transmit_pos] and the disabling of the transmit interrupt.  The result is
    the bytes sent meanwhile and the position for the message, if there is
    room. *)
Definition tx_reserve (n : nat) (max_size : Z) (s : serial) : list Z * option Z * serial :=
  let tpos := transmit_pos s in
  let tmax := transmit_max s in
  let '(tpos, tmax, s) :=
    if tmax <=? tpos
    then (0, 0, s <| transmit_max := 0 |> <| transmit_pos := 0 |>) else (tpos, tmax, s) in
  if TX_BUFFER_SIZE <? tmax + max_size then
    if TX_BUFFER_SIZE <? tmax + max_size - tpos then ([], None, s)
    else
      let '(out, s) := tx_irqs n s in
      let tpos := transmit_pos s in
      let tmax := tmax - tpos in
      (out, Some tmax,
       s <| transmit_buf ::= memmove 0 (Z.to_nat tpos) (Z.to_nat tmax) |>
         <| transmit_pos := 0 |> <| transmit_max := tmax |> <| tx_irq_enabled := true |>)
  else ([], Some tmax, s).

(** [console_sendf] for an encoder of maximum size [max_size] whose framed
    message is [msg] (from [command_encode_and_frame]). *)
Definition console_sendf (n : nat) (max_size : Z) (msg : list Z) (s : serial)
    : list Z * serial :=
  match tx_reserve n max_size s with
  | (out, None, s) => (out, s)
  | (out, Some tmax, s) =>
      (out, s <| transmit_buf ::= copy_to (Z.to_nat tmax) msg |>
              <| transmit_max := u8 (tmax + Z.of_nat (length msg)) |>
              <| tx_irq_enabled := true |>)
  end.
