(* ===== verification/CanSerial.v ===== *)
(** * The CAN bus console: src/src/generic/canserial.c and canbus.c

    Responses are cut into frames of at most eight bytes; frames addressed to
    this node fill a receive buffer, administrative frames a queue of eight.
    Frames are received by an interrupt.  As in the serial console, the
    interrupts that may occur in the middle of a task are explicit arguments:
    the messages that arrive at each such point. *)
From S2P Require Import Prelude Buffers Protocol World Sched Command.

Definition CANBUS_UUID_LEN : Z := 6.
Definition CANBUS_ID_ADMIN : Z := 0x3f0.
Definition CANBUS_ID_ADMIN_RESP : Z := 0x3f1.
Definition CANBUS_CMD_QUERY_UNASSIGNED : Z := 0x00.
Definition CANBUS_CMD_SET_KLIPPER_NODEID : Z := 0x01.
Definition CANBUS_CMD_REQUEST_BOOTLOADER : Z := 0x02.
Definition CANBUS_RESP_NEED_NODEID : Z := 0x20.

(** The sizes of the three arrays of [CanData]. *)
Definition ADMIN_QUEUE_SIZE : Z := 8.
Definition CAN_TX_SIZE : Z := 96.
Definition CAN_RX_SIZE : Z := 192.

Definition CANMSG_DATA_LEN (msg : canbus_msg) : Z := if 8 <? cm_dlc msg then 8 else cm_dlc msg.

(** [struct canbus_status] *)
Record canbus_status : Set := mkCanStatus {
  cs_rx_error : Z; cs_tx_error : Z; cs_tx_retries : Z; cs_bus_state : Z }.

(** The CAN driver of the board: the return value of the n-th call of
    [canhw_send] and the n-th status; the hash function of lib/fast-hash; the
    configuration and the entry to the bootloader. *)
Class CanHw := {
  canhw_send_result : nat -> canbus_msg -> Z;
  canhw_get_status : nat -> canbus_status;
  fasthash64 : list Z -> Z -> Z;
  HAVE_BOOTLOADER_REQUEST : bool;
  bootloader_request : M unit
}.

(** Access to [CanData]. *)
Definition can {A} (f : canbus_data -> A) : M A := gets (fun w => f (candata w)).
Definition set_can (g : canbus_data -> canbus_data) : M unit :=
  modify (fun w => w <| candata ::= g |>).

(** What canserial.c needs of the file that connects it to the hardware:
    canbus.c below or generic/usb_canbus.c. *)
Class CanBus := {
  cb_send : canbus_msg -> M Z;
  cb_set_filter : Z -> M unit
}.

(** ** canbus.c *)

Section Canbus.
Context `{CanHw}.

(** A frame is on its way unless the result is negative. *)
Definition canhw_send (msg : canbus_msg) : M Z :=
  n ← gets io_calls;
  let ret := canhw_send_result n msg in
  modify (fun w => w <| io_calls ::= S |>) ;;
  when (0 <=? ret) (hw (HwCanSend msg)) ;;
  mret ret.

Definition canbus_send (msg : canbus_msg) : M Z := canhw_send msg.

Definition canbus_set_filter (id : Z) : M unit := hw (HwCanFilter id).

#[export] Instance canbus_c : CanBus := {| cb_send := canbus_send; cb_set_filter := canbus_set_filter |}.
End Canbus.

Section CanSerial.
Context `{Board} `{CanHw} `{CanBus}.

(** ** Data transmission *)

Definition canserial_notify_tx : M unit := sched_wake_task can_tx_wake.

(** The notification of canbus.c. *)
Definition canbus_notify_tx : M unit := canserial_notify_tx.

(** The loop of [canserial_tx_task]: the new [tpos]. *)
Fixpoint can_tx_loop (fuel : nat) (id tpos tmax : Z) : M Z :=
  let avail := s32 (tmax - tpos) in
  let now := if 8 <? avail then 8 else avail in
  if avail <=? 0 then mret tpos
  else
    match fuel with
    | O => fault
    | S fuel =>
        buf ← can cd_transmit_buf;
        ret ← cb_send (mkCanMsg id now (window tpos (tpos + now) buf));
        if ret <=? 0 then mret tpos else can_tx_loop fuel id (u32 (tpos + now)) tmax
    end.

(** Every iteration but the last sends at least one of the 96 bytes. *)
Definition canserial_tx_task : M unit :=
  wake ← sched_check_wake can_tx_wake;
  if negb wake then mret tt
  else
    id ← can cd_assigned_id;
    if id =? 0 then set_can (fun c => c <| cd_transmit_max := 0 |> <| cd_transmit_pos := 0 |>)
    else
      tpos ← can cd_transmit_pos;
      tmax ← can cd_transmit_max;
      tpos ← can_tx_loop (Z.to_nat CAN_TX_SIZE) (u32 (id + 1)) tpos tmax;
      set_can (fun c => c <| cd_transmit_pos := u8 tpos |>).

(** [console_sendf] for an encoder of maximum size [max_size] whose framed
    message is [msg] (from [command_encode_and_frame]). *)
Definition can_console_sendf (max_size : Z) (msg : list Z) : M unit :=
  tpos ← can cd_transmit_pos;
  tmax ← can cd_transmit_max;
  '(tpos, tmax) ←
    (if tmax <=? tpos then
       set_can (fun c => c <| cd_transmit_max := 0 |> <| cd_transmit_pos := 0 |>) ;;
       mret (0, 0)
     else mret (tpos, tmax));
  let finish (tmax : Z) : M unit :=
    set_can (fun c => c <| cd_transmit_buf ::= copy_to (Z.to_nat tmax) msg |>
                        <| cd_transmit_max := u8 (tmax + Z.of_nat (length msg)) |>) ;;
    canserial_notify_tx in
  if CAN_TX_SIZE <? tmax + max_size then
    if CAN_TX_SIZE <? tmax + max_size - tpos then mret tt
    else
      let tmax := tmax - tpos in
      set_can (fun c =>
        c <| cd_transmit_buf ::= memmove 0 (Z.to_nat tpos) (Z.to_nat tmax) |>
          <| cd_transmit_pos := 0 |> <| cd_transmit_max := u8 tmax |>) ;;
      finish tmax
  else finish tmax.

(** ** Administrative commands *)

Definition can_check_uuid (msg : canbus_msg) : M bool :=
  uuid ← can cd_uuid;
  mret ((7 <=? cm_dlc msg)
        && bool_decide (take (Z.to_nat CANBUS_UUID_LEN) (drop 1 (cm_data msg)) = uuid)).

Definition can_get_nodeid : M Z :=
  id ← can cd_assigned_id;
  if id =? 0 then mret 0 else mret (s32 (Z.shiftr (u32 (id - 0x100)) 1)).

Definition can_decode_nodeid (nodeid : Z) : Z := u32 (Z.shiftl nodeid 1 + 0x100).

(** The loop that sends with retry; [spin_limit] bounds the polls. *)
Fixpoint send_retry (fuel : nat) (msg : canbus_msg) : M unit :=
  match fuel with
  | O => fault
  | S fuel =>
      ret ← cb_send msg;
      if 0 <=? ret then mret tt else send_retry fuel msg
  end.

Definition can_process_query_unassigned (msg : canbus_msg) : M unit :=
  id ← can cd_assigned_id;
  if negb (id =? 0) then mret tt
  else
    uuid ← can cd_uuid;
    send_retry spin_limit
      (mkCanMsg CANBUS_ID_ADMIN_RESP 8
         ([CANBUS_RESP_NEED_NODEID] ++ uuid ++ [CANBUS_CMD_SET_KLIPPER_NODEID])).

Definition can_id_conflict : M unit :=
  set_can (fun c => c <| cd_assigned_id := 0 |>) ;;
  id ← can cd_assigned_id;
  cb_set_filter id ;;
  shutdown "Another CAN node assigned this ID".

Definition can_process_set_klipper_nodeid (msg : canbus_msg) : M unit :=
  if cm_dlc msg <? 8 then mret tt
  else
    let newid := can_decode_nodeid (byte_at (cm_data msg) 7) in
    ours ← can_check_uuid msg;
    id ← can cd_assigned_id;
    if (ours : bool) then
      when (negb (newid =? id))
        (set_can (fun c => c <| cd_assigned_id := newid |>) ;;
         id ← can cd_assigned_id;
         cb_set_filter id)
    else when (newid =? id) can_id_conflict.

Definition can_process_request_bootloader (msg : canbus_msg) : M unit :=
  ours ← can_check_uuid msg;
  if negb HAVE_BOOTLOADER_REQUEST || negb ours then mret tt else bootloader_request.

Definition can_process_admin (msg : canbus_msg) : M unit :=
  if cm_dlc msg =? 0 then mret tt
  else
    let cmd := byte_at (cm_data msg) 0 in
    if cmd =? CANBUS_CMD_QUERY_UNASSIGNED then can_process_query_unassigned msg
    else if cmd =? CANBUS_CMD_SET_KLIPPER_NODEID then can_process_set_klipper_nodeid msg
    else when (cmd =? CANBUS_CMD_REQUEST_BOOTLOADER) (can_process_request_bootloader msg).

(** ** Packet reading *)

Definition canserial_notify_rx : M unit := sched_wake_task can_rx_wake.

(** Called from the interrupt handler. *)
Definition canserial_process_data (msg : canbus_msg) : M unit :=
  let id := cm_id msg in
  assigned ← can cd_assigned_id;
  if negb (assigned =? 0) && (id =? assigned) then
    rpos ← can cd_receive_pos;
    let len := CANMSG_DATA_LEN msg in
    if u32 (CAN_RX_SIZE - rpos) <? len then mret tt
    else
      set_can (fun c =>
        c <| cd_receive_buf ::= copy_to (Z.to_nat rpos) (take (Z.to_nat len) (cm_data msg)) |>
          <| cd_receive_pos := u8 (rpos + len) |>) ;;
      canserial_notify_rx
  else if (id =? CANBUS_ID_ADMIN)
          || (negb (assigned =? 0) && (id =? u32 (assigned + 1))) then
    pushp ← can cd_admin_push_pos;
    pullp ← can cd_admin_pull_pos;
    if u32 (pullp + ADMIN_QUEUE_SIZE) <=? pushp then mret tt
    else
      let pos := pushp mod ADMIN_QUEUE_SIZE in
      set_can (fun c => c <| cd_admin_queue ::= <[Z.to_nat pos := msg]> |>
                          <| cd_admin_push_pos := u32 (pushp + 1) |>) ;;
      canserial_notify_rx
  else mret tt.

Definition canbus_process_data (msg : canbus_msg) : M unit := canserial_process_data msg.

(** The receive interrupt running once per message. *)
Fixpoint can_irqs (msgs : list canbus_msg) : M unit :=
  match msgs with
  | [] => mret tt
  | msg :: msgs => canbus_process_data msg ;; can_irqs msgs
  end.

(** The copying in [console_pop_input]: the new [copied]. *)
Definition can_pop_copy (len copied rpos : Z) : M Z :=
  let needcopy := rpos - len in
  if needcopy =? 0 then mret copied
  else
    set_can (fun c => c <| cd_receive_buf ::=
      memmove (Z.to_nat copied) (Z.to_nat (copied + len)) (Z.to_nat (needcopy - copied)) |>) ;;
    canserial_notify_rx ;;
    mret needcopy.

(** One pass of its loop up to the moment interrupts are disabled; [early] and
    [late] are received before and after the copying. *)
Definition can_pop_pass (early late : list canbus_msg) (len copied : Z) : M Z :=
  rpos ← can cd_receive_pos;
  can_irqs early ;;
  copied ← can_pop_copy len copied rpos;
  can_irqs late ;;
  mret copied.

(** The loop of [console_pop_input]; the [i]-th element of [irqs] is what is
    received in its [i]-th pass, nothing once it is empty. *)
Fixpoint can_pop_loop (irqs : list (list canbus_msg * list canbus_msg)) (len copied : Z)
    : M unit :=
  rpos ← can cd_receive_pos;
  let needcopy := rpos - len in
  let '(early, late) := default ([], []) (head irqs) in
  copied ← can_pop_pass early late len copied;
  now ← can cd_receive_pos;
  match irqs with
  | _ :: irqs =>
      if negb (rpos =? now) then can_pop_loop irqs len copied
      else set_can (fun c => c <| cd_receive_pos := u8 needcopy |>)
  | [] => set_can (fun c => c <| cd_receive_pos := u8 needcopy |>)
  end.

Definition can_pop_input irqs (len : Z) : M unit := can_pop_loop irqs len 0.

(** One queued administrative message. *)
Definition can_admin_message (msg : canbus_msg) : M unit :=
  let id := cm_id msg in
  assigned ← can cd_assigned_id;
  if negb (assigned =? 0) && (id =? u32 (assigned + 1)) then can_id_conflict
  else when (id =? CANBUS_ID_ADMIN) (can_process_admin msg).

(** The loop over them.  The [i]-th element of [irqs] is what is received in
    the [i]-th pass before the reading of [admin_push_pos] and before the
    store to [admin_pull_pos]; the loop ends when the queue is empty. *)
Fixpoint can_admin_loop (fuel : nat) (irqs : list (list canbus_msg * list canbus_msg)) : M unit :=
  let '(early, late) := default ([], []) (head irqs) in
  can_irqs early ;;
  pushp ← can cd_admin_push_pos;
  pullp ← can cd_admin_pull_pos;
  if pushp =? pullp then mret tt
  else
    match fuel with
    | O => fault
    | S fuel =>
        q ← can cd_admin_queue;
        msg ← deref (q !! Z.to_nat (pullp mod ADMIN_QUEUE_SIZE));
        can_admin_message msg ;;
        can_irqs late ;;
        set_can (fun c => c <| cd_admin_pull_pos := u32 (pullp + 1) |>) ;;
        can_admin_loop fuel (tail irqs)
    end.

Section RxTask.
(** The command table and [irq_poll], from the build and the board. *)
Variable command_index : list command_parser.
Variable irq_poll : M unit.

(** [canserial_rx_task]; [admin], [during] and [pop] are received in the loop
    over administrative messages, while a block is dispatched, and while it
    is removed. *)
Definition canserial_rx_task (fuel : nat) (admin : list (list canbus_msg * list canbus_msg))
    (during : list canbus_msg) (pop : list (list canbus_msg * list canbus_msg)) : M unit :=
  wake ← sched_check_wake can_rx_wake;
  if negb wake then mret tt
  else
    can_admin_loop fuel admin ;;
    rpos ← can cd_receive_pos;
    buf ← can cd_receive_buf;
    '(ret, pop_count) ← command_find_block (take (Z.to_nat rpos) buf);
    when (0 <? ret) (command_dispatch command_index irq_poll buf pop_count) ;;
    can_irqs during ;;
    when (negb (ret =? 0))
      (can_pop_input pop pop_count ;;
       when (0 <? ret) command_send_ack).
End RxTask.

(** ** Setup and shutdown *)

Definition command_get_canbus_status (args : list Z) : M unit :=
  n ← gets io_calls;
  modify (fun w => w <| io_calls ::= S |>) ;;
  let status := canhw_get_status n in
  sendf "canbus_status rx_error=%u tx_error=%u tx_retries=%u canbus_bus_state=%u"
    [AInt (cs_rx_error status); AInt (cs_tx_error status); AInt (cs_tx_retries status);
     AInt (cs_bus_state status)].

Definition command_get_canbus_id (args : list Z) : M unit :=
  uuid ← can cd_uuid;
  nodeid ← can_get_nodeid;
  sendf "canbus_id canbus_uuid=%.*s canbus_nodeid=%u" [ABytes uuid; AInt nodeid].

(** The first six bytes of the hash, in the order of a little endian machine. *)
Definition canserial_set_uuid (raw_uuid : list Z) : M unit :=
  let hash := fasthash64 raw_uuid 0xA16231A7 in
  set_can (fun c => c <| cd_uuid := map (fun i => u8 (Z.shiftr hash (8 * i))) [0; 1; 2; 3; 4; 5] |>) ;;
  canserial_notify_rx.

Definition canserial_shutdown : M unit := canserial_notify_tx ;; canserial_notify_rx.
End CanSerial.
