(* ===== verification/UsbCdc.v ===== *)
(** * The USB console: src/src/generic/usb_cdc.c

    A serial port over USB: the bulk endpoints carry the byte streams of the
    protocol, endpoint zero the control requests of the host.  The driver of
    the board only wakes the tasks, so a task runs without interference. *)
From S2P Require Import Prelude Buffers Protocol World Sched Command.

(** ** Constants of usbstd.h, usbstd_cdc.h and usb_cdc_ep.h *)

Definition USB_DIR_IN : Z := 0x80.
Definition USB_REQ_SET_ADDRESS : Z := 0x05.
Definition USB_REQ_GET_DESCRIPTOR : Z := 0x06.
Definition USB_REQ_SET_CONFIGURATION : Z := 0x09.
Definition USB_DT_DEVICE : Z := 0x01.
Definition USB_DT_CONFIG : Z := 0x02.
Definition USB_DT_STRING : Z := 0x03.
Definition USB_DT_INTERFACE : Z := 0x04.
Definition USB_DT_ENDPOINT : Z := 0x05.
Definition USB_CLASS_COMM : Z := 2.
Definition USB_ENDPOINT_XFER_BULK : Z := 2.
Definition USB_ENDPOINT_XFER_INT : Z := 3.
Definition USB_LANGID_ENGLISH_US : Z := 0x0409.
Definition USB_CDC_SUBCLASS_ACM : Z := 0x02.
Definition USB_CDC_ACM_PROTO_AT_V25TER : Z := 1.
Definition USB_CDC_HEADER_TYPE : Z := 0x00.
Definition USB_CDC_ACM_TYPE : Z := 0x02.
Definition USB_CDC_UNION_TYPE : Z := 0x06.
Definition USB_CDC_CS_INTERFACE : Z := 0x24.
Definition USB_CDC_REQ_SET_LINE_CODING : Z := 0x20.
Definition USB_CDC_REQ_GET_LINE_CODING : Z := 0x21.
Definition USB_CDC_REQ_SET_CONTROL_LINE_STATE : Z := 0x22.
Definition USB_STR_ID_MANUFACTURER : Z := 1.
Definition USB_STR_ID_PRODUCT : Z := 2.
Definition USB_STR_ID_SERIAL : Z := 3.
Definition USB_CDC_EP_BULK_IN : Z := 1.
Definition USB_CDC_EP_BULK_OUT : Z := 2.
Definition USB_CDC_EP_ACM : Z := 3.
Definition USB_CDC_EP0_SIZE : Z := 16.
Definition USB_CDC_EP_ACM_SIZE : Z := 8.
Definition USB_CDC_EP_BULK_OUT_SIZE : Z := 64.
Definition USB_CDC_EP_BULK_IN_SIZE : Z := 64.
Definition UX_READ : Z := 1.
Definition UX_SEND : Z := 2.
Definition UX_SEND_PROGMEM : Z := 4.
Definition UX_SEND_ZLP : Z := 8.

(** [sizeof(transmit_buf)], [sizeof(receive_buf)], [sizeof(line_coding)] *)
Definition USB_TX_SIZE : Z := 192.
Definition USB_RX_SIZE : Z := 128.
Definition LINE_CODING_SIZE : Z := 7.

(** [struct usb_ctrlrequest] *)
Record usb_ctrlrequest : Set := mkReq {
  rq_bRequestType : Z; rq_bRequest : Z; rq_wValue : Z; rq_wIndex : Z; rq_wLength : Z }.

(** The USB driver of the board: the results of the n-th call of a function.
    Reading returns a count and the bytes stored.  Then the configuration: the
    strings of the build, as characters, the serial number descriptor of the
    chip, and the entry to the bootloader. *)
Class UsbHw := {
  usb_send_bulk_in_result : nat -> list Z -> Z;
  usb_read_bulk_out_result : nat -> Z -> Z * list Z;
  usb_read_ep0_result : nat -> Z -> Z * list Z;
  usb_read_ep0_setup_result : nat -> Z * usb_ctrlrequest;
  usb_send_ep0_result : nat -> bool -> list Z -> Z;
  NEED_PROGMEM : bool;
  CONFIG_USB_VENDOR_ID : Z;
  CONFIG_USB_DEVICE_ID : Z;
  CONFIG_MCU : list Z;
  CONFIG_USB_SERIAL_NUMBER : list Z;
  CONFIG_USB_SERIAL_NUMBER_CHIPID : bool;
  usbserial_serialid : list Z;
  CONFIG_HAVE_BOOTLOADER_REQUEST : bool;
  usb_bootloader_request : M unit
}.

(** Access to the static variables. *)
Definition usb {A} (f : usb_cdc -> A) : M A := gets (fun w => f (usbcdc w)).
Definition set_usb (g : usb_cdc -> usb_cdc) : M unit := modify (fun w => w <| usbcdc ::= g |>).

(** The number of the present call of the driver. *)
Definition next_call : M nat := n ← gets io_calls; modify (fun w => w <| io_calls ::= S |>) ;; mret n.

Section UsbCdc.
Context `{UsbHw}.

(** The calls of the driver that send; a packet is on its way unless the
    result is negative. *)
Definition usb_send_bulk_in (data : list Z) : M Z :=
  n ← next_call;
  let ret := usb_send_bulk_in_result n data in
  when (0 <=? ret) (hw (HwUsbBulkIn data)) ;; mret ret.

Definition usb_send_ep0 (progmem : bool) (data : list Z) : M Z :=
  n ← next_call;
  let ret := usb_send_ep0_result n progmem data in
  when (0 <=? ret) (hw (HwUsbEp0 data)) ;; mret ret.

(** ** Message block sending *)

Definition usb_notify_bulk_in : M unit := sched_wake_task usb_bulk_in_wake.

Definition usb_bulk_in_task : M unit :=
  wake ← sched_check_wake usb_bulk_in_wake;
  if negb wake then mret tt
  else
    tpos ← usb ub_transmit_pos;
    if tpos =? 0 then mret tt
    else
      let max_tpos :=
        if USB_CDC_EP_BULK_IN_SIZE <? tpos then USB_CDC_EP_BULK_IN_SIZE
        else if tpos =? USB_CDC_EP_BULK_IN_SIZE then USB_CDC_EP_BULK_IN_SIZE - 1 else tpos in
      buf ← usb ub_transmit_buf;
      ret ← usb_send_bulk_in (take (Z.to_nat max_tpos) buf);
      if ret <=? 0 then mret tt
      else
        let needcopy := tpos - ret in
        when (negb (needcopy =? 0))
          (set_usb (fun u => u <| ub_transmit_buf ::= memmove 0 (Z.to_nat ret) (Z.to_nat needcopy) |>) ;;
           usb_notify_bulk_in) ;;
        set_usb (fun u => u <| ub_transmit_pos := u8 needcopy |>).

(** [console_sendf] for an encoder of maximum size [max_size] whose framed
    message is [msg] (from [command_encode_and_frame]). *)
Definition usb_console_sendf (max_size : Z) (msg : list Z) : M unit :=
  tpos ← usb ub_transmit_pos;
  if USB_TX_SIZE <? tpos + max_size then mret tt
  else
    set_usb (fun u => u <| ub_transmit_buf ::= copy_to (Z.to_nat tpos) msg |>
                        <| ub_transmit_pos := u8 (tpos + Z.of_nat (length msg)) |>) ;;
    usb_notify_bulk_in.

(** ** Message block reading *)

Definition usb_notify_bulk_out : M unit := sched_wake_task usb_bulk_out_wake.

(** The reading at the start of [usb_bulk_out_task]: the new [rpos]. *)
Definition usb_fill : M Z :=
  rpos ← usb ub_receive_pos;
  if rpos + USB_CDC_EP_BULK_OUT_SIZE <=? USB_RX_SIZE then
    n ← next_call;
    let '(ret, data) := usb_read_bulk_out_result n USB_CDC_EP_BULK_OUT_SIZE in
    if 0 <? ret then
      set_usb (fun u => u <| ub_receive_buf ::= copy_to (Z.to_nat rpos) data |>) ;;
      usb_notify_bulk_out ;; mret (rpos + ret)
    else mret rpos
  else usb_notify_bulk_out ;; mret rpos.

Section BulkOut.
(** The command table and [irq_poll], from the build and the board. *)
Variable command_index : list command_parser.
Variable irq_poll : M unit.

Definition usb_bulk_out_task : M unit :=
  wake ← sched_check_wake usb_bulk_out_wake;
  if negb wake then mret tt
  else
    rpos ← usb_fill;
    buf ← usb ub_receive_buf;
    '(ret, pop_count) ← command_find_and_dispatch command_index irq_poll (take (Z.to_nat rpos) buf);
    rpos ←
      (if ret =? 0 then mret rpos
       else
         let needcopy := rpos - pop_count in
         when (negb (needcopy =? 0))
           (set_usb (fun u => u <| ub_receive_buf ::=
              memmove 0 (Z.to_nat pop_count) (Z.to_nat needcopy) |>) ;;
            usb_notify_bulk_out) ;;
         mret needcopy);
    set_usb (fun u => u <| ub_receive_pos := u8 rpos |>).
End BulkOut.

(** ** Descriptors *)

(** [cpu_to_le16] in memory, and a string descriptor. *)
Definition le16 (x : Z) : list Z := [u8 x; u8 (Z.shiftr x 8)].
Definition string_descriptor (data : list Z) : list Z :=
  let bytes := concat (map le16 data) in
  [2 + Z.of_nat (length bytes); USB_DT_STRING] ++ bytes.

Definition cdc_string_langids : list Z := string_descriptor [USB_LANGID_ENGLISH_US].
Definition cdc_string_manufacturer : list Z :=
  string_descriptor (map (fun c => Z.of_nat (Ascii.nat_of_ascii c)) (String.list_ascii_of_string "Klipper")).
Definition cdc_string_product : list Z := string_descriptor CONFIG_MCU.
Definition cdc_string_serial : list Z := string_descriptor CONFIG_USB_SERIAL_NUMBER.

Definition cdc_device_descriptor : list Z :=
  [18; USB_DT_DEVICE] ++ le16 0x0200 ++ [USB_CLASS_COMM; 0; 0; USB_CDC_EP0_SIZE]
  ++ le16 CONFIG_USB_VENDOR_ID ++ le16 CONFIG_USB_DEVICE_ID ++ le16 0x0100
  ++ [USB_STR_ID_MANUFACTURER; USB_STR_ID_PRODUCT; USB_STR_ID_SERIAL; 1].

Definition cdc_config_descriptor : list Z :=
  (* config *) [9; USB_DT_CONFIG] ++ le16 62 ++ [2; 1; 0; 0xC0; 50]
  ++ (* iface0 *) [9; USB_DT_INTERFACE; 0; 0; 1; USB_CLASS_COMM; USB_CDC_SUBCLASS_ACM;
                   USB_CDC_ACM_PROTO_AT_V25TER; 0]
  ++ (* cdc_hdr *) [5; USB_CDC_CS_INTERFACE; USB_CDC_HEADER_TYPE] ++ le16 0x0110
  ++ (* cdc_acm *) [4; USB_CDC_CS_INTERFACE; USB_CDC_ACM_TYPE; 0x06]
  ++ (* cdc_union *) [5; USB_CDC_CS_INTERFACE; USB_CDC_UNION_TYPE; 0; 1]
  ++ (* ep1 *) [7; USB_DT_ENDPOINT; Z.lor USB_CDC_EP_ACM USB_DIR_IN; USB_ENDPOINT_XFER_INT]
               ++ le16 USB_CDC_EP_ACM_SIZE ++ [255]
  ++ (* iface1 *) [9; USB_DT_INTERFACE; 1; 0; 2; 0x0A; 0; 0; 0]
  ++ (* ep2 *) [7; USB_DT_ENDPOINT; USB_CDC_EP_BULK_OUT; USB_ENDPOINT_XFER_BULK]
               ++ le16 USB_CDC_EP_BULK_OUT_SIZE ++ [0]
  ++ (* ep3 *) [7; USB_DT_ENDPOINT; Z.lor USB_CDC_EP_BULK_IN USB_DIR_IN; USB_ENDPOINT_XFER_BULK]
               ++ le16 USB_CDC_EP_BULK_IN_SIZE ++ [0].

(** [struct descriptor_s]; [desc] and [size] as the bytes. *)
Record descriptor_s : Set := mkDescriptor { d_wValue : Z; d_wIndex : Z; d_desc : list Z }.

Definition cdc_descriptors : list descriptor_s :=
  [ mkDescriptor (Z.shiftl USB_DT_DEVICE 8) 0 cdc_device_descriptor;
    mkDescriptor (Z.shiftl USB_DT_CONFIG 8) 0 cdc_config_descriptor;
    mkDescriptor (Z.shiftl USB_DT_STRING 8) 0 cdc_string_langids;
    mkDescriptor (Z.lor (Z.shiftl USB_DT_STRING 8) USB_STR_ID_MANUFACTURER) USB_LANGID_ENGLISH_US
      cdc_string_manufacturer;
    mkDescriptor (Z.lor (Z.shiftl USB_DT_STRING 8) USB_STR_ID_PRODUCT) USB_LANGID_ENGLISH_US
      cdc_string_product ]
  ++ (if CONFIG_USB_SERIAL_NUMBER_CHIPID then []
      else [ mkDescriptor (Z.lor (Z.shiftl USB_DT_STRING 8) USB_STR_ID_SERIAL) USB_LANGID_ENGLISH_US
               cdc_string_serial ]).

(** [usb_fill_serial]: the hexadecimal digits of a chip id. *)
Definition usb_fill_serial (strlen : Z) (id : list Z) : list Z :=
  [u8 (2 + strlen * 2); USB_DT_STRING]
  ++ concat (map (fun i =>
       let b := byte_at id (i / 2) in
       let c := if flag i 1 then Z.land b 0x0f else Z.shiftr b 4 in
       le16 (if c <? 10 then c + 48 else c - 10 + 65)) (seqZ 0 strlen)).

(** ** Control transfers *)

Definition usb_notify_ep0 : M unit := sched_wake_task usb_ep0_wake.

Definition usb_do_stall : M unit :=
  hw HwUsbStall ;; set_usb (fun u => u <| ub_xfer_flags := 0 |>).

(** The bytes a transfer pointer points into. *)
Definition usb_bytes (r : usb_region) : M (list Z) :=
  match r with
  | UR_null => mret []
  | UR_const data => mret data
  | UR_serialid => mret usbserial_serialid
  | UR_line_coding => usb ub_line_coding
  | UR_gs v => usb (fun u => ub_gs u v)
  end.

(** [ub_gs] with one variable changed. *)
Definition set_gs (v : gs_var) (f : list Z -> list Z) (g : gs_var -> list Z) (x : gs_var) : list Z :=
  match v, x with
  | GS_host_config, GS_host_config | GS_device_bittiming, GS_device_bittiming
  | GS_device_mode, GS_device_mode => f (g x)
  | _, _ => g x
  end.

(** [usb_read_ep0(data, xs)]; only variables are ever read into. *)
Definition usb_read_ep0 (r : usb_region) (off xs : Z) : M Z :=
  n ← next_call;
  let '(ret, data) := usb_read_ep0_result n xs in
  match r with
  | UR_line_coding =>
      when (0 <=? ret)
        (set_usb (fun u => u <| ub_line_coding ::= copy_to (Z.to_nat off) data |>)) ;; mret ret
  | UR_gs v =>
      when (0 <=? ret)
        (set_usb (fun u => u <| ub_gs ::= set_gs v (copy_to (Z.to_nat off) data) |>)) ;; mret ret
  | _ => fault
  end.

(** [usb_do_xfer]; the data pointer is a region and an offset.  Every pass but
    the last two transfers at least one byte. *)
Fixpoint do_xfer_loop (fuel : nat) (r : usb_region) (off size flags : Z) : M unit :=
  match fuel with
  | O => fault
  | S fuel =>
      let xs := if USB_CDC_EP0_SIZE <? size then USB_CDC_EP0_SIZE else size in
      bytes ← usb_bytes r;
      ret ← (if flag flags UX_READ then usb_read_ep0 r off xs
             else usb_send_ep0 (NEED_PROGMEM && flag flags UX_SEND_PROGMEM)
                    (window off (off + xs) bytes));
      if ret =? xs then
        let off := off + xs in
        let size := size - xs in
        if size =? 0 then
          if flag flags UX_READ then do_xfer_loop fuel r off size UX_SEND
          else if (xs =? USB_CDC_EP0_SIZE) && flag flags UX_SEND_ZLP
          then do_xfer_loop fuel r off size flags
          else set_usb (fun u => u <| ub_xfer_flags := 0 |>) ;; usb_notify_ep0
        else do_xfer_loop fuel r off size flags
      else if ret =? -1 then
        set_usb (fun u => u <| ub_xfer_data := (r, off) |> <| ub_xfer_size := u8 size |>
                            <| ub_xfer_flags := u8 flags |>)
      else usb_do_stall
  end.

Definition usb_do_xfer (r : usb_region) (off size flags : Z) : M unit :=
  do_xfer_loop (Z.to_nat size + 3) r off size flags.

(** The search in [usb_req_get_descriptor]; the last match wins. *)
Fixpoint find_descriptor (ds : list descriptor_s) (req : usb_ctrlrequest)
    : option (usb_region * Z) :=
  match ds with
  | [] => None
  | d :: ds =>
      match find_descriptor ds req with
      | Some x => Some x
      | None =>
          if (d_wValue d =? rq_wValue req) && (d_wIndex d =? rq_wIndex req)
          then Some (UR_const (d_desc d), Z.of_nat (length (d_desc d))) else None
      end
  end.

Definition usb_req_get_descriptor (ds : list descriptor_s) (req : usb_ctrlrequest) : M unit :=
  if negb (rq_bRequestType req =? USB_DIR_IN) then usb_do_stall
  else
    let found := find_descriptor ds req in
    let flags := if NEED_PROGMEM then UX_SEND_PROGMEM else UX_SEND in
    let desc :=
      if CONFIG_USB_SERIAL_NUMBER_CHIPID
         && (rq_wValue req =? Z.lor (Z.shiftl USB_DT_STRING 8) USB_STR_ID_SERIAL)
         && (rq_wIndex req =? USB_LANGID_ENGLISH_US)
      then Some (UR_serialid, byte_at usbserial_serialid 0, UX_SEND)
      else (fun d => (d, flags)) <$> found in
    match desc with
    | Some (r, size, flags) =>
        if rq_wLength req <? size then usb_do_xfer r 0 (rq_wLength req) flags
        else if size <? rq_wLength req then usb_do_xfer r 0 size (Z.lor flags UX_SEND_ZLP)
        else usb_do_xfer r 0 size flags
    | None => usb_do_stall
    end.

Definition usb_req_set_address (req : usb_ctrlrequest) : M unit :=
  if negb (rq_bRequestType req =? 0) || negb (rq_wIndex req =? 0) || negb (rq_wLength req =? 0)
  then usb_do_stall
  else hw (HwUsbAddress (rq_wValue req)).

Definition usb_req_set_configuration (req : usb_ctrlrequest) : M unit :=
  if negb (rq_bRequestType req =? 0) || negb (rq_wValue req =? 1) || negb (rq_wIndex req =? 0)
     || negb (rq_wLength req =? 0)
  then usb_do_stall
  else
    hw HwUsbConfigure ;;
    usb_notify_bulk_in ;;
    usb_notify_bulk_out ;;
    usb_do_xfer UR_null 0 0 UX_SEND.

(** [line_coding.dwDTERate] *)
Definition dwDTERate (line : list Z) : Z :=
  byte_at line 0 + Z.shiftl (byte_at line 1) 8 + Z.shiftl (byte_at line 2) 16
  + Z.shiftl (byte_at line 3) 24.

Definition check_reboot : M unit :=
  if negb CONFIG_HAVE_BOOTLOADER_REQUEST then mret tt
  else
    line ← usb ub_line_coding;
    state ← usb ub_line_control_state;
    when ((dwDTERate line =? 1200) && negb (flag state 0x01)) usb_bootloader_request.

Definition usb_req_set_line_coding (req : usb_ctrlrequest) : M unit :=
  if negb (rq_bRequestType req =? 0x21) || negb (rq_wValue req =? 0) || negb (rq_wIndex req =? 0)
     || negb (rq_wLength req =? LINE_CODING_SIZE)
  then usb_do_stall
  else usb_do_xfer UR_line_coding 0 LINE_CODING_SIZE UX_READ ;; check_reboot.

Definition usb_req_get_line_coding (req : usb_ctrlrequest) : M unit :=
  if negb (rq_bRequestType req =? 0xa1) || negb (rq_wValue req =? 0) || negb (rq_wIndex req =? 0)
     || (rq_wLength req <? LINE_CODING_SIZE)
  then usb_do_stall
  else usb_do_xfer UR_line_coding 0 LINE_CODING_SIZE UX_SEND.

Definition usb_req_set_line (req : usb_ctrlrequest) : M unit :=
  if negb (rq_bRequestType req =? 0x21) || negb (rq_wIndex req =? 0) || negb (rq_wLength req =? 0)
  then usb_do_stall
  else
    set_usb (fun u => u <| ub_line_control_state := u8 (rq_wValue req) |>) ;;
    usb_do_xfer UR_null 0 0 UX_SEND ;;
    check_reboot.

Definition usb_state_ready : M unit :=
  n ← next_call;
  let '(ret, req) := usb_read_ep0_setup_result n in
  if negb (ret =? 8) then mret tt
  else
    let r := rq_bRequest req in
    if r =? USB_REQ_GET_DESCRIPTOR then usb_req_get_descriptor cdc_descriptors req
    else if r =? USB_REQ_SET_ADDRESS then usb_req_set_address req
    else if r =? USB_REQ_SET_CONFIGURATION then usb_req_set_configuration req
    else if r =? USB_CDC_REQ_SET_LINE_CODING then usb_req_set_line_coding req
    else if r =? USB_CDC_REQ_GET_LINE_CODING then usb_req_get_line_coding req
    else if r =? USB_CDC_REQ_SET_CONTROL_LINE_STATE then usb_req_set_line req
    else usb_do_stall.

Definition usb_ep0_task : M unit :=
  wake ← sched_check_wake usb_ep0_wake;
  if negb wake then mret tt
  else
    flags ← usb ub_xfer_flags;
    if negb (flags =? 0) then
      '(r, off) ← usb ub_xfer_data;
      size ← usb ub_xfer_size;
      usb_do_xfer r off size flags
    else usb_state_ready.

Definition usb_shutdown : M unit :=
  usb_notify_bulk_in ;; usb_notify_bulk_out ;; usb_notify_ep0.
End UsbCdc.
