(* ===== verification/UsbCanbus.v ===== *)
(** * The USB to CAN bridge: src/src/generic/usb_canbus.c

    A node that is also the CAN adapter of the host: frames of the host go to
    the bus, to the node itself, or both; frames of the bus and the node's own
    go to the host.  The frames of the bus arrive in an interrupt; those that
    may arrive in the middle of the task that consumes them are explicit
    arguments.  The other interrupts only wake the task.  The file takes the
    place of canbus.c and usb_cdc.c, whose names it declares again. *)
From S2P Require Import Prelude Buffers Protocol World Sched Command CanSerial UsbCdc.

(** ** The "gs_usb" protocol *)

Definition USB_GSUSB_1_VENDOR_ID : Z := 0x1d50.
Definition USB_GSUSB_1_PRODUCT_ID : Z := 0x606f.
Definition GS_USB_BREQ_HOST_FORMAT : Z := 0.
Definition GS_USB_BREQ_BITTIMING : Z := 1.
Definition GS_USB_BREQ_MODE : Z := 2.
Definition GS_USB_BREQ_BT_CONST : Z := 4.
Definition GS_USB_BREQ_DEVICE_CONFIG : Z := 5.
Definition USB_TYPE_MASK : Z := 0x60.
Definition USB_TYPE_STANDARD : Z := 0.
Definition USB_TYPE_VENDOR : Z := 0x40.

(** [sizeof(struct gs_host_frame)] and the lengths of the two queues *)
Definition GS_FRAME_SIZE : Z := 20.
Definition HOST_FRAMES : Z := 16.
Definition CANHW_QUEUE : Z := 32.

Definition BSS_READY : Z := 0.
Definition BSS_BLOCKING : Z := 1.
Definition BSS_DISCARDING : Z := 2.
Definition HS_TX_ECHO : Z := 1.
Definition HS_TX_HW : Z := 2.
Definition HS_TX_LOCAL : Z := 4.

(** A 32-bit value in the memory of a little endian machine. *)
Definition le32 (x : Z) : list Z :=
  [u8 x; u8 (Z.shiftr x 8); u8 (Z.shiftr x 16); u8 (Z.shiftr x 24)].
Definition get_le32 (l : list Z) (i : Z) : Z :=
  byte_at l i + 2 ^ 8 * byte_at l (i + 1) + 2 ^ 16 * byte_at l (i + 2) + 2 ^ 24 * byte_at l (i + 3).

(** The packed structure as its bytes, and back. *)
Definition gs_bytes (g : gs_host_frame) : list Z :=
  le32 (gs_echo_id g) ++ le32 (gs_can_id g)
  ++ [gs_can_dlc g; gs_channel g; gs_flags g; gs_reserved g] ++ gs_data g.
Definition gs_parse (l : list Z) : gs_host_frame :=
  mkGsFrame (get_le32 l 0) (get_le32 l 4) (byte_at l 8) (byte_at l 9) (byte_at l 10) (byte_at l 11)
    (window 12 20 l).

(** Access to [UsbCan]. *)
Definition uc {A} (f : usbcan_data -> A) : M A := gets (fun w => f (usbcan w)).
Definition set_uc (g : usbcan_data -> usbcan_data) : M unit :=
  modify (fun w => w <| usbcan ::= g |>).

Section UsbCanbus.
Context `{Board} `{CanHw} `{UsbHw}.

(** The bytes of a message of canserial.c behind those that it sets: whatever
    its place on the stack holds. *)
Variable unset : list Z.

(** ** Frames to the host *)

Definition send_frame (msg : canbus_msg) : M Z :=
  usb_send_bulk_in (gs_bytes (mkGsFrame 0xffffffff (cm_id msg) (u8 (cm_dlc msg)) 0 0 0
                                (take 8 (cm_data msg ++ unset)))).

Definition wake_usbcan_task : M unit := sched_wake_task usbcan_wake.

(** Called from the interrupt handler. *)
Definition canbus_process_data (msg : canbus_msg) : M unit :=
  pushp ← uc uc_canhw_push_pos;
  pull ← uc uc_canhw_pull_pos;
  if CANHW_QUEUE <=? u32 (pushp - pull) then mret tt
  else
    assigned ← uc uc_assigned_id;
    if negb (assigned =? 0) && (Z.land (cm_id msg) (Z.lnot 1) =? assigned) then mret tt
    else
      set_uc (fun c => c <| uc_canhw_queue ::= <[Z.to_nat (pushp mod CANHW_QUEUE) := msg]> |>) ;;
      set_uc (fun c => c <| uc_canhw_push_pos := u32 (pushp + 1) |>) ;;
      wake_usbcan_task.

(** The interrupt running once per message. *)
Fixpoint canhw_irqs (msgs : list canbus_msg) : M unit :=
  match msgs with
  | [] => mret tt
  | msg :: msgs => canbus_process_data msg ;; canhw_irqs msgs
  end.

(** What arrives in one pass of the loop below: before [canhw_push_pos] is read,
    before the frame is read, and before the store at the end of the pass. *)
Record pass_irqs : Set := mkPass {
  pi_early : list canbus_msg; pi_mid : list canbus_msg; pi_late : list canbus_msg }.
Definition no_irqs : pass_irqs := mkPass [] [] [].

(** The loop of [drain_canhw_queue]; nothing arrives in the passes after those
    of [irqs]. *)
Fixpoint canhw_loop (fuel : nat) (irqs : list pass_irqs) (pull_pos : Z) : M unit :=
  match fuel with
  | O => fault
  | S fuel =>
      let now := default no_irqs (head irqs) in
      canhw_irqs (pi_early now) ;;
      push_pos ← uc uc_canhw_push_pos;
      canhw_irqs (pi_mid now) ;;
      if push_pos =? pull_pos then
        canhw_irqs (pi_late now) ;;
        set_uc (fun c => c <| uc_usb_send_busy := 0 |>)
      else
        q ← uc uc_canhw_queue;
        msg ← deref (q !! Z.to_nat (pull_pos mod CANHW_QUEUE));
        ret ← send_frame msg;
        canhw_irqs (pi_late now) ;;
        if ret <? 0 then set_uc (fun c => c <| uc_usb_send_busy := 1 |>)
        else
          let pull_pos := u32 (pull_pos + 1) in
          set_uc (fun c => c <| uc_canhw_pull_pos := pull_pos |>) ;;
          canhw_loop fuel (tail irqs) pull_pos
  end.

Definition drain_canhw_queue (fuel : nat) (irqs : list pass_irqs) : M unit :=
  pull_pos ← uc uc_canhw_pull_pos;
  canhw_loop fuel irqs pull_pos.

(** ** Frames from the host *)

(** [drain_usb_host_messages]; the driver stores the bytes that it returns over
    those of the frame. *)
Fixpoint host_read_loop (fuel : nat) (pull_pos push_pos : Z) : M unit :=
  if HOST_FRAMES <=? u32 (push_pos - pull_pos) then mret tt
  else
    match fuel with
    | O => fault
    | S fuel =>
        let pushp := push_pos mod HOST_FRAMES in
        n ← next_call;
        let '(ret, data) := usb_read_bulk_out_result n GS_FRAME_SIZE in
        if ret <=? 0 then mret tt
        else
          set_uc (fun c => c <| uc_host_frames ::=
            alter (fun g => gs_parse (copy_to 0 data (gs_bytes g))) (Z.to_nat pushp) |>) ;;
          let push_pos := u32 (push_pos + 1) in
          set_uc (fun c => c <| uc_host_push_pos := push_pos |>) ;;
          host_read_loop fuel pull_pos push_pos
    end.

(** The queue has room for at most 16 frames. *)
Definition drain_usb_host_messages : M unit :=
  pull_pos ← uc uc_host_pull_pos;
  push_pos ← uc uc_host_push_pos;
  host_read_loop (Z.to_nat HOST_FRAMES) pull_pos push_pos.

Definition note_discard_state (discard : Z) : M unit :=
  sendf "usb_canbus_state discard=%u" [AInt discard].

Definition check_need_discard : M bool :=
  state ← uc uc_bus_send_state;
  if negb (state =? BSS_BLOCKING) then mret false
  else
    t ← uc uc_bus_send_discard_time;
    now ← timer_read_time;
    mret (timer_is_before t now).

Definition set_bus_state (s : Z) : M unit := set_uc (fun c => c <| uc_bus_send_state := s |>).

Definition try_canmsg_send (msg : canbus_msg) : M Z :=
  ret ← canhw_send msg;
  if 0 <=? ret then
    state ← uc uc_bus_send_state;
    when (state =? BSS_DISCARDING) (note_discard_state 0) ;;
    set_bus_state BSS_READY ;;
    mret ret
  else
    stuck ← check_need_discard;
    when stuck (note_discard_state 1 ;; set_bus_state BSS_DISCARDING) ;;
    state ← uc uc_bus_send_state;
    if state =? BSS_DISCARDING then mret 0
    else
      when (state =? BSS_READY)
        (set_bus_state BSS_BLOCKING ;;
         now ← timer_read_time;
         set_uc (fun c => c <| uc_bus_send_discard_time := u32 (now + timer_from_us 50000) |>)) ;;
      mret ret.

(** What a frame with the id [id] is to be sent to. *)
Definition frame_status (assigned id : Z) : Z :=
  if id =? CANBUS_ID_ADMIN then Z.lor (Z.lor HS_TX_ECHO HS_TX_HW) HS_TX_LOCAL
  else if negb (assigned =? 0) && (assigned =? id) then Z.lor HS_TX_ECHO HS_TX_LOCAL
  else Z.lor HS_TX_ECHO HS_TX_HW.

Definition set_host_status (s : Z) : M unit := set_uc (fun c => c <| uc_host_status := s |>).

(** The message of a frame of the host. *)
Definition frame_msg (gs : gs_host_frame) : canbus_msg :=
  mkCanMsg (gs_can_id gs) (gs_can_dlc gs) (gs_data gs).

(** The status of the frame that a pass of [drain_host_queue] handles. *)
Definition extract_status (gs : gs_host_frame) (host_status : Z) : M Z :=
  if host_status =? 0 then
    assigned ← uc uc_assigned_id;
    let host_status := frame_status assigned (gs_can_id gs) in
    set_host_status host_status ;; mret host_status
  else mret host_status.

(** The three steps that follow: each gives the status that
    is left, or [None] for a [break]. *)
Definition echo_step (gs : gs_host_frame) (host_status : Z) : M (option Z) :=
  if flag host_status HS_TX_ECHO then
    local ← uc uc_notify_local;
    busy ← uc uc_usb_send_busy;
    if negb (local =? 0) || negb (busy =? 0) then mret None
    else
      ret ← usb_send_bulk_in (gs_bytes gs);
      if ret <? 0 then mret None
      else
        let host_status := Z.land host_status (Z.lnot HS_TX_ECHO) in
        set_host_status host_status ;; mret (Some host_status)
  else mret (Some host_status).

Definition local_step (gs : gs_host_frame) (host_status : Z) : M Z :=
  if flag host_status HS_TX_LOCAL then
    canserial_process_data (frame_msg gs) ;;
    let host_status := Z.land host_status (Z.lnot HS_TX_LOCAL) in
    set_host_status host_status ;; mret host_status
  else mret host_status.

Definition hw_step (gs : gs_host_frame) (host_status : Z) : M (option Z) :=
  if flag host_status HS_TX_HW then
    ret ← try_canmsg_send (frame_msg gs);
    if ret <? 0 then mret None
    else
      let host_status := Z.land host_status (Z.lnot HS_TX_HW) in
      set_host_status host_status ;; mret (Some host_status)
  else mret (Some host_status).

(** What is left to do for a frame; [false] for a [break]. *)
Definition host_steps (gs : gs_host_frame) (host_status : Z) : M bool :=
  echoed ← echo_step gs host_status;
  match echoed with
  | None => mret false
  | Some host_status =>
      host_status ← local_step gs host_status;
      sent ← hw_step gs host_status;
      mret (match sent with None => false | Some _ => true end)
  end.

(** The loop of [drain_host_queue]. *)
Fixpoint host_loop (fuel : nat) (pull_pos push_pos : Z) : M unit :=
  match fuel with
  | O => fault
  | S fuel =>
      let pullp := pull_pos mod HOST_FRAMES in
      frames ← uc uc_host_frames;
      gs ← deref (frames !! Z.to_nat pullp);
      host_status ← uc uc_host_status;
      if (host_status =? 0) && (pull_pos =? push_pos) then mret tt
      else
        host_status ← extract_status gs host_status;
        finished ← host_steps gs host_status;
        if (finished : bool) then
          let pull_pos := u32 (pull_pos + 1) in
          set_uc (fun c => c <| uc_host_pull_pos := pull_pos |>) ;;
          host_loop fuel pull_pos push_pos
        else mret tt
  end.

(** Every pass but the last finishes one of at most 16 frames. *)
Definition drain_host_queue : M unit :=
  pull_pos ← uc uc_host_pull_pos;
  push_pos ← uc uc_host_push_pos;
  host_loop (S (Z.to_nat HOST_FRAMES)) pull_pos push_pos.

(** [usbcan_task]; [irqs] arrive in [drain_canhw_queue] and [during] after it,
    where no statement depends on what the interrupt changes. *)
Definition usbcan_task (fuel : nat) (irqs : list pass_irqs) (during : list canbus_msg) : M unit :=
  wake ← sched_check_wake usbcan_wake;
  run ← (if (wake : bool) then mret true else check_need_discard);
  if negb run then mret tt
  else
    drain_canhw_queue fuel irqs ;;
    canhw_irqs during ;;
    drain_usb_host_messages ;;
    drain_host_queue ;;
    local ← uc uc_notify_local;
    busy ← uc uc_usb_send_busy;
    when (negb (local =? 0) && (busy =? 0)) canserial_notify_tx.

(** ** The interfaces to the CAN and USB drivers and to canserial.c *)

Definition canbus_notify_tx : M unit := wake_usbcan_task.
Definition usb_notify_bulk_out : M unit := wake_usbcan_task.
Definition usb_notify_bulk_in : M unit := wake_usbcan_task.

Definition canbus_send (msg : canbus_msg) : M Z :=
  let retry_later := set_uc (fun c => c <| uc_notify_local := 1 |>) ;; mret (-1) in
  busy ← uc uc_usb_send_busy;
  if negb (busy =? 0) then retry_later
  else
    ret ← send_frame msg;
    if ret <? 0 then retry_later
    else
      status ← uc uc_host_status;
      when (negb (status =? 0)) wake_usbcan_task ;;
      set_uc (fun c => c <| uc_notify_local := 0 |>) ;;
      mret (cm_dlc msg).

Definition canbus_set_filter (id : Z) : M unit := set_uc (fun c => c <| uc_assigned_id := id |>).

Definition usb_canbus_c : CanBus := {| cb_send := canbus_send; cb_set_filter := canbus_set_filter |}.

(** ** Control requests

    [usb_do_stall], [usb_do_xfer], [usb_req_set_address], [usb_notify_ep0] and
    the string descriptors are those of usb_cdc.c. *)

Definition gs_device_descriptor : list Z :=
  [18; USB_DT_DEVICE] ++ le16 0x0200 ++ [0; 0; 0; USB_CDC_EP0_SIZE]
  ++ le16 USB_GSUSB_1_VENDOR_ID ++ le16 USB_GSUSB_1_PRODUCT_ID ++ le16 0
  ++ [USB_STR_ID_MANUFACTURER; USB_STR_ID_PRODUCT; USB_STR_ID_SERIAL; 1].

Definition gs_config_descriptor : list Z :=
  (* config *) [9; USB_DT_CONFIG] ++ le16 32 ++ [1; 1; 0; 0xC0; 50]
  ++ (* iface0 *) [9; USB_DT_INTERFACE; 0; 0; 2; 255; 255; 255; 0]
  ++ (* ep1 *) [7; USB_DT_ENDPOINT; USB_CDC_EP_BULK_OUT; USB_ENDPOINT_XFER_BULK]
               ++ le16 USB_CDC_EP_BULK_OUT_SIZE ++ [0]
  ++ (* ep2 *) [7; USB_DT_ENDPOINT; Z.lor USB_CDC_EP_BULK_IN USB_DIR_IN; USB_ENDPOINT_XFER_BULK]
               ++ le16 USB_CDC_EP_BULK_IN_SIZE ++ [0].

Definition usb_descriptors : list descriptor_s :=
  [ mkDescriptor (Z.shiftl USB_DT_DEVICE 8) 0 gs_device_descriptor;
    mkDescriptor (Z.shiftl USB_DT_CONFIG 8) 0 gs_config_descriptor;
    mkDescriptor (Z.shiftl USB_DT_STRING 8) 0 cdc_string_langids;
    mkDescriptor (Z.lor (Z.shiftl USB_DT_STRING 8) USB_STR_ID_MANUFACTURER) USB_LANGID_ENGLISH_US
      cdc_string_manufacturer;
    mkDescriptor (Z.lor (Z.shiftl USB_DT_STRING 8) USB_STR_ID_PRODUCT) USB_LANGID_ENGLISH_US
      cdc_string_product ]
  ++ (if CONFIG_USB_SERIAL_NUMBER_CHIPID then []
      else [ mkDescriptor (Z.lor (Z.shiftl USB_DT_STRING 8) USB_STR_ID_SERIAL) USB_LANGID_ENGLISH_US
               cdc_string_serial ]).

Definition usb_req_set_configuration (req : usb_ctrlrequest) : M unit :=
  if negb (rq_bRequestType req =? 0) || negb (rq_wValue req =? 1) || negb (rq_wIndex req =? 0)
     || negb (rq_wLength req =? 0)
  then usb_do_stall
  else
    hw HwUsbConfigure ;;
    wake_usbcan_task ;;
    usb_do_xfer UR_null 0 0 UX_SEND.

Definition gs_breq_host_format (req : usb_ctrlrequest) : M unit :=
  usb_do_xfer (UR_gs GS_host_config) 0 (gs_var_size GS_host_config) UX_READ.

Definition device_config : list Z := [0; 0; 0; 0] ++ le32 2 ++ le32 1.

Definition gs_breq_device_config (req : usb_ctrlrequest) : M unit :=
  usb_do_xfer (UR_const device_config) 0 (Z.of_nat (length device_config)) UX_SEND.

Definition bt_const : list Z :=
  le32 0 ++ le32 48000000 ++ le32 1 ++ le32 16 ++ le32 1 ++ le32 8 ++ le32 4 ++ le32 1
  ++ le32 1024 ++ le32 1.

Definition gs_breq_bt_const (req : usb_ctrlrequest) : M unit :=
  usb_do_xfer (UR_const bt_const) 0 (Z.of_nat (length bt_const)) UX_SEND.

Definition gs_breq_bittiming (req : usb_ctrlrequest) : M unit :=
  usb_do_xfer (UR_gs GS_device_bittiming) 0 (gs_var_size GS_device_bittiming) UX_READ.

Definition gs_breq_mode (req : usb_ctrlrequest) : M unit :=
  usb_do_xfer (UR_gs GS_device_mode) 0 (gs_var_size GS_device_mode) UX_READ.

Definition usb_state_ready : M unit :=
  n ← next_call;
  let '(ret, req) := usb_read_ep0_setup_result n in
  if negb (ret =? 8) then mret tt
  else
    let req_type := Z.land (rq_bRequestType req) USB_TYPE_MASK in
    let r := rq_bRequest req in
    if req_type =? USB_TYPE_STANDARD then
      if r =? USB_REQ_GET_DESCRIPTOR then usb_req_get_descriptor usb_descriptors req
      else if r =? USB_REQ_SET_ADDRESS then usb_req_set_address req
      else if r =? USB_REQ_SET_CONFIGURATION then usb_req_set_configuration req
      else usb_do_stall
    else if req_type =? USB_TYPE_VENDOR then
      if r =? GS_USB_BREQ_HOST_FORMAT then gs_breq_host_format req
      else if r =? GS_USB_BREQ_DEVICE_CONFIG then gs_breq_device_config req
      else if r =? GS_USB_BREQ_BT_CONST then gs_breq_bt_const req
      else if r =? GS_USB_BREQ_BITTIMING then gs_breq_bittiming req
      else if r =? GS_USB_BREQ_MODE then gs_breq_mode req
      else usb_do_stall
    else usb_do_stall.

Definition usb_ep0_task : M unit :=
  wake ← sched_check_wake usb_ep0_wake;
  if negb wake then mret tt
  else
    flags ← usb ub_xfer_flags;
    if negb (flags =? 0) then
      '(r, off) ← usb ub_xfer_data;
      size ← usb ub_xfer_size;
      usb_do_xfer r off size flags
    else usb_state_ready.

Definition usb_shutdown : M unit := wake_usbcan_task ;; usb_notify_ep0.
End UsbCanbus.
