(* ===== verification/Firmware.v ===== *)
(** * The assembled firmware

    The callback tables that tie the components together, the initial state
    of memory, shutdown processing and the main loop of src/src/sched.c as a
    transition relation. *)
From S2P Require Import Prelude Protocol World Sched Command BaseCmd Trsync Stepper Endstop GpioCmds PwmCmds Inputs Tmcuart SpiCmds Accelerometers Ldc1612 SpiAngle LoadCellAdc Thermocouple LoadCellProbe Displays.

Section Firmware.
Context `{Board}.

(** ** Indirect calls *)

(** [tss->func(tss, reason)] *)
Definition run_signal (f : signal_func) (p reason : Z) : M unit :=
  match f with SIG_stepper_stop => stepper_stop p reason end.

(** [t->func(t)] *)
Definition call (f : timer_func) (t : tref) : M sf_result :=
  match f, t with
  | FN_periodic_event, _ => periodic_event
  | FN_sentinel_event, _ => sentinel_event
  | FN_deleted_event, _ => deleted_event
  | FN_stepper_event_full, TObj p _ => stepper_event_full p
  | FN_trsync_report_event, TObj p _ => trsync_report_event p
  | FN_trsync_expire_event, TObj p _ => trsync_expire_event run_signal p
  | FN_endstop_event, TObj p _ => endstop_event run_signal p
  | FN_endstop_oversample_event, TObj p _ => endstop_oversample_event run_signal p
  | FN_digital_toggle_event, TObj p _ => digital_toggle_event p
  | FN_digital_load_event, TObj p _ => digital_load_event p
  | FN_pwm_event, TObj p _ => pwm_event p
  | FN_pwm_end_event, TObj p _ => pwm_end_event p
  | FN_analog_in_event, TObj p _ => analog_in_event p
  | FN_buttons_event, TObj p _ => buttons_event p
  | FN_counter_event, TObj p _ => counter_event p
  | FN_tmcuart_read_event, TObj p _ => tmcuart_read_event p
  | FN_tmcuart_read_sync_event, TObj p _ => tmcuart_read_sync_event p
  | FN_tmcuart_send_finish_event, TObj p _ => tmcuart_send_finish_event p
  | FN_tmcuart_send_event, TObj p _ => tmcuart_send_event p
  | FN_tmcuart_send_sync_event, TObj p _ => tmcuart_send_sync_event p
  | FN_adxl345_event, TObj p _ => adxl345_event p
  | FN_lis2dw_event, TObj p _ => lis2dw_event p
  | FN_mpu9250_event, TObj p _ => mpu9250_event p
  | FN_icm20948_event, TObj p _ => icm20948_event p
  | FN_ldc1612_event, TObj p _ => ldc1612_event p
  | FN_angle_event, TObj p _ => angle_event p
  | FN_ads1220_event, TObj p _ => ads1220_event p
  | FN_hx71x_event, TObj p _ => hx71x_event p
  | FN_thermocouple_event, TObj p _ => thermocouple_event p
  | FN_watchdog_event, TObj p _ => watchdog_event run_signal p
  | _, _ => fault
  end.

(** The stepper code that [sched_timer_dispatch] inlines. *)
Definition inline_stepper_event (t : tref) : M sf_result :=
  match t with TObj p _ => stepper_event p | _ => fault end.

Definition timer_dispatch : M Z := sched_timer_dispatch call inline_stepper_event.

(** ** Initial memory *)

Definition initial_timers : gmap tref timer :=
  <[TPeriodic := mkTimer (Some TSentinel) (Some FN_periodic_event) 0]>
  (<[TSentinel := mkTimer None (Some FN_sentinel_event) 0x80000000]>
  (<[TDeleted := mkTimer None (Some FN_deleted_event) 0]> ∅)).

Definition initial_world : world := {|
  timers := initial_timers; timer_list := TPeriodic; last_insert := TPeriodic;
  tasks_status := 0; tasks_busy := 0; shutdown_status := 0; shutdown_reason := "";
  woken := []; timer_repeat_until := 0;
  next_sequence := MESSAGE_DEST; sync_state := 0; in_sendf := false;
  alloc_end := 0; move_free_list := None; move_list := None; move_count := 0;
  move_item_size := 0; nodes := ∅; oids := None; oid_count := 0; config_crc := 0;
  stats_send_time := 0; stats_send_time_high := 0; stats_count := 0; stats_sum := 0;
  stats_sumsq := 0; signals := ∅; clock_reads := 0; pin_reads := 0; adc_reads := 0;
  hw_trace := []; sent := []; candata := canbus_data_zero; usbcdc := usb_cdc_zero;
  usbcan := usbcan_data_zero; io_calls := 0 |}.

(** ** Shutdown processing *)

(** The generated [ctr_run_*] functions call the declared functions in turn. *)
Fixpoint ctr_run (fs : list (M unit)) : M unit :=
  match fs with [] => mret tt | f :: fs => f ;; ctr_run fs end.

(** The functions declared with [DECL_SHUTDOWN] in the modelled files, in a build
    with the serial console. *)
Definition shutdown_funcs : list (M unit) :=
  [sendf_shutdown; move_reset; digital_out_shutdown; stepper_shutdown; trsync_shutdown;
   analog_in_shutdown; pwm_shutdown; tmcuart_shutdown; spidev_shutdown; hd44780_shutdown;
   st7920_shutdown].

Definition run_shutdown (fs : list (M unit)) (reason : string) : M unit :=
  cur ← timer_read_time;
  modify (fun w => (if shutdown_status w =? 0 then w <| shutdown_reason := reason |> else w)
                     <| shutdown_status := 2 |>) ;;
  sched_timer_reset ;;
  ctr_run fs ;;
  modify (fun w => w <| shutdown_status := 1 |>) ;;
  r ← gets shutdown_reason;
  sendf "shutdown clock=%u static_string_id=%hu" [AInt cur; AStr r].

(** ** The main loop *)

Section Main.
(** What the board does when interrupts may run, the wait for an interrupt,
    and the generated lists of task and initialisation functions. *)
Variables irq_poll irq_wait : M unit.
Variables task_funcs init_funcs : list (M unit).

(** [do { irq_wait(); } while (tasks_status != TS_REQUESTED)] *)
Fixpoint sleep_loop (fuel : nat) : M unit :=
  match fuel with
  | O => fault
  | S fuel =>
      irq_wait ;;
      st ← gets tasks_status;
      if negb (st =? TS_REQUESTED) then sleep_loop fuel else mret tt
  end.

(** One iteration of the loop of [run_tasks]. *)
Definition run_tasks_iter (fuel : nat) (start : Z) : M Z :=
  irq_poll ;;
  st ← gets tasks_status;
  start ←
    (if negb (st =? TS_REQUESTED) then
       t ← timer_read_time;
       let start := u32 (start - t) in
       st ← gets tasks_status;
       when (negb (st =? TS_REQUESTED))
         (modify (fun w => w <| tasks_status := TS_IDLE |> <| tasks_busy := TS_IDLE |>) ;;
          sleep_loop fuel) ;;
       t ← timer_read_time;
       mret (u32 (start + t))
     else mret start);
  modify (fun w => w <| tasks_status := TS_RUNNING |>) ;;
  ctr_run task_funcs ;;
  cur ← timer_read_time;
  stats_update start cur ;;
  mret cur.

(** Where the main program is: in [run_tasks], with the time of the last
    iteration, or entering [run_shutdown] through [setjmp]. *)
Inductive main_pc : Set := InTasks (start : Z) | InShutdown (reason : string).

(** [sched_main] up to its main loop. *)
Definition sched_main_start : M main_pc :=
  ctr_run init_funcs ;;
  sendf "starting" [] ;;
  start ← timer_read_time;
  mret (InTasks start).

(** One step of the main program; a [longjmp] leads to [run_shutdown]. *)
Inductive main_step : main_pc * world -> main_pc * world -> Prop :=
| step_tasks fuel start start' w w' :
    run_tasks_iter fuel start w = Ok start' w' ->
    main_step (InTasks start, w) (InTasks start', w')
| step_tasks_shutdown fuel start r w w' :
    run_tasks_iter fuel start w = Shut r w' ->
    main_step (InTasks start, w) (InShutdown r, w')
| step_shutdown fs r start w w' :
    fs ≡ₚ shutdown_funcs ->
    (run_shutdown fs r ;; timer_read_time) w = Ok start w' ->
    main_step (InShutdown r, w) (InTasks start, w')
| step_shutdown_again fs r r' w w' :
    fs ≡ₚ shutdown_funcs ->
    (run_shutdown fs r ;; timer_read_time) w = Shut r' w' ->
    main_step (InShutdown r, w) (InShutdown r', w').
End Main.
End Firmware.
