(* ===== verification/Sample.v ===== *)
(** * A sample board

    A concrete board on which the definitions are evaluated: a 16 MHz clock
    that advances 100 ticks per reading, input pins that read high, and 1 KiB
    of dynamic memory. *)
From S2P Require Import Prelude World Sched SchedFacts BaseCmd Stepper Inputs GpioCmds PwmCmds Firmware.

Definition sample_board : Board := {|
  CONFIG_CLOCK_FREQ := 16000000;
  CONFIG_INLINE_STEPPER_HACK := true;
  CONFIG_WANT_STEPPER_OPTIMIZED_BOTH_EDGE := false;
  CONFIG_MACH_AVR := false;
  clock_reading n := 100 * Z.of_nat n;
  pin_reading _ _ := 1;
  adc_delay_reading _ _ := 0;
  adc_reading _ _ := 500;
  gpio_out_valid p := p <? 64; gpio_in_valid p := p <? 64;
  gpio_pwm_valid p := p <? 64; gpio_adc_valid p := p <? 64;
  dynmem_start := 1024; dynmem_end := 2048; alignof_ptr := 4;
  sizeof_oid_s := 8; sizeof_gpio_in := 8; sizeof_obj _ := 64;
  sizeof_move_node := 4; sizeof_stepper_move := 16; sizeof_digital_move := 12;
  sizeof_pwm_move := 12;
  command_identify_data := [0x78; 0x9c; 1; 2; 3; 4; 5];
  spin_limit := 10;
  CONFIG_WANT_SPI := true; CONFIG_WANT_I2C := true;
  CONFIG_WANT_SOFTWARE_SPI := true; CONFIG_WANT_SOFTWARE_I2C := true;
  CONFIG_HAVE_STRICT_TIMING := false;
  initial_pins := [];
  spi_bus_valid b := b <? 4; spi_reading _ _ i := Z.of_nat i;
  i2c_bus_valid b := b <? 4; i2c_result _ := 0; i2c_reading _ i := Z.of_nat i;
  sdio_bus_valid b := b <? 4; sdio_result _ := 0; sdio_response _ := [1; 2]; sdio_reading _ i := Z.of_nat i;
  sizeof_spi_software := 20; sizeof_i2c_software := 24; sizeof_sos_section := 28
|}.

(** The state after a run that succeeds or shuts down. *)
Definition after {A} (m : M A) (w : world) : world := default w (out_world (m w)).

(** A run of handlers from the initial state. *)
Definition after_all (ms : list (M unit)) : world :=
  foldl (fun w m => after m w) initial_world ms.

(** Check the timer list of a concrete state. *)
Ltac eval_decide := apply (bool_decide_unpack _); vm_compute; exact I.
Ltac eval_sched :=
  constructor;
  [ vm_compute; repeat split
  | vm_compute; reflexivity
  | eval_decide
  | eval_decide
  | eval_decide
  | split; eval_decide
  | vm_compute; reflexivity ].
Ltac eval_sorted :=
  split; repeat constructor; unfold by_key; apply Z.leb_le || apply Z.ltb_lt; vm_compute; reflexivity.

(** The initial timer list. *)
Lemma initial_sched : sched_list initial_world [TPeriodic].
Proof. eval_sched. Qed.

Lemma initial_sorted : sched_sorted 0 initial_world [TPeriodic].
Proof. eval_sorted. Qed.

(** A configured counter, polled every 1000 ticks from tick 5000 on, after
    the first event of the periodic timer. *)
Definition counter_world : world :=
  after (@timer_dispatch sample_board)
    (after_all [@alloc_init sample_board;
                @command_allocate_oids sample_board [4];
                @command_config_counter sample_board [3; 5; 0];
                @command_query_counter sample_board [3; 5000; 1000; 2000]]).

(** A digital output (oid 2, pin 7, default low, at most 1000 ticks high) with
    a software pwm cycle of 200 ticks and a pwm output (oid 1, pin 9), each
    with one queued change at tick 5000. *)
Definition output_world : world :=
  after_all [@alloc_init sample_board;
             @command_allocate_oids sample_board [4];
             @command_config_digital_out sample_board [2; 7; 0; 0; 1000];
             @command_config_pwm_out sample_board [1; 9; 100; 0; 0; 500];
             @command_finalize_config sample_board [0];
             @command_set_digital_out_pwm_cycle [2; 200];
             @command_queue_digital_out sample_board [2; 5000; 150];
             @command_queue_pwm_out sample_board [1; 5000; 77]].

(** The same board built for steppers that step on both edges. *)
Definition edge_board : Board := {|
  CONFIG_CLOCK_FREQ := 16000000;
  CONFIG_INLINE_STEPPER_HACK := true;
  CONFIG_WANT_STEPPER_OPTIMIZED_BOTH_EDGE := true;
  CONFIG_MACH_AVR := false;
  clock_reading n := 100 * Z.of_nat n;
  pin_reading _ _ := 1;
  adc_delay_reading _ _ := 0;
  adc_reading _ _ := 500;
  gpio_out_valid p := p <? 64; gpio_in_valid p := p <? 64;
  gpio_pwm_valid p := p <? 64; gpio_adc_valid p := p <? 64;
  dynmem_start := 1024; dynmem_end := 2048; alignof_ptr := 4;
  sizeof_oid_s := 8; sizeof_gpio_in := 8; sizeof_obj _ := 64;
  sizeof_move_node := 4; sizeof_stepper_move := 16; sizeof_digital_move := 12;
  sizeof_pwm_move := 12;
  command_identify_data := [];
  spin_limit := 10;
  CONFIG_WANT_SPI := true; CONFIG_WANT_I2C := true;
  CONFIG_WANT_SOFTWARE_SPI := true; CONFIG_WANT_SOFTWARE_I2C := true;
  CONFIG_HAVE_STRICT_TIMING := false;
  initial_pins := [];
  spi_bus_valid b := b <? 4; spi_reading _ _ i := Z.of_nat i;
  i2c_bus_valid b := b <? 4; i2c_result _ := 0; i2c_reading _ i := Z.of_nat i;
  sdio_bus_valid b := b <? 4; sdio_result _ := 0; sdio_response _ := [1; 2]; sdio_reading _ i := Z.of_nat i;
  sizeof_spi_software := 20; sizeof_i2c_software := 24; sizeof_sos_section := 28
|}.

(** A stepper (oid 0, step pin 3, direction pin 4) with a move of 5 steps under
    way and 3 steps in the other direction queued behind it. *)
Definition stepper_world : world :=
  after_all [@alloc_init edge_board;
             @command_allocate_oids edge_board [4];
             @command_config_stepper edge_board [0; 3; 4; 0xffffffff; 1];
             @command_finalize_config edge_board [0];
             @command_set_next_step_dir [0; 1];
             @command_reset_step_clock [0; 10000];
             @command_queue_step edge_board [0; 1000; 5; 10];
             @command_set_next_step_dir [0; 0];
             @command_queue_step edge_board [0; 2000; 3; 0]].
Definition sample_stepper : stepper := default stepper_zero (obj_at stepper stepper_world 0).
