(* ===== verification/BoardClocks.v ===== *)
(** * Clocks of 32 bits: src/src/avr/timer.c, src/src/stm32/stm32f0_timer.c and
    src/src/linux/timer.c

    The scheduler takes a clock of 32 bits for granted.  Three ports make it
    from something else: two from a counter of 16 bits and a timer that counts
    its overflows, one from the seconds and nanoseconds of an operating system.
    The hardware is modelled by the true number of ticks that have passed; the
    theorems compare the result of [timer_read_time] with it. *)
From S2P Require Import Prelude World Sched Sample.

(** ** AVR *)
Module Avr.

(** [union u32_u], from its halves. *)
Definition u32_u (hi lo : Z) : Z := u16 lo + 2 ^ 16 * u16 hi.
Definition b1 (lo : Z) : Z := u8 (Z.shiftr lo 8).

(** [timer_is_before]: the instructions [cp], [cpc], [cpc] and [sbc] on the bytes
    of the two times; [cp] and [cpc] give the carry. *)
Definition byte_of (x k : Z) : Z := u8 (Z.shiftr x (8 * k)).
Definition cpc (a b : Z) (carry : bool) : bool := a - b - Z.b2z carry <? 0.
Definition sbc (a b : Z) (carry : bool) : Z := u8 (a - b - Z.b2z carry).
Definition avr_timer_is_before (time1 time2 : Z) : bool :=
  let f := byte_of time1 3 in
  let c := cpc (byte_of time1 0) (byte_of time2 0) false in
  let c := cpc (byte_of time1 1) (byte_of time2 1) c in
  let c := cpc (byte_of time1 2) (byte_of time2 2) c in
  let f := sbc f (byte_of time2 3) c in
  s8 f <? 0.

(** The counter and the variables of the file: the ticks since the counter was
    started, the overflow flag TOV1, [timer_high] and [wrap_timer.waketime]. *)
Record avr_timer : Set := mkAvr { av_ticks : Z; av_tov : bool; av_high : Z; av_waketime : Z }.

Definition TCNT1 (s : avr_timer) : Z := u16 (av_ticks s).

(** After [timer_init]. *)
Definition avr_init : avr_timer := mkAvr 0 false 0 0x8000.

(** The hardware counts a tick. *)
Definition tick (s : avr_timer) : avr_timer :=
  mkAvr (av_ticks s + 1) (av_tov s || (u16 (av_ticks s + 1) =? 0)) (av_high s) (av_waketime s).

(** [timer_read_time]: the counter is read in the state [s], the flag in the
    state [s'], between which interrupts are disabled. *)
Definition avr_timer_read_time (s s' : avr_timer) : Z :=
  let lo := TCNT1 s in
  let hi := av_high s in
  if av_tov s' then
    if b1 lo <? 0xff then u32_u (hi + 1) lo else u32_u hi lo
  else u32_u hi lo.

Definition avr_timer_event (s : avr_timer) : avr_timer :=
  if av_tov s then
    let high := u16 (av_high s + 1) in
    mkAvr (av_ticks s) false high (u32_u high 0x8000)
  else mkAvr (av_ticks s) false (av_high s) (u32_u (av_high s + 1) 0x0000).

(** How far the wake time of the timer has passed. *)
Definition lateness (s : avr_timer) : Z := s32 (av_ticks s - av_waketime s).

(** The scheduler calls [timer_event] not before its time, and less than
    [0x7f00] ticks (2 ms at 16 MHz) late. *)
Inductive avr_step : avr_timer -> avr_timer -> Prop :=
| avr_tick s : lateness s < 0x7f00 -> avr_step s (tick s)
| avr_event s : 0 <= lateness s -> avr_step s (avr_timer_event s).

(** Ticks alone, with interrupts disabled. *)
Definition ticking (s s' : avr_timer) : Prop :=
  exists n : nat, (n < 0x100)%nat /\
    nsteps (fun s s' => lateness s < 0x7f00 /\ s' = tick s) n s s'.
End Avr.

(** ** STM32F0 with a counter of 16 bits *)
Module Stm32f0.

(** The ticks since the counter was started, [timer_high] and
    [wrap_timer.waketime]. *)
Record f0_timer : Set := mkF0 { f0_ticks : Z; f0_high : Z; f0_waketime : Z }.

Definition f0_timer_get (s : f0_timer) : Z := u16 (f0_ticks s).
Definition f0_init : f0_timer := mkF0 0 0 0x8000.
Definition tick (s : f0_timer) : f0_timer := mkF0 (f0_ticks s + 1) (f0_high s) (f0_waketime s).

(** [timer_read_time]: [timer_high] is read in the state [s], the counter in the
    state [s']. *)
Definition f0_timer_read_time (s s' : f0_timer) : Z :=
  let th := f0_high s in
  let cur := f0_timer_get s' in
  u32 (Z.lxor th cur + Z.land th 0xffff).

Definition f0_timer_event (s : f0_timer) : f0_timer :=
  let high := u32 (f0_high s + 0x8000) in
  mkF0 (f0_ticks s) high (u32 (high + 0x8000)).

Definition lateness (s : f0_timer) : Z := s32 (f0_ticks s - f0_waketime s).

(** [timer_event] is called not before its time and less than [late] ticks
    afterwards. *)
Inductive f0_step (late : Z) : f0_timer -> f0_timer -> Prop :=
| f0_tick s : lateness s < late -> f0_step late s (tick s)
| f0_event s : 0 <= lateness s -> f0_step late s (f0_timer_event s).
End Stm32f0.

(** ** Linux *)
Module Linux.

Definition NSECS : Z := 1000000000.

(** [struct timespec] *)
Record timespec : Set := mkTimespec { tv_sec : Z; tv_nsec : Z }.

(** The variables of [TimerInfo], and the time the alarm is set to. *)
Record timer_info : Set := mkInfo {
  last_read_time : Z; start_sec : Z; must_wake_timers : Z;
  next_wake_counter : Z; next_wake : timespec; alarm : timespec }.
#[export] Instance eta_timer_info : Eta timer_info := fun r =>
  mkInfo (last_read_time r) (start_sec r) (must_wake_timers r) (next_wake_counter r) (next_wake r)
    (alarm r).

Section Linux.
Variable CONFIG_CLOCK_FREQ : Z.

Definition NSECS_PER_TICK : Z := NSECS / CONFIG_CLOCK_FREQ.

Definition linux_timer_from_us (us : Z) : Z := u32 (us * (CONFIG_CLOCK_FREQ / 1000000)).

Definition timespec_to_time (ti : timer_info) (ts : timespec) : Z :=
  u32 ((tv_sec ts - start_sec ti) * CONFIG_CLOCK_FREQ + tv_nsec ts / NSECS_PER_TICK).

Definition timespec_from_time (ti : timer_info) (time : Z) : timespec :=
  let counter_diff := s32 (time - next_wake_counter ti) in
  let sec := tv_sec (next_wake ti) in
  let nsec := tv_nsec (next_wake ti) + s32 (counter_diff * NSECS_PER_TICK) in
  if (nsec <? 0) || (NSECS <=? nsec) then
    if nsec <? 0 then mkTimespec (sec - 1) (nsec + NSECS)
    else mkTimespec (sec + 1) (nsec - NSECS)
  else mkTimespec sec nsec.

(** [timer_read_time], for the time [now] of the operating system. *)
Definition linux_timer_read_time (now : timespec) (ti : timer_info) : Z * timer_info :=
  let t := timespec_to_time ti now in
  (t, ti <| last_read_time := t |>).

(** Returns whether the time has passed, and the next time. *)
Definition timer_check_periodic (ti : timer_info) (ts : Z) : bool * Z :=
  let lrt := last_read_time ti in
  if timer_is_before lrt ts then (false, ts)
  else (true, u32 (lrt + linux_timer_from_us 2000000)).

Definition linux_timer_kick (ti : timer_info) : timer_info := ti <| alarm := mkTimespec 0 1 |>.

(** The end of [timer_dispatch], for the time of the next timer. *)
Definition schedule_alarm (next : Z) (ti : timer_info) : timer_info :=
  let it := timespec_from_time ti next in
  ti <| next_wake := it |> <| alarm := it |> <| next_wake_counter := next |> <| must_wake_timers := 0 |>.

Definition linux_timer_signal (ti : timer_info) : timer_info := ti <| must_wake_timers := 1 |>.

(** The assignments of [timer_init]. *)
Definition linux_timer_init (curtime : timespec) (ti : timer_info) : timer_info :=
  let ti := ti <| start_sec := tv_sec curtime + 1 |> in
  let ti := ti <| next_wake := curtime |> in
  let ti := ti <| next_wake_counter := timespec_to_time ti curtime |> in
  linux_timer_kick ti.
End Linux.
End Linux.

(** ** The AVR clock is exact *)
Section AvrClock.
Import Avr.

(** The comparison in four instructions is that of the other ports. *)
Theorem avr_timer_is_before_eq t1 t2 :
  0 <= t1 < 2 ^ 32 -> 0 <= t2 < 2 ^ 32 -> avr_timer_is_before t1 t2 = timer_is_before t1 t2.
Proof.
  intros H1 H2. unfold avr_timer_is_before, timer_is_before, byte_of, sbc.
  assert (forall x, 0 <= x < 2 ^ 32 -> x = u8 (Z.shiftr x (8 * 0)) + 2 ^ 8 * u8 (Z.shiftr x (8 * 1))
    + 2 ^ 16 * u8 (Z.shiftr x (8 * 2)) + 2 ^ 24 * u8 (Z.shiftr x (8 * 3))) as Hb.
  { intros x Hx. rewrite !Z.shiftr_div_pow2 by lia. cbn [Z.mul Pos.mul]. change (2 ^ 0) with 1.
    rewrite Z.div_1_r. unfold u8. Z.to_euclidean_division_equations. lia. }
  pose proof (Hb t1 H1) as E1. pose proof (Hb t2 H2) as E2.
  pose proof (u8_range (Z.shiftr t1 (8 * 0))). pose proof (u8_range (Z.shiftr t2 (8 * 0))).
  pose proof (u8_range (Z.shiftr t1 (8 * 1))). pose proof (u8_range (Z.shiftr t2 (8 * 1))).
  pose proof (u8_range (Z.shiftr t1 (8 * 2))). pose proof (u8_range (Z.shiftr t2 (8 * 2))).
  pose proof (u8_range (Z.shiftr t1 (8 * 3))). pose proof (u8_range (Z.shiftr t2 (8 * 3))).
  set (a0 := u8 (Z.shiftr t1 (8 * 0))) in *. set (c0 := u8 (Z.shiftr t2 (8 * 0))) in *.
  set (a1 := u8 (Z.shiftr t1 (8 * 1))) in *. set (c1 := u8 (Z.shiftr t2 (8 * 1))) in *.
  set (a2 := u8 (Z.shiftr t1 (8 * 2))) in *. set (c2 := u8 (Z.shiftr t2 (8 * 2))) in *.
  set (a3 := u8 (Z.shiftr t1 (8 * 3))) in *. set (c3 := u8 (Z.shiftr t2 (8 * 3))) in *.
  clearbody a0 a1 a2 a3 c0 c1 c2 c3. clear Hb. unfold cpc. cbn [Z.b2z].
  destruct (Z.ltb_spec (a0 - c0 - 0) 0); cbn [Z.b2z];
    match goal with |- context [a1 - c1 - ?k <? 0] => destruct (Z.ltb_spec (a1 - c1 - k) 0) end; cbn [Z.b2z];
    match goal with |- context [a2 - c2 - ?k <? 0] => destruct (Z.ltb_spec (a2 - c2 - k) 0) end; cbn [Z.b2z];
    apply eq_bool_prop_intro; rewrite !Is_true_true, !Z.ltb_lt;
    unfold s8, s32, u8; Z.to_euclidean_division_equations; lia.
Qed.

(** The high half of the time when it is right, when [wrap_timer] waits for the
    middle of the counter ([mid]) or for its overflow. *)
Record avr_phase (mid : bool) (h : Z) (s : avr_timer) : Prop := {
  ap_high : av_high s = u16 h;
  ap_wake : av_waketime s = u32 (if mid then h * 2 ^ 16 + 0x8000 else (h + 1) * 2 ^ 16);
  ap_low : h * 2 ^ 16 + (if mid then 0 else 0x8000) <= av_ticks s;
  ap_top : av_ticks s <= h * 2 ^ 16 + (if mid then 0xff00 else 0x17f00);
  ap_tov : av_tov s = ((h + 1) * 2 ^ 16 <=? av_ticks s)
}.

Lemma avr_lateness mid h s : avr_phase mid h s ->
  lateness s = av_ticks s - (if mid then h * 2 ^ 16 + 0x8000 else (h + 1) * 2 ^ 16).
Proof. intros [_ Hw Hl Ht _]. unfold lateness. rewrite Hw. destruct mid; word_lia. Qed.

Lemma avr_tick_phase mid h s : avr_phase mid h s -> lateness s < 0x7f00 -> avr_phase mid h (tick s).
Proof.
  intros Hp Hlate. rewrite (avr_lateness _ _ _ Hp) in Hlate. destruct Hp as [Hh Hw Hl Ht Hv].
  constructor; cbn [tick av_ticks av_tov av_high av_waketime]; [done|done|destruct mid; lia..|].
  rewrite Hv. apply eq_bool_prop_intro. rewrite !Is_true_true, orb_true_iff, !Z.leb_le, Z.eqb_eq.
  unfold u16. destruct mid; Z.to_euclidean_division_equations; lia.
Qed.

Lemma avr_event_phase mid h s : avr_phase mid h s -> 0 <= lateness s ->
  exists mid' h', avr_phase mid' h' (avr_timer_event s).
Proof.
  intros Hp Hlate. rewrite (avr_lateness _ _ _ Hp) in Hlate. destruct Hp as [Hh Hw Hl Ht Hv].
  unfold avr_timer_event. destruct mid.
  - exists false, h. rewrite Hv, (proj2 (Z.leb_gt _ _)) by lia.
    constructor; cbn [av_ticks av_tov av_high av_waketime]; [done| |lia|lia|].
    + rewrite Hh. unfold u32_u. word_lia.
    + symmetry. apply Z.leb_gt. lia.
  - exists true, (h + 1). rewrite Hv, (proj2 (Z.leb_le _ _)) by lia.
    constructor; cbn [av_ticks av_tov av_high av_waketime]; [rewrite Hh; word_lia| |lia|lia|].
    + rewrite Hh. unfold u32_u. word_lia.
    + symmetry. apply Z.leb_gt. lia.
Qed.

Lemma avr_reachable s : rtc avr_step avr_init s -> exists mid h, avr_phase mid h s.
Proof.
  intros Hrun. assert (exists mid h, avr_phase mid h avr_init) as Hi
    by (exists true, 0; by constructor).
  revert Hi. induction Hrun as [|s1 s2 s3 Hs _ IH]; [done|]. intros (mid & h & Hp). apply IH.
  destruct Hs as [s Hl|s Hl]; [exists mid, h; by apply avr_tick_phase|by eapply avr_event_phase].
Qed.

Lemma avr_ticking_phase mid h n : forall s s',
  avr_phase mid h s -> nsteps (fun s s' => lateness s < 0x7f00 /\ s' = tick s) n s s' ->
  avr_phase mid h s' /\ av_ticks s' = av_ticks s + Z.of_nat n.
Proof.
  induction n as [|n IH]; intros s s' Hp Hn; inversion Hn; subst; [split; [done|lia]|].
  match goal with Hx : _ /\ _ |- _ => destruct Hx as [Hl ->] end.
  destruct (IH (tick s) s' (avr_tick_phase _ _ _ Hp Hl)) as [Hp' Ht]; [done|]. split; [done|].
  rewrite Ht. cbn [tick av_ticks]. lia.
Qed.

(** C12: as long as the timer that counts the overflows of the 16-bit counter is
    not late by 0x7f00 ticks, [timer_read_time] returns the true number of
    ticks modulo 2^32 at the moment when it reads the counter, also when the
    counter overflows before the flag is read or the overflow has not been
    counted yet. *)
Theorem avr_clock_exact s s' :
  rtc avr_step avr_init s -> ticking s s' -> avr_timer_read_time s s' = u32 (av_ticks s).
Proof.
  intros Hrun (n & Hn & Ht). destruct (avr_reachable s Hrun) as (mid & h & Hp).
  destruct (avr_ticking_phase mid h n s s' Hp Ht) as [Hp' En].
  unfold avr_timer_read_time, TCNT1, b1, u32_u. rewrite (ap_high _ _ _ Hp), (ap_tov _ _ _ Hp'), En.
  rewrite Z.shiftr_div_pow2 by lia. destruct Hp as [_ _ Hl Htop _].
  set (t := av_ticks s) in *. clearbody t. clear -Hl Htop Hn.
  destruct (Z.leb_spec ((h + 1) * 2 ^ 16) (t + Z.of_nat n)).
  - destruct (Z.ltb_spec (u8 (u16 t / 2 ^ 8)) 255); unfold u8, u16, u32 in *;
      destruct mid; Z.to_euclidean_division_equations; lia.
  - unfold u8, u16, u32 in *; destruct mid; Z.to_euclidean_division_equations; lia.
Qed.
End AvrClock.

(** ** The STM32F0 clock is exact *)
Section F0Clock.
Import Stm32f0.

Lemma lxor_halves q x : 0 <= x < 2 ^ 16 -> Z.lxor (q * 2 ^ 16) x = q * 2 ^ 16 + x.
Proof.
  intros Hx. symmetry. apply Z.add_nocarry_lxor. rewrite <- Z.shiftl_mul_pow2 by lia.
  apply Z.bits_inj'. intros i Hi. rewrite Z.bits_0, Z.land_spec. destruct (Z.ltb_spec i 16).
  - by rewrite Z.shiftl_spec_low.
  - rewrite (Z.bits_above_log2 x); [apply andb_false_r|lia|].
    destruct (Z.eq_dec x 0) as [->|]; [cbn; lia|]. apply (Z.log2_lt_pow2 x); [lia|].
    apply (Z.lt_le_trans _ (2 ^ 16)); [lia|apply Z.pow_le_mono_r; lia].
Qed.

Lemma lxor_top x : 0 <= x < 2 ^ 16 -> Z.lxor 0x8000 x = u16 (x + 0x8000).
Proof.
  intros Hx. assert (forall y, 0 <= y < 2 ^ 15 -> Z.lxor 0x8000 y = 0x8000 + y) as Hl.
  { intros y Hy. symmetry. apply Z.add_nocarry_lxor. change 0x8000 with (2 ^ 15).
    apply Z.bits_inj'. intros i Hi. rewrite Z.bits_0, Z.land_spec, Z.pow2_bits_eqb by lia.
    destruct (Z.eqb_spec 15 i) as [<-|]; [|done]. rewrite (Z.bits_above_log2 y); [done|lia|].
    destruct (Z.eq_dec y 0) as [->|]; [cbn; lia|]. apply (Z.log2_lt_pow2 y); lia. }
  destruct (Z.ltb_spec x (2 ^ 15)) as [Hc|Hc]; [rewrite Hl; word_lia|].
  replace x with (0x8000 + (x - 0x8000)) at 1 by lia. rewrite <- (Hl (x - 0x8000)) by lia.
  rewrite <- Z.lxor_assoc, Z.lxor_nilpotent, Z.lxor_0_l. word_lia.
Qed.

(** The combination in [timer_read_time]: [h] is behind the time [t] by less
    than 2^16 ticks. *)
Lemma f0_combine k t : k * 0x8000 <= t < k * 0x8000 + 2 ^ 16 ->
  u32 (Z.lxor (u32 (k * 0x8000)) (u16 t) + Z.land (u32 (k * 0x8000)) 0xffff) = u32 t.
Proof.
  intros Ht. change 0xffff with (Z.ones 16). rewrite Z.land_ones by lia.
  pose proof (Z.div_mod (u32 (k * 0x8000)) (2 ^ 16) ltac:(lia)) as Ed.
  assert (u32 (k * 0x8000) mod 2 ^ 16 = 0 \/ u32 (k * 0x8000) mod 2 ^ 16 = 0x8000) as Hr
    by (unfold u32; Z.to_euclidean_division_equations; lia).
  set (q := u32 (k * 0x8000) / 2 ^ 16) in *. set (r := u32 (k * 0x8000) mod 2 ^ 16) in *.
  rewrite Ed, Z.mul_comm. assert (0 <= r < 2 ^ 16) as Hr2 by lia. assert (0 <= u16 t < 2 ^ 16) as Hu by apply u16_range.
  rewrite <- (lxor_halves q r Hr2), Z.lxor_assoc.
  destruct Hr as [Er|Er]; rewrite Er in *.
  - rewrite Z.lxor_0_l, lxor_halves by done. unfold u16, u32 in *. Z.to_euclidean_division_equations. lia.
  - rewrite lxor_top, lxor_halves by (done || apply u16_range).
    unfold u16, u32 in *. Z.to_euclidean_division_equations. lia.
Qed.

(** The state between two events, which may be [late]. *)
Definition f0_inv (late : Z) (s : f0_timer) : Prop :=
  exists k, f0_high s = u32 (k * 0x8000) /\ f0_waketime s = u32 (k * 0x8000 + 0x8000) /\
    k * 0x8000 <= f0_ticks s <= k * 0x8000 + 0x8000 + late.

Lemma f0_lateness late k s : 0 <= late < 0x8000 ->
  f0_waketime s = u32 (k * 0x8000 + 0x8000) ->
  k * 0x8000 <= f0_ticks s <= k * 0x8000 + 0x8000 + late ->
  lateness s = f0_ticks s - (k * 0x8000 + 0x8000).
Proof. intros Hl Hw Ht. unfold lateness. rewrite Hw. word_lia. Qed.

Lemma f0_step_inv late s s' : 0 <= late < 0x8000 -> f0_step late s s' -> f0_inv late s ->
  f0_inv late s' /\ f0_ticks s <= f0_ticks s'.
Proof.
  intros Hl Hs (k & Hh & Hw & Ht). destruct Hs as [s Hlate|s Hlate];
    rewrite (f0_lateness late k s Hl Hw Ht) in Hlate.
  - split; [|cbn; lia]. exists k. cbn [tick f0_ticks f0_high f0_waketime]. split_and!; [done|done|lia|lia].
  - split; [|cbn; lia]. exists (k + 1). cbn [f0_timer_event f0_ticks f0_high f0_waketime].
    rewrite Hh. split_and!; [word_lia|word_lia|lia|lia].
Qed.

Lemma f0_run_inv late s s' : 0 <= late < 0x8000 -> rtc (f0_step late) s s' -> f0_inv late s ->
  f0_inv late s' /\ f0_ticks s <= f0_ticks s'.
Proof.
  intros Hl Hrun. induction Hrun as [|s1 s2 s3 Hs _ IH]; intros Hi; [split; [done|lia]|].
  destruct (f0_step_inv late s1 s2 Hl Hs Hi) as [Hi2 Ht]. destruct (IH Hi2) as [Hi3 Ht3].
  split; [done|lia].
Qed.

(** C13: where only a counter of 16 bits is available, [timer_read_time] returns
    the true number of ticks modulo 2^32 at the moment when it reads the
    counter, also when [timer_event] runs between its two readings, provided
    that the lateness of [timer_event] and the time between the readings
    together stay below 0x8000 ticks. *)
Theorem stm32f0_clock_exact late s s' :
  0 <= late < 0x8000 -> rtc (f0_step late) f0_init s -> rtc (f0_step late) s s' ->
  f0_ticks s' - f0_ticks s + late < 0x8000 ->
  f0_timer_read_time s s' = u32 (f0_ticks s').
Proof.
  intros Hl Hrun Hrun' Hn.
  assert (f0_inv late f0_init) as Hi by (exists 0; split_and!; [done|done|cbn; lia..]).
  destruct (f0_run_inv late _ _ Hl Hrun Hi) as [His _]. destruct (f0_run_inv late _ _ Hl Hrun' His) as [_ Hle].
  destruct His as (k & Hh & _ & Ht). unfold f0_timer_read_time, f0_timer_get. rewrite Hh.
  apply f0_combine. lia.
Qed.
End F0Clock.

(** ** The alarms of Linux *)
Section LinuxClock.
Import Linux.
Variable CONFIG_CLOCK_FREQ : Z.
#[local] Notation NSECS_PER_TICK := (NSECS_PER_TICK CONFIG_CLOCK_FREQ).
#[local] Notation timespec_to_time := (timespec_to_time CONFIG_CLOCK_FREQ).
#[local] Notation timespec_from_time := (timespec_from_time CONFIG_CLOCK_FREQ).
#[local] Notation linux_timer_read_time := (linux_timer_read_time CONFIG_CLOCK_FREQ).
#[local] Notation schedule_alarm := (schedule_alarm CONFIG_CLOCK_FREQ).
#[local] Notation linux_timer_init := (linux_timer_init CONFIG_CLOCK_FREQ).

(** The frequency divides the nanoseconds of a second, and a second fits the
    arithmetic. *)
Hypothesis freq : 0 < CONFIG_CLOCK_FREQ < 2 ^ 31 /\ NSECS = CONFIG_CLOCK_FREQ * NSECS_PER_TICK.

Definition normal (ts : timespec) : Prop := 0 <= tv_nsec ts < NSECS.

(** [next_wake] and [next_wake_counter] denote the same time. *)
Definition wake_ok (ti : timer_info) : Prop :=
  normal (next_wake ti) /\ timespec_to_time ti (next_wake ti) = next_wake_counter ti.

Lemma nsecs_per_tick_pos : 0 < NSECS_PER_TICK.
Proof. destruct freq as [Hf E]. unfold NSECS in E at 1. nia. Qed.

(** A time at most a second away from the last alarm. *)
Lemma from_time_ok ti time : wake_ok ti -> 0 <= time < 2 ^ 32 ->
  - CONFIG_CLOCK_FREQ <= s32 (time - next_wake_counter ti) <= CONFIG_CLOCK_FREQ ->
  normal (timespec_from_time ti time) /\ timespec_to_time ti (timespec_from_time ti time) = time.
Proof.
  intros [Hn Hw] Htime Hd. pose proof nsecs_per_tick_pos as Hp. destruct freq as [Hf E].
  unfold normal in *. set (d := s32 (time - next_wake_counter ti)) in *.
  assert (s32 (d * NSECS_PER_TICK) = d * NSECS_PER_TICK) as Es.
  { apply s32_id. assert (- NSECS <= d * NSECS_PER_TICK <= NSECS) by (rewrite E; nia). unfold NSECS in *. lia. }
  assert (- NSECS <= d * NSECS_PER_TICK <= NSECS) as Hb by (rewrite E; nia).
  assert (u32 (next_wake_counter ti + d) = time) as Et
    by (unfold d; rewrite <- Hw; unfold Linux.timespec_to_time; word_lia).
  unfold Linux.timespec_from_time. fold d. rewrite Es. clear Es.
  set (n := tv_nsec (next_wake ti)) in *. set (sec := tv_sec (next_wake ti)) in *.
  assert (forall j, (n + d * NSECS_PER_TICK + j * NSECS) / NSECS_PER_TICK
    = n / NSECS_PER_TICK + d + j * CONFIG_CLOCK_FREQ) as Hdiv.
  { intros j. rewrite E at 1. replace (n + d * NSECS_PER_TICK + j * (CONFIG_CLOCK_FREQ * NSECS_PER_TICK))
      with (n + (d + j * CONFIG_CLOCK_FREQ) * NSECS_PER_TICK) by ring.
    rewrite Z.div_add by lia. ring. }
  assert (forall j s, s = sec - j -> timespec_to_time ti (mkTimespec s (n + d * NSECS_PER_TICK + j * NSECS)) = time) as Hto.
  { intros j s ->. unfold Linux.timespec_to_time. cbn [tv_sec tv_nsec]. rewrite Hdiv, <- Et, <- Hw.
    unfold Linux.timespec_to_time. fold sec n. rewrite u32_add_l. f_equal. ring. }
  destruct (Z.ltb_spec (n + d * NSECS_PER_TICK) 0) as [Hneg|Hneg]; cbn [orb].
  - split; [cbn; lia|]. rewrite <- (Hto 1 (sec - 1)) by lia. do 2 f_equal; lia.
  - destruct (Z.leb_spec NSECS (n + d * NSECS_PER_TICK)) as [Hbig|Hbig].
    + split; [cbn; lia|]. rewrite <- (Hto (-1) (sec + 1)) by lia. do 2 f_equal; lia.
    + split; [cbn; lia|]. rewrite <- (Hto 0 sec) by lia. do 2 f_equal; lia.
Qed.

(** What happens to [TimerInfo]: the clock is read, the signal arrives, a
    dispatch ends with the next timer at most a second after the last alarm. *)
Inductive linux_step : timer_info -> timer_info -> Prop :=
| lx_read now ti : linux_step ti (linux_timer_read_time now ti).2
| lx_kick ti : linux_step ti (linux_timer_kick ti)
| lx_signal ti : linux_step ti (linux_timer_signal ti)
| lx_alarm next ti :
    0 <= next < 2 ^ 32 ->
    - CONFIG_CLOCK_FREQ <= s32 (next - next_wake_counter ti) <= CONFIG_CLOCK_FREQ ->
    linux_step ti (schedule_alarm next ti).

Lemma linux_step_ok ti ti' : linux_step ti ti' -> wake_ok ti -> wake_ok ti' /\ start_sec ti' = start_sec ti.
Proof.
  intros [now ti1|ti1|ti1|next ti1 Hn Hd] Hok; [done..|]. split; [|done].
  destruct (from_time_ok ti1 next Hok Hn Hd) as [H1 H2]. by split.
Qed.

(** C14: the alarm of the operating system is exact: from [timer_init] on, whenever
    a dispatch ends with the next timer at most a second away from the last
    alarm, the alarm is a valid time at which [timer_read_time] will return
    exactly the time of that timer. *)
Theorem linux_alarm_exact curtime ti0 ti next :
  normal curtime -> rtc linux_step (linux_timer_init curtime ti0) ti -> 0 <= next < 2 ^ 32 ->
  - CONFIG_CLOCK_FREQ <= s32 (next - next_wake_counter ti) <= CONFIG_CLOCK_FREQ ->
  let ti' := schedule_alarm next ti in
  normal (alarm ti') /\ (linux_timer_read_time (alarm ti') ti').1 = next.
Proof.
  intros Hc Hrun Hn Hd. assert (wake_ok ti) as Hok.
  { assert (wake_ok (linux_timer_init curtime ti0)) as Hi by (split; [done|done]).
    revert Hi. clear Hc Hd. induction Hrun as [|t1 t2 t3 Hs _ IH]; [done|]. intros Hi. apply IH.
    by apply (linux_step_ok t1 t2). }
  exact (from_time_ok ti next Hok Hn Hd).
Qed.
End LinuxClock.

(** ** Samples *)

Lemma avr_clock_exact_witness :
  exists s s', rtc Avr.avr_step Avr.avr_init s /\ Avr.ticking s s' /\
    Avr.avr_timer_read_time s s' = u32 (Avr.av_ticks s).
Proof.
  exists Avr.avr_init, (Avr.tick Avr.avr_init).
  assert (Avr.ticking Avr.avr_init (Avr.tick Avr.avr_init)) as Ht.
  { exists 1%nat. split; [lia|]. apply (nsteps_l _ _ _ (Avr.tick Avr.avr_init)); [by split|constructor]. }
  split; [constructor|]. split; [exact Ht|].
  apply (avr_clock_exact Avr.avr_init (Avr.tick Avr.avr_init)); [constructor|exact Ht].
Defined.

Lemma stm32f0_clock_exact_witness :
  Stm32f0.f0_timer_read_time Stm32f0.f0_init (Stm32f0.tick Stm32f0.f0_init) = 1.
Proof.
  apply (stm32f0_clock_exact 100 Stm32f0.f0_init (Stm32f0.tick Stm32f0.f0_init)).
  - lia.
  - constructor.
  - eapply rtc_l; [|constructor]. constructor. vm_compute. reflexivity.
  - vm_compute. reflexivity.
Defined.

(** The times of the sample: an alarm 100 ms after the start, across the end of
    a second. *)
Definition linux_start : Linux.timespec := Linux.mkTimespec 1000 950000007.
Definition linux_info : Linux.timer_info :=
  Linux.linux_timer_init 50000000 linux_start
    (Linux.mkInfo 0 0 0 0 (Linux.mkTimespec 0 0) (Linux.mkTimespec 0 0)).

Lemma linux_alarm_exact_witness :
  let ti' := Linux.schedule_alarm 50000000 2500000 linux_info in
  normal (Linux.alarm ti') /\ (Linux.linux_timer_read_time 50000000 (Linux.alarm ti') ti').1 = 2500000.
Proof.
  apply (linux_alarm_exact 50000000 ltac:(split; [lia|reflexivity]) linux_start
    (Linux.mkInfo 0 0 0 0 (Linux.mkTimespec 0 0) (Linux.mkTimespec 0 0)) linux_info 2500000).
  - split; vm_compute; [done|reflexivity].
  - constructor.
  - lia.
  - split; vm_compute; done.
Defined.
