(* ===== verification/SchedProps.v ===== *)
(** * Properties of the scheduler *)
From S2P Require Import Prelude Paths World Frames Sched SchedFacts BaseCmd Stepper Callbacks Firmware Sample.

(** ** Running a callback keeps the list *)

Lemma own_timer_list t w w' rest :
  own_timer t w w' -> is_user t -> sched_list w (t :: rest) -> sched_list w' (t :: rest).
Proof.
  intros [H1 H2 H3 H4] Hu Hl. destruct Hl. constructor; rewrite ?H1, ?H2; try done.
  - eapply path_ext, sl_path. intros x _. apply H3.
  - unfold wake. rewrite !H4 by (by intros <-). done.
Qed.

Lemma own_timer_sorted t w w' b rest :
  own_timer t w w' -> t ∉ rest -> sched_sorted b w rest -> sched_sorted b w' rest.
Proof.
  intros Ho Ht Hs. eapply sched_sorted_ext, Hs. intros x Hx. unfold wake.
  rewrite (ot_other _ _ _ Ho); [done|]. by intros ->.
Qed.

Lemma sorted_tail b w t rest : sched_sorted b w (t :: rest) -> sched_sorted b w rest.
Proof. intros [Hs Hf]. split; [by apply StronglySorted_inv in Hs as [? _]|by apply Forall_cons in Hf as [_ ?]]. Qed.

Lemma list_nodup_head w t rest : sched_list w (t :: rest) -> t ∉ rest.
Proof. intros Hl. pose proof (sl_nodup _ _ Hl) as [? _]%NoDup_cons. set_solver. Qed.

Section Props.
Context `{Board}.

(** The callbacks whose contract is [LocalCallback] for the first timer of
    an object. *)
Definition local_func (f : option timer_func) : bool :=
  match f with
  | Some (FN_periodic_event | FN_sentinel_event | FN_deleted_event | FN_trsync_expire_event
         | FN_endstop_event | FN_endstop_oversample_event | FN_watchdog_event) => false
  | Some _ => true
  | None => CONFIG_INLINE_STEPPER_HACK
  end.

Lemma run_callback_local p f w w1 :
  func (tmr w (TObj p 0)) = f -> local_func f = true ->
  out_world (run_callback call inline_stepper_event (TObj p 0) w) = Some w1 ->
  own_timer (TObj p 0) w w1.
Proof.
  intros Hf Hlf. unfold run_callback. munfold. cbn -[call inline_stepper_event].
  rewrite Hf. destruct f as [f|].
  - rewrite bool_decide_false, andb_false_r by done. destruct f; try done.
    all: unfold mret, M_ret; cbv beta iota; cbn [call].
    all: match goal with |- out_world (?m _) = _ -> _ =>
      intros; apply (local_callback (t := TObj p 0) (m := m)); done end.
  - rewrite bool_decide_true, andb_true_r by done. cbn in Hlf. rewrite Hlf.
    apply (local_callback (t := TObj p 0) (m := stepper_event p)).
Qed.

Lemma dispatch_local b w p rest :
  sched_list w (TObj p 0 :: rest) -> sched_sorted b w (TObj p 0 :: rest) ->
  local_func (func (tmr w (TObj p 0))) = true ->
  match run_callback call inline_stepper_event (TObj p 0) w with
  | Ok SF_DONE w1 => exists w2, timer_dispatch w = Ok (wake w2 (timer_list w2)) w2 /\
      sched_list w2 rest /\ sched_sorted b w2 rest
  | Ok SF_RESCHEDULE w1 => off b w1 (TObj p 0) < 2 ^ 31 ->
      exists w2, timer_dispatch w = Ok (wake w2 (timer_list w2)) w2 /\
      sched_list w2 (tins (off b w1) (TObj p 0) (off b w1 (TObj p 0)) rest) /\
      sched_sorted b w2 (tins (off b w1) (TObj p 0) (off b w1 (TObj p 0)) rest)
  | Shut r w1 => timer_dispatch w = Shut r w1
  | Fault => timer_dispatch w = Fault
  end.
Proof.
  intros Hl Hs Hf. pose proof (sl_head _ _ Hl) as Hh. simpl in Hh. simplify_eq.
  assert (timer_dispatch w =
    (run_callback call inline_stepper_event (TObj p 0) ≫= dispatch_update (TObj p 0)) w) as ->.
  { unfold timer_dispatch, sched_timer_dispatch, mbind, M_bind, gets. by rewrite <- Hh. }
  unfold mbind, M_bind. pose proof (run_callback_local p (func (tmr w (TObj p 0))) w) as Hown.
  destruct (run_callback _ _ _ w) as [res w1|r w1|]; [|done..].
  specialize (Hown w1 eq_refl Hf eq_refl).
  apply (own_timer_list _ _ _ _ Hown) in Hl as Hl1; [|done].
  assert (sched_sorted b w1 rest) as Hs1.
  { eapply own_timer_sorted; [exact Hown|by eapply list_nodup_head|by eapply sorted_tail]. }
  destruct res; [by apply dispatch_done_ok|]. intros Hoff. by apply dispatch_resched_ok.
Qed.

(** ** Insertion without assumptions on the wake time *)

Lemma first_hit w wk l :
  (exists x, x ∈ l /\ timer_is_before wk (wake w x) = true) ->
  exists l1 q l2, l = l1 ++ q :: l2 /\ timer_is_before wk (wake w q) = true /\
    Forall (fun x => timer_is_before wk (wake w x) = false) l1.
Proof.
  induction l as [|y l IH]; intros (x & Hx & Hb); [by apply not_elem_of_nil in Hx|].
  destruct (timer_is_before wk (wake w y)) eqn:Hy.
  - by exists [], y, l.
  - apply elem_of_cons in Hx as [->|Hx]; [congruence|].
    destruct IH as (l1 & q & l2 & -> & Hq & Hl); [by exists x|].
    exists (y :: l1), q, l2. split_and!; [done..|by constructor].
Qed.

(** A timer whose wake time is not before the periodic timer's is before the
    sentinel's. *)
Lemma some_hit w us h rest wk :
  sched_list w us -> us = h :: rest -> timer_is_before wk (wake w h) = false ->
  exists x, x ∈ rest ++ [TSentinel] /\ timer_is_before wk (wake w x) = true.
Proof.
  intros Hl -> Hh. destruct (timer_is_before wk (wake w TPeriodic)) eqn:Hp.
  - exists TPeriodic. split; [|done]. apply elem_of_app. left.
    pose proof (sl_periodic _ _ Hl) as [<-|?]%elem_of_cons; congruence.
  - exists TSentinel. split; [set_solver|]. rewrite (sl_sentinel _ _ Hl).
    by apply timer_is_before_half.
Qed.

Lemma link_list w h l1 q l2 add :
  sched_list w (h :: l1 ++ l2) -> head (l2 ++ [TSentinel]) = Some q -> is_user add ->
  add ∉ h :: l1 ++ l2 ->
  sched_list (link w (List.last l1 h) q add) (h :: l1 ++ add :: l2).
Proof.
  intros Hl Hq Hu Hin. set (prev := List.last l1 h).
  destruct (exists_last (l := h :: l1) ltac:(done)) as (l0 & prev' & E3).
  assert (prev = prev') as Elast.
  { unfold prev. rewrite <- (last_default _ prev'), E3. by rewrite last_app_cons. }
  assert (prev <> add) as Hpa.
  { intros E. apply Hin. change (h :: l1 ++ l2) with ((h :: l1) ++ l2). rewrite E3. set_solver. }
  pose proof (sl_path _ _ Hl) as Hp. pose proof (sl_nodup _ _ Hl) as Hnd.
  destruct (l2 ++ [TSentinel]) as [|q' l2'] eqn:El2; [done|]. injection Hq as ->.
  assert ((h :: l1 ++ l2) ++ [TSentinel] = l0 ++ prev' :: q :: l2') as E.
  { change ((h :: l1 ++ l2) ++ [TSentinel]) with (((h :: l1) ++ l2) ++ [TSentinel]).
    by rewrite E3, <- app_assoc, El2, <- app_assoc. }
  rewrite E in Hp, Hnd.
  assert ((h :: l1 ++ add :: l2) ++ [TSentinel] = l0 ++ prev' :: add :: q :: l2') as E'.
  { change ((h :: l1 ++ add :: l2) ++ [TSentinel])
      with (((h :: l1) ++ (add :: l2)) ++ [TSentinel]).
    rewrite E3, <- app_assoc, <- app_assoc. simpl. by rewrite El2. }
  assert (add ∉ l0 ++ prev' :: q :: l2') as Hni.
  { rewrite <- E, elem_of_app, list_elem_of_singleton. intros [?| ->]; done. }
  assert (h :: l1 ++ add :: l2 ≡ₚ add :: h :: l1 ++ l2) as Hperm by solve_Permutation.
  constructor.
  - rewrite E'. subst prev. rewrite Elast in *. eapply path_link; [exact Hp|exact Hnd|exact Hni|..].
    + unfold nxt. rewrite tmr_link by done. by rewrite decide_True.
    + unfold nxt. rewrite tmr_link by done. by rewrite decide_False, decide_True by congruence.
    + intros x Hx1 Hx2. unfold nxt. rewrite tmr_link by done. by rewrite !decide_False by done.
  - pose proof (sl_head _ _ Hl). done.
  - rewrite Hperm. simpl. constructor; [|apply Hl].
    by rewrite <- E in Hni.
  - rewrite Hperm. right. apply Hl.
  - simpl. pose proof (sl_deleted _ _ Hl) as Hd. simpl in Hd. intros Hx. apply Hd.
    apply elem_of_app in Hx as [?|[<-|?]%elem_of_cons]; [set_solver|done|set_solver].
  - split; [|apply Hl]. rewrite Hperm. right. apply Hl.
  - rewrite !wake_link by done. apply Hl.
Qed.

(** ** The properties *)

(** Adding a timer keeps the timer list in wake time order.  On a list
    ordered by wake time, and for a wake time inside the same window of 2^31
    ticks, [sched_add_timer] inserts the timer at its place (after timers with
    the same wake time) and changes nothing but the list; the only other
    outcome is a "Timer too close" shutdown, when the clock is already past
    the wake time. *)
Theorem sched_add_timer_sorted b w us add :
  sched_list w us -> sched_sorted b w us -> add ∉ us -> is_user add -> off b w add < 2 ^ 31 ->
  match sched_add_timer add w with
  | Ok _ w' => sched_frame w w' /\ exists us', sched_list w' us' /\ sched_sorted b w' us' /\
      live us' = tins (off b w) add (off b w add) (live us)
  | Shut r w' => r = "Timer too close" /\ shutdown_status w = 0 /\
      timer_is_before (wake w add) (u32 (clock_reading (clock_reads w))) = true /\
      w' = w <| clock_reads ::= S |>
  | Fault => False
  end.
Proof.
  intros Hl Hs Hin Hu Hk. pose proof (sched_add_timer_ok b w us add Hl Hs Hin Hu Hk) as Hok.
  pose proof (sched_add_timer_frame add w) as Hf.
  destruct (sched_add_timer add w); [|done..]. split; [by apply Hf|done].
Qed.

(** Adding a timer is memory safe for every wake time.  Whatever the wake
    time, and without any assumption on the order of the list, the search ends
    at the latest at the sentinel: the timer is linked into the list exactly
    once and no other timer is lost. *)
Theorem sched_add_timer_safe w us add :
  sched_list w us -> add ∉ us -> is_user add ->
  match sched_add_timer add w with
  | Ok _ w' => exists us', sched_list w' us' /\ live us' ≡ₚ add :: live us
  | Shut r w' => r = "Timer too close" /\ timers w' = timers w
  | Fault => False
  end.
Proof.
  intros Hl Hin Hu. destruct (timer_is_before (wake w add) (wake w (timer_list w))) eqn:Hb.
  - rewrite (sched_add_timer_front w us add Hl Hu Hb). destruct (_ && _); [by split|].
    eexists. split; [by apply front_struct|]. by rewrite live_front.
  - pose proof (sl_head _ _ Hl) as Hh. destruct us as [|h rest]; [done|]. injection Hh as ->.
    destruct (first_hit w (wake w add) (rest ++ [TSentinel])) as (l1 & q & l2 & E & Hq & Hl1).
    { by eapply some_hit. }
    assert (exists l2', rest = l1 ++ l2' /\ head (l2' ++ [TSentinel]) = Some q) as (l2' & -> & Hhd).
    { destruct (app_eq_app _ _ _ _ E) as ([|y l] & [[-> E']|[-> E']]); simpl in E'.
      - exists []. rewrite app_nil_r. by injection E' as <- _.
      - exists []. rewrite !app_nil_r. by injection E' as -> _.
      - exists (y :: l). split; [done|]. by injection E' as <- _.
      - by destruct l. }
    unfold sched_add_timer, insert_timer. munfold. cbn -[timer_is_before list_fuel insert_timer_loop].
    fold (wake w add) (wake w (timer_list w)). rewrite Hb.
    assert (l2' ++ [TSentinel] = q :: tail (l2' ++ [TSentinel])) as E2
      by (destruct (l2' ++ [TSentinel]); by simplify_eq/=).
    rewrite (insert_timer_loop_ok l1 _ w _ q (tail (l2' ++ [TSentinel]))); [| |done|done|].
    + eexists. split; [by apply link_list|].
      assert (timer_list w :: l1 ++ add :: l2' ≡ₚ add :: timer_list w :: l1 ++ l2') as Hperm
        by solve_Permutation.
      unfold live. rewrite Hperm. by rewrite filter_cons_True by (by intros ->).
    + pose proof (sl_path _ _ Hl) as Hp. rewrite <- E2, app_assoc. exact Hp.
    + apply sched_fuel in Hl. simpl in Hl. rewrite length_app in Hl. lia.
Qed.

(** Deleting a timer never fails; it removes exactly that timer (if it is
    on the list), keeps the order of the others and changes nothing else. *)
Theorem sched_del_timer_correct b w us del :
  sched_list w us -> sched_sorted b w us -> is_user del ->
  exists w' us', sched_del_timer del w = Ok tt w' /\ sched_frame w w' /\
    sched_list w' us' /\ sched_sorted b w' us' /\
    live us' = filter (fun x => x <> del) (live us).
Proof.
  intros Hl Hs Hu. destruct (sched_del_timer_ok b w us del Hl Hs Hu) as (w' & us' & E & ? & ? & ?).
  exists w', us'. split_and!; [done| |done..]. apply (sched_del_timer_frame del). by rewrite E.
Qed.

(** C3: One timer dispatch.  When the first timer belongs to a component
    whose callback honours the scheduler's contract (steppers, digital and
    pwm outputs, analog inputs, buttons, counters, trigger reports), the
    dispatch runs the callback and then removes the timer or moves it to its
    new place in wake time order; the value returned to the hardware timer is
    the wake time of the timer that is now first. *)
Theorem timer_dispatch_correct b w p rest :
  sched_list w (TObj p 0 :: rest) -> sched_sorted b w (TObj p 0 :: rest) ->
  local_func (func (tmr w (TObj p 0))) = true ->
  match run_callback call inline_stepper_event (TObj p 0) w with
  | Ok SF_DONE w1 => exists w2, timer_dispatch w = Ok (wake w2 (timer_list w2)) w2 /\
      sched_list w2 rest /\ sched_sorted b w2 rest
  | Ok SF_RESCHEDULE w1 => off b w1 (TObj p 0) < 2 ^ 31 ->
      exists w2, timer_dispatch w = Ok (wake w2 (timer_list w2)) w2 /\
      sched_list w2 (tins (off b w1) (TObj p 0) (off b w1 (TObj p 0)) rest) /\
      sched_sorted b w2 (tins (off b w1) (TObj p 0) (off b w1 (TObj p 0)) rest)
  | Shut r w1 => timer_dispatch w = Shut r w1
  | Fault => timer_dispatch w = Fault
  end.
Proof. apply dispatch_local. Qed.

(** The state after [periodic_event]. *)
Definition periodic_world (w : world) : world :=
  let pw := u32 (wake w TPeriodic + timer_from_us 100000) in
  let p := (tmr w TPeriodic) <| waketime := pw |> in
  w <| tasks_status := TS_REQUESTED |>
    <| timers := <[TSentinel := (tmr w TSentinel) <| waketime := u32 (pw + 2 ^ 31) |>]>
                   (<[TPeriodic := p]> (timers w)) |>.

Lemma periodic_event_run w : periodic_event w = Ok SF_RESCHEDULE (periodic_world w).
Proof.
  unfold periodic_event, sched_wake_tasks, periodic_world, wake, get_timer, mod_timer. munfold.
  unfold tmr. cbn.
  by rewrite lookup_insert_eq, lookup_insert_ne.
Qed.

Lemma tmr_periodic w t :
  t <> TPeriodic -> t <> TSentinel -> tmr (periodic_world w) t = tmr w t.
Proof.
  intros. unfold periodic_world, tmr at 1. cbn. by rewrite !lookup_insert_ne by done.
Qed.

Lemma wake_periodic w :
  wake (periodic_world w) TPeriodic = u32 (wake w TPeriodic + timer_from_us 100000) /\
  wake (periodic_world w) TSentinel = u32 (wake (periodic_world w) TPeriodic + 2 ^ 31) /\
  (forall t, nxt (periodic_world w) t = nxt w t).
Proof.
  unfold wake, nxt, periodic_world, tmr. cbn. rewrite lookup_insert_eq, lookup_insert_ne by done.
  rewrite lookup_insert_eq. split_and!; [done..|]. intros t.
  rewrite !lookup_insert. repeat case_decide; by subst.
Qed.

(** The periodic timer keeps the scheduler alive.  Dispatching it wakes
    the tasks, moves it 100 ms ahead and the sentinel 2^31 ticks behind it,
    and puts it back in wake time order. *)
Theorem periodic_dispatch_correct w rest :
  sched_list w (TPeriodic :: rest) -> sched_sorted (wake w TPeriodic) w (TPeriodic :: rest) ->
  func (tmr w TPeriodic) = Some FN_periodic_event -> timer_from_us 100000 < 2 ^ 31 ->
  exists w' us', timer_dispatch w = Ok (wake w' (timer_list w')) w' /\
    sched_list w' us' /\ sched_sorted (wake w TPeriodic) w' us' /\
    live us' ≡ₚ TPeriodic :: live rest /\
    wake w' TPeriodic = u32 (wake w TPeriodic + timer_from_us 100000) /\
    tasks_status w' = TS_REQUESTED.
Proof.
  intros Hl Hs Hf Hp. pose proof (sl_head _ _ Hl) as Hh. injection Hh as Hh.
  set (w1 := periodic_world w). set (b := wake w TPeriodic).
  destruct (wake_periodic w) as (Hw1 & Hw2 & Hw3).
  pose proof (list_nodup_head _ _ _ Hl) as Hn. pose proof (sl_nodup _ _ Hl) as Hnd.
  assert (sched_list w1 (TPeriodic :: rest)) as Hl1.
  { destruct Hl. constructor; try done. eapply path_ext, sl_path. intros x _. apply Hw3. }
  assert (sched_sorted b w1 rest) as Hs1.
  { eapply sched_sorted_ext, sorted_tail, Hs. intros x Hx. unfold wake, w1.
    rewrite tmr_periodic; [done|by intros ->|]. intros ->.
    apply NoDup_cons in Hnd as [_ (_ & Hnd & _)%NoDup_app]. set_solver. }
  assert (off b w1 TPeriodic < 2 ^ 31) as Hoff.
  { unfold off, b, w1. rewrite Hw1. unfold timer_from_us in *. word_lia. }
  destruct (dispatch_resched_ok b w1 TPeriodic rest Hl1 Hs1 Hoff ltac:(done)) as (w2 & E & Hl2 & Hs2).
  assert (timer_dispatch w = Ok (wake w2 (timer_list w2)) w2) as Hd.
  { unfold timer_dispatch, sched_timer_dispatch, run_callback, get_timer, mbind, M_bind, gets, deref.
    rewrite <- Hh, Hf, bool_decide_false, andb_false_r by done. cbn -[dispatch_update].
    rewrite periodic_event_run. exact E. }
  exists w2, (tins (off b w1) TPeriodic (off b w1 TPeriodic) rest).
  pose proof (dispatch_update_frame TPeriodic SF_RESCHEDULE w1 w2 ltac:(by rewrite E)) as [Ew Et].
  split_and!; [done..| | |].
  - unfold live. rewrite tins_perm. by rewrite filter_cons_True.
  - destruct (Et TPeriodic) as [Et' _]; [done|]. unfold wake at 1. by rewrite Et'.
  - by rewrite Ew.
Qed.

(** A shutdown cancels every scheduled event.  Whatever the list was,
    [sched_timer_reset] leaves a well-formed list with the periodic timer as
    its only live timer, so no stepper, heater or pin event is pending. *)
Theorem sched_timer_reset_correct w :
  wake w TSentinel = u32 (wake w TPeriodic + 2 ^ 31) -> nxt w TSentinel = None ->
  exists w', sched_timer_reset w = Ok tt w' /\ sched_frame w w' /\
    sched_list w' [TDeleted; TPeriodic] /\
    sched_sorted (wake w TPeriodic) w' [TDeleted; TPeriodic].
Proof.
  intros Hw Hn.
  set (tm := <[TPeriodic := (tmr w TPeriodic) <| next := Some TSentinel |>]>
    (<[TDeleted := mkTimer (Some TPeriodic) (func (tmr w TDeleted)) (wake w TPeriodic)]> (timers w))).
  set (w' := w <| timers := tm |> <| timer_list := TDeleted |> <| last_insert := TPeriodic |>
               <| hw_trace ::= cons HwTimerKick |>).
  assert (tmr w' TPeriodic = (tmr w TPeriodic) <| next := Some TSentinel |>) as Hp.
  { unfold tmr at 1. cbn. unfold tm. by rewrite lookup_insert_eq. }
  assert (tmr w' TDeleted = mkTimer (Some TPeriodic) (func (tmr w TDeleted)) (wake w TPeriodic)) as Hd.
  { unfold tmr at 1. cbn. unfold tm. by rewrite lookup_insert_ne, lookup_insert_eq. }
  assert (forall t, t <> TPeriodic -> t <> TDeleted -> tmr w' t = tmr w t) as Ho.
  { intros. unfold tmr at 1. cbn. unfold tm. by rewrite !lookup_insert_ne. }
  exists w'. split_and!.
  - unfold sched_timer_reset, get_timer, mod_timer, timer_kick, hw, w', tm, wake. munfold.
    unfold tmr. cbn. by rewrite !insert_insert_eq, !lookup_insert_eq, lookup_insert_ne.
  - constructor; [done|]. intros t Ht. destruct (decide (t = TPeriodic)) as [->|Htp].
    + by rewrite Hp.
    + by rewrite Ho.
  - constructor.
    + cbn. unfold nxt. rewrite Hp, Hd, Ho by done. done.
    + done.
    + eval_decide.
    + eval_decide.
    + eval_decide.
    + split; [eval_decide|done].
    + unfold wake. rewrite Hp, Ho by done. exact Hw.
  - assert (wake w' TDeleted = wake w TPeriodic) as E1 by (unfold wake at 1; by rewrite Hd).
    assert (wake w' TPeriodic = wake w TPeriodic) as E2 by (unfold wake at 1; by rewrite Hp).
    split; repeat constructor; unfold by_key, off; rewrite ?E1, ?E2; word_lia.
Qed.
End Props.

(** ** Witnesses *)

(** The initial state with a timer of object 3 due at tick 5000. *)
Definition sample_timer : tref := TObj 3 0.
Definition sample_world (t : Z) : world :=
  initial_world <| timers ::= <[sample_timer := mkTimer None (Some FN_counter_event) t]> |>.

(** The same state with the timer added. *)
Definition sample_added : world :=
  after (@sched_add_timer sample_board sample_timer) (sample_world 5000).

Lemma sample_sched t : sched_list (sample_world t) [TPeriodic].
Proof. eval_sched. Qed.
Lemma sample_sorted t : sched_sorted 0 (sample_world t) [TPeriodic].
Proof. eval_sorted. Qed.

Lemma sched_add_timer_sorted_witness :
  exists w', @sched_add_timer sample_board sample_timer (sample_world 5000) = Ok tt w' /\
  exists us', sched_list w' us' /\ sched_sorted 0 w' us' /\ live us' = [TPeriodic; sample_timer].
Proof.
  pose proof (@sched_add_timer_sorted sample_board 0 (sample_world 5000) [TPeriodic] sample_timer
    (sample_sched 5000) (sample_sorted 5000) ltac:(eval_decide) I ltac:(reflexivity)) as Hx.
  destruct (@sched_add_timer sample_board sample_timer (sample_world 5000)) as [[] w'|r w'|] eqn:E.
  - exists w'. split; [reflexivity|]. destruct Hx as [_ Hx]. exact Hx.
  - exfalso. vm_compute in E. discriminate.
  - destruct Hx.
Defined.

Lemma sched_add_timer_safe_witness :
  match @sched_add_timer sample_board sample_timer (sample_world 0xc0000000) with
  | Ok _ _ => False
  | Shut r _ => r = "Timer too close"
  | Fault => False
  end /\
  match @sched_add_timer sample_board sample_timer (sample_world 0x7fffffff) with
  | Ok _ w' => exists us', sched_list w' us' /\ live us' ≡ₚ [sample_timer; TPeriodic]
  | Shut r _ => False
  | Fault => False
  end.
Proof.
  split.
  - pose proof (@sched_add_timer_safe sample_board (sample_world 0xc0000000) [TPeriodic]
      sample_timer (sample_sched _) ltac:(eval_decide) I) as Hx.
    destruct (@sched_add_timer sample_board sample_timer (sample_world 0xc0000000)) eqn:E.
    + vm_compute in E. discriminate.
    + apply Hx.
    + destruct Hx.
  - pose proof (@sched_add_timer_safe sample_board (sample_world 0x7fffffff) [TPeriodic]
      sample_timer (sample_sched _) ltac:(eval_decide) I) as Hx.
    destruct (@sched_add_timer sample_board sample_timer (sample_world 0x7fffffff)) eqn:E.
    + exact Hx.
    + vm_compute in E. discriminate.
    + destruct Hx.
Defined.

(** The state after the counter's callback. *)
Definition counter_ran : world :=
  after (@run_callback sample_board (@call sample_board) (@inline_stepper_event sample_board)
    (TObj 3 0)) counter_world.

Lemma counter_ran_ok :
  @run_callback sample_board (@call sample_board) (@inline_stepper_event sample_board)
    (TObj 3 0) counter_world = Ok SF_RESCHEDULE counter_ran.
Proof. vm_compute. reflexivity. Qed.

Lemma timer_dispatch_correct_witness :
  exists w' us', @timer_dispatch sample_board counter_world = Ok (wake w' (timer_list w')) w' /\
    sched_list w' us' /\ sched_sorted 0 w' us' /\ us' = [TObj 3 0; TPeriodic].
Proof.
  pose proof (@timer_dispatch_correct sample_board 0 counter_world 3 [TPeriodic]
    ltac:(eval_sched) ltac:(eval_sorted) ltac:(vm_compute; reflexivity)) as Hx.
  rewrite counter_ran_ok in Hx.
  destruct Hx as (w2 & E2 & Hl & Hs); [vm_compute; reflexivity|].
  eexists w2, _. split; [exact E2|]. split; [exact Hl|]. split; [exact Hs|].
  vm_compute. reflexivity.
Defined.

Lemma periodic_dispatch_correct_witness :
  exists w' us', @timer_dispatch sample_board sample_added = Ok (wake w' (timer_list w')) w' /\
    sched_list w' us' /\ wake w' TPeriodic = 1600000.
Proof.
  destruct (@periodic_dispatch_correct sample_board sample_added [sample_timer])
    as (w' & us' & E & Hl & _ & _ & Hw & _);
    [eval_sched|eval_sorted|vm_compute; reflexivity|vm_compute; reflexivity|].
  exists w', us'. split; [exact E|]. split; [exact Hl|]. rewrite Hw. vm_compute. reflexivity.
Defined.

Lemma sched_timer_reset_correct_witness :
  exists w', sched_timer_reset sample_added = Ok tt w' /\ sched_list w' [TDeleted; TPeriodic].
Proof.
  destruct (sched_timer_reset_correct sample_added) as (w' & E & _ & Hl & _);
    [vm_compute; reflexivity|vm_compute; reflexivity|].
  exists w'. split; [exact E|exact Hl].
Defined.


Lemma sched_del_timer_correct_witness :
  exists w' us', @sched_del_timer sample_timer sample_added = Ok tt w' /\
    sched_list w' us' /\ live us' = [TPeriodic].
Proof.
  destruct (sched_del_timer_correct 0 sample_added [TPeriodic; sample_timer] sample_timer)
    as (w' & us' & E & _ & Hl & _ & Hv); [eval_sched|eval_sorted|exact I|].
  exists w', us'. split; [exact E|]. split; [exact Hl|]. exact Hv.
Defined.
