(* ===== verification/SerialFacts.v ===== *)
(** * How the serial queue's handlers use the sequence numbers

    The part of a [struct serialqueue] (src/klippy/chelper/serialqueue.c) that
    the block protocol depends on: [send_seq], [receive_seq] and the blocks
    that were sent and not yet acknowledged.  Queueing, timing and accounting
    leave it alone; building a block appends one block, an acknowledgement
    drops the acknowledged ones. *)
From S2P Require Import Prelude Double Protocol ProtocolFacts Msgblock Serialqueue.
Import Msgblock.

(** The protocol state. *)
Definition proto (sq : serialqueue) : Z * Z * list (list Z) :=
  (sq_send_seq sq, sq_receive_seq sq, map sm_msg (sq_sent_queue sq)).

Lemma get_set_cq c cq sq c' :
  get_cq (set_cq c cq sq) c' = if decide (c' = c) then cq else get_cq sq c'.
Proof.
  unfold get_cq, set_cq. cbn. destruct (decide (c' = c)) as [->|Hn].
  - by rewrite lookup_insert_eq.
  - by rewrite lookup_insert_ne.
Qed.

(** A block with the number [s], as [build_and_send_command] makes it. *)
Definition is_block (s : Z) (b : list Z) : Prop :=
  exists payload, b = frame_block s payload /\ (length payload <= 59)%nat.

Lemma proto_update_rtt t sq : proto (update_rtt t sq) = proto sq.
Proof. unfold update_rtt. by destruct (negb (f_true (sq_srtt sq))). Qed.

Lemma proto_take_ready q qm sq : proto (take_ready q qm sq) = proto sq.
Proof.
  unfold take_ready. cbv zeta. destruct (negb (qm_notify_id qm =? 0)), (cq_ready _); done.
Qed.

Lemma fill_block_ok fuel : forall buf sq payload sq',
  fill_block fuel buf sq = Some (payload, sq') -> (length buf <= 59)%nat ->
  proto sq' = proto sq /\ (length payload <= 59)%nat /\ sq_fd_type sq' = sq_fd_type sq.
Proof.
  induction fuel as [|fuel IH]; intros buf sq payload sq' E Hb; cbn [fill_block] in E.
  all: destruct (sq_ready_bytes sq =? 0); [by simplify_eq|]; try done.
  destruct (find_min _ _ _ _) as [[q qm]|]; [|done].
  unfold MESSAGE_MAX, MESSAGE_TRAILER_SIZE, MESSAGE_HEADER_SIZE, msg_len in E.
  case_match eqn:Hc; [by simplify_eq|]. apply Z.ltb_ge in Hc.
  apply IH in E as (E1 & E2 & E3); [|rewrite length_app; lia].
  rewrite E1, E3, proto_take_ready. split_and!; [done..|].
  unfold take_ready. cbv zeta. destruct (negb (qm_notify_id qm =? 0)), (cq_ready _); done.
Qed.

(** Building a block appends it, numbered with the old [send_seq]. *)
Lemma build_ok pending t sq b sq' : build_and_send_command pending t sq = Some (b, sq') ->
  is_block (sq_send_seq sq) b /\
  proto sq' = (u64 (sq_send_seq sq + 1), sq_receive_seq sq, map sm_msg (sq_sent_queue sq) ++ [b]).
Proof.
  unfold build_and_send_command. destruct (fill_block _ [] sq) as [[payload sq1]|] eqn:Ef; [|done].
  apply fill_block_ok in Ef as (Ep & Hl & _); [|simpl; lia].
  cbn [mbind option_bind]. intros E. unfold proto in Ep. injection Ep as E1 E2 E3.
  set (blk := frame_block (sq_send_seq sq1) payload) in *.
  assert (is_block (sq_send_seq sq) blk) as Hb by (rewrite <- E1; by exists payload).
  injection E as <- <-. split; [done|]. unfold proto.
  destruct (sq_sent_queue sq1) eqn:Es, (sq_rtt_sample_seq _ =? 0); cbn; rewrite ?Es, ?map_app; cbn;
    rewrite <- E3, <- E2, <- E1; done.
Qed.

Lemma proto_release ack q st : proto (release_queue ack q st).2 = proto st.2.
Proof.
  destruct st as [m sq]. unfold release_queue. cbn [snd]. destruct (split_upcoming _ _) as [a b].
  destruct b; destruct (cq_ready (get_cq sq q) ++ a) eqn:E; cbn [cq_ready]; rewrite ?E;
    destruct (cq_ready (get_cq sq q)); done.
Qed.

Lemma proto_check_upcoming ack sq : proto (check_upcoming_queues ack sq).2 = proto sq.
Proof.
  unfold check_upcoming_queues. case_match; [done|]. cbn [sq_tr].
  set (sq0 := upd sq_tr _ sq). assert (proto sq0 = proto sq) as <- by done.
  generalize MAX_CLOCK. generalize (tr_upcoming_queues (sq_tr sq0)). intros l. clearbody sq0.
  revert sq0. induction l as [|q l IH]; intros sq0 c; [done|]. cbn [foldl].
  destruct (release_queue ack q (c, sq0)) as [c' sq1] eqn:E. rewrite IH.
  change sq0 with (c, sq0).2. rewrite <- (proto_release ack q (c, sq0)), E. done.
Qed.

Lemma proto_need_kick c sq : proto (update_need_kick_clock c sq).2 = proto sq.
Proof. unfold update_need_kick_clock. by case_match. Qed.

(** Deciding whether to send changes nothing of the protocol; it only asks to
    send if no acknowledgement has to be waited for. *)
Lemma check_send_ok pending t sq wake sq' : check_send_command pending t sq = Some (wake, sq') ->
  proto sq' = proto sq.
Proof.
  unfold check_send_command. destruct (clock_from_time _ _) as [ack|]; [|done].
  cbn [mbind option_bind]. destruct (check_upcoming_queues ack sq) as [st sq1] eqn:Eu.
  assert (proto sq1 = proto sq) as <- by (rewrite <- (proto_check_upcoming ack sq), Eu; done).
  destruct (must_wait_ack sq1); [by intros [= <- <-]|].
  destruct (_ <=? sq_ready_bytes sq1); [by intros [= <- <-]|].
  destruct (negb (f_true _)).
  - destruct (negb _); [by intros [= <- <-]|].
    destruct (update_need_kick_clock 1 sq1) as [mw sq2] eqn:Ek. intros [= <- <-].
    by rewrite <- (proto_need_kick 1 sq1), Ek.
  - unfold check_ready_time. destruct (min_ready _ _ _ _) as [mr|]; [|done]. cbn [mbind option_bind].
    destruct (f_to_u64 _) as [rd|]; [|done]. cbn [mbind option_bind].
    case_match; [by intros [= <- <-]|]. case_match; [by intros [= <- <-]|].
    match goal with |- context [update_need_kick_clock ?c sq1] =>
      destruct (update_need_kick_clock c sq1) as [mw sq2] eqn:Ek;
      pose proof (proto_need_kick c sq1) as Hk; rewrite Ek in Hk end.
    destruct mw; intros [= <- <-]; done.
Qed.

(** Blocks with consecutive numbers from [s] on. *)
Fixpoint numbered (s : Z) (bs : list (list Z)) : Prop :=
  match bs with
  | [] => True
  | b :: bs => is_block s b /\ numbered (s + 1) bs
  end.

Lemma numbered_app s l1 l2 :
  numbered s (l1 ++ l2) <-> numbered s l1 /\ numbered (s + Z.of_nat (length l1)) l2.
Proof.
  revert s. induction l1 as [|b l1 IH]; intros s; cbn [numbered app length].
  - rewrite Z.add_0_r. tauto.
  - rewrite IH. replace (s + 1 + Z.of_nat (length l1)) with (s + Z.of_nat (S (length l1))) by lia. tauto.
Qed.

Lemma numbered_lookup s bs i b : numbered s bs -> bs !! i = Some b -> is_block (s + Z.of_nat i) b.
Proof.
  revert s i. induction bs as [|x bs IH]; intros s [|i]; try done; cbn [numbered].
  - intros [? _] [= <-]. by rewrite Z.add_0_r.
  - intros [_ Hn] Hb. replace (s + Z.of_nat (S i)) with (s + 1 + Z.of_nat i) by lia. by apply IH.
Qed.

(** The window: at most [MAX_PENDING_BLOCKS] unacknowledged blocks. *)
Definition in_window (sq : serialqueue) : Prop :=
  0 <= sq_receive_seq sq <= sq_send_seq sq /\
  sq_send_seq sq <= sq_receive_seq sq + MAX_PENDING_BLOCKS /\ sq_receive_seq sq < 2 ^ 62.

(** A time at which the quarter second after it is not the time zero that
    stands for [PR_NOW]. *)
Definition proper_time (t : double) : Prop := feq (fadd t (f_lit 250 1000)) PR_NOW = false.

Lemma check_send_window pending t sq wake sq' :
  check_send_command pending t sq = Some (wake, sq') -> feq wake PR_NOW = true ->
  proper_time t -> in_window sq -> sq_send_seq sq < sq_receive_seq sq + MAX_PENDING_BLOCKS.
Proof.
  unfold check_send_command. destruct (clock_from_time _ _) as [ack|]; [|done].
  cbn [mbind option_bind]. destruct (check_upcoming_queues ack sq) as [st sq1] eqn:Eu.
  assert (proto sq1 = proto sq) as Ep by (rewrite <- (proto_check_upcoming ack sq), Eu; done).
  unfold proto in Ep. injection Ep as E1 E2 _. intros E Hw Ht (H1 & H2 & H3).
  destruct (must_wait_ack sq1) eqn:Em; [injection E as <- _; unfold proper_time in Ht; congruence|].
  unfold must_wait_ack in Em. apply orb_false_iff in Em as [Em _]. rewrite E1, E2 in Em.
  unfold MAX_PENDING_BLOCKS in *. apply andb_false_iff in Em as [Em|Em].
  - apply Z.leb_gt in Em. assert (u64 (sq_send_seq sq - sq_receive_seq sq)
      = sq_send_seq sq - sq_receive_seq sq) as Eu64 by (clear -H1 H2; word_lia). lia.
  - apply negb_false_iff, Z.eqb_eq in Em. change (u64 (-1)) with 18446744073709551615 in Em. lia.
Qed.

Lemma command_loop_ok t : proper_time t -> forall fuel buf sq buf' wake sq',
  command_loop fuel buf t sq = Some (buf', wake, sq') -> in_window sq ->
  exists blocks, buf' = buf ++ concat blocks /\ numbered (sq_send_seq sq) blocks /\
    proto sq' = (sq_send_seq sq + Z.of_nat (length blocks), sq_receive_seq sq,
                 map sm_msg (sq_sent_queue sq) ++ blocks) /\ in_window sq'.
Proof.
  intros Ht. induction fuel as [|fuel IH]; intros buf sq buf' wake sq' E Hw; [done|].
  cbn [command_loop] in E.
  destruct (check_send_command _ t sq) as [[wk sq1]|] eqn:Ec; [|done]. cbn [mbind option_bind] in E.
  pose proof (check_send_ok _ _ _ _ _ Ec) as P1.
  assert (in_window sq1) as Hw1
    by (unfold proto in P1; injection P1 as A1 A2 _; unfold in_window; by rewrite A1, A2).
  destruct (feq wk PR_NOW) eqn:Ew; cbn [negb] in E.
  2: { injection E as <- <- <-. exists []. rewrite P1. unfold proto. simpl.
       by rewrite !app_nil_r, Z.add_0_r. }
  destruct (build_and_send_command _ t sq1) as [[b sq2]|] eqn:Eb; [|done]. cbn [mbind option_bind] in E.
  pose proof (check_send_window _ _ _ _ _ Ec Ew Ht Hw) as Hroom.
  destruct (build_ok _ _ _ _ _ Eb) as [Hb P2].
  unfold proto in P1. injection P1 as A1 A2 A3.
  assert (u64 (sq_send_seq sq1 + 1) = sq_send_seq sq + 1) as Eu.
  { rewrite A1. destruct Hw as (H1 & H2 & H3). unfold MAX_PENDING_BLOCKS in *. clear -H1 H2 H3. word_lia. }
  rewrite Eu, A2, A3 in P2. rewrite A1 in Hb.
  assert (in_window sq2) as Hw2.
  { unfold proto in P2. injection P2 as B1 B2 _. unfold in_window in *. rewrite B1, B2. lia. }
  destruct (_ <? _) in E.
  - injection E as <- <- <-. exists [b]. simpl. rewrite app_nil_r. split_and!; try done.
  - apply IH in E as (blocks & -> & Hn & P3 & Hw3); [|done].
    unfold proto in P2. injection P2 as B1 B2 B3. rewrite B1 in Hn. rewrite B1, B2, B3 in P3.
    exists (b :: blocks). simpl. split_and!; try done.
    + by rewrite <- app_assoc.
    + rewrite P3, <- app_assoc. f_equal. f_equal. lia.
Qed.

Lemma proto_write_frames {H : Host} fuel buf sq : proto (write_frames fuel buf sq) = proto sq.
Proof.
  revert buf sq. induction fuel as [|fuel IH]; intros [|x buf] sq; try done. cbn [write_frames].
  destruct (can_write_ok _); [by rewrite IH|]. cbn [get_monotonic].
  case_match; [done|]. case_match; done.
Qed.

Lemma proto_do_write {H : Host} buf sq : proto (do_write buf sq) = proto sq.
Proof. unfold do_write. case_match; [done|apply proto_write_frames|done]. Qed.

Lemma in_window_proto sq sq' : proto sq' = proto sq -> in_window sq -> in_window sq'.
Proof. unfold proto, in_window. intros [= -> -> _]. done. Qed.

(** [command_event] sends new blocks with consecutive numbers. *)
Lemma command_event_ok {H : Host} t sq wake sq' : command_event t sq = Some (wake, sq') ->
  proper_time t -> in_window sq ->
  exists blocks, numbered (sq_send_seq sq) blocks /\
    proto sq' = (sq_send_seq sq + Z.of_nat (length blocks), sq_receive_seq sq,
                 map sm_msg (sq_sent_queue sq) ++ blocks) /\ in_window sq'.
Proof.
  unfold command_event. intros E Ht Hw.
  destruct (command_loop _ [] t sq) as [[[buf wk] sq1]|] eqn:El; [|done]. cbn [mbind option_bind] in E.
  destruct (command_loop_ok t Ht _ _ _ _ _ _ El Hw) as (blocks & _ & Hn & P & Hw1).
  exists blocks. split; [done|]. destruct buf as [|x buf].
  - by injection E as <- <-.
  - injection E as <- <-. set (sq2 := do_write _ sq1).
    assert (proto sq2 = proto sq1) as P2 by apply proto_do_write.
    split; [|by eapply in_window_proto; [|exact Hw1]].
    rewrite <- P, <- P2. done.
Qed.

Lemma retransmit_ok {H : Host} t sq : proto (retransmit_event t sq).2 = proto sq.
Proof.
  unfold retransmit_event. cbn [snd]. set (sq0 := match sq_fd_type sq with SQT_UART => _ | _ => _ end).
  assert (proto sq0 = proto sq) as <- by (unfold sq0; by destruct (sq_fd_type sq)).
  rewrite <- (proto_do_write (MESSAGE_SYNC :: concat (map sm_msg (sq_sent_queue sq0))) sq0).
  by destruct (feq _ _).
Qed.

(** ** Acknowledgements *)

(** The number [a] as the sequence byte of a block. *)
Definition seq_byte (a : Z) : Z := 16 + a mod 16.

Lemma seq_byte_eq a b : seq_byte a = seq_byte b -> -16 < a - b < 16 -> a = b.
Proof. unfold seq_byte. intros. word_lia. Qed.

Lemma dest_lor s : Z.lor MESSAGE_DEST (Z.land s MESSAGE_SEQ_MASK) = seq_byte s.
Proof.
  change MESSAGE_SEQ_MASK with (Z.ones 4). rewrite Z.land_ones by lia. unfold seq_byte.
  assert (0 <= s mod 2 ^ 4 < 2 ^ 4) as Hs by word_lia. change MESSAGE_DEST with (Z.shiftl 1 4).
  rewrite lor_shiftl_add by lia. done.
Qed.

Lemma frame_block_seq s p rest : byte_at (frame_block s p ++ rest) MESSAGE_POS_SEQ = seq_byte s.
Proof. rewrite <- dest_lor. done. Qed.

Lemma seq_delta a r : Z.land (u32 (seq_byte a - r)) MESSAGE_SEQ_MASK = (a - r) mod 16.
Proof.
  unfold seq_byte. change MESSAGE_SEQ_MASK with (Z.ones 4). rewrite Z.land_ones by lia.
  change (2 ^ 4) with 16. word_lia.
Qed.

Lemma pop_acked_ok rseq : rseq < 2 ^ 63 -> forall q s sq,
  0 <= s < rseq -> rseq <= s + Z.of_nat (length q) ->
  proto (pop_acked rseq s q sq) =
    (sq_send_seq sq, sq_receive_seq sq, map sm_msg (drop (Z.to_nat (rseq - s)) q)).
Proof.
  intros Hr. induction q as [|b q IH]; intros s sq Hs Hl; [simpl in Hl; lia|].
  cbn [pop_acked]. assert (u64 (s + 1) = s + 1) as -> by word_lia.
  destruct (Z.eqb_spec rseq (s + 1)) as [->|Hn].
  - by replace (Z.to_nat (s + 1 - s)) with 1%nat by lia.
  - rewrite IH by (simpl in Hl; lia).
    by replace (Z.to_nat (rseq - s)) with (S (Z.to_nat (rseq - (s + 1)))) by lia.
Qed.

(** A new acknowledgement drops exactly the blocks it covers. *)
Lemma update_receive_seq_ok t rseq sq : rseq < 2 ^ 63 -> 0 <= sq_receive_seq sq < rseq ->
  rseq <= sq_receive_seq sq + Z.of_nat (length (sq_sent_queue sq)) ->
  proto (update_receive_seq t rseq sq) =
    (sq_send_seq sq, rseq,
     drop (Z.to_nat (rseq - sq_receive_seq sq)) (map sm_msg (sq_sent_queue sq))).
Proof.
  intros Hr Hs Hl. pose proof (pop_acked_ok rseq Hr _ _ sq Hs Hl) as Hp.
  unfold update_receive_seq. set (sq1 := pop_acked _ _ _ sq) in *.
  set (sq2 := pollreactor_update_timer SQPT_COMMAND PR_NOW (upd sq_receive_seq _ sq1)).
  assert (proto sq2 = (sq_send_seq sq, rseq,
     drop (Z.to_nat (rseq - sq_receive_seq sq)) (map sm_msg (sq_sent_queue sq)))) as <-.
  { unfold proto in *. injection Hp as E1 E2 E3. cbn. by rewrite E1, E3, skipn_map. }
  generalize sq2. clear. intros sq. cbv zeta.
  set (sq3 := if _ && _ && _ then _ else sq).
  assert (proto sq3 = proto sq) as <- by (unfold sq3; case_match; [apply proto_update_rtt|done]).
  by destruct (sq_sent_queue sq3).
Qed.

(** A block from the firmware with the sequence number [a] acknowledges every
    block before [a]. *)
Lemma handle_message_ok {H : Host} t msg a sq : in_window sq -> 2 <= sq_receive_seq sq ->
  sq_send_seq sq = sq_receive_seq sq + Z.of_nat (length (sq_sent_queue sq)) ->
  byte_at msg MESSAGE_POS_SEQ = seq_byte a -> sq_receive_seq sq <= a <= sq_send_seq sq ->
  proto (handle_message t msg sq).2 =
    (sq_send_seq sq, a, drop (Z.to_nat (a - sq_receive_seq sq)) (map sm_msg (sq_sent_queue sq))).
Proof.
  intros (H1 & H2 & H3) Hr Hl Hb Ha. unfold MAX_PENDING_BLOCKS in *.
  unfold handle_message. cbv zeta. rewrite Hb, seq_delta.
  assert (u64 (sq_receive_seq sq + (a - sq_receive_seq sq) mod 16) = a) as -> by word_lia.
  assert (negb (a =? sq_receive_seq sq) && ((sq_send_seq sq <? a) && negb (sq_receive_seq sq =? 1))
          = false) as ->.
  { rewrite (proj2 (Z.ltb_ge _ _)) by lia. by rewrite andb_false_r. }
  set (sq1 := if negb _ then _ else sq).
  assert (proto sq1 = (sq_send_seq sq, a,
    drop (Z.to_nat (a - sq_receive_seq sq)) (map sm_msg (sq_sent_queue sq)))) as <-.
  { unfold sq1. destruct (Z.eqb_spec a (sq_receive_seq sq)) as [->|Hn]; cbn [negb].
    - by rewrite Z.sub_diag.
    - rewrite update_receive_seq_ok by lia. done. }
  clearbody sq1. clear. destruct (split_notify _ _) as [n r].
  set (sq2 := upd sq_notify_queue _ _). assert (proto sq2 = proto sq1) as <- by done. clearbody sq2.
  destruct (_ =? MESSAGE_MIN).
  - destruct (sq_last_ack_seq sq2 <? a); [by destruct n|].
    destruct (_ && _); by destruct n.
  - cbn [get_monotonic]. by destruct n.
Qed.

(** ** Operations that leave the protocol alone *)

Lemma proto_send_batch q msgs sq : proto (serialqueue_send_batch q msgs sq) = proto sq.
Proof.
  unfold serialqueue_send_batch. destruct msgs as [|m msgs]; [done|]. cbn [map].
  destruct (total_len _ =? 0); [done|]. destruct (cq_upcoming _); cbn [fst snd]; [|done].
  by repeat destruct (_ <? _).
Qed.

Lemma proto_pull sq : proto (serialqueue_pull sq).2 = proto sq.
Proof. unfold serialqueue_pull. repeat case_match; done. Qed.
