(* ===== verification/QueueProps.v ===== *)
(** * The books of the serial queue

    A [struct serialqueue] (src/klippy/chelper/serialqueue.c) lists the command
    queues that have ready messages and those that have upcoming messages, and
    counts the bytes of both.  The lists and counters agree with the contents
    of the queues after every operation; because of that building a block
    never looks for a message that is not there.  The reactor that runs the
    timers of the queue (pollreactor.c) misses none of them. *)
From stdpp Require Import list relations.
From S2P Require Import Prelude Double Protocol Msgblock Serialqueue SerialFacts.
Import Msgblock.

(** ** A register of the queues that are not empty *)

Lemma total_len_app l1 l2 : total_len (l1 ++ l2) = total_len l1 + total_len l2.
Proof. unfold total_len. induction l1 as [|m l1 IH]; [done|]. cbn. rewrite IH. lia. Qed.

Section Register.
Implicit Types (L : list Z) (g : Z -> list queue_message).
(** What is counted of a list of messages. *)
Context (weight : list queue_message -> Z) (weight_nil : weight [] = 0).

Definition bytes_of L g : Z := foldr (fun q n => weight (g q) + n) 0 L.

(** [L] lists the queues of [g] that are not empty and [n] is their weight. *)
Definition registered L g (n : Z) : Prop :=
  NoDup L /\ (forall q, q ∈ L <-> g q <> []) /\ n = bytes_of L g.

(** The contents with queue [q] replaced. *)
Definition put g (q : Z) (v : list queue_message) : Z -> list queue_message :=
  fun x => if decide (x = q) then v else g x.

(** The list with [q] taken out, put in, or left as it is. *)
Definition relist L g (q : Z) (v : list queue_message) : list Z :=
  match v, g q with
  | [], _ => List.filter (fun x => negb (x =? q)) L
  | _, [] => L ++ [q]
  | _, _ => L
  end.

Lemma bytes_cons q L g : bytes_of (q :: L) g = weight (g q) + bytes_of L g.
Proof. done. Qed.

Lemma bytes_snoc q L g : bytes_of (L ++ [q]) g = bytes_of L g + weight (g q).
Proof. induction L as [|x L IH]; [apply Z.add_0_r|]. cbn [app]. rewrite !bytes_cons, IH. lia. Qed.

Lemma elem_of_without L q x : x ∈ List.filter (fun x => negb (x =? q)) L <-> x ∈ L /\ x <> q.
Proof.
  rewrite !list_elem_of_In, filter_In. destruct (Z.eqb_spec x q); cbn; intuition congruence.
Qed.

Lemma bytes_put_other L g q v : q ∉ L -> bytes_of L (put g q v) = bytes_of L g.
Proof.
  induction L as [|x L IH]; [done|]. intros [Hx HL]%not_elem_of_cons.
  rewrite !bytes_cons, IH by done. unfold put. by rewrite decide_False.
Qed.

Lemma bytes_put L g q v : NoDup L -> q ∈ L ->
  bytes_of L (put g q v) = bytes_of L g - weight (g q) + weight v.
Proof.
  induction 1 as [|x L Hx _ IH]; intros Hq; [by apply not_elem_of_nil in Hq|].
  apply elem_of_cons in Hq as [<-|Hq].
  - rewrite !bytes_cons, (bytes_put_other L g q v Hx). unfold put. rewrite decide_True by done. lia.
  - rewrite !bytes_cons, (IH Hq). unfold put at 1. rewrite decide_False by (intros ->; done). lia.
Qed.

Lemma without_other L q : q ∉ L -> List.filter (fun x => negb (x =? q)) L = L.
Proof.
  induction L as [|x L IH]; [done|]. intros [Hx HL]%not_elem_of_cons. cbn.
  rewrite (proj2 (Z.eqb_neq x q)) by done. cbn. by rewrite IH.
Qed.

Lemma bytes_without L g q : NoDup L -> q ∈ L ->
  bytes_of (List.filter (fun x => negb (x =? q)) L) g = bytes_of L g - weight (g q).
Proof.
  induction 1 as [|x L Hx _ IH]; intros Hq; [by apply not_elem_of_nil in Hq|].
  apply elem_of_cons in Hq as [<-|Hq]; cbn [List.filter].
  - rewrite Z.eqb_refl. cbn [negb]. rewrite without_other, bytes_cons by done. lia.
  - rewrite (proj2 (Z.eqb_neq x q)) by (intros ->; done). cbn [negb].
    rewrite !bytes_cons, (IH Hq). lia.
Qed.

(** Replacing the contents of one queue. *)
Lemma registered_put L g n q v : registered L g n ->
  registered (relist L g q v) (put g q v) (n - weight (g q) + weight v).
Proof.
  intros (Hd & Hin & ->). unfold relist. destruct v as [|m v].
  - split_and!.
    + apply NoDup_ListNoDup, List.NoDup_filter. by apply NoDup_ListNoDup.
    + intros x. rewrite elem_of_without, Hin. unfold put. destruct (decide (x = q)); naive_solver.
    + rewrite weight_nil. destruct (decide (q ∈ L)) as [Hq|Hq].
      * rewrite bytes_put_other by (rewrite elem_of_without; tauto).
        rewrite bytes_without by done. lia.
      * rewrite without_other, bytes_put_other by done. rewrite Hin in Hq.
        destruct (g q); [rewrite weight_nil; lia|]. by destruct Hq.
  - destruct (g q) as [|m' q'] eqn:Eg.
    + assert (q ∉ L) as Hq by (rewrite Hin, Eg; tauto). split_and!.
      * apply NoDup_app. split_and!; [done| |apply NoDup_singleton].
        intros x Hx ->%list_elem_of_singleton. done.
      * intros x. rewrite elem_of_app, list_elem_of_singleton, Hin. unfold put.
        destruct (decide (x = q)) as [->|]; naive_solver.
      * rewrite bytes_snoc, bytes_put_other by done. unfold put. rewrite decide_True by done.
        rewrite weight_nil. lia.
    + assert (q ∈ L) as Hq by (rewrite Hin, Eg; done). split_and!; [done| |].
      * intros x. rewrite Hin. unfold put. destruct (decide (x = q)) as [->|]; [|done].
        rewrite Eg. done.
      * rewrite (bytes_put L g q _ Hd Hq), Eg. done.
Qed.

Lemma registered_ext L g g' n : (forall q, g q = g' q) -> registered L g n -> registered L g' n.
Proof.
  intros He (Hd & Hin & ->). split_and!; [done| |].
  - intros q. by rewrite <- He.
  - clear -He. induction L as [|x L IH]; [done|]. by rewrite !bytes_cons, IH, He.
Qed.
End Register.

(** ** The invariant *)

Definition ready_of (sq : serialqueue) (q : Z) : list queue_message := cq_ready (get_cq sq q).
Definition upcoming_of (sq : serialqueue) (q : Z) : list queue_message := cq_upcoming (get_cq sq q).

(** A message that fits in a block, with a clock that means a time or the
    background priority. *)
Definition message_ok (m : queue_message) : Prop :=
  qm_req_clock m < MAX_CLOCK /\ msg_len (qm_msg m) <= MESSAGE_PAYLOAD_MAX.

Record books (sq : serialqueue) : Prop := mkBooks {
  b_ready : registered total_len (sq_ready_queues sq) (ready_of sq) (sq_ready_bytes sq);
  b_upcoming : registered total_len (tr_upcoming_queues (sq_tr sq)) (upcoming_of sq)
                 (tr_upcoming_bytes (sq_tr sq));
  b_messages : forall q, Forall message_ok (ready_of sq q) /\ Forall message_ok (upcoming_of sq q) }.

(** The part of the state the invariant is about. *)
Definition ledger (sq : serialqueue) :=
  (sq_ready_queues sq, sq_ready_bytes sq, tr_upcoming_queues (sq_tr sq), tr_upcoming_bytes (sq_tr sq),
   sq_cqs sq).

Lemma books_ledger sq sq' : ledger sq' = ledger sq -> books sq -> books sq'.
Proof.
  unfold ledger. intros [= E1 E2 E3 E4 E5] [B1 B2 B3].
  assert (forall q, get_cq sq' q = get_cq sq q) as Hg by (intros q; unfold get_cq; by rewrite E5).
  split.
  - rewrite E1, E2. eapply registered_ext; [|exact B1]. intros q. unfold ready_of. by rewrite Hg.
  - rewrite E3, E4. eapply registered_ext; [|exact B2]. intros q. unfold upcoming_of. by rewrite Hg.
  - intros q. unfold ready_of, upcoming_of. rewrite Hg. apply B3.
Qed.

(** ** Taking a message *)

Lemma take_ready_view q qm sq :
  (forall x, get_cq (take_ready q qm sq) x =
     if decide (x = q) then mkCQ (tail (ready_of sq q)) (upcoming_of sq q) else get_cq sq x) /\
  sq_ready_queues (take_ready q qm sq) =
    match tail (ready_of sq q) with
    | [] => List.filter (fun x => negb (x =? q)) (sq_ready_queues sq)
    | _ => sq_ready_queues sq
    end /\
  sq_ready_bytes (take_ready q qm sq) = sq_ready_bytes sq - msg_len (qm_msg qm) /\
  sq_tr (take_ready q qm sq) = sq_tr sq.
Proof.
  unfold take_ready.
  change ((get_cq sq q) <| cq_ready ::= tail |>) with (mkCQ (tail (ready_of sq q)) (upcoming_of sq q)).
  cbv zeta. cbn [cq_ready]. set (sq1 := set_cq _ _ sq).
  assert (forall x, get_cq sq1 x =
    if decide (x = q) then mkCQ (tail (ready_of sq q)) (upcoming_of sq q) else get_cq sq x) as Hg
    by (intros x; apply get_set_cq).
  destruct (tail (ready_of sq q)), (negb (qm_notify_id qm =? 0)); split_and!;
    (exact Hg || done).
Qed.

Lemma take_ready_books q qm rest sq : books sq -> ready_of sq q = qm :: rest ->
  books (take_ready q qm sq).
Proof.
  intros [B1 B2 B3] Hq. destruct (take_ready_view q qm sq) as (V1 & V2 & V3 & V4).
  rewrite Hq in V1, V2. cbn [tail] in V1, V2. split.
  - rewrite V2, V3. pose proof (registered_put total_len eq_refl _ _ _ q rest B1) as Hp.
    unfold relist in Hp. rewrite Hq in Hp.
    replace (sq_ready_bytes sq - msg_len (qm_msg qm))
      with (sq_ready_bytes sq - total_len (qm :: rest) + total_len rest) by (unfold total_len; cbn; lia).
    eapply registered_ext; [|by destruct rest]. intros x. unfold put, ready_of. rewrite V1.
    by destruct (decide _).
  - rewrite V4. eapply registered_ext; [|exact B2]. intros x. unfold upcoming_of. rewrite V1.
    destruct (decide _) as [->|]; done.
  - intros x. unfold ready_of, upcoming_of. rewrite V1. destruct (B3 x) as [F1 F2].
    destruct (decide _) as [->|]; [|done]. cbn. split; [|done].
    rewrite Hq in F1. by inversion F1.
Qed.

(** The message found is the first of a ready queue, with the lowest clock. *)
Lemma find_min_ok sq qs : (forall q, q ∈ qs -> ready_of sq q <> []) -> forall c best,
  (find_min sq qs c best = best /\
   forall q m l, q ∈ qs -> ready_of sq q = m :: l -> c <= qm_req_clock m) \/
  (exists q m l, find_min sq qs c best = Some (q, m) /\ q ∈ qs /\ ready_of sq q = m :: l /\
     qm_req_clock m < c /\
     forall q' m' l', q' ∈ qs -> ready_of sq q' = m' :: l' -> qm_req_clock m <= qm_req_clock m').
Proof.
  induction qs as [|q qs IH]; intros Hne c best; [left; split; [done|intros ??? []%not_elem_of_nil]|].
  cbn [find_min]. destruct (cq_ready (get_cq sq q)) as [|m l] eqn:Eq.
  { destruct (Hne q); [by left|done]. }
  assert (forall q', q' ∈ qs -> ready_of sq q' <> []) as Hne' by (intros; apply Hne; by right).
  destruct (Z.ltb_spec (qm_req_clock m) c) as [Hlt|Hge].
  - destruct (IH Hne' (qm_req_clock m) (Some (q, m)))
      as [[-> Hall]|(q1 & m1 & l1 & -> & Hin & E1 & Hlt1 & Hall)].
    + right. exists q, m, l. split_and!; [done|by left|done|done|].
      intros q' m' l' [->|Hq']%elem_of_cons E'; [|by eapply Hall].
      unfold ready_of in E'. rewrite Eq in E'. injection E' as -> ->. lia.
    + right. exists q1, m1, l1. split_and!; [done|by right|done|lia|].
      intros q' m' l' [->|Hq']%elem_of_cons E'; [|by eapply Hall].
      unfold ready_of in E'. rewrite Eq in E'. injection E' as <- <-. lia.
  - destruct (IH Hne' c best) as [[-> Hall]|(q1 & m1 & l1 & -> & Hin & E1 & Hlt1 & Hall)].
    + left. split; [done|]. intros q' m' l' [->|Hq']%elem_of_cons E'; [|by eapply Hall].
      unfold ready_of in E'. rewrite Eq in E'. injection E' as <- <-. lia.
    + right. exists q1, m1, l1. split_and!; [done|by right|done|done|].
      intros q' m' l' [->|Hq']%elem_of_cons E'; [|by eapply Hall].
      unfold ready_of in E'. rewrite Eq in E'. injection E' as <- <-. lia.
Qed.

(** While bytes are ready there is a message to take. *)
Lemma find_min_books sq : books sq -> sq_ready_bytes sq <> 0 ->
  exists q m l, find_min sq (sq_ready_queues sq) MAX_CLOCK None = Some (q, m) /\
    q ∈ sq_ready_queues sq /\ ready_of sq q = m :: l /\
    forall q' m' l', ready_of sq q' = m' :: l' -> qm_req_clock m <= qm_req_clock m'.
Proof.
  intros [(Hd & Hin & Hb) _ B3] Hn.
  destruct (find_min_ok sq (sq_ready_queues sq) (fun q Hq => proj1 (Hin q) Hq) MAX_CLOCK None)
    as [[_ Hall]|(q & m & l & E & Hq & El & _ & Hmin)].
  - exfalso. destruct (sq_ready_queues sq) as [|q qs] eqn:Eq; [by rewrite Hb in Hn|].
    destruct (ready_of sq q) as [|m l] eqn:El; [by apply (Hin q); [left|]|].
    specialize (Hall q m l ltac:(by left) El). destruct (B3 q) as [F _]. rewrite El in F.
    inversion F as [|?? [Hm _]]. lia.
  - exists q, m, l. split_and!; [done..|]. intros q' m' l' E'. eapply Hmin; [|exact E'].
    apply Hin. by rewrite E'.
Qed.

(** ** Building a block *)

Definition count (l : list queue_message) : Z := Z.of_nat (length l).

Lemma ready_count_of sq : Z.of_nat (ready_count sq) = bytes_of count (sq_ready_queues sq) (ready_of sq).
Proof.
  unfold ready_count, list_sum. induction (sq_ready_queues sq) as [|q l IH]; [done|].
  rewrite bytes_cons, <- IH. cbn [map foldr]. rewrite Nat2Z.inj_add. done.
Qed.

Lemma take_ready_count q qm rest sq : books sq -> ready_of sq q = qm :: rest ->
  ready_count sq = S (ready_count (take_ready q qm sq)).
Proof.
  intros B Hq. pose proof (take_ready_books q qm rest sq B Hq) as B'.
  destruct B as [(Hd & Hin & _) _ _], B' as [(Hd' & Hin' & _) _ _].
  pose proof (registered_put count eq_refl _ _ (bytes_of count (sq_ready_queues sq) (ready_of sq)) q rest
    (conj Hd (conj Hin eq_refl))) as (_ & _ & Hp).
  apply (inj Z.of_nat). rewrite Nat2Z.inj_succ, !ready_count_of.
  destruct (take_ready_view q qm sq) as (V1 & V2 & _ & _). rewrite Hq in V1, V2. cbn [tail] in V1, V2.
  assert (bytes_of count (sq_ready_queues (take_ready q qm sq)) (ready_of (take_ready q qm sq)) =
          bytes_of count (relist (sq_ready_queues sq) (ready_of sq) q rest) (put (ready_of sq) q rest)) as ->.
  { rewrite V2. unfold relist. rewrite Hq.
    replace (match rest with [] => _ | _ => _ end) with (match rest with
      | [] => List.filter (fun x => negb (x =? q)) (sq_ready_queues sq) | _ => sq_ready_queues sq end)
      by (by destruct rest).
    generalize (match rest with [] => List.filter (fun x => negb (x =? q)) (sq_ready_queues sq)
      | _ => sq_ready_queues sq end). intros l. induction l as [|x l IH]; [done|].
    rewrite !bytes_cons, IH. f_equal. unfold put, ready_of. rewrite V1. by destruct (decide _). }
  rewrite <- Hp, Hq. unfold count. cbn [length]. lia.
Qed.

(** A block is always built; if a message is ready it takes the one with the
    lowest clock. *)
Lemma fill_block_books : forall fuel buf sq, books sq -> (ready_count sq < fuel)%nat ->
  exists payload sq', fill_block fuel buf sq = Some (payload, sq') /\ books sq' /\
    (exists more, payload = buf ++ more) /\ sq_ready_bytes sq' <= sq_ready_bytes sq.
Proof.
  induction fuel as [|fuel IH]; intros buf sq B Hf; [lia|]. cbn [fill_block].
  destruct (Z.eqb_spec (sq_ready_bytes sq) 0) as [E0|E0].
  { exists buf, sq. split_and!; [done|done|exists []; by rewrite app_nil_r|lia]. }
  destruct (find_min_books sq B E0) as (q & m & l & -> & Hq & El & _).
  case_match.
  { exists buf, sq. split_and!; [done|done|exists []; by rewrite app_nil_r|lia]. }
  pose proof (take_ready_count q m l sq B El) as Hc.
  destruct (IH (buf ++ qm_msg m) (take_ready q m sq)) as (p & sq' & E & B' & (more & ->) & Hr);
    [by eapply take_ready_books|lia|].
  exists ((buf ++ qm_msg m) ++ more), sq'. split_and!; [done|done|exists (qm_msg m ++ more); by rewrite app_assoc|].
  destruct (take_ready_view q m sq) as (_ & _ & V3 & _). rewrite V3 in Hr. unfold msg_len in Hr. lia.
Qed.

Lemma build_books pending t sq : books sq ->
  exists b sq', build_and_send_command pending t sq = Some (b, sq') /\ books sq'.
Proof.
  intros B. unfold build_and_send_command.
  destruct (fill_block_books (S (ready_count sq)) [] sq B ltac:(lia)) as (p & sq1 & -> & B1 & _).
  cbn [mbind option_bind]. eexists _, _. split; [done|]. eapply books_ledger; [|exact B1].
  by destruct (sq_sent_queue sq1), (sq_rtt_sample_seq _ =? 0).
Qed.

(** ** Releasing and queueing messages *)

Lemma split_upcoming_app ack l : (split_upcoming ack l).1 ++ (split_upcoming ack l).2 = l.
Proof.
  induction l as [|m l IH]; [done|]. cbn [split_upcoming]. case_match; [done|].
  destruct (split_upcoming ack l). cbn in *. by rewrite IH.
Qed.

Lemma release_view ack q c sq moved rest : split_upcoming ack (upcoming_of sq q) = (moved, rest) ->
  let sq' := (release_queue ack q (c, sq)).2 in
  (forall x, get_cq sq' x = if decide (x = q) then mkCQ (ready_of sq q ++ moved) rest else get_cq sq x) /\
  sq_ready_queues sq' = (match ready_of sq q ++ moved with
                         | [] => sq_ready_queues sq
                         | _ => match ready_of sq q with
                                | [] => sq_ready_queues sq ++ [q] | _ => sq_ready_queues sq end
                         end) /\
  sq_ready_bytes sq' = total_len moved + sq_ready_bytes sq /\
  tr_upcoming_queues (sq_tr sq') = (match rest with
    | [] => List.filter (fun x => negb (x =? q)) (tr_upcoming_queues (sq_tr sq))
    | _ => tr_upcoming_queues (sq_tr sq) end) /\
  tr_upcoming_bytes (sq_tr sq') = tr_upcoming_bytes (sq_tr sq) - total_len moved.
Proof.
  intros Es. unfold release_queue. unfold upcoming_of in Es. rewrite Es. cbv zeta.
  set (sq1 := set_cq _ _ sq).
  assert (forall x, get_cq sq1 x =
    if decide (x = q) then mkCQ (ready_of sq q ++ moved) rest else get_cq sq x) as Hg
    by (intros x; apply get_set_cq).
  cbn [cq_ready]. change (cq_ready (get_cq sq q)) with (ready_of sq q).
  destruct rest, (ready_of sq q), moved; split_and!; (exact Hg || done).
Qed.

Lemma release_books ack q c sq : books sq -> books (release_queue ack q (c, sq)).2.
Proof.
  intros [B1 B2 B3]. destruct (split_upcoming ack (upcoming_of sq q)) as [moved rest] eqn:Es.
  destruct (release_view ack q c sq moved rest Es) as (V1 & V2 & V3 & V4 & V5).
  pose proof (split_upcoming_app ack (upcoming_of sq q)) as Happ. rewrite Es in Happ. cbn in Happ.
  pose proof B1 as (_ & Hin & _). split.
  - rewrite V2, V3. pose proof (registered_put total_len eq_refl _ _ _ q (ready_of sq q ++ moved) B1) as Hp.
    replace (total_len moved + sq_ready_bytes sq) with
      (sq_ready_bytes sq - total_len (ready_of sq q) + total_len (ready_of sq q ++ moved))
      by (rewrite total_len_app; lia).
    apply (registered_ext total_len _ (put (ready_of sq) q (ready_of sq q ++ moved))).
    2: { unfold relist in Hp. destruct (ready_of sq q ++ moved) eqn:E; [|exact Hp].
         rewrite without_other in Hp; [exact Hp|]. rewrite Hin. apply app_eq_nil in E as [-> _]. tauto. }
    intros x. unfold put, ready_of. rewrite V1. by destruct (decide _).
  - rewrite V4, V5. pose proof (registered_put total_len eq_refl _ _ _ q rest B2) as Hp.
    replace (tr_upcoming_bytes (sq_tr sq) - total_len moved) with
      (tr_upcoming_bytes (sq_tr sq) - total_len (upcoming_of sq q) + total_len rest)
      by (rewrite <- Happ, total_len_app; lia).
    apply (registered_ext total_len _ (put (upcoming_of sq) q rest)).
    2: { unfold relist in Hp. destruct rest; [exact Hp|]. destruct (upcoming_of sq q) eqn:Eu; [|exact Hp].
         by destruct moved. }
    intros x. unfold put, upcoming_of. rewrite V1. by destruct (decide _).
  - intros x. unfold ready_of, upcoming_of. rewrite V1. destruct (B3 x) as [F1 F2].
    destruct (decide _) as [->|]; [|done]. cbn. rewrite <- Happ in F2.
    apply Forall_app in F2 as [F2 F3]. split; [by apply Forall_app|done].
Qed.

Lemma check_upcoming_books ack sq : books sq -> books (check_upcoming_queues ack sq).2.
Proof.
  intros B. unfold check_upcoming_queues. cbv zeta. case_match; [by eapply books_ledger; [|exact B]|].
  set (sq0 := upd sq_tr _ sq). assert (books sq0) as B0 by by eapply books_ledger; [|exact B].
  generalize (tr_upcoming_queues (sq_tr sq0)). generalize MAX_CLOCK. clearbody sq0. clear B.
  intros c l. revert c sq0 B0. induction l as [|q l IH]; intros c sq0 B0.
  - by eapply books_ledger; [|exact B0].
  - cbn [foldl]. pose proof (release_books ack q c sq0 B0) as B1.
    destruct (release_queue ack q (c, sq0)) as [c1 sq1]. by apply IH.
Qed.

Lemma raise_min_clock_ok m : message_ok m -> message_ok (raise_min_clock m).
Proof. unfold raise_min_clock. by case_match. Qed.

Lemma send_batch_books c msgs sq : books sq -> Forall message_ok msgs ->
  books (serialqueue_send_batch c msgs sq).
Proof.
  intros B Hm. unfold serialqueue_send_batch. destruct msgs as [|m msgs]; [done|]. cbn [map].
  set (new := raise_min_clock m :: map raise_min_clock msgs).
  assert (Forall message_ok new) as Hnew by (change new with (map raise_min_clock (m :: msgs)); apply Forall_map;
    eapply Forall_impl; [exact Hm|apply raise_min_clock_ok]).
  destruct (total_len new =? 0); [done|].
  set (st := match cq_upcoming (get_cq sq c) with [] => _ | _ => _ end).
  assert (sq_ready_queues st.2 = sq_ready_queues sq /\ sq_ready_bytes st.2 = sq_ready_bytes sq /\
    sq_cqs st.2 = sq_cqs sq /\ tr_upcoming_bytes (sq_tr st.2) = tr_upcoming_bytes (sq_tr sq) /\
    tr_upcoming_queues (sq_tr st.2) =
      match upcoming_of sq c with [] => tr_upcoming_queues (sq_tr sq) ++ [c]
                                | _ => tr_upcoming_queues (sq_tr sq) end) as (S1 & S2 & S3 & S4 & S5).
  { unfold st, upcoming_of. destruct (cq_upcoming _); [|done].
    cbn [tr_min_release_clock tr_need_kick_clock upd]. by repeat destruct (_ <? _). }
  destruct st as [mw sq1]. cbn [snd] in *. set (cq' := (get_cq sq c) <| cq_upcoming ::= fun l => l ++ new |>).
  assert (forall x, get_cq (set_cq c cq' sq1) x = if decide (x = c) then cq' else get_cq sq x) as Hg.
  { intros x. rewrite get_set_cq. destruct (decide _); [done|]. unfold get_cq. by rewrite S3. }
  destruct B as [B1 B2 B3].
  assert (books (upd sq_tr (fun tr => tr <| tr_upcoming_bytes ::= Z.add (total_len new) |>)
                   (set_cq c cq' sq1))) as Hb.
  { split.
    - change (registered total_len (sq_ready_queues sq1) (ready_of (set_cq c cq' sq1)) (sq_ready_bytes sq1)).
      rewrite S1, S2. eapply registered_ext; [|exact B1]. intros x. unfold ready_of. rewrite Hg.
      by destruct (decide _) as [->|].
    - change (registered total_len (tr_upcoming_queues (sq_tr sq1)) (upcoming_of (set_cq c cq' sq1))
        (total_len new + tr_upcoming_bytes (sq_tr sq1))). rewrite S4, S5.
      pose proof (registered_put total_len eq_refl _ _ _ c (upcoming_of sq c ++ new) B2) as Hp.
      rewrite total_len_app in Hp. replace (total_len new + tr_upcoming_bytes (sq_tr sq)) with
        (tr_upcoming_bytes (sq_tr sq) - total_len (upcoming_of sq c) +
          (total_len (upcoming_of sq c) + total_len new)) by lia.
      apply (registered_ext total_len _ (put (upcoming_of sq) c (upcoming_of sq c ++ new))).
      + intros x. unfold put, upcoming_of. rewrite Hg. by destruct (decide _) as [->|].
      + unfold relist in Hp. by destruct (upcoming_of sq c).
    - intros x. change (Forall message_ok (ready_of (set_cq c cq' sq1) x) /\
                        Forall message_ok (upcoming_of (set_cq c cq' sq1) x)).
      unfold ready_of, upcoming_of. rewrite Hg. destruct (B3 x) as [F1 F2].
      destruct (decide _) as [->|]; [|done]. split; [done|]. by apply Forall_app. }
  destruct mw; [by eapply books_ledger; [|exact Hb]|exact Hb].
Qed.

(** ** All operations *)

(** The operations of the other threads of the host on the queue: messages are
    well formed and a new command queue is not in use. *)
Inductive host_call : serialqueue -> serialqueue -> Prop :=
| call_send_batch q msgs sq : Forall message_ok msgs -> host_call sq (serialqueue_send_batch q msgs sq)
| call_pull sq : host_call sq (serialqueue_pull sq).2
| call_wire_frequency f sq : host_call sq (serialqueue_set_wire_frequency f sq)
| call_receive_window n sq : host_call sq (serialqueue_set_receive_window n sq)
| call_clock_est f t c l sq : host_call sq (serialqueue_set_clock_est f t c l sq)
| call_alloc_commandqueue q sq : sq_cqs sq !! q = None ->
    host_call sq (serialqueue_alloc_commandqueue q sq)
| call_free_commandqueue q sq : host_call sq (serialqueue_free_commandqueue q sq)
| call_add_fastreader fr sq : host_call sq (serialqueue_add_fastreader fr sq)
| call_rm_fastreader fr sq : host_call sq (serialqueue_rm_fastreader fr sq)
| call_extract_old b n sq : host_call sq (serialqueue_extract_old b n sq).2
| call_kick sq : host_call sq (kick_event sq).

Lemma host_call_books sq sq' : host_call sq sq' -> books sq -> books sq'.
Proof.
  destruct 1; intros B; try (by eapply books_ledger; [|exact B]).
  - by apply send_batch_books.
  - eapply books_ledger; [|exact B]. unfold serialqueue_pull. by repeat case_match.
  - destruct B as [B1 B2 B3].
    assert (forall x, get_cq (serialqueue_alloc_commandqueue q sq) x = get_cq sq x) as Hg.
    { intros x. unfold serialqueue_alloc_commandqueue. rewrite get_set_cq.
      destruct (decide _) as [->|]; [|done]. unfold get_cq. by rewrite H. }
    split; [| |intros x; unfold ready_of, upcoming_of; rewrite Hg; apply B3].
    + eapply registered_ext; [|exact B1]. intros x. unfold ready_of. by rewrite Hg.
    + eapply registered_ext; [|exact B2]. intros x. unfold upcoming_of. by rewrite Hg.
  - unfold serialqueue_free_commandqueue. destruct (get_cq sq q) as [[] []] eqn:Eq; try done.
    destruct B as [B1 B2 B3].
    assert (forall x, get_cq (sq <| sq_cqs ::= delete q |>) x = get_cq sq x) as Hg.
    { intros x. destruct (decide (x = q)) as [->|Hn].
      - rewrite Eq. unfold get_cq. cbn. by rewrite lookup_delete_eq.
      - unfold get_cq. cbn. by rewrite lookup_delete_ne. }
    split; [| |intros x; unfold ready_of, upcoming_of; rewrite Hg; apply B3].
    + eapply registered_ext; [|exact B1]. intros x. unfold ready_of. by rewrite Hg.
    + eapply registered_ext; [|exact B2]. intros x. unfold upcoming_of. by rewrite Hg.
  - eapply books_ledger; [|exact B]. unfold serialqueue_extract_old. by case_match.
Qed.

Lemma need_kick_books c sq : books sq -> books (update_need_kick_clock c sq).2.
Proof. intros B. eapply books_ledger; [|exact B]. unfold update_need_kick_clock. by case_match. Qed.

Lemma check_send_books pending t sq wake sq' : check_send_command pending t sq = Some (wake, sq') ->
  books sq -> books sq'.
Proof.
  unfold check_send_command. intros E B. destruct (clock_from_time _ _) as [ack|]; [|done].
  cbn [mbind option_bind] in E. pose proof (check_upcoming_books ack sq B) as B1.
  destruct (check_upcoming_queues ack sq) as [st sq1]. cbn [snd] in B1.
  destruct (must_wait_ack sq1); [by simplify_eq|].
  destruct (_ <=? sq_ready_bytes sq1); [by simplify_eq|].
  destruct (negb (f_true _)).
  - destruct (negb _); [by simplify_eq|]. pose proof (need_kick_books 1 sq1 B1) as B2.
    destruct (update_need_kick_clock 1 sq1). by simplify_eq.
  - unfold check_ready_time in E. destruct (min_ready _ _ _ _) as [mr|]; [|done].
    cbn [mbind option_bind] in E. destruct (f_to_u64 _) as [rd|]; [|done]. cbn [mbind option_bind] in E.
    case_match; [by simplify_eq|]. case_match; [by simplify_eq|].
    match type of E with context [update_need_kick_clock ?c sq1] =>
      pose proof (need_kick_books c sq1 B1) as B2; destruct (update_need_kick_clock c sq1) as [mw sq2] end.
    destruct mw; by simplify_eq.
Qed.

Lemma command_loop_books t fuel : forall buf sq buf' wake sq',
  command_loop fuel buf t sq = Some (buf', wake, sq') -> books sq -> books sq'.
Proof.
  induction fuel as [|fuel IH]; intros buf sq buf' wake sq' E B; [done|]. cbn [command_loop] in E.
  destruct (check_send_command _ t sq) as [[wk sq1]|] eqn:Ec; [|done]. cbn [mbind option_bind] in E.
  pose proof (check_send_books _ _ _ _ _ Ec B) as B1.
  destruct (negb _); [by simplify_eq|].
  destruct (build_books (msg_len buf) t sq1 B1) as (b & sq2 & Eb & B2). rewrite Eb in E.
  cbn [mbind option_bind] in E. case_match; [by simplify_eq|]. by eapply IH.
Qed.

Section Reachable.
Context `{Host}.

Lemma write_frames_ledger fuel : forall buf sq, ledger (write_frames fuel buf sq) = ledger sq.
Proof.
  induction fuel as [|fuel IH]; intros [|x buf] sq; try done. cbn [write_frames].
  destruct (can_write_ok _); [by rewrite IH|]. cbn [get_monotonic]. by repeat case_match.
Qed.

Lemma do_write_ledger buf sq : ledger (do_write buf sq) = ledger sq.
Proof. unfold do_write. case_match; [done|apply write_frames_ledger|done]. Qed.

Lemma retransmit_ledger t sq : ledger (retransmit_event t sq).2 = ledger sq.
Proof.
  unfold retransmit_event. cbn [snd]. set (sq0 := match sq_fd_type sq with SQT_UART => _ | _ => _ end).
  assert (ledger sq0 = ledger sq) as <- by (unfold sq0; by destruct (sq_fd_type sq)).
  rewrite <- (do_write_ledger (MESSAGE_SYNC :: concat (map sm_msg (sq_sent_queue sq0))) sq0).
  by destruct (feq _ _).
Qed.

Lemma pop_acked_ledger rseq q : forall s sq, ledger (pop_acked rseq s q sq) = ledger sq.
Proof. induction q as [|b q IH]; intros s sq; [done|]. cbn [pop_acked]. case_match; [done|by rewrite IH]. Qed.

Lemma handle_message_ledger t msg sq : ledger (handle_message t msg sq).2 = ledger sq.
Proof.
  unfold handle_message. cbv zeta. set (rseq := u64 (sq_receive_seq sq + _)).
  destruct (_ && (_ && _)); [done|]. set (sq1 := if negb _ then _ else sq).
  assert (ledger sq1 = ledger sq) as <-.
  { unfold sq1. case_match; [|done]. unfold update_receive_seq. cbv zeta.
    set (sq2 := pollreactor_update_timer SQPT_COMMAND PR_NOW _).
    assert (ledger sq2 = ledger sq) as <- by apply pop_acked_ledger. clearbody sq2.
    set (sq3 := if _ && _ && _ then _ else sq2).
    assert (ledger sq3 = ledger sq2) as <-.
    { unfold sq3. case_match; [|done]. unfold update_rtt. by destruct (negb (f_true (sq_srtt sq2))). }
    by destruct (sq_sent_queue sq3). }
  clearbody sq1. destruct (split_notify _ _) as [n r].
  set (sq2 := upd sq_notify_queue _ _). assert (ledger sq2 = ledger sq1) as <- by done. clearbody sq2.
  destruct (_ =? MESSAGE_MIN).
  - destruct (sq_last_ack_seq sq2 <? rseq); [by destruct n|]. destruct (_ && _); by destruct n.
  - cbn [get_monotonic]. by destruct n.
Qed.

(** What may happen to a serial queue: calls of other threads, the timers of
    the background thread and blocks from the micro-controller. *)
Inductive queue_step : serialqueue -> serialqueue -> Prop :=
| queue_call sq sq' : host_call sq sq' -> queue_step sq sq'
| queue_command t wake sq sq' : command_event t sq = Some (wake, sq') -> queue_step sq sq'
| queue_retransmit t sq : queue_step sq (retransmit_event t sq).2
| queue_message t msg sq : queue_step sq (handle_message t msg sq).2.

Lemma queue_step_books sq sq' : queue_step sq sq' -> books sq -> books sq'.
Proof.
  destruct 1 as [sq sq' Hc|t wake sq sq' E|t sq|t msg sq]; intros B.
  - by eapply host_call_books.
  - unfold command_event in E. destruct (command_loop _ [] t sq) as [[[buf wk] sq1]|] eqn:El; [|done].
    pose proof (command_loop_books _ _ _ _ _ _ _ El B) as B1. cbn [mbind option_bind] in E.
    destruct buf; [by simplify_eq|]. injection E as _ <-.
    eapply books_ledger; [|exact B1]. rewrite <- (do_write_ledger (z :: buf) sq1). done.
  - eapply books_ledger; [apply retransmit_ledger|done].
  - eapply books_ledger; [apply handle_message_ledger|done].
Qed.

Lemma alloc_books ty id : books (serialqueue_alloc ty id).
Proof.
  assert (forall q, get_cq (serialqueue_alloc ty id) q = mkCQ [] []) as Hg by by destruct ty.
  split; [..|intros q; unfold ready_of, upcoming_of; by rewrite Hg].
  - destruct ty; (split_and!; [constructor| |done]); intros q; rewrite elem_of_nil; split; try done;
      intros Hq; apply Hq; done.
  - destruct ty; (split_and!; [constructor| |done]); intros q; rewrite elem_of_nil; split; try done;
      intros Hq; apply Hq; done.
Qed.

Lemma reachable_books ty id sq : rtc queue_step (serialqueue_alloc ty id) sq -> books sq.
Proof.
  intros Hr. pose proof (alloc_books ty id) as B. revert B.
  induction Hr as [|sq1 sq2 sq3 H12 _ IH]; [done|]. intros B. apply IH. by eapply queue_step_books.
Qed.


(** Messages are sent in the order of urgency: while bytes are ready,
    the message taken for a block is the first of its queue and no first
    message of any queue has a lower [req_clock]. *)
Theorem lowest_clock_first ty id sq :
  rtc queue_step (serialqueue_alloc ty id) sq -> sq_ready_bytes sq <> 0 ->
  exists q m l, find_min sq (sq_ready_queues sq) MAX_CLOCK None = Some (q, m) /\
    ready_of sq q = m :: l /\
    forall q' m' l', ready_of sq q' = m' :: l' -> qm_req_clock m <= qm_req_clock m'.
Proof.
  intros Hr Hb. destruct (find_min_books sq (reachable_books ty id sq Hr) Hb)
    as (q & m & l & E & _ & El & Hmin). by exists q, m, l.
Qed.
End Reachable.

(** ** The reactor

    [next_timer] is never above the wake time of a timer, although the callbacks
    of the timers and of the descriptors change wake times while the reactor
    looks at them. *)

Inductive pr_step : pollreactor -> pollreactor -> Prop :=
| pr_update i t pr : pr_step pr (lower_next_timer t (set_waketime i t pr))
| pr_exit pr : pr_step pr (pr <| pr_must_exit := true |>).

(** What an operation other than the reactor itself may do to it. *)
Definition reacts (sq sq' : serialqueue) : Prop := rtc pr_step (sq_pr sq) (sq_pr sq').

#[export] Instance reacts_preorder : PreOrder reacts.
Proof. split; [intros sq; apply rtc_refl|intros sq1 sq2 sq3; unfold reacts; by etrans]. Qed.

Lemma reacts_same sq sq' : sq_pr sq' = sq_pr sq -> reacts sq sq'.
Proof. unfold reacts. intros ->. apply rtc_refl. Qed.

Lemma reacts_update i t sq : reacts sq (pollreactor_update_timer i t sq).
Proof. apply rtc_once, pr_update. Qed.

Lemma reacts_exit sq : reacts sq (pollreactor_do_exit sq).
Proof. apply rtc_once, pr_exit. Qed.

(** The callbacks that [serialqueue_alloc] installs. *)
Definition wired (pr : pollreactor) : Prop :=
  map pt_callback (pr_timers pr) = [Some CB_retransmit_event; Some CB_command_event] /\
  pr_fd_callbacks pr = [Some CB_input_event; Some CB_kick_event] /\ length (pr_fds pr) = 2%nat.

(** [next_timer] is not above the wake times of the first [k] timers. *)
Definition lowest (k : nat) (pr : pollreactor) : Prop :=
  f_number (pr_next_timer pr) /\
  forall i timer, (i < k)%nat -> pr_timers pr !! i = Some timer ->
    flt (pt_waketime timer) (pr_next_timer pr) = false.

Lemma lower_lowest k t pr :
  lowest k pr -> lowest k (lower_next_timer t pr) /\ flt t (pr_next_timer (lower_next_timer t pr)) = false.
Proof.
  intros [Hn Hl]. unfold lower_next_timer. destruct (flt t _) eqn:Et; [|done].
  split; [|apply flt_irrefl]. split; [by eapply flt_number|]. intros i timer Hi Htm.
  specialize (Hl i timer Hi Htm). cbn in *. destruct (flt (pt_waketime timer) t) eqn:E; [|done].
  by rewrite (flt_trans _ _ _ E Et) in Hl.
Qed.

Lemma timers_lower t pr : pr_timers (lower_next_timer t pr) = pr_timers pr.
Proof. unfold lower_next_timer. by destruct (flt _ _). Qed.

(** A new wake time that [next_timer] is then lowered to. *)
Lemma update_lowest k j i t pr :
  lowest k pr -> (forall x, (x < j)%nat -> x <> i -> (x < k)%nat) ->
  lowest j (lower_next_timer t (set_waketime i t pr)).
Proof.
  intros [Hn Hl] Hj.
  assert (lowest 0 (set_waketime i t pr)) as H0 by (split; [done|lia]).
  destruct (lower_lowest 0 t _ H0) as [[Hn' _] Ht]. split; [done|]. intros x timer Hx.
  rewrite timers_lower. cbn. rewrite list_lookup_alter.
  case_decide as Hd; [destruct (pr_timers pr !! _); [intros [= <-]; exact Ht|done]|].
  intros Hlk. specialize (Hl x timer (Hj x Hx ltac:(congruence)) Hlk).
  clear Ht. unfold lower_next_timer. change (pr_next_timer (set_waketime i t pr)) with (pr_next_timer pr).
  destruct (flt t _) eqn:Et; [|exact Hl]. cbn.
  destruct (flt (pt_waketime timer) t) eqn:E; [|done]. by rewrite (flt_trans _ _ _ E Et) in Hl.
Qed.

Lemma wired_lower t pr : wired pr -> wired (lower_next_timer t pr).
Proof. intros [H1 H2]. unfold lower_next_timer. by destruct (flt _ _). Qed.

Lemma wired_waketime i t pr : wired pr -> wired (set_waketime i t pr).
Proof.
  intros (H1 & H2 & H3). split_and!; [|done..]. rewrite <- H1. cbn.
  destruct (pr_timers pr) as [|t0 [|t1 [|]]]; try done. by destruct i as [|[|[]]].
Qed.

Lemma pr_steps_kept k pr pr' : rtc pr_step pr pr' -> wired pr /\ lowest k pr -> wired pr' /\ lowest k pr'.
Proof.
  induction 1 as [|pr1 pr2 pr3 Hs _ IH]; [done|]. intros [Hw Hl]. apply IH. destruct Hs as [i t pr|pr]; [|done].
  split; [by apply wired_lower, wired_waketime|]. eapply update_lowest; [exact Hl|done].
Qed.

(** *** The operations of the queue *)

Lemma fill_block_pr fuel : forall buf sq r, fill_block fuel buf sq = Some r -> sq_pr r.2 = sq_pr sq.
Proof.
  induction fuel as [|fuel IH]; intros buf sq r; cbn [fill_block]; destruct (_ =? 0); try (by intros [= <-]).
  destruct (find_min _ _ _ _) as [[q qm]|]; [|done]. case_match; [by intros [= <-]|].
  intros E. rewrite (IH _ _ _ E). unfold take_ready.
  by destruct (negb _); destruct (cq_ready _).
Qed.

Lemma build_reacts pending t sq block sq' :
  build_and_send_command pending t sq = Some (block, sq') -> reacts sq sq'.
Proof.
  unfold build_and_send_command. destruct (fill_block _ [] sq) as [[payload sq1]|] eqn:Ef; [|done].
  cbn [mbind option_bind]. intros [= _ <-]. pose proof (fill_block_pr _ _ _ _ Ef) as E1. cbn [snd] in E1.
  transitivity sq1; [by apply reacts_same|]. clear Ef E1. set (sq2 := match sq_sent_queue sq1 with [] => _ | _ => _ end).
  transitivity sq2; [unfold sq2; destruct (sq_sent_queue sq1); [apply reacts_update|done]|].
  apply reacts_same. by destruct (sq_rtt_sample_seq sq2 =? 0).
Qed.

Lemma release_queue_pr ack q st : sq_pr (release_queue ack q st).2 = sq_pr st.2.
Proof.
  destruct st as [c sq]. unfold release_queue. destruct (split_upcoming _ _) as [moved rest].
  cbn [snd]. by repeat case_match.
Qed.

Lemma check_upcoming_pr ack sq : sq_pr (check_upcoming_queues ack sq).2 = sq_pr sq.
Proof.
  unfold check_upcoming_queues. case_match; [done|]. set (sq1 := upd sq_tr _ sq).
  assert (forall qs st, sq_pr (foldl (fun st q => release_queue ack q st) st qs).2 = sq_pr st.2) as Hf.
  { induction qs as [|q qs IH]; intros st; [done|]. cbn [foldl]. by rewrite IH, release_queue_pr. }
  specialize (Hf (tr_upcoming_queues (sq_tr sq1)) (MAX_CLOCK, sq1)).
  by destruct (foldl _ _ _) as [c sq2].
Qed.

Lemma need_kick_pr c sq : sq_pr (update_need_kick_clock c sq).2 = sq_pr sq.
Proof. unfold update_need_kick_clock. by case_match. Qed.

Lemma check_send_pr pending t sq wake sq' :
  check_send_command pending t sq = Some (wake, sq') -> sq_pr sq' = sq_pr sq.
Proof.
  unfold check_send_command. destruct (clock_from_time _ _) as [ack|]; [|done]. cbn [mbind option_bind].
  pose proof (check_upcoming_pr ack sq) as E1. destruct (check_upcoming_queues ack sq) as [st sq1].
  cbn [snd] in E1. rewrite <- E1. clear E1. case_match; [by intros [= _ <-]|].
  case_match; [by intros [= _ <-]|]. case_match.
  - case_match; [by intros [= _ <-]|]. pose proof (need_kick_pr 1 sq1) as E2.
    destruct (update_need_kick_clock 1 sq1). by intros [= _ <-].
  - unfold check_ready_time. destruct (min_ready _ _ _ _); [|done]. cbn [mbind option_bind].
    destruct (f_to_u64 _); [|done]. cbn [mbind option_bind].
    case_match; [by intros [= _ <-]|]. case_match; [by intros [= _ <-]|].
    match goal with |- context [update_need_kick_clock ?c sq1] =>
      pose proof (need_kick_pr c sq1) as E2; destruct (update_need_kick_clock c sq1) as [mw sq2] end.
    destruct mw; by intros [= _ <-].
Qed.

Lemma command_loop_reacts t fuel : forall buf sq buf' wake sq',
  command_loop fuel buf t sq = Some (buf', wake, sq') -> reacts sq sq'.
Proof.
  induction fuel as [|fuel IH]; intros buf sq buf' wake sq'; [done|]. cbn [command_loop].
  destruct (check_send_command _ t sq) as [[wk sq1]|] eqn:Ec; [|done]. cbn [mbind option_bind].
  pose proof (reacts_same _ _ (check_send_pr _ _ _ _ _ Ec)) as H1.
  case_match; [by intros [= _ _ <-]|].
  destruct (build_and_send_command _ t sq1) as [[b sq2]|] eqn:Eb; [|done]. cbn [mbind option_bind].
  apply build_reacts in Eb. case_match; [intros [= _ _ <-]; by transitivity sq1|].
  intros El. transitivity sq1; [done|]. transitivity sq2; [done|]. by eapply IH.
Qed.

Section Reactor.
Context `{Host}.

Lemma write_frames_reacts fuel : forall buf sq, reacts sq (write_frames fuel buf sq).
Proof.
  induction fuel as [|fuel IH]; intros [|x buf] sq; try done. cbn [write_frames].
  destruct (can_write_ok _); [etrans; [|apply IH]; by apply reacts_same|]. cbn [get_monotonic].
  case_match; [by apply reacts_same|]. case_match; [|by apply reacts_same].
  etrans; [|apply reacts_exit]. by apply reacts_same.
Qed.

Lemma do_write_reacts buf sq : reacts sq (do_write buf sq).
Proof. unfold do_write. case_match; [by apply reacts_same|apply write_frames_reacts|by apply reacts_same]. Qed.

Lemma retransmit_reacts t sq : reacts sq (retransmit_event t sq).2.
Proof.
  unfold retransmit_event. cbn [snd]. set (sq0 := match sq_fd_type sq with SQT_UART => _ | _ => _ end).
  transitivity sq0; [apply reacts_same; unfold sq0; by destruct (sq_fd_type sq)|]. etrans; [apply do_write_reacts|].
  apply reacts_same. by case_match.
Qed.

Lemma command_reacts t sq wake sq' : command_event t sq = Some (wake, sq') -> reacts sq sq'.
Proof.
  unfold command_event. destruct (command_loop _ [] t sq) as [[[buf wk] sq1]|] eqn:El; [|done].
  apply command_loop_reacts in El. cbn [mbind option_bind]. destruct buf as [|z buf]; intros [= _ <-]; [done|].
  transitivity sq1; [done|]. etrans; [apply (do_write_reacts (z :: buf))|]. by apply reacts_same.
Qed.

Lemma run_timer_reacts cb t sq wake sq' : run_timer cb t sq = Some (wake, sq') -> reacts sq sq'.
Proof.
  destruct cb; cbn [run_timer]; [|apply command_reacts]. pose proof (retransmit_reacts t sq) as Hr.
  intros E. replace sq' with (retransmit_event t sq).2; [done|]. by destruct (retransmit_event t sq); simplify_eq.
Qed.

Lemma pop_acked_pr rseq q : forall s sq, sq_pr (pop_acked rseq s q sq) = sq_pr sq.
Proof. induction q as [|b q IH]; intros s sq; [done|]. cbn [pop_acked]. case_match; [done|by rewrite IH]. Qed.

Lemma receive_seq_reacts t rseq sq : reacts sq (update_receive_seq t rseq sq).
Proof.
  unfold update_receive_seq. cbv zeta. set (sq1 := upd sq_receive_seq _ _).
  transitivity sq1; [apply reacts_same, pop_acked_pr|]. etrans; [apply (reacts_update SQPT_COMMAND PR_NOW)|].
  set (sq2 := pollreactor_update_timer _ _ sq1). set (sq3 := if _ && _ && _ then _ else sq2).
  transitivity sq3; [apply reacts_same; unfold sq3; case_match; [|done]; unfold update_rtt; by destruct (negb (f_true (sq_srtt sq2)))|].
  destruct (sq_sent_queue sq3); apply reacts_update.
Qed.

Lemma handle_message_reacts t msg sq : reacts sq (handle_message t msg sq).2.
Proof.
  unfold handle_message. cbv zeta. set (rseq := u64 (sq_receive_seq sq + _)).
  destruct (_ && (_ && _)); [by apply reacts_same|]. set (sq1 := if negb _ then _ else sq).
  transitivity sq1; [unfold sq1; case_match; [apply receive_seq_reacts|done]|]. clearbody sq1.
  destruct (split_notify _ _) as [n r]. set (sq2 := upd sq_notify_queue _ _).
  transitivity sq2; [by apply reacts_same|]. clearbody sq2. destruct (_ =? MESSAGE_MIN).
  - destruct (sq_last_ack_seq sq2 <? rseq); [apply reacts_same; by destruct n|].
    destruct (_ && _); [|apply reacts_same; by destruct n].
    etrans; [apply (reacts_update SQPT_RETRANSMIT PR_NOW)|]. apply reacts_same. by destruct n.
  - cbn [get_monotonic]. apply reacts_same. by destruct n.
Qed.

Lemma host_call_reacts sq sq' : host_call sq sq' -> reacts sq sq'.
Proof.
  destruct 1; try (by apply reacts_same); [| | | |by apply reacts_update].
  - apply reacts_same. unfold serialqueue_send_batch. destruct (map raise_min_clock msgs); [done|].
    case_match; [done|]. destruct (cq_upcoming _); [|done]. by destruct (_ <? tr_need_kick_clock _).
  - apply reacts_same. unfold serialqueue_pull. by repeat case_match.
  - apply reacts_same. unfold serialqueue_free_commandqueue. by repeat case_match.
  - apply reacts_same. unfold serialqueue_extract_old. by case_match.
Qed.

Lemma queue_step_reacts sq sq' : queue_step sq sq' -> reacts sq sq'.
Proof.
  destruct 1; [by apply host_call_reacts|by eapply command_reacts|apply retransmit_reacts|apply handle_message_reacts].
Qed.
End Reactor.

(** *** An iteration of the reactor *)

Definition reactor_ok (sq : serialqueue) : Prop := wired (sq_pr sq) /\ lowest 2 (sq_pr sq).

Lemma reacts_ok sq sq' : reacts sq sq' -> reactor_ok sq -> reactor_ok sq'.
Proof. apply pr_steps_kept. Qed.

Definition with_next (n : double) (sq : serialqueue) : serialqueue :=
  sq <| sq_pr ::= fun pr => pr <| pr_next_timer := n |> |>.

Section ReactorRun.
Context `{Host}.

(** The timer at [i] gets its turn: if it is due its callback runs and gives the
    new wake time, otherwise nothing but [next_timer] changes. *)
Definition fires (t : double) (i : nat) (cb : timer_callback) (sq sq' : serialqueue) : Prop :=
  exists n,
    if fle (pollreactor_get_timer (sq_pr sq) i) t
    then exists wake sq1, run_timer cb t sq = Some (wake, sq1) /\
           sq' = with_next n (sq1 <| sq_pr ::= set_waketime i wake |>)
    else sq' = with_next n sq.

Lemma lower_with_next t sq : exists n, sq <| sq_pr ::= lower_next_timer t |> = with_next n sq.
Proof.
  assert (exists n, lower_next_timer t (sq_pr sq) = (sq_pr sq) <| pr_next_timer := n |>) as [n E].
  { unfold lower_next_timer. destruct (flt _ _); [by exists t|].
    exists (pr_next_timer (sq_pr sq)). by destruct (sq_pr sq). }
  exists n. change (sq <| sq_pr := lower_next_timer t (sq_pr sq) |> = with_next n sq). by rewrite E.
Qed.

Lemma wired_timer i cb pr : wired pr -> [CB_retransmit_event; CB_command_event] !! i = Some cb ->
  exists timer, pr_timers pr !! i = Some timer /\ pt_callback timer = Some cb.
Proof.
  intros (Hw & _) Hi. destruct (pr_timers pr) as [|t0 [|t1 [|]]]; try done. injection Hw as H0 H1.
  destruct i as [|[|i]]; [injection Hi as <-; eauto..|done].
Qed.

Lemma check_timer_fires t i cb b sq :
  wired (sq_pr sq) -> [CB_retransmit_event; CB_command_event] !! i = Some cb ->
  let due := fle (pollreactor_get_timer (sq_pr sq) i) t in
  match check_timer t i (b, sq) with
  | Some (b', sq') => fires t i cb sq sq' /\ b' = b || due
  | None => due = true /\ run_timer cb t sq = None
  end.
Proof.
  intros Hw Hi. destruct (wired_timer i cb _ Hw Hi) as (timer & Et & Ec).
  unfold check_timer, fires, pollreactor_get_timer. rewrite Et. cbn [mbind option_bind].
  destruct (fle (pt_waketime timer) t); cbn [mbind option_bind].
  - rewrite Ec. cbn [mbind option_bind]. destruct (run_timer cb t sq) as [[wake sq1]|]; [|done].
    cbn [mbind option_bind]. split; [|by rewrite orb_true_r].
    destruct (lower_with_next wake (sq1 <| sq_pr ::= set_waketime i wake |>)) as [n E]. rewrite E. eauto.
  - split; [|by rewrite orb_false_r]. destruct (lower_with_next (pt_waketime timer) sq) as [n E]. eauto.
Qed.

Lemma check_timer_kept t k b sq b' sq' : (k < 2)%nat ->
  wired (sq_pr sq) -> lowest k (sq_pr sq) -> check_timer t k (b, sq) = Some (b', sq') ->
  wired (sq_pr sq') /\ lowest (S k) (sq_pr sq').
Proof.
  intros Hk Hw Hl. unfold check_timer. destruct (pr_timers (sq_pr sq) !! k) as [timer|] eqn:Et; [|done].
  cbn [mbind option_bind]. destruct (fle _ _); cbn [mbind option_bind].
  - destruct (pt_callback timer) as [cb|]; [|done]. cbn [mbind option_bind].
    destruct (run_timer cb t sq) as [[wake sq1]|] eqn:Er; [|done]. cbn [mbind option_bind]. intros [= _ <-].
    destruct (pr_steps_kept k _ _ (run_timer_reacts _ _ _ _ _ Er) (conj Hw Hl)) as [Hw1 Hl1].
    split; [by apply wired_lower, wired_waketime|]. eapply update_lowest; [exact Hl1|lia].
  - intros [= _ <-]. split; [by apply wired_lower|]. destruct (lower_lowest k (pt_waketime timer) _ Hl) as [[Hn Hl'] Ht].
    split; [done|]. intros i tm Hi. cbn. rewrite timers_lower. intros Hlk.
    destruct (decide (i = k)) as [->|]; [by simplify_eq|]. apply (Hl' i); [lia|by rewrite timers_lower].
Qed.

(** How long the reactor sleeps, at a finite time. *)
Definition f_finite (x : double) : Prop :=
  match x with S754_zero _ | S754_finite _ _ _ => True | _ => False end.

Lemma clamp_bounds x : f_number x ->
  exists v, (if flt (f_ceil x) (f64 1) then Some 1 else if flt (f64 1000) (f_ceil x) then Some 1000
             else f_to_s32 (f_ceil x)) = Some v /\ 1 <= v <= 1000.
Proof.
  intros Hx. destruct x as [[]|[]| |s m e]; [vm_compute; eexists; by split..|by destruct Hx|]. clear Hx. cbn [f_ceil].
  destruct (Z.leb_spec 0 e) as [He|He].
  { destruct s; [eexists; by split|]. destruct (flt _ (f64 1)); [eexists; by split|].
    unfold flt, SFltb. rewrite SFcompare_key. change (f_key (f64 1000)) with (Some (1, -43, 8796093022208000)).
    cbn [f_key key_compare]. rewrite Z.compare_refl.
    assert ((-43 ?= e) = Lt) as -> by (apply Z.compare_lt_iff; lia). eexists; by split. }
  set (v := - _). destruct (Z.eqb_spec v 0); [destruct s; vm_compute; eexists; by split|].
  destruct (decide (v < 0)); [rewrite f64_negative by done; eexists; by split|].
  destruct (decide (1024 <= v)) as [Hv|Hv].
  { destruct (f64_large v Hv) as [-> | ->]; [eexists; by split|]. destruct (flt _ _); eexists; by split. }
  assert (forallb (fun v => match (if flt (f64 v) (f64 1) then Some 1 else if flt (f64 1000) (f64 v) then Some 1000
             else f_to_s32 (f64 v)) with Some w => (1 <=? w) && (w <=? 1000) | None => false end)
             (seqZ 1 1023) = true) as Hc by (vm_compute; reflexivity).
  rewrite forallb_forall in Hc. specialize (Hc v ltac:(apply list_elem_of_In, elem_of_seqZ; lia)).
  destruct (if flt _ _ then _ else _) as [w|]; [|done]. exists w. split; [done|lia].
Qed.

Lemma sleep_bounds n t : f_number n -> f_finite t ->
  exists v, sleep_duration n t = Some v /\ 1 <= v <= 1000.
Proof.
  intros Hn Ht. unfold sleep_duration. apply clamp_bounds.
  change (f64 1000) with (S754_finite false 8796093022208000 (-43)). apply fmul_number.
  destruct t; try done; [by apply fsub_zero_number|by apply fsub_number].
Qed.
Lemma set_revents_ok revents sq : reactor_ok sq -> reactor_ok (sq <| sq_pr ::= set_revents revents |>).
Proof. intros [(H1 & H2 & H3) Hl]. split; [|exact Hl]. split_and!; [done..|]. cbn. by rewrite length_imap. Qed.

Lemma timers_length pr : wired pr -> length (pr_timers pr) = 2%nat.
Proof. intros [Hw _]. by rewrite <- (length_map pt_callback), Hw. Qed.

(** No timer is due before [next_timer]. *)
Lemma not_due k t i pr : (i < k)%nat -> lowest k pr -> (i < length (pr_timers pr))%nat ->
  fle (pr_next_timer pr) t = false -> fle (pollreactor_get_timer pr i) t = false.
Proof.
  intros Hi [Hn Hl] Hlen Ht. unfold pollreactor_get_timer.
  destruct (lookup_lt_is_Some_2 _ _ Hlen) as [timer Et]. rewrite Et. specialize (Hl i timer Hi Et).
  destruct (fle (pt_waketime timer) t) eqn:E; [|done]. by rewrite (fle_below _ _ _ Hn Hl E) in Ht.
Qed.

Lemma check_timers_ok t busy sq timeout sq' : reactor_ok sq ->
  pollreactor_check_timers t busy sq = Some (timeout, sq') -> reactor_ok sq'.
Proof.
  intros [Hw Hl]. unfold pollreactor_check_timers.
  destruct (fle _ t); cbn [mbind option_bind].
  2: { destruct busy; [by intros [= _ <-]|]. destruct (sleep_duration _ _); [|done]. by intros [= _ <-]. }
  set (sq0 := sq <| sq_pr ::= _ |>). assert (wired (sq_pr sq0) /\ lowest 0 (sq_pr sq0)) as [Hw0 Hl0].
  { split; [done|]. split; [done|]. intros; lia. }
  rewrite (timers_length _ Hw0). cbn [seq check_timers_loop mbind option_bind].
  destruct (check_timer t 0 _) as [[b1 sq1]|] eqn:E1; [|done]. cbn [mbind option_bind].
  destruct (check_timer_kept _ 0 _ _ _ _ ltac:(lia) Hw0 Hl0 E1) as [Hw1 Hl1].
  destruct (check_timer t 1 _) as [[b2 sq2]|] eqn:E2; [|done]. cbn [mbind option_bind].
  pose proof (check_timer_kept _ 1 _ _ _ _ ltac:(lia) Hw1 Hl1 E2) as Hok.
  destruct b2; [by intros [= _ <-]|]. destruct (sleep_duration _ _); [|done]. by intros [= _ <-].
Qed.

(** The callbacks of fast readers use the queue as other threads do. *)
Section Descriptors.
Variable run_fastreader : Z -> list Z -> serialqueue -> serialqueue.
Hypothesis fastreader_calls : forall fr msg sq, rtc host_call sq (run_fastreader fr msg sq).

Lemma fastreader_reacts fr msg sq : reacts sq (run_fastreader fr msg sq).
Proof.
  pose proof (fastreader_calls fr msg sq) as Hc. induction Hc as [|sq1 sq2 sq3 H12 _ IH]; [done|].
  transitivity sq2; [by apply host_call_reacts|done].
Qed.

Lemma process_input_reacts t fuel : forall sq sq',
  process_input fuel run_fastreader t sq = Some sq' -> reacts sq sq'.
Proof.
  induction fuel as [|fuel IH]; intros sq sq'; [done|]. cbn [process_input].
  destruct (msgblock_check _ _) as [ns len]. set (sq0 := sq <| sq_need_sync := ns |>).
  destruct (len =? 0); [intros [= <-]; by apply reacts_same|]. intros E. apply IH in E. etrans; [|exact E].
  transitivity sq0; [by apply reacts_same|]. set (msg := take _ _).
  pose proof (handle_message_reacts t msg sq0) as Hm. destruct (0 <? len); [|by apply reacts_same].
  destruct (handle_message t msg sq0) as [[fr|] sq1]; cbn [snd] in Hm.
  - transitivity sq1; [done|]. etrans; [apply (fastreader_reacts fr msg)|]. by apply reacts_same.
  - transitivity sq1; [done|]. by apply reacts_same.
Qed.

Lemma run_fd_reacts cb rd t sq sq' : run_fd run_fastreader cb rd t sq = Some sq' -> reacts sq sq'.
Proof.
  destruct cb; cbn [run_fd]; [|intros [= <-]; exact (reacts_update SQPT_COMMAND PR_NOW sq)].
  destruct rd as [|data|can_id data]; cbn [input_event].
  - intros [= <-]. apply reacts_exit.
  - intros E. apply process_input_reacts in E. etrans; [|exact E]. by apply reacts_same.
  - destruct (negb _); [by intros [= <-]|].
    intros E. apply process_input_reacts in E. etrans; [|exact E]. by apply reacts_same.
Qed.

Lemma check_fds_ok rd t ps : forall sq sq',
  check_fds_loop run_fastreader rd t ps sq = Some sq' -> reactor_ok sq -> reactor_ok sq'.
Proof.
  induction ps as [|i ps IH]; intros sq sq'; cbn [check_fds_loop]; [by intros [= <-]|].
  destruct (pr_fds (sq_pr sq) !! i) as [fd|]; [|done]. cbn [mbind option_bind]. destruct (negb _).
  - destruct (mjoin _) as [cb|]; [|done]. cbn [mbind option_bind].
    destruct (run_fd _ cb rd t sq) as [sq1|] eqn:Er; [|done]. cbn [mbind option_bind].
    intros E Hok. eapply IH; [exact E|]. by eapply reacts_ok; [eapply run_fd_reacts|].
  - cbn [mbind option_bind]. apply IH.
Qed.

Lemma pollreactor_iter_ok t t' busy ev sq busy' sq' :
  pollreactor_iter run_fastreader t t' busy ev sq = Some (busy', sq') -> reactor_ok sq -> reactor_ok sq'.
Proof.
  unfold pollreactor_iter. destruct (pollreactor_check_timers t busy sq) as [[timeout sq1]|] eqn:Ec; [|done].
  cbn [mbind option_bind]. intros E Hok. pose proof (check_timers_ok _ _ _ _ _ Hok Ec) as Hok1.
  destruct ev as [|revents rd]; [injection E as _ <-; by eapply reacts_ok; [apply reacts_exit|]|].
  apply (set_revents_ok revents) in Hok1. destruct (existsb _ _); [|by injection E as _ <-].
  destruct (check_fds_loop _ _ _ _ _) as [sq2|] eqn:Ef; [|done]. injection E as _ <-. by eapply check_fds_ok.
Qed.
End Descriptors.

(** Whatever happens to the queue: calls of other threads, callbacks, a request
    to exit and iterations of the reactor. *)
Inductive reactor_step : serialqueue -> serialqueue -> Prop :=
| reactor_queue sq sq' : queue_step sq sq' -> reactor_step sq sq'
| reactor_exit sq : reactor_step sq (serialqueue_exit sq)
| reactor_iter rfr t t' busy ev sq busy' sq' :
    (forall fr msg sq, rtc host_call sq (rfr fr msg sq)) ->
    pollreactor_iter rfr t t' busy ev sq = Some (busy', sq') -> reactor_step sq sq'.

Lemma reachable_reactor ty id sq : rtc reactor_step (serialqueue_alloc ty id) sq -> reactor_ok sq.
Proof.
  assert (reactor_ok (serialqueue_alloc ty id)) as Hok.
  { assert (flt PR_NEVER PR_NEVER = false) as Hn by (by vm_compute).
    destruct ty; (split; [done|split; [done|]]); intros [|[|i]] timer Hi; try lia; intros [= <-]; exact Hn. }
  intros Hr. revert Hok. induction Hr as [|sq1 sq2 sq3 Hs _ IH]; [done|]. intros Hok. apply IH.
  destruct Hs as [sq sq' Hs|sq|rfr t t' busy ev sq busy' sq' Hf E].
  - by eapply reacts_ok; [apply queue_step_reacts|].
  - by eapply reacts_ok; [apply reacts_exit|].
  - by eapply pollreactor_iter_ok.
Qed.

(** The result of looking at every timer in turn, from [sq0] on: how long to
    sleep and the state after the callbacks of the due timers.  Only the
    estimates of [command_event] can be undefined. *)
Definition scanned (t : double) (busy : bool) (sq0 : serialqueue) (r : option (Z * serialqueue)) : Prop :=
  exists sq1, fires t SQPT_RETRANSMIT CB_retransmit_event sq0 sq1 /\
  let due := fle (pollreactor_get_timer (sq_pr sq0) SQPT_RETRANSMIT) t in
  let due' := fle (pollreactor_get_timer (sq_pr sq1) SQPT_COMMAND) t in
  match r with
  | Some (timeout, sq') =>
      fires t SQPT_COMMAND CB_command_event sq1 sq' /\
      if busy || due || due' then timeout = 0 else 1 <= timeout <= 1000
  | None => due' = true /\ command_event t sq1 = None
  end.

(** The end of [pollreactor_check_timers]. *)
Lemma sleep_or_busy (t : double) (busy : bool) sq : f_finite t -> lowest 2 (sq_pr sq) ->
  exists timeout,
    (if busy then Some (0, sq)
     else v ← sleep_duration (pr_next_timer (sq_pr sq)) t; Some (v, sq)) = Some (timeout, sq) /\
    if busy then timeout = 0 else 1 <= timeout <= 1000.
Proof.
  intros Ht [Hn _]. destruct busy; [by exists 0|]. destruct (sleep_bounds _ t Hn Ht) as (v & E & Hv).
  rewrite E. by exists v.
Qed.

(** A scan of the timers. *)
Lemma scan_taken t busy sq : f_finite t -> reactor_ok sq -> fle (pr_next_timer (sq_pr sq)) t = true ->
  scanned t busy (with_next PR_NEVER sq) (pollreactor_check_timers t busy sq).
Proof.
  intros Ht [Hw Hl] En. unfold pollreactor_check_timers. rewrite En. fold (with_next PR_NEVER sq).
  change (length _) with (length (pr_timers (sq_pr sq))). rewrite (timers_length _ Hw).
  assert (wired (sq_pr (with_next PR_NEVER sq)) /\ lowest 0 (sq_pr (with_next PR_NEVER sq))) as [Hw0 Hl0].
  { split; [done|]. split; [done|]. intros; lia. }
  clear Hw Hl En. set (sq0 := with_next PR_NEVER sq) in *. cbn [seq check_timers_loop].
  pose proof (check_timer_fires t 0 _ busy sq0 Hw0 eq_refl) as F1. cbv zeta in F1.
  destruct (check_timer t 0 (busy, sq0)) as [[b1 sq1]|] eqn:E1; [|by destruct F1 as [_ ?]].
  destruct (check_timer_kept _ 0 _ _ _ _ ltac:(lia) Hw0 Hl0 E1) as [Hw1 Hl1]. destruct F1 as [F1 Hb1].
  pose proof (check_timer_fires t 1 _ b1 sq1 Hw1 eq_refl) as F2. cbv zeta in F2. cbn [mbind option_bind].
  exists sq1. split; [exact F1|]. destruct (check_timer t 1 (b1, sq1)) as [[b2 sq2]|] eqn:E2; [|exact F2].
  destruct (check_timer_kept _ 1 _ _ _ _ ltac:(lia) Hw1 Hl1 E2) as [_ Hl2]. destruct F2 as [F2 Hb2].
  cbn [mbind option_bind]. destruct (sleep_or_busy t b2 sq2 Ht Hl2) as (timeout & E & Hv). rewrite E.
  split; [exact F2|]. unfold SQPT_RETRANSMIT, SQPT_COMMAND. by rewrite <- Hb1, <- Hb2.
Qed.

(** The test of [next_timer] only skips a scan that would run no callback. *)
Lemma scan_skipped t busy sq : f_finite t -> reactor_ok sq -> fle (pr_next_timer (sq_pr sq)) t = false ->
  scanned t busy sq (pollreactor_check_timers t busy sq).
Proof.
  intros Ht [Hw Hl] En. unfold pollreactor_check_timers. rewrite En. cbn [mbind option_bind].
  destruct (sleep_or_busy t busy sq Ht Hl) as (timeout & E & Hv). rewrite E.
  assert (forall i, (i < 2)%nat -> fle (pollreactor_get_timer (sq_pr sq) i) t = false) as Hd.
  { intros i Hi. apply (not_due 2); [done|done|by rewrite timers_length|done]. }
  assert (forall i cb, (i < 2)%nat -> fires t i cb sq sq) as Hf.
  { intros i cb Hi. exists (pr_next_timer (sq_pr sq)). rewrite Hd by done. by destruct sq as [[]]. }
  exists sq. unfold SQPT_RETRANSMIT, SQPT_COMMAND. rewrite !Hd by lia. rewrite !orb_false_r.
  split_and!; [apply Hf; lia|apply Hf; lia|exact Hv].
Qed.

(** C9: the reactor misses no timer.  In every state that a serial queue can reach
    and at every finite time, the check of [pollreactor_check_timers], which
    first looks at [next_timer] only, has the effect of looking at every timer:
    exactly the callbacks of the timers that are due at their turn run, in
    order, although callbacks change wake times of other timers in between.  If
    one ran [poll] does not sleep, otherwise it sleeps between 1 and 1000 ms; in
    particular the conversion of the sleep time to an integer is defined. *)
Theorem no_timer_missed ty id sq t busy :
  rtc reactor_step (serialqueue_alloc ty id) sq -> f_finite t ->
  exists n, scanned t busy (with_next n sq) (pollreactor_check_timers t busy sq).
Proof.
  intros Hr Ht. pose proof (reachable_reactor _ _ _ Hr) as Hok.
  destruct (fle (pr_next_timer (sq_pr sq)) t) eqn:En; [exists PR_NEVER; by apply scan_taken|].
  exists (pr_next_timer (sq_pr sq)). replace (with_next _ sq) with sq by (by destruct sq as [[]]).
  by apply scan_skipped.
Qed.
End ReactorRun.

(** ** A queue with a ready message

    The micro-controller runs at 1 MHz; the message may be sent from clock 1 on
    and is needed at clock 1000000000, so that it is ready after a second but
    not yet sent. *)
Definition sample_os : Host :=
  {| monotonic n := f64 (Z.of_nat n); can_write_ok _ := true |}.

Definition sample_batch : serialqueue :=
  serialqueue_send_batch 1 [mkQM [4; 9] 1 1000000000 0]
    (serialqueue_set_clock_est (f64 1000000) (f64 0) 0 0 (serialqueue_alloc SQT_UART 0)).

Definition sample_ready : serialqueue :=
  match command_event (H := sample_os) (f64 1) sample_batch with
  | Some (_, sq) => sq
  | None => sample_batch
  end.

Definition sample_wake : double :=
  match command_event (H := sample_os) (f64 1) sample_batch with
  | Some (t, _) => t
  | None => f64 0
  end.

Lemma sample_ready_reachable :
  rtc (queue_step (H := sample_os)) (serialqueue_alloc SQT_UART 0) sample_ready.
Proof.
  eapply rtc_l; [apply queue_call, (call_clock_est (f64 1000000) (f64 0) 0 0)|].
  eapply rtc_l; [apply queue_call, (call_send_batch 1 [mkQM [4; 9] 1 1000000000 0])|].
  { repeat constructor; vm_compute; congruence. }
  eapply rtc_l; [apply (queue_command (H := sample_os) (f64 1) sample_wake _ sample_ready)|apply rtc_refl].
  vm_compute. reflexivity.
Qed.


Lemma lowest_clock_first_witness :
  exists q m l, find_min sample_ready (sq_ready_queues sample_ready) MAX_CLOCK None = Some (q, m) /\
    ready_of sample_ready q = m :: l.
Proof.
  destruct (lowest_clock_first (H := sample_os) SQT_UART 0 sample_ready sample_ready_reachable)
    as (q & m & l & E & El & _).
  - vm_compute. discriminate.
  - exists q, m, l. split; [exact E|exact El].
Defined.

(** The background thread was told of the message: its timer is due. *)
Definition sample_kicked : serialqueue := kick_event sample_batch.

Lemma no_timer_missed_witness :
  fle (pollreactor_get_timer (sq_pr sample_kicked) SQPT_COMMAND) (f64 1) = true /\
  option_map fst (pollreactor_check_timers (H := sample_os) (f64 1) false sample_kicked) = Some 0 /\
  exists n, scanned (H := sample_os) (f64 1) false (with_next n sample_kicked)
              (pollreactor_check_timers (H := sample_os) (f64 1) false sample_kicked).
Proof.
  split; [vm_compute; reflexivity|]. split; [vm_compute; reflexivity|].
  apply (no_timer_missed (H := sample_os) SQT_UART 0 sample_kicked (f64 1) false).
  - eapply rtc_l; [apply reactor_queue, queue_call, (call_clock_est (f64 1000000) (f64 0) 0 0)|].
    eapply rtc_l; [apply reactor_queue, queue_call, (call_send_batch 1 [mkQM [4; 9] 1 1000000000 0])|].
    { repeat constructor; vm_compute; congruence. }
    eapply rtc_l; [apply reactor_queue, queue_call, call_kick|apply rtc_refl].
  - exact I.
Defined.
