(* ===== verification/ProtocolProps.v ===== *)
(** * Properties of the wire format: checksum, frames, ids and parameters *)
From S2P Require Import Prelude Protocol ProtocolFacts Msgblock World Sched Command.

(** ** The checksum against its bit serial definition *)

(** Division by the reflected CCITT polynomial, one bit at a time. *)
Definition crc_bit (c : Z) : Z :=
  if Z.testbit c 0 then Z.lxor (Z.shiftr c 1) 0x8408 else Z.shiftr c 1.
Definition crc_ref_step (crc byte : Z) : Z := Nat.iter 8 crc_bit (Z.lxor crc byte).
Definition crc_ref (buf : list Z) : Z := foldl crc_ref_step 0xffff buf.

(** The table of the byte-wise algorithm. *)
Definition crc_tab (x : Z) : Z := Nat.iter 8 crc_bit x.

(** [crc16_step] on the high byte of [crc] and the exclusive or of [byte]
    with the low byte. *)
Definition crc_core (h x : Z) : Z :=
  let data := Z.lxor x (u8 (Z.shiftl x 4)) in
  u16 (Z.lxor (Z.lxor (Z.lor (Z.shiftl data 8) h) (u8 (Z.shiftr data 4))) (Z.shiftl data 3)).

Lemma crc16_step_core crc byte :
  crc16_step crc byte = crc_core (Z.shiftr crc 8) (Z.lxor byte (Z.land crc 0xff)).
Proof. done. Qed.

Lemma crc_core_tab h x :
  0 <= h < 256 -> 0 <= x < 256 -> crc_core h x = Z.lxor h (crc_tab x).
Proof.
  intros Hh Hx.
  assert (all_below 256 (fun h => all_below 256 (fun x =>
    crc_core h x =? Z.lxor h (crc_tab x))) = true) as Hc by (vm_compute; reflexivity).
  pose proof (all_below_spec _ _ Hc h Hh) as Hc'. cbv beta in Hc'.
  by apply Z.eqb_eq, (all_below_spec _ _ Hc' x Hx).
Qed.

Lemma crc_tab_split c :
  0 <= c < 65536 -> crc_tab c = Z.lxor (Z.shiftr c 8) (crc_tab (Z.land c 0xff)).
Proof.
  intros Hc. assert (0 <= c / 256 < 256 /\ 0 <= c mod 256 < 256) as [Hd Hm] by word_lia.
  assert (all_below 256 (fun h => all_below 256 (fun l =>
    let c := 256 * h + l in crc_tab c =? Z.lxor (Z.shiftr c 8) (crc_tab (Z.land c 0xff)))) = true)
    as Hk by (vm_compute; reflexivity).
  pose proof (all_below_spec _ _ Hk (c / 256) Hd) as Hk'. cbv beta in Hk'.
  pose proof (all_below_spec _ _ Hk' (c mod 256) Hm) as Hk2. cbv beta zeta in Hk2.
  rewrite <- Z.div_mod in Hk2 by lia. by apply Z.eqb_eq.
Qed.

Lemma lxor_bound n a b : 0 <= n -> 0 <= a < 2 ^ n -> 0 <= b < 2 ^ n -> 0 <= Z.lxor a b < 2 ^ n.
Proof.
  intros Hn Ha Hb. assert (0 <= Z.lxor a b) as H0 by (apply Z.lxor_nonneg; lia).
  split; [done|]. apply (Z.bounded_iff_bits_nonneg n); [done..|]. intros l Hl.
  rewrite Z.lxor_spec. pose proof (proj1 (Z.bounded_iff_bits_nonneg n a Hn ltac:(lia)) ltac:(lia) l Hl).
  pose proof (proj1 (Z.bounded_iff_bits_nonneg n b Hn ltac:(lia)) ltac:(lia) l Hl). by rewrite H, H1.
Qed.

Lemma land_lxor_l a b c : Z.land (Z.lxor a b) c = Z.lxor (Z.land a c) (Z.land b c).
Proof.
  apply Z.bits_inj'. intros i _. rewrite Z.land_spec, !Z.lxor_spec, !Z.land_spec.
  by destruct (Z.testbit a i), (Z.testbit b i), (Z.testbit c i).
Qed.

Lemma land_255 x : Z.land x 0xff = x mod 256.
Proof. change 0xff with (Z.ones 8). by rewrite Z.land_ones. Qed.

(** The two halves of a 16 bit value. *)
Lemma halves c : 0 <= c < 65536 -> 0 <= Z.shiftr c 8 < 256 /\ 0 <= Z.land c 0xff < 256.
Proof. intros. rewrite land_255, Z.shiftr_div_pow2 by lia. word_lia. Qed.

Lemma crc16_step_ref crc byte :
  0 <= crc < 65536 -> 0 <= byte < 256 -> crc16_step crc byte = crc_ref_step crc byte.
Proof.
  intros Hc Hb. destruct (halves crc Hc) as [Hh Hl].
  pose proof (lxor_bound 8 byte _ ltac:(lia) Hb Hl). rewrite crc16_step_core, crc_core_tab by done.
  unfold crc_ref_step. fold (crc_tab (Z.lxor crc byte)).
  rewrite (crc_tab_split (Z.lxor crc byte)) by (apply (lxor_bound 16); lia).
  rewrite Z.shiftr_lxor, land_lxor_l.
  replace (Z.shiftr byte 8) with 0 by (rewrite Z.shiftr_div_pow2; word_lia).
  replace (Z.land byte 255) with byte by (rewrite land_255; word_lia).
  by rewrite Z.lxor_0_r, (Z.lxor_comm byte).
Qed.

Lemma crc16_step_range crc byte : 0 <= crc16_step crc byte < 65536.
Proof. apply u16_range. Qed.

Lemma crc_foldl_ref buf : forall crc,
  0 <= crc < 65536 -> bytes buf -> foldl crc16_step crc buf = foldl crc_ref_step crc buf.
Proof.
  induction buf as [|b buf IH]; intros crc Hc Hb; [done|]. apply Forall_cons in Hb as [Hb Hbuf].
  simpl. rewrite IH by (apply crc16_step_range || done). by rewrite crc16_step_ref.
Qed.

(** The checksum of the firmware and the host's copy of it both compute
    the CCITT cyclic redundancy check: the byte-wise algorithm agrees with the
    bit serial division by the reflected polynomial 0x8408. *)
Theorem crc16_is_ccitt buf :
  bytes buf ->
  crc16_ccitt buf = crc_ref buf /\ Msgblock.msgblock_crc16_ccitt buf = crc16_ccitt buf.
Proof.
  intros Hb. split; [by apply crc_foldl_ref|].
  unfold Msgblock.msgblock_crc16_ccitt, crc16_ccitt. generalize 0xffff.
  clear Hb. induction buf as [|b buf IH]; intros crc; [done|]. simpl. by rewrite IH.
Qed.

(** Concrete byte lists. *)
Ltac bytes_solve := unfold bytes; repeat (apply Forall_cons; split; [lia|]); apply Forall_nil; exact I.

Lemma crc16_is_ccitt_witness :
  crc16_ccitt [7; 16; 1; 2] = crc_ref [7; 16; 1; 2] /\ crc16_ccitt [7; 16; 1; 2] = 0xeb5f.
Proof.
  split; [|vm_compute; reflexivity].
  apply (crc16_is_ccitt [7; 16; 1; 2]). bytes_solve.
Defined.

(** ** Error detection *)

Lemma crc_tab_inj x y :
  0 <= x < 256 -> 0 <= y < 256 -> Z.shiftr (crc_tab x) 8 = Z.shiftr (crc_tab y) 8 -> x = y.
Proof.
  intros Hx Hy He.
  assert (all_below 256 (fun x => all_below 256 (fun y =>
    implb (Z.shiftr (crc_tab x) 8 =? Z.shiftr (crc_tab y) 8) (x =? y))) = true) as Hk
    by (vm_compute; reflexivity).
  pose proof (all_below_spec _ _ Hk x Hx) as Hk'. cbv beta in Hk'.
  pose proof (all_below_spec _ _ Hk' y Hy) as Hk2. cbv beta in Hk2.
  rewrite He, Z.eqb_refl in Hk2. by apply Z.eqb_eq.
Qed.

Lemma shiftr_small h : 0 <= h < 256 -> Z.shiftr h 8 = 0.
Proof. intros. rewrite Z.shiftr_div_pow2 by lia. word_lia. Qed.

Lemma lxor_cancel_l a b c : Z.lxor a b = Z.lxor a c -> b = c.
Proof.
  intros E. rewrite <- (Z.lxor_0_l b), <- (Z.lxor_0_l c), <- (Z.lxor_nilpotent a).
  by rewrite !Z.lxor_assoc, E.
Qed.

(** The state after a step determines the state before it and the byte,
    given either of them. *)
Lemma crc16_step_inj c1 c2 b1 b2 :
  0 <= c1 < 65536 -> 0 <= c2 < 65536 -> 0 <= b1 < 256 -> 0 <= b2 < 256 ->
  crc16_step c1 b1 = crc16_step c2 b2 -> (c1 = c2 <-> b1 = b2).
Proof.
  intros Hc1 Hc2 Hb1 Hb2 E. destruct (halves c1 Hc1) as [Hh1 Hl1].
  destruct (halves c2 Hc2) as [Hh2 Hl2].
  pose proof (lxor_bound 8 b1 _ ltac:(lia) Hb1 Hl1) as Hx1.
  pose proof (lxor_bound 8 b2 _ ltac:(lia) Hb2 Hl2) as Hx2.
  rewrite !crc16_step_core, !crc_core_tab in E by done.
  assert (Z.lxor b1 (Z.land c1 255) = Z.lxor b2 (Z.land c2 255)) as Ex.
  { apply crc_tab_inj; [done..|]. apply (f_equal (fun z => Z.shiftr z 8)) in E.
    rewrite !Z.shiftr_lxor, (shiftr_small (Z.shiftr c1 8)), (shiftr_small (Z.shiftr c2 8)) in E by done.
    by rewrite !Z.lxor_0_l in E. }
  rewrite Ex in E. rewrite !(Z.lxor_comm (Z.shiftr _ _)) in E. apply lxor_cancel_l in E.
  split; intros <-.
  - rewrite !(Z.lxor_comm _ (Z.land c1 255)) in Ex. by apply lxor_cancel_l in Ex.
  - apply lxor_cancel_l in Ex. rewrite land_255, land_255 in Ex.
    rewrite !Z.shiftr_div_pow2 in E by lia. word_lia.
Qed.

Lemma crc_range crc buf : 0 <= crc < 65536 -> 0 <= foldl crc16_step crc buf < 65536.
Proof.
  revert crc. induction buf as [|b buf IH]; intros crc Hc; [done|]. simpl.
  apply IH, crc16_step_range.
Qed.

Lemma crc_foldl_inj buf : forall c1 c2,
  0 <= c1 < 65536 -> 0 <= c2 < 65536 -> bytes buf ->
  foldl crc16_step c1 buf = foldl crc16_step c2 buf -> c1 = c2.
Proof.
  induction buf as [|b buf IH]; intros c1 c2 H1 H2 Hb E; [done|].
  apply Forall_cons in Hb as [Hb Hbuf]. simpl in E.
  apply IH in E; [|apply crc16_step_range..|done].
  by apply crc16_step_inj in E as [_ E]; [apply E|..].
Qed.

(** The checksum detects every error confined to one byte: changing a
    single byte of a block, in any of its eight bits, changes the checksum. *)
Theorem crc_detects_byte_error pre a b post :
  bytes (pre ++ a :: post) -> 0 <= b < 256 -> a <> b ->
  crc16_ccitt (pre ++ a :: post) <> crc16_ccitt (pre ++ b :: post).
Proof.
  intros [Hpre [Ha Hpost]%Forall_cons]%Forall_app Hb Hne E. unfold crc16_ccitt in E.
  rewrite !foldl_app in E. simpl in E.
  pose proof (crc_range 0xffff pre ltac:(lia)) as Hr.
  apply crc_foldl_inj in E; [|apply crc16_step_range..|done].
  apply crc16_step_inj in E as [E _]; [|done..]. by apply Hne, E.
Qed.

Lemma crc_detects_byte_error_witness :
  crc16_ccitt [7; 16; 1; 2] <> crc16_ccitt [7; 16; 3; 2].
Proof.
  apply (crc_detects_byte_error [7; 16] 1 3 [2]); [bytes_solve|lia|lia].
Defined.

(** ** Integers and message ids *)

Lemma encode_int_length v : (1 <= length (encode_int v) <= 5)%nat.
Proof. unfold encode_int. repeat case_match; simpl; lia. Qed.

Lemma lor_128_byte d : 0 <= d < 128 -> 0 <= Z.lor d 0x80 < 256.
Proof. intros Hd. destruct (vlq_digit d Hd) as (_ & _ & _ & _ & _ & _ & <-). apply u8_range. Qed.

Lemma encode_int_bytes v : bytes (encode_int v).
Proof.
  unfold encode_int, bytes. rewrite !land_127.
  assert (forall x, 0 <= x mod 128 < 128) as Hm by (intros; word_lia).
  repeat case_match; repeat (apply Forall_cons; split); try apply Forall_nil; try done;
    try (apply lor_128_byte, Hm); try (pose proof (Hm v); lia); apply u8_range.
Qed.

(** Variable length integers: every 32 bit value is encoded in one to five
    bytes, and parsing the encoding gives back the value and leaves the
    pointer exactly behind it, whatever follows in the buffer. *)
Theorem vlq_roundtrip v p :
  0 <= v < 2 ^ 32 ->
  parse_int (encode_int v ++ p) = Some (v, p) /\ (1 <= length (encode_int v) <= 5)%nat /\
  bytes (encode_int v).
Proof.
  intros Hv. split_and!; [by apply encode_parse_int|apply encode_int_length..|apply encode_int_bytes].
Qed.

Lemma vlq_roundtrip_witness :
  encode_int 0xfffffc18 = [0xf8; 0x18] /\
  parse_int (encode_int 0xfffffc18 ++ [7]) = Some (0xfffffc18, [7]).
Proof.
  split; [vm_compute; reflexivity|]. apply (vlq_roundtrip 0xfffffc18 [7]). lia.
Defined.

Lemma lxor_lor_small d : 0 <= d < 128 -> Z.land (Z.lor d 0x80) 0x7f = d.
Proof. intros Hd. by destruct (vlq_digit d Hd) as (_ & _ & ? & _). Qed.

(** The host's number for an encoded id and its encoding. *)
Definition msgid_ok (e : Z) : bool :=
  match parse_int (encode_msgid e) with
  | Some (v, []) => bool_decide (encode_int v = encode_msgid e) && (v <? 2 ^ 32) && (0 <=? v)
  | _ => false
  end.

Lemma msgid_table e : 0 <= e < 0x3fe0 -> msgid_ok e = true.
Proof.
  intros He. assert (0 <= e / 128 < 128 /\ 0 <= e mod 128 < 128) as [Hd Hm] by word_lia.
  assert (all_below 128 (fun h => all_below 128 (fun l =>
    let e := 128 * h + l in (0x3fe0 <=? e) || msgid_ok e)) = true) as Hk
    by (vm_compute; reflexivity).
  pose proof (all_below_spec _ _ Hk (e / 128) Hd) as Hk'. cbv beta in Hk'.
  pose proof (all_below_spec _ _ Hk' (e mod 128) Hm) as Hk2. cbv beta zeta in Hk2.
  rewrite <- Z.div_mod in Hk2 by lia. apply orb_true_iff in Hk2 as [?%Z.leb_le|?]; [lia|done].
Qed.

Lemma parse_encode_msgid e p :
  0 <= e < 2 ^ 14 -> command_parse_msgid (encode_msgid e ++ p) = Some (e, p).
Proof.
  intros He. unfold encode_msgid. rewrite land_127, Z.shiftr_div_pow2 by lia.
  destruct (Z.leb_spec 0x80 e); simpl.
  - assert (0 <= e / 2 ^ 7 < 128) as Hd by word_lia. destruct (vlq_digit _ Hd) as (H1 & _ & H3 & _ & _ & _ & H8).
    rewrite H8, H1, H3, lor_shiftl_add by word_lia. do 2 f_equal. word_lia.
  - assert (0 <= e mod 128 < 128) as Hd by word_lia. destruct (vlq_digit _ Hd) as (_ & H2 & _).
    rewrite H2. do 2 f_equal. word_lia.
Qed.

(** Message ids: for every id the firmware's two byte encoding is a
    variable length integer for the host, the host encodes that integer to
    the same bytes, and the firmware parses them back to the id. *)
Theorem msgid_roundtrip e p :
  0 <= e < 0x3fe0 ->
  exists v, 0 <= v < 2 ^ 32 /\ parse_int (encode_msgid e ++ p) = Some (v, p) /\
    encode_int v = encode_msgid e /\ command_parse_msgid (encode_int v ++ p) = Some (e, p).
Proof.
  intros He. pose proof (msgid_table e He) as Hk. unfold msgid_ok in Hk.
  destruct (parse_int (encode_msgid e)) as [[v [|]]|]; try done.
  rewrite !andb_true_iff, bool_decide_eq_true, Z.ltb_lt, Z.leb_le in Hk.
  destruct Hk as [[Hv ?] ?]. exists v. split_and!; [lia..| |done|].
  - rewrite <- Hv. by apply encode_parse_int.
  - rewrite Hv. apply parse_encode_msgid. lia.
Qed.

Lemma msgid_roundtrip_witness :
  exists v, parse_int (encode_msgid 110 ++ [5]) = Some (v, [5]) /\
    command_parse_msgid (encode_int v ++ [5]) = Some (110, [5]).
Proof.
  destruct (msgid_roundtrip 110 [5]) as (v & _ & E1 & _ & E2); [lia|]. exists v. split; assumption.
Defined.

(** ** Frames *)

Definition valid_seq (seq : Z) : Prop := 0x10 <= seq < 0x20.

Lemma valid_seq_mask seq : valid_seq seq -> Z.land seq (Z.lnot MESSAGE_SEQ_MASK) = MESSAGE_DEST.
Proof.
  intros Hs. assert (all_below 32 (fun s => (s <? 16) ||
    (Z.land s (Z.lnot MESSAGE_SEQ_MASK) =? MESSAGE_DEST)) = true) as Hk by (vm_compute; reflexivity).
  unfold valid_seq in Hs. pose proof (all_below_spec _ _ Hk seq ltac:(lia)) as Hk'.
  apply orb_true_iff in Hk' as [?%Z.ltb_lt|?%Z.eqb_eq]; [lia|done].
Qed.

Lemma byte_at_mid l x r i : i = Z.of_nat (length l) -> byte_at (l ++ x :: r) i = x.
Proof. intros ->. unfold byte_at. by rewrite Nat2Z.id, nth_middle. Qed.

Lemma crc_bytes crc :
  0 <= crc < 65536 -> u16 (Z.lor (Z.shiftl (u8 (Z.shiftr crc 8)) 8) (u8 crc)) = crc.
Proof.
  intros. rewrite lor_shiftl_add by word_lia. rewrite Z.shiftr_div_pow2 by lia. word_lia.
Qed.

Lemma command_sendf_run m w : exists w', command_sendf m w = Ok tt w' /\
  next_sequence w' = next_sequence w /\ sync_state w' = sync_state w.
Proof.
  unfold command_sendf, console_sendf. munfold. cbn. destruct (in_sendf w); eexists; done.
Qed.

Lemma flag_need_sync s : flag (Z.land s (not8 CF_NEED_VALID)) CF_NEED_SYNC = flag s CF_NEED_SYNC.
Proof. unfold flag. by rewrite <- Z.land_assoc. Qed.

Section Frame.
Context (seq : Z) (payload rest : list Z).
Context (Hseq : valid_seq seq) (Hlen : Z.of_nat (length payload) <= MESSAGE_PAYLOAD_MAX).
Let n := 5 + Z.of_nat (length payload).
Let buf := command_add_frame seq payload ++ rest.
Let body := n :: seq :: payload.
Let crc := crc16_ccitt body.

Lemma frame_eq : buf = body ++ u8 (Z.shiftr crc 8) :: u8 crc :: MESSAGE_SYNC :: rest.
Proof.
  unfold buf, command_add_frame, MESSAGE_HEADER_SIZE, MESSAGE_TRAILER_SIZE.
  unfold MESSAGE_PAYLOAD_MAX, MESSAGE_MAX, MESSAGE_MIN in Hlen.
  replace (u8 _) with n by (subst n; word_lia). by rewrite <- app_assoc.
Qed.

Lemma frame_len : byte_at buf MESSAGE_POS_LEN = n /\ byte_at buf MESSAGE_POS_SEQ = seq.
Proof. by rewrite frame_eq. Qed.

Lemma frame_length : Z.of_nat (length buf) = n + Z.of_nat (length rest).
Proof. rewrite frame_eq, length_app. simpl. subst n. lia. Qed.

Lemma frame_trailer :
  byte_at buf (n - MESSAGE_TRAILER_SYNC) = MESSAGE_SYNC /\
  byte_at buf (n - MESSAGE_TRAILER_CRC) = u8 (Z.shiftr crc 8) /\
  byte_at buf (n - MESSAGE_TRAILER_CRC + 1) = u8 crc.
Proof.
  rewrite frame_eq. set (l2 := u8 (Z.shiftr crc 8)). set (l1 := u8 crc).
  unfold MESSAGE_TRAILER_SYNC, MESSAGE_TRAILER_CRC. split_and!.
  - replace (body ++ l2 :: l1 :: MESSAGE_SYNC :: rest)
      with ((body ++ [l2; l1]) ++ MESSAGE_SYNC :: rest) by (by rewrite <- app_assoc).
    apply byte_at_mid. rewrite length_app. simpl. subst n. lia.
  - apply byte_at_mid. simpl. subst n. lia.
  - replace (body ++ l2 :: l1 :: MESSAGE_SYNC :: rest)
      with ((body ++ [l2]) ++ l1 :: MESSAGE_SYNC :: rest) by (by rewrite <- app_assoc).
    apply byte_at_mid. rewrite length_app. simpl. subst n. lia.
Qed.

Lemma frame_body : take (Z.to_nat (n - MESSAGE_TRAILER_SIZE)) buf = body.
Proof.
  rewrite frame_eq. replace (Z.to_nat (n - MESSAGE_TRAILER_SIZE)) with (length body).
  - by rewrite take_app_length.
  - simpl. subst n. unfold MESSAGE_TRAILER_SIZE. lia.
Qed.

Lemma frame_crc : crc16_ccitt (take (Z.to_nat (n - MESSAGE_TRAILER_SIZE)) buf) =
  u16 (Z.lor (Z.shiftl (byte_at buf (n - MESSAGE_TRAILER_CRC)) 8)
         (byte_at buf (n - MESSAGE_TRAILER_CRC + 1))).
Proof.
  destruct frame_trailer as (_ & -> & ->). rewrite frame_body, crc_bytes; [done|].
  apply crc_range. lia.
Qed.

Lemma frame_n_range : MESSAGE_MIN <= n <= MESSAGE_MAX.
Proof. subst n. unfold MESSAGE_PAYLOAD_MAX in Hlen. unfold MESSAGE_MIN, MESSAGE_MAX in *. lia. Qed.

Lemma msgblock_crc_eq l : Msgblock.msgblock_crc16_ccitt l = crc16_ccitt l.
Proof.
  unfold Msgblock.msgblock_crc16_ccitt, crc16_ccitt. generalize 0xffff.
  induction l as [|x l IH]; intros c; [done|]. simpl. by rewrite IH.
Qed.

Lemma msgblock_check_frame : Msgblock.msgblock_check false buf = (false, n).
Proof.
  unfold Msgblock.msgblock_check. destruct frame_len as [-> ->]. pose proof frame_n_range.
  rewrite frame_length, valid_seq_mask by done. destruct frame_trailer as (-> & _ & _).
  rewrite msgblock_crc_eq.
  rewrite frame_crc, !Z.eqb_refl. simpl.
  rewrite (proj2 (Z.ltb_ge (n + _) MESSAGE_MIN)), (proj2 (Z.ltb_ge n MESSAGE_MIN)),
    (proj2 (Z.ltb_ge MESSAGE_MAX n)), (proj2 (Z.ltb_ge (n + _) n)) by lia. done.
Qed.

Lemma find_block_frame w :
  flag (sync_state w) CF_NEED_SYNC = false -> next_sequence w = seq ->
  command_find_block buf w =
    Ok (1, n) (w <| sync_state ::= fun s => Z.land s (not8 CF_NEED_VALID) |>
                 <| next_sequence := Z.lor (Z.land (seq + 1) MESSAGE_SEQ_MASK) MESSAGE_DEST |>).
Proof.
  intros Hs Hn. unfold command_find_block. destruct frame_len as [-> ->]. pose proof frame_n_range.
  rewrite frame_length, valid_seq_mask by done. destruct frame_trailer as (-> & _ & _).
  rewrite frame_crc, !Z.eqb_refl. munfold. cbn [negb]. rewrite Hs, andb_false_r.
  rewrite (proj2 (Z.ltb_ge (n + _) MESSAGE_MIN)), (proj2 (Z.ltb_ge n MESSAGE_MIN)),
    (proj2 (Z.ltb_ge MESSAGE_MAX n)), (proj2 (Z.ltb_ge (n + _) n)) by lia. cbn.
  by rewrite Hn, Z.eqb_refl.
Qed.

(** A block with another number than the expected one is refused. *)
Lemma find_block_nak w :
  flag (sync_state w) CF_NEED_SYNC = false -> next_sequence w <> seq ->
  exists w', command_find_block buf w = Ok (-1, n) w' /\
    next_sequence w' = next_sequence w /\ flag (sync_state w') CF_NEED_SYNC = false.
Proof.
  intros Hs Hn. unfold command_find_block. destruct frame_len as [-> ->]. pose proof frame_n_range.
  rewrite frame_length, valid_seq_mask by done. destruct frame_trailer as (-> & _ & _).
  rewrite frame_crc, !Z.eqb_refl. munfold. cbn [negb]. rewrite Hs, andb_false_r.
  rewrite (proj2 (Z.ltb_ge (n + _) MESSAGE_MIN)), (proj2 (Z.ltb_ge n MESSAGE_MIN)),
    (proj2 (Z.ltb_ge MESSAGE_MAX n)), (proj2 (Z.ltb_ge (n + _) n)) by lia. cbn.
  rewrite (proj2 (Z.eqb_neq seq _)) by done. cbn. unfold find_nak.
  edestruct (command_sendf_run encode_acknak) as (w' & E & E2 & E3). rewrite E.
  exists w'. split_and!; [done|by rewrite E2|]. rewrite E3. cbn. by rewrite flag_need_sync.
Qed.
End Frame.

(** Framing: a framed payload of at most 59 bytes, followed by anything,
    is recognised by the host and by the firmware as one block of exactly its
    length.  The firmware accepts it if it carries the expected sequence
    number, which then advances by one modulo 16. *)
Theorem frame_accepted seq payload rest w :
  valid_seq seq -> Z.of_nat (length payload) <= MESSAGE_PAYLOAD_MAX ->
  flag (sync_state w) CF_NEED_SYNC = false -> next_sequence w = seq ->
  let n := 5 + Z.of_nat (length payload) in
  Msgblock.msgblock_check false (command_add_frame seq payload ++ rest) = (false, n) /\
  exists w', command_find_block (command_add_frame seq payload ++ rest) w = Ok (1, n) w' /\
    next_sequence w' = 0x10 + (seq + 1) mod 16 /\ sent w' = sent w.
Proof.
  intros Hs Hl Hy Hn n. split; [by apply msgblock_check_frame|].
  eexists. split; [by apply find_block_frame|]. split; [|done]. cbn.
  change MESSAGE_SEQ_MASK with (Z.ones 4). rewrite Z.land_ones by lia. unfold MESSAGE_DEST.
  change 16 with (Z.shiftl 1 4) at 1. rewrite Z.lor_comm, lor_shiftl_add by word_lia. word_lia.
Qed.

Lemma frame_accepted_witness :
  exists w', command_find_block (command_add_frame 0x1f [4; 9] ++ [1])
      (mkWorld ∅ TPeriodic TPeriodic 0 0 0 "" [] 0 0x1f 0 false 0 None None 0 0 ∅ None 0 0
         0 0 0 0 0 ∅ 0 0 0 [] [] canbus_data_zero usb_cdc_zero
         usbcan_data_zero 0) = Ok (1, 7) w' /\ next_sequence w' = 0x10.
Proof.
  destruct (frame_accepted 0x1f [4; 9] [1]
    (mkWorld ∅ TPeriodic TPeriodic 0 0 0 "" [] 0 0x1f 0 false 0 None None 0 0 ∅ None 0 0
         0 0 0 0 0 ∅ 0 0 0 [] [] canbus_data_zero usb_cdc_zero
         usbcan_data_zero 0)) as (_ & w' & E & Hn & _).
  - unfold valid_seq; lia.
  - vm_compute; discriminate.
  - reflexivity.
  - reflexivity.
  - exists w'. split; [exact E|rewrite Hn; reflexivity].
Defined.

Lemma find_sync_bound buf i : find_sync buf = Some i -> 0 <= i < Z.of_nat (length buf).
Proof.
  revert i. induction buf as [|c buf IH]; intros i; simpl; [done|].
  destruct (c =? MESSAGE_SYNC); [intros [= <-]; lia|].
  destruct (find_sync buf) as [j|]; simpl; [|done]. intros [= <-]. specialize (IH j eq_refl). lia.
Qed.

Lemma find_need_sync_run buf w :
  buf <> [] -> exists pop w', find_need_sync buf w = Ok (-1, pop) w' /\
    1 <= pop <= Z.of_nat (length buf) /\ next_sequence w' = next_sequence w.
Proof.
  intros Hb. assert (1 <= Z.of_nat (length buf)) as Hl by (destruct buf; [done|simpl; lia]).
  assert (forall w pop, 1 <= pop <= Z.of_nat (length buf) -> exists p w',
    ((st ← gets sync_state;
      if flag st CF_NEED_VALID then mret (-1, pop)
      else modify (fun w => w <| sync_state ::= fun s => Z.lor s CF_NEED_VALID |>) ;;
           find_nak ;; mret (-1, pop)) : M (Z * Z)) w = Ok (-1, p) w' /\
    1 <= p <= Z.of_nat (length buf) /\ next_sequence w' = next_sequence w) as Hk.
  { intros w0 pop Hp. munfold. destruct (flag _ _); [by eexists _, w0|]. unfold find_nak.
    destruct (command_sendf_run encode_acknak
      (w0 <| sync_state ::= fun s => Z.lor s CF_NEED_VALID |>)) as (w' & E & ? & _).
    rewrite E. by exists pop, w'. }
  unfold find_need_sync. destruct (find_sync buf) as [i|] eqn:Ei.
  - apply find_sync_bound in Ei. edestruct (Hk (w <| sync_state ::= fun s => Z.land s (not8 CF_NEED_SYNC) |>)
      (i + 1)) as (p & w' & E & ?); [lia|]. exists p, w'. split; [exact E|done].
  - edestruct (Hk w (Z.of_nat (length buf))) as (p & w' & E & ?); [lia|]. exists p, w'.
    split; [exact E|done].
Qed.

Lemma find_error_run buf w :
  buf <> [] -> exists pop w', find_error buf w = Ok (-1, pop) w' /\
    1 <= pop <= Z.of_nat (length buf) /\ next_sequence w' = next_sequence w.
Proof.
  intros Hb. unfold find_error. destruct (_ =? _).
  - exists 1, w. split_and!; [done..| |done]. destruct buf; [done|simpl; lia].
  - destruct (find_need_sync_run buf (w <| sync_state ::= fun s => Z.lor s CF_NEED_SYNC |>) Hb)
      as (p & w' & E & ?). exists p, w'. split; [exact E|done].
Qed.

(** The three outcomes of [command_find_block]. *)
Lemma find_block_run buf w :
  exists ret pop w', command_find_block buf w = Ok (ret, pop) w' /\
    ((ret = 0 /\ pop = 0 /\ w' = w /\ Z.of_nat (length buf) < MESSAGE_MAX) \/
     (ret = -1 /\ 1 <= pop <= Z.of_nat (length buf) /\ next_sequence w' = next_sequence w) \/
     (ret = 1 /\ MESSAGE_MIN <= pop <= Z.of_nat (length buf) /\ pop <= MESSAGE_MAX /\
      pop = byte_at buf MESSAGE_POS_LEN /\ byte_at buf MESSAGE_POS_SEQ = next_sequence w /\
      next_sequence w' = Z.lor (Z.land (next_sequence w + 1) MESSAGE_SEQ_MASK) MESSAGE_DEST)).
Proof.
  unfold command_find_block. unfold mbind at 1, M_bind at 1, gets at 1.
  destruct (Z.ltb_spec 0 (Z.of_nat (length buf))) as [Hl|Hl]; simpl.
  2: { exists 0, 0, w. split.
       - rewrite (proj2 (Z.ltb_lt _ MESSAGE_MIN)) by (unfold MESSAGE_MIN; lia). done.
       - left. unfold MESSAGE_MAX. split_and!; [done..|lia]. }
  assert (buf <> []) as Hb by (by intros ->).
  pose proof (find_error_run buf w Hb) as (pe & we & Ee & He).
  destruct (flag _ _).
  { destruct (find_need_sync_run buf w Hb) as (p & w' & E & ?). exists (-1), p, w'. naive_solver. }
  destruct (Z.ltb_spec (Z.of_nat (length buf)) MESSAGE_MIN) as [H5|H5].
  { exists 0, 0, w. split; [done|]. left. unfold MESSAGE_MIN, MESSAGE_MAX in *. split_and!; [done..|lia]. }
  destruct (_ || _) eqn:Hm; [exists (-1), pe, we; naive_solver|].
  apply orb_false_iff in Hm as [Hm1%Z.ltb_ge Hm2%Z.ltb_ge].
  destruct (negb _); [exists (-1), pe, we; naive_solver|].
  destruct (Z.ltb_spec (Z.of_nat (length buf)) (byte_at buf MESSAGE_POS_LEN)) as [Hx|Hx].
  { exists 0, 0, w. split; [done|]. left. split_and!; [done..|lia]. }
  destruct (negb _); [exists (-1), pe, we; naive_solver|].
  destruct (negb _); [exists (-1), pe, we; naive_solver|].
  munfold. cbn. destruct (Z.eqb_spec (byte_at buf MESSAGE_POS_SEQ) (next_sequence w)) as [Hq|Hq]; cbn.
  - eexists _, _, _. split; [done|]. right. right. rewrite Hq. by split_and!.
  - unfold find_nak. edestruct (command_sendf_run encode_acknak) as (w' & E & E2 & _). rewrite E.
    eexists _, _, _. split; [done|]. right. left. unfold MESSAGE_MIN in Hm1. split_and!; [done|lia|done|].
    by rewrite E2.
Qed.

(** Scanning the receive buffer always makes progress.  For every buffer
    and every state [command_find_block] returns normally; unless it reports
    that more data is needed (a partial block), it consumes between one byte
    and the whole buffer.  The sequence number changes only when a block is
    accepted. *)
Theorem find_block_progress buf w :
  exists ret pop w', command_find_block buf w = Ok (ret, pop) w' /\
    ((ret = 0 /\ pop = 0 /\ w' = w /\ Z.of_nat (length buf) < MESSAGE_MAX) \/
     (ret = -1 /\ 1 <= pop <= Z.of_nat (length buf) /\ next_sequence w' = next_sequence w) \/
     (ret = 1 /\ MESSAGE_MIN <= pop <= Z.of_nat (length buf) /\ pop <= MESSAGE_MAX /\
      byte_at buf MESSAGE_POS_SEQ = next_sequence w)).
Proof.
  destruct (find_block_run buf w) as (ret & pop & w' & E & [?|[?|(? & ? & ? & _ & ? & _)]]);
    exists ret, pop, w'; naive_solver.
Qed.
