(* ===== verification/Delivery.v ===== *)
(** * Delivery of command blocks from the host to the firmware

    The host's serial queue (src/klippy/chelper/serialqueue.c) and the block
    receiver of the firmware (src/src/command.c) connected by two lines that
    keep the order of what they carry but may lose any part of it: a block
    damaged on the way is a block that is lost, because the receivers only
    take blocks whose checksum fits.  The sequence numbers on the line are
    taken modulo sixteen and the host keeps at most twelve blocks
    unacknowledged; what follows shows that this is enough for every block to
    be processed exactly once and in order. *)
From stdpp Require Import list relations.
From S2P Require Import Prelude Double Protocol ProtocolFacts Msgblock Serialqueue World Sched Command SerialFacts QueueProps ProtocolProps.
Import Msgblock.

(** [line] carries blocks to the firmware, [back] blocks to the host.  [built]
    and [delivered] record the blocks the host made and the firmware
    accepted. *)
Record system : Type := mkSystem {
  host : serialqueue; mcu : world;
  line : list (list Z); back : list (list Z);
  built : list (list Z); delivered : list (list Z) }.
#[export] Instance eta_system : Eta system := fun s =>
  mkSystem (host s) (mcu s) (line s) (back s) (built s) (delivered s).

(** The blocks that [command_event] added to the sent queue, which are those it
    writes. *)
Definition new_blocks (sq sq' : serialqueue) : list (list Z) :=
  drop (length (sq_sent_queue sq)) (map sm_msg (sq_sent_queue sq')).

(** What [retransmit_event] writes. *)
Definition retransmit_items (sq : serialqueue) : list (list Z) :=
  [MESSAGE_SYNC] :: map sm_msg (sq_sent_queue sq).

Lemma host_call_proto sq sq' : host_call sq sq' -> proto sq' = proto sq.
Proof.
  destruct 1; try done; [apply proto_send_batch|apply proto_pull| |].
  - unfold serialqueue_free_commandqueue. by repeat case_match.
  - unfold serialqueue_extract_old. by case_match.
Qed.

Section Delivery.
Context `{Host}.

(** [b ++ rest] is the receive buffer of the firmware when it looks at [b].
    Between two blocks the firmware may do anything but change the number of
    the block it expects. *)
Inductive step : system -> system -> Prop :=
| step_command t wake sq' s :
    proper_time t -> command_event t (host s) = Some (wake, sq') ->
    step s (s <| host := sq' |> <| line ::= fun l => l ++ new_blocks (host s) sq' |>
              <| built ::= fun l => l ++ new_blocks (host s) sq' |>)
| step_retransmit t s :
    step s (s <| host := (retransmit_event t (host s)).2 |>
              <| line ::= fun l => l ++ retransmit_items (host s) |>)
| step_call sq' s : host_call (host s) sq' -> step s (s <| host := sq' |>)
| step_ack t msg l s : back s = msg :: l ->
    step s (s <| host := (handle_message t msg (host s)).2 |> <| back := l |>)
| step_receive b rest l r pop w' s :
    line s = b :: l -> command_find_block (b ++ rest) (mcu s) = Ok (r, pop) w' ->
    step s (s <| mcu := w' |> <| line := l |>
              <| delivered ::= fun d => if r =? 1 then d ++ [b] else d |>)
| step_respond payload s : Z.of_nat (length payload) <= MESSAGE_PAYLOAD_MAX ->
    step s (s <| back ::= fun l => l ++ [command_add_frame (next_sequence (mcu s)) payload] |>)
| step_mcu w' s : next_sequence w' = next_sequence (mcu s) -> step s (s <| mcu := w' |>)
| step_lose l1 b l2 s : line s = l1 ++ b :: l2 -> step s (s <| line := l1 ++ l2 |>)
| step_lose_back l1 b l2 s : back s = l1 ++ b :: l2 -> step s (s <| back := l1 ++ l2 |>).

(** A connection whose first block has the number [R]: nothing is under way and
    both sides agree on the next block. *)
Definition connected (R : Z) (s : system) : Prop :=
  2 <= R /\ proto (host s) = (R, R, []) /\ next_sequence (mcu s) = seq_byte R /\
  line s = [] /\ back s = [] /\ built s = [] /\ delivered s = [].

(** ** What the lines carry

    [N] is the number of the next block to build, [E] the number the firmware
    expects.  A block [b] with the number [i] was written when the next block
    was [n]. *)
Section Lines.
Context (R : Z).

Fixpoint line_ok (blocks : list (list Z)) (N E lo : Z) (l : list (list Z)) : Prop :=
  match l with
  | [] => True
  | b :: l => exists i n, lo <= n <= N /\ n <= E + 12 /\
      (b = [MESSAGE_SYNC] \/ R <= i < n /\ n <= i + 12 /\ blocks !! Z.to_nat (i - R) = Some b) /\
      line_ok blocks N E n l
  end.

Fixpoint back_ok (E lo : Z) (l : list (list Z)) : Prop :=
  match l with
  | [] => True
  | m :: l => exists a, lo <= a <= E /\ byte_at m MESSAGE_POS_SEQ = seq_byte a /\ back_ok E a l
  end.

Lemma line_ok_mono blocks more N N' E E' lo lo' l : line_ok blocks N E lo l ->
  N <= N' -> E <= E' -> lo' <= lo -> line_ok (blocks ++ more) N' E' lo' l.
Proof.
  intros Hl HN HE. revert lo lo' Hl. induction l as [|b l IH]; intros lo lo'; [done|].
  intros (i & n & ? & ? & Hb & Hl) Hlo. exists i, n. split_and!; try lia.
  - destruct Hb as [?|(? & ? & Hb)]; [by left|right]. split_and!; try lia.
    by apply lookup_app_l_Some.
  - by apply (IH n).
Qed.

Lemma line_ok_weaken blocks N E E' lo lo' l : line_ok blocks N E lo l ->
  E <= E' -> lo' <= lo -> line_ok blocks N E' lo' l.
Proof. intros Hl ??. rewrite <- (app_nil_r blocks). by eapply line_ok_mono. Qed.

Lemma line_ok_lose blocks N E lo l1 b l2 :
  line_ok blocks N E lo (l1 ++ b :: l2) -> line_ok blocks N E lo (l1 ++ l2).
Proof.
  revert lo. induction l1 as [|x l1 IH]; intros lo; cbn [app line_ok].
  - intros (i & n & ? & _ & _ & Hl). eapply line_ok_weaken; [done|lia..].
  - intros (i & n & ? & ? & ? & Hl). exists i, n. split_and!; try lia; [done|by apply IH].
Qed.

Lemma line_ok_app blocks N E lo l bs : line_ok blocks N E lo l -> lo <= N -> N <= E + 12 ->
  Forall (fun b => b = [MESSAGE_SYNC] \/
                   exists i, R <= i < N /\ N <= i + 12 /\ blocks !! Z.to_nat (i - R) = Some b) bs ->
  line_ok blocks N E lo (l ++ bs).
Proof.
  intros Hl Hlo HN Hbs. revert lo Hl Hlo. induction l as [|b l IH]; intros lo; cbn [app line_ok].
  - intros _. revert lo. induction Hbs as [|b bs Hb _ IH]; intros lo Hlo; [done|].
    destruct Hb as [->|(i & ? & ? & ?)].
    + exists 0, N. split_and!; try lia; [by left|by apply IH].
    + exists i, N. split_and!; try lia; [by right|by apply IH].
  - intros (i & n & ? & ? & ? & Hl) Hlo. exists i, n. split_and!; try lia; [done|apply IH; [done|lia]].
Qed.

Lemma back_ok_mono E E' lo lo' l : back_ok E lo l -> E <= E' -> lo' <= lo -> back_ok E' lo' l.
Proof.
  intros Hl HE. revert lo lo' Hl. induction l as [|m l IH]; intros lo lo'; [done|].
  intros (a & ? & ? & Hl) ?. exists a. split_and!; try lia. apply (IH a); [done|lia].
Qed.

Lemma back_ok_lose E lo l1 m l2 : back_ok E lo (l1 ++ m :: l2) -> back_ok E lo (l1 ++ l2).
Proof.
  revert lo. induction l1 as [|x l1 IH]; intros lo; cbn [app back_ok].
  - intros (a & ? & _ & Hl). eapply back_ok_mono; [done|lia..].
  - intros (a & ? & ? & Hl). exists a. split_and!; try lia. by apply IH.
Qed.

Lemma back_ok_app E lo l m : back_ok E lo l -> lo <= E ->
  byte_at m MESSAGE_POS_SEQ = seq_byte E -> back_ok E lo (l ++ [m]).
Proof.
  revert lo. induction l as [|x l IH]; intros lo; cbn [app back_ok].
  - intros _ ??. exists E. by split_and!; try lia.
  - intros (a & ? & ? & Hl) ??. exists a. split_and!; try lia. apply IH; [done|lia|done].
Qed.
End Lines.

(** ** The invariant *)

Definition next_block (R : Z) (s : system) : Z := R + Z.of_nat (length (built s)).
Definition expected (R : Z) (s : system) : Z := R + Z.of_nat (length (delivered s)).

Record inv (R : Z) (s : system) : Prop := mkInv {
  inv_start : 2 <= R <= sq_receive_seq (host s);
  inv_send : sq_send_seq (host s) = next_block R s;
  inv_expected : sq_receive_seq (host s) <= expected R s <= next_block R s;
  inv_pending : next_block R s <= sq_receive_seq (host s) + 12;
  inv_sent : map sm_msg (sq_sent_queue (host s))
             = drop (Z.to_nat (sq_receive_seq (host s) - R)) (built s);
  inv_numbered : numbered R (built s);
  inv_delivered : delivered s = take (length (delivered s)) (built s);
  inv_mcu : next_sequence (mcu s) = seq_byte (expected R s);
  inv_line : line_ok R (built s) (next_block R s) (expected R s) (expected R s) (line s);
  inv_back : back_ok (expected R s) (sq_receive_seq (host s)) (back s) }.

(** The numbers are far from the end of their range. *)
Definition in_range (R : Z) (s : system) : Prop := next_block R s < 2 ^ 62.

Lemma inv_connected R s : connected R s -> inv R s.
Proof.
  intros (HR & Hp & Hm & Hl & Hb & Hu & Hd). unfold proto in Hp. injection Hp as E1 E2 E3.
  apply map_eq_nil in E3.
  split; unfold next_block, expected; rewrite ?Hl, ?Hb, ?Hu, ?Hd, ?E1, ?E2, ?E3; simpl;
    rewrite ?Z.add_0_r; try done; try lia.
  by rewrite Z.sub_diag.
Qed.

Lemma inv_window R s : inv R s -> in_range R s -> in_window (host s).
Proof.
  intros [] Hr. unfold in_range, in_window, MAX_PENDING_BLOCKS in *. lia.
Qed.

Lemma inv_sent_length R s : inv R s ->
  sq_send_seq (host s) = sq_receive_seq (host s) + Z.of_nat (length (sq_sent_queue (host s))).
Proof.
  intros []. rewrite <- (length_map sm_msg), inv_sent0, length_drop, inv_send0.
  unfold next_block in *. lia.
Qed.

(** Only the protocol state of the host matters. *)
Lemma inv_proto R s sq' : inv R s -> proto sq' = proto (host s) -> inv R (s <| host := sq' |>).
Proof.
  intros [] Hp. unfold proto in Hp. injection Hp as E1 E2 E3.
  split; cbn; rewrite ?E1, ?E2, ?E3; done.
Qed.

Lemma inv_retransmit R s : inv R s ->
  inv R (s <| line ::= fun l => l ++ retransmit_items (host s) |>).
Proof.
  intros I. pose proof I as []. split; try done. cbn.
  apply line_ok_app; [done| |unfold next_block, expected in *; cbn in *; lia|].
  - unfold next_block, expected in *; cbn in *; lia.
  - constructor; [by left|]. rewrite inv_sent0. apply Forall_lookup. intros j b Hb. right.
    rewrite lookup_drop in Hb. pose proof (lookup_lt_Some _ _ _ Hb) as Hlt.
    exists (sq_receive_seq (host s) + Z.of_nat j). unfold next_block, expected in *; cbn in *.
    split_and!; try lia. rewrite <- Hb. f_equal. lia.
Qed.

Lemma inv_command R s t wake sq' : inv R s -> in_range R s -> proper_time t ->
  command_event t (host s) = Some (wake, sq') ->
  inv R (s <| host := sq' |> <| line ::= fun l => l ++ new_blocks (host s) sq' |>
           <| built ::= fun l => l ++ new_blocks (host s) sq' |>).
Proof.
  intros I Hr Ht E. pose proof (inv_window R s I Hr) as Hw.
  destruct (command_event_ok t _ _ _ E Ht Hw) as (bs & Hn & Hp & (_ & Hw' & _)).
  unfold proto in Hp. injection Hp as E1 E2 E3. pose proof I as [].
  assert (new_blocks (host s) sq' = bs) as Hnew.
  { unfold new_blocks. rewrite E3, <- (length_map sm_msg). apply drop_app_length. }
  rewrite Hnew, E1, E2, inv_send0 in *. unfold MAX_PENDING_BLOCKS in *.
  assert (next_block R (s <| host := sq' |> <| line ::= fun l => l ++ bs |>
           <| built ::= fun l => l ++ bs |>) = next_block R s + Z.of_nat (length bs)) as EN
    by (unfold next_block; cbn; rewrite length_app; lia).
  split; rewrite ?EN; cbn; rewrite ?E1, ?E2; try done; try lia.
  - change (expected R _) with (expected R s). lia.
  - rewrite E3, inv_sent0, drop_app_le; [done|]. unfold next_block, expected in *. lia.
  - by apply numbered_app.
  - rewrite take_app_le; [done|]. unfold next_block, expected in *. lia.
  - apply line_ok_app; change (expected R _) with (expected R s); [|lia..|].
    + eapply line_ok_mono; [done|lia..].
    + apply Forall_lookup. intros j b Hb. right. pose proof (lookup_lt_Some _ _ _ Hb).
      exists (next_block R s + Z.of_nat j). unfold next_block, expected in *. split_and!; try lia.
      rewrite lookup_app_r by lia. rewrite <- Hb. f_equal. lia.
Qed.

Lemma inv_ack R s t msg l : inv R s -> in_range R s -> back s = msg :: l ->
  inv R (s <| host := (handle_message t msg (host s)).2 |> <| back := l |>).
Proof.
  intros I Hr Hb. pose proof (inv_window R s I Hr) as Hw. pose proof (inv_sent_length R s I) as Hl.
  pose proof I as []. rewrite Hb in inv_back0. destruct inv_back0 as (a & Ha & Hm & Hbk).
  pose proof (handle_message_ok t msg a (host s) Hw ltac:(lia) Hl Hm ltac:(lia)) as Hp.
  set (sq' := (handle_message t msg (host s)).2) in *.
  unfold proto in Hp. injection Hp as E1 E2 E3.
  split; cbn; rewrite ?E1, ?E2, ?E3; try done; try lia.
  - unfold expected, next_block in *. cbn. lia.
  - unfold next_block in *. cbn. lia.
  - rewrite inv_sent0, drop_drop. f_equal. lia.
Qed.

(** The block at the head of the line is the expected one if its number looks
    like it. *)
Lemma line_head R s b l : inv R s -> line s = b :: l -> forall rest,
  byte_at (b ++ rest) MESSAGE_POS_SEQ = next_sequence (mcu s) -> b <> [MESSAGE_SYNC] ->
  built s !! length (delivered s) = Some b /\
  line_ok R (built s) (next_block R s) (expected R s) (expected R s + 1) l.
Proof.
  intros I Hl rest Hq Hne. pose proof I as []. rewrite Hl in inv_line0.
  destruct inv_line0 as (i & n & ? & ? & [?|(Hi & Hn & Hb)] & Hrest); [done|].
  apply numbered_lookup with (i := Z.to_nat (i - R)) (b := b) in inv_numbered0 as (p & Hp & _); [|done].
  replace (R + Z.of_nat (Z.to_nat (i - R))) with i in Hp by lia.
  rewrite Hp, inv_mcu0, frame_block_seq in Hq. apply seq_byte_eq in Hq; [|lia]. subst i.
  split; [|eapply line_ok_weaken; [done|lia..]].
  rewrite <- Hb. f_equal. unfold expected. lia.
Qed.

Lemma inv_receive R s b rest l r pop w' : inv R s -> line s = b :: l ->
  command_find_block (b ++ rest) (mcu s) = Ok (r, pop) w' ->
  inv R (s <| mcu := w' |> <| line := l |>
           <| delivered ::= fun d => if r =? 1 then d ++ [b] else d |>).
Proof.
  intros I Hl E. destruct (find_block_run (b ++ rest) (mcu s)) as (r' & pop' & w'' & E' & Hr).
  rewrite E in E'. injection E' as <- <- <-. pose proof I as [].
  assert (r = 1 \/ r <> 1 /\ next_sequence w' = next_sequence (mcu s)) as [->|[Hr1 Hns]]
    by (destruct Hr as [(-> & _ & -> & _)|[(-> & _ & ->)|(-> & _)]]; [right|right|left]; done).
  - destruct Hr as [(? & _)|[(? & _)|(_ & _ & Hmax & Hpop & Hseq & Hnext)]]; [done..|].
    assert (b <> [MESSAGE_SYNC]) as Hne by (intros ->; rewrite Hpop in Hmax; done).
    destruct (line_head R s b l I Hl rest Hseq Hne) as [Hb Hrest].
    pose proof (lookup_lt_Some _ _ _ Hb) as Hlt.
    set (s' := s <| mcu := w' |> <| line := l |> <| delivered ::= _ |>).
    assert (expected R s' = expected R s + 1) as EE
      by (unfold expected, s'; cbn; rewrite length_app; simpl; lia).
    split; rewrite ?EE; try done; cbn.
    + change (next_block R s') with (next_block R s). unfold next_block, expected in *. lia.
    + rewrite length_app, Nat.add_1_r, (take_S_r _ _ b) by done. by f_equal.
    + rewrite Hnext, inv_mcu0. rewrite Z.lor_comm, dest_lor. unfold seq_byte. word_lia.
    + eapply line_ok_weaken; [exact Hrest|lia..].
    + eapply back_ok_mono; [done|lia..].
  - apply Z.eqb_neq in Hr1. rewrite Hr1. split; cbn; try done; [by rewrite Hns|].
    rewrite Hl in inv_line0. destruct inv_line0 as (i & n & ? & _ & _ & Hrest).
    change (expected R _) with (expected R s). eapply line_ok_weaken; [exact Hrest|lia..].
Qed.

Lemma inv_respond R s payload : inv R s -> Z.of_nat (length payload) <= MESSAGE_PAYLOAD_MAX ->
  inv R (s <| back ::= fun l => l ++ [command_add_frame (next_sequence (mcu s)) payload] |>).
Proof.
  intros I Hp. pose proof I as []. split; try done. cbn.
  apply back_ok_app; [done|unfold expected in *; cbn in *; lia|]. by rewrite inv_mcu0.
Qed.

Lemma inv_mcu_step R s w' : inv R s -> next_sequence w' = next_sequence (mcu s) ->
  inv R (s <| mcu := w' |>).
Proof. intros [] Hn. split; cbn; try done. by rewrite Hn. Qed.

Lemma inv_lose R s l1 b l2 : inv R s -> line s = l1 ++ b :: l2 -> inv R (s <| line := l1 ++ l2 |>).
Proof. intros [] Hl. split; cbn; try done. rewrite Hl in inv_line0. by eapply line_ok_lose. Qed.

Lemma inv_lose_back R s l1 b l2 : inv R s -> back s = l1 ++ b :: l2 ->
  inv R (s <| back := l1 ++ l2 |>).
Proof. intros [] Hl. split; cbn; try done. rewrite Hl in inv_back0. by eapply back_ok_lose. Qed.

Lemma step_range R s s' : step s s' -> in_range R s' -> in_range R s.
Proof.
  destruct 1; try done. unfold in_range, next_block. cbn. rewrite length_app. lia.
Qed.

Lemma step_inv R s s' : step s s' -> inv R s -> in_range R s -> inv R s'.
Proof.
  destruct 1; intros I Hr.
  - by eapply inv_command.
  - exact (inv_proto R _ _ (inv_retransmit R s I) (retransmit_ok t (host s))).
  - apply inv_proto; [done|]. by apply host_call_proto.
  - by eapply inv_ack.
  - by eapply inv_receive.
  - by apply inv_respond.
  - by apply inv_mcu_step.
  - by eapply inv_lose.
  - by eapply inv_lose_back.
Qed.

Lemma reachable_inv R s0 s : connected R s0 -> rtc step s0 s -> in_range R s -> inv R s.
Proof.
  intros Hc Hs. revert Hs. apply (rtc_ind_r (fun s => in_range R s -> inv R s)).
  - intros _. by apply inv_connected.
  - intros s1 s2 _ H12 IH Hr. eapply step_inv; [done| |by eapply step_range].
    apply IH. by eapply step_range.
Qed.

(** ** Recovery *)

Lemma frame_block_frame i p : frame_block i p = command_add_frame (seq_byte i) p.
Proof.
  unfold frame_block, command_add_frame. rewrite dest_lor, msgblock_crc_eq.
  replace (msg_len p + MESSAGE_HEADER_SIZE + MESSAGE_TRAILER_SIZE)
    with (MESSAGE_HEADER_SIZE + Z.of_nat (length p) + MESSAGE_TRAILER_SIZE) by (unfold msg_len; lia).
  set (c := crc16_ccitt _). assert (0 <= c < 65536) as Hc by (apply crc_range; lia).
  destruct (halves c Hc) as [Hh Hl]. f_equal. f_equal; [|f_equal].
  - word_lia.
  - rewrite land_255. done.
Qed.

Lemma valid_seq_byte i : valid_seq (seq_byte i).
Proof. unfold valid_seq, seq_byte. word_lia. Qed.

(** The firmware looks at what the line carries, item by item; the result are
    the blocks it accepts. *)
Fixpoint receive_all (l : list (list Z)) (w : world) : list (list Z) * world :=
  match l with
  | [] => ([], w)
  | b :: l =>
      match command_find_block b w with
      | Ok (r, _) w' =>
          let '(d, w'') := receive_all l w' in (if r =? 1 then b :: d else d, w'')
      | _ => ([], w)
      end
  end.

(** The first byte of a retransmission ends the search for a block start. *)
Lemma receive_sync w : exists r pop w', command_find_block [MESSAGE_SYNC] w = Ok (r, pop) w' /\
  r <> 1 /\ next_sequence w' = next_sequence w /\ flag (sync_state w') CF_NEED_SYNC = false.
Proof.
  assert (command_find_block [MESSAGE_SYNC] w =
    if flag (sync_state w) CF_NEED_SYNC then find_need_sync [MESSAGE_SYNC] w else Ok (0, 0) w) as ->.
  { unfold command_find_block. munfold.
    change (0 <? Z.of_nat (length [MESSAGE_SYNC])) with true. cbn [andb].
    by destruct (flag (sync_state w) CF_NEED_SYNC). }
  destruct (flag (sync_state w) CF_NEED_SYNC) eqn:Hf; [|by exists 0, 0, w].
  unfold find_need_sync. munfold. cbn.
  assert (forall x, flag (Z.lor (Z.land x (not8 CF_NEED_SYNC)) CF_NEED_VALID) CF_NEED_SYNC = false /\
                    flag (Z.land x (not8 CF_NEED_SYNC)) CF_NEED_SYNC = false) as Hfl.
  { intros x. rewrite flag_lor. unfold flag at 1 3. rewrite <- Z.land_assoc.
    change (Z.land (not8 CF_NEED_SYNC) CF_NEED_SYNC) with 0. by rewrite Z.land_0_r. }
  match goal with |- context [flag ?x CF_NEED_VALID] => destruct (flag x CF_NEED_VALID) end.
  - eexists _, _, _. split; [done|]. split_and!; [done..|]. cbn. apply Hfl.
  - unfold find_nak. edestruct (command_sendf_run encode_acknak) as (w' & E & E2 & E3). rewrite E.
    eexists _, _, w'. split; [done|]. split_and!; [done|by rewrite E2|]. rewrite E3. cbn. apply Hfl.
Qed.

(** The firmware expects the block [E]: it refuses the blocks before it and
    accepts the others. *)
Lemma receive_blocks bs : forall i E w, numbered i bs ->
  i <= E <= i + Z.of_nat (length bs) -> (length bs <= 12)%nat ->
  flag (sync_state w) CF_NEED_SYNC = false -> next_sequence w = seq_byte E ->
  exists w', receive_all bs w = (drop (Z.to_nat (E - i)) bs, w') /\
    next_sequence w' = seq_byte (i + Z.of_nat (length bs)).
Proof.
  induction bs as [|b bs IH]; intros i E w Hn HE Hl Hs Hq; simpl in HE, Hl.
  - exists w. rewrite drop_nil. split; [done|]. rewrite Hq. f_equal. simpl. lia.
  - destruct Hn as [(p & -> & Hp) Hn]. cbn [receive_all]. rewrite frame_block_frame.
    rewrite <- (app_nil_r (command_add_frame _ p)).
    pose proof (valid_seq_byte i) as Hv.
    assert (Z.of_nat (length p) <= MESSAGE_PAYLOAD_MAX) as Hp' 
      by (change MESSAGE_PAYLOAD_MAX with 59; lia).
    destruct (Z.eq_dec E i) as [->|Hne].
    + rewrite find_block_frame by done.
      match goal with |- context [receive_all bs ?x] => set (w1 := x) end.
      destruct (IH (i + 1) (i + 1) w1) as (w' & E1 & E2); [done|lia|lia| | |].
      * unfold w1. cbn. by rewrite flag_need_sync.
      * unfold w1. cbn. rewrite Z.lor_comm, dest_lor. unfold seq_byte. word_lia.
      * rewrite E1. exists w'. rewrite !Z.sub_diag. cbn. rewrite app_nil_r. split; [done|].
        rewrite E2. f_equal. lia.
    + destruct (find_block_nak (seq_byte i) p [] Hv Hp' w Hs) as (w1 & E1 & N1 & F1).
      { rewrite Hq. intros Heq. apply seq_byte_eq in Heq; lia. }
      rewrite E1. destruct (IH (i + 1) E w1) as (w' & E2 & N2); [done|lia|lia|done|congruence|].
      rewrite E2. exists w'. cbn.
      replace (Z.to_nat (E - i)) with (S (Z.to_nat (E - (i + 1)))) by lia. split; [done|].
      rewrite N2. f_equal. lia.
Qed.

(** ** Theorems *)

(** C1: Exactly-once delivery in order.  However the host's threads, the
    firmware and the losses on both lines interleave, the blocks the firmware
    accepts are the blocks the host built, each once and in the order in which
    they were built; every block that counts as acknowledged was accepted; the
    sent queue holds exactly the other blocks, never more than twelve. *)
Theorem exactly_once_delivery R s0 s :
  connected R s0 -> rtc step s0 s -> in_range R s ->
  delivered s `prefix_of` built s /\
  take (Z.to_nat (sq_receive_seq (host s) - R)) (built s) `prefix_of` delivered s /\
  map sm_msg (sq_sent_queue (host s)) = drop (Z.to_nat (sq_receive_seq (host s) - R)) (built s) /\
  (length (sq_sent_queue (host s)) <= 12)%nat.
Proof.
  intros Hc Hs Hr. pose proof (reachable_inv R s0 s Hc Hs Hr) as I.
  pose proof (inv_sent_length R s I) as Hl. destruct I. split_and!; [| |done|lia].
  - rewrite inv_delivered0. apply prefix_take.
  - rewrite inv_delivered0. set (k := Z.to_nat _).
    replace (take k (built s)) with (take k (take (length (delivered s)) (built s)));
      [apply prefix_take|]. rewrite take_take. f_equal. unfold expected in *. lia.
Qed.

(** C7: Recovery.  In every reachable state one undisturbed retransmission is
    enough: the firmware, whatever the state of its search for blocks, refuses
    the blocks it already has and accepts all the others, and the
    acknowledgement it then sends lets the host drop everything it kept. *)
Theorem retransmit_recovers R s0 s t t' :
  connected R s0 -> rtc step s0 s -> in_range R s ->
  exists w', receive_all (retransmit_items (host s)) (mcu s)
             = (drop (length (delivered s)) (built s), w') /\
    proto (handle_message t' (command_add_frame (next_sequence w') [])
             (retransmit_event t (host s)).2).2 = (next_block R s, next_block R s, []).
Proof.
  intros Hc Hs Hr. pose proof (reachable_inv R s0 s Hc Hs Hr) as I.
  pose proof (inv_sent_length R s I) as Hl. pose proof (inv_window R s I Hr) as Hw. pose proof I as [].
  destruct (receive_sync (mcu s)) as (r & pop & w1 & E1 & Hr1 & N1 & F1).
  assert (length (map sm_msg (sq_sent_queue (host s))) <= 12)%nat as H12
    by (rewrite length_map; lia).
  destruct (receive_blocks (map sm_msg (sq_sent_queue (host s))) (sq_receive_seq (host s))
              (expected R s) w1) as (w' & E2 & N2); [|rewrite length_map; lia|done|done|congruence|].
  { rewrite inv_sent0. replace (sq_receive_seq (host s))
      with (R + Z.of_nat (length (take (Z.to_nat (sq_receive_seq (host s) - R)) (built s)))) at 1.
    - eapply numbered_app. by rewrite take_drop.
    - rewrite length_take. unfold expected, next_block in *. lia. }
  exists w'. split.
  - unfold retransmit_items. cbn [receive_all]. rewrite E1, E2. apply Z.eqb_neq in Hr1. rewrite Hr1.
    rewrite inv_sent0, drop_drop. f_equal. f_equal. unfold expected in *. lia.
  - pose proof (retransmit_ok t (host s)) as Hp. set (sq' := (retransmit_event t (host s)).2) in *.
    clearbody sq'. pose proof (in_window_proto _ _ Hp Hw) as Hw'.
    unfold proto in Hp. injection Hp as P1 P2 P3.
    assert (length (sq_sent_queue sq') = length (sq_sent_queue (host s))) as P4
      by (rewrite <- (length_map sm_msg), P3; apply length_map).
    rewrite length_map in N2.
    rewrite (handle_message_ok t' _ (sq_send_seq (host s))).
    + rewrite P1, inv_send0, P3, drop_ge; [done|]. rewrite length_map. lia.
    + done.
    + lia.
    + lia.
    + rewrite N2, Hl. done.
    + lia.
Qed.

Lemma blocks_length i bs : numbered i bs -> (length (concat bs) <= 64 * length bs)%nat.
Proof.
  revert i. induction bs as [|b bs IH]; intros i; [done|]. intros [(p & -> & Hp) Hn].
  apply IH in Hn. simpl. rewrite length_app. unfold frame_block. simpl. rewrite length_app. simpl. lia.
Qed.

(** C32: The buffers on the stack of [retransmit_event] and [command_event] are
    large enough for everything they copy into them. *)
Theorem write_buffers_bound R s0 s t :
  connected R s0 -> rtc step s0 s -> in_range R s -> proper_time t ->
  (Z.of_nat (length (concat (retransmit_items (host s)))) <= MESSAGE_MAX * MAX_PENDING_BLOCKS + 1) /\
  (forall buf wake sq', command_loop command_fuel [] t (host s) = Some (buf, wake, sq') ->
   Z.of_nat (length buf) <= MESSAGE_MAX * MAX_PENDING_BLOCKS).
Proof.
  intros Hc Hs Hr Ht. pose proof (reachable_inv R s0 s Hc Hs Hr) as I.
  pose proof (inv_sent_length R s I) as Hl. pose proof (inv_window R s I Hr) as Hw. pose proof I as [].
  change (MESSAGE_MAX * MAX_PENDING_BLOCKS) with 768. split.
  - unfold retransmit_items. cbn [concat app length].
    assert (numbered (R + Z.of_nat (length (take (Z.to_nat (sq_receive_seq (host s) - R)) (built s))))
              (map sm_msg (sq_sent_queue (host s)))) as Hn%blocks_length.
    { rewrite inv_sent0. eapply numbered_app. by rewrite take_drop. }
    rewrite length_map in Hn. lia.
  - intros buf wake sq' E. destruct (command_loop_ok t Ht _ _ _ _ _ _ E Hw) as (bs & -> & Hn & Hp & (? & Hw' & _)).
    apply blocks_length in Hn. unfold proto in Hp. injection Hp as P1 P2 _.
    unfold MAX_PENDING_BLOCKS in *. simpl. lia.
Qed.
End Delivery.

(** ** A connection

    The firmware answers the first block of a new connection with the number
    it expects; then the host sends one command and gets its
    acknowledgement. *)
Definition sample_host : Host :=
  {| monotonic n := f64 (Z.of_nat n); can_write_ok _ := true |}.

Definition sample_mcu : world :=
  mkWorld ∅ TPeriodic TPeriodic 0 0 0 "" [] 0 0x10 0 false 0 None None 0 0 ∅ None 0 0
    0 0 0 0 0 ∅ 0 0 0 [] [] canbus_data_zero usb_cdc_zero
         usbcan_data_zero 0.

Definition sample_connected : serialqueue :=
  (handle_message (H := sample_host) (f64 1) (command_add_frame 0x10 [])
     (serialqueue_alloc SQT_UART 0)).2.

Definition sample_queued : serialqueue :=
  serialqueue_send 1 [4; 9] 0 0 0 (serialqueue_alloc_commandqueue 1 sample_connected).

Definition sample_written : serialqueue :=
  match command_event (H := sample_host) (f64 2) sample_queued with
  | Some (_, sq) => sq
  | None => sample_queued
  end.

Definition sample_system (sq : serialqueue) : system := mkSystem sq sample_mcu [] [] [] [].

Definition sample_transmitted : system :=
  mkSystem sample_written sample_mcu [frame_block 16 [4; 9]] [] [frame_block 16 [4; 9]] [].

Lemma sample_start_connected : connected 16 (sample_system sample_connected).
Proof. unfold connected. split_and!; vm_compute; (reflexivity || discriminate). Qed.

Lemma sample_run : rtc (step (H := sample_host)) (sample_system sample_connected) sample_transmitted.
Proof.
  eapply rtc_l; [apply step_call, (call_alloc_commandqueue 1); vm_compute; reflexivity|].
  eapply rtc_l; [apply step_call, (call_send_batch 1 [mkQM [4; 9] 0 0 0])|].
  { repeat constructor; vm_compute; congruence. }
  eapply rtc_l; [apply (step_command (H := sample_host) (f64 2) PR_NOW sample_written)|].
  - vm_compute. reflexivity.
  - vm_compute. reflexivity.
  - match goal with |- rtc _ ?x _ => replace x with sample_transmitted by (vm_compute; reflexivity) end.
    apply rtc_refl.
Qed.

Lemma sample_in_range : in_range 16 sample_transmitted.
Proof. vm_compute. reflexivity. Qed.

Lemma exactly_once_delivery_witness :
  delivered sample_transmitted `prefix_of` built sample_transmitted /\
  length (sq_sent_queue (host sample_transmitted)) = 1%nat.
Proof.
  destruct (exactly_once_delivery (H := sample_host) 16 _ sample_transmitted
    sample_start_connected sample_run sample_in_range) as (Hp & _ & _ & _).
  split; [exact Hp|vm_compute; reflexivity].
Defined.

Lemma retransmit_recovers_witness :
  exists w', receive_all (retransmit_items (host sample_transmitted)) sample_mcu
             = ([frame_block 16 [4; 9]], w').
Proof.
  destruct (retransmit_recovers (H := sample_host) 16 _ sample_transmitted (f64 3) (f64 4)
    sample_start_connected sample_run sample_in_range) as (w' & E & _).
  exists w'. exact E.
Defined.

Lemma write_buffers_bound_witness :
  Z.of_nat (length (concat (retransmit_items (host sample_transmitted)))) <=
    MESSAGE_MAX * MAX_PENDING_BLOCKS + 1.
Proof.
  destruct (write_buffers_bound (H := sample_host) 16 _ sample_transmitted (f64 3)
    sample_start_connected sample_run sample_in_range) as [Hb _].
  - vm_compute. reflexivity.
  - exact Hb.
Defined.
