(* ===== verification/DispatchProps.v ===== *)
(** * End to end: commands from the host, responses to the host

    Composition of the host's encoder, the frame, the firmware's scanner and
    its dispatcher. *)
From S2P Require Import Prelude Protocol ProtocolFacts Msgblock World Sched Command BaseCmd ProtocolProps Firmware Sample.

(** ** Parameters *)

Definition int_type (t : param_type) : bool :=
  match t with PT_uint32 | PT_int32 | PT_uint16 | PT_int16 | PT_byte => true | _ => false end.

(** The encoding of a list of integers. *)
Definition encode_ints (l : list Z) : list Z := l ≫= encode_int.

Lemma encode_ints_cons v l : encode_ints (v :: l) = encode_int v ++ encode_ints l.
Proof. done. Qed.

Lemma host_encode_loop l : forall out,
  Msgblock.encode_loop l out =
  if Z.of_nat (length (out ++ encode_ints l)) <=? MESSAGE_PAYLOAD_MAX then Some (out ++ encode_ints l)
  else if bool_decide (l = []) then Some out else None.
Proof.
  induction l as [|v l IH]; intros out.
  - unfold encode_ints. simpl. rewrite app_nil_r. by case_match.
  - cbn [Msgblock.encode_loop]. rewrite IH, encode_ints_cons, app_assoc.
    rewrite (bool_decide_false (v :: l = [])) by done.
    destruct (Z.ltb_spec MESSAGE_PAYLOAD_MAX (Z.of_nat (length (out ++ encode_int v)))) as [Hl|Hl].
    + rewrite (proj2 (Z.leb_gt _ _)); [done|]. rewrite length_app. lia.
    + destruct (Z.leb_spec (Z.of_nat (length ((out ++ encode_int v) ++ encode_ints l)))
        MESSAGE_PAYLOAD_MAX) as [E|E]; [done|].
      destruct l; [|done]. unfold encode_ints in E. simpl in E. rewrite app_nil_r in E. lia.
Qed.

Lemma parsef_ints buf q rest args : forall pts,
  (length rest <= length q)%nat -> Forall is_u32 args -> forallb int_type pts = true -> length pts = length args ->
  command_parsef buf (encode_ints args ++ q) rest pts = POk (q, args).
Proof.
  induction args as [|v args IH]; intros [|t pts] Hq Ha Ht Hl; try done.
  apply Forall_cons in Ha as [Hv Ha]. simpl in Ht. apply andb_true_iff in Ht as [Ht Hts].
  cbn [command_parsef]. rewrite (proj2 (Nat.ltb_ge _ _)) by (rewrite length_app; lia).
  rewrite encode_ints_cons, <- app_assoc, encode_parse_int by done.
  rewrite IH by (done || by injection Hl). by destruct t.
Qed.

(** ** Dispatching a block *)

(** A command as the host sends it: encoded id and arguments. *)
Definition enc_cmd (c : Z * list Z) : list Z := encode_msgid c.1 ++ encode_ints c.2.

Section Dispatch.
Context (command_index : list command_parser) (irq_poll : M unit).

(** The table has an entry for the command, with integer parameters only. *)
Definition known (c : Z * list Z) (cp : command_parser) : Prop :=
  0 < c.1 < 0x3fe0 /\ command_index !! Z.to_nat c.1 = Some cp /\
  forallb int_type (cp_param_types cp) = true /\ length (cp_param_types cp) = length c.2 /\
  Forall is_u32 c.2.

(** What running one command means: outside of shutdown, or if it is allowed
    in shutdown, its handler runs; otherwise the shutdown is reported. *)
Definition run_cmd (cp : command_parser) (args : list Z) : M unit :=
  shut ← sched_is_shutdown;
  if (shut : bool) && negb (cp_in_shutdown cp) then sched_report_shutdown
  else irq_poll ;; cp_func cp args.

Fixpoint run_cmds (l : list (command_parser * list Z)) : M unit :=
  match l with
  | [] => mret tt
  | (cp, args) :: l => run_cmd cp args ;; run_cmds l
  end.

Lemma encode_msgid_nonempty e : (1 <= length (encode_msgid e))%nat.
Proof. unfold encode_msgid. case_match; simpl; lia. Qed.

Lemma enc_cmds_length cs : (length cs <= length (cs ≫= enc_cmd))%nat.
Proof.
  induction cs as [|[e args] cs IH]; [done|].
  change (((e, args) :: cs) ≫= enc_cmd) with ((encode_msgid e ++ encode_ints args) ++ (cs ≫= enc_cmd)).
  rewrite !length_app. pose proof (encode_msgid_nonempty e). rewrite length_cons. lia.
Qed.

Lemma dispatch_loop_ok buf rest cs : forall cps fuel w,
  Forall2 known cs cps -> (length cs <= fuel)%nat ->
  dispatch_loop command_index irq_poll fuel buf ((cs ≫= enc_cmd) ++ rest) rest w =
  run_cmds (zip cps (snd <$> cs)) w.
Proof.
  induction cs as [|[e args] cs IH]; intros cps fuel w Hk Hf.
  - apply Forall2_nil_inv_l in Hk as ->. simpl.
    destruct fuel; simpl; by rewrite (proj2 (Nat.leb_le _ _)).
  - apply Forall2_cons_inv_l in Hk as (cp & cps' & Hcp & Hk & ->).
    destruct fuel as [|fuel]; [simpl in Hf; lia|]. destruct Hcp as (He & Hi & Ht & Hl & Ha). simpl in He, Hi, Hl, Ha.
    cbn [dispatch_loop mbind list_bind].
    change (enc_cmd (e, args)) with (encode_msgid e ++ encode_ints args).
    pose proof (encode_msgid_nonempty e).
    rewrite (proj2 (Nat.leb_gt _ _)) by (rewrite !length_app; lia).
    rewrite <- !app_assoc, parse_encode_msgid by lia.
    unfold mbind at 1, M_bind at 1, deref at 1, mret at 1, M_ret at 1.
    unfold command_lookup_parser.
    rewrite (proj2 (Z.eqb_neq e 0)), (proj2 (Z.leb_gt _ e)); [|apply lookup_lt_Some in Hi; lia|lia].
    cbn [orb]. rewrite Hi. unfold mbind at 1, M_bind at 1, deref, mret at 1, M_ret at 1.
    rewrite parsef_ints by (done || rewrite length_app; lia). cbn [of_presult].
    unfold mbind at 1, M_bind at 1, mret at 1, M_ret at 1.
    cbn [zip_with fmap list_fmap run_cmds snd]. unfold run_cmd, sched_is_shutdown. munfold.
    assert (forall w, dispatch_loop command_index irq_poll fuel buf ((cs ≫= enc_cmd) ++ rest) rest w =
      run_cmds (zip cps' (snd <$> cs)) w) as IH'.
    { intros. apply IH; [done|]. simpl in Hf. lia. }
    case_match.
    + destruct (sched_report_shutdown w); [apply IH'|done..].
    + destruct (irq_poll w) as [a w1|r w1|]; [|done..].
      destruct (cp_func cp args w1) as [a2 w2|r2 w2|]; [apply IH'|done..].
Qed.

(** C26: A block from the host runs exactly its commands.  For a block whose
    payload is a sequence of commands with known ids and integer arguments,
    carrying the expected sequence number, [command_find_and_dispatch]
    decodes every command, runs the handlers in order with the arguments the
    host encoded (commands not allowed in shutdown are answered with the
    shutdown report instead), advances the sequence number, and
    acknowledges the block. *)
Theorem host_block_dispatched seq cs cps rest w :
  Forall2 known cs cps ->
  valid_seq seq -> Z.of_nat (length (cs ≫= enc_cmd)) <= MESSAGE_PAYLOAD_MAX ->
  flag (sync_state w) CF_NEED_SYNC = false -> next_sequence w = seq ->
  command_find_and_dispatch command_index irq_poll
    (command_add_frame seq (cs ≫= enc_cmd) ++ rest) w =
  (run_cmds (zip cps (snd <$> cs)) ;; command_send_ack ;;
   mret (1, 5 + Z.of_nat (length (cs ≫= enc_cmd))))
    (w <| sync_state ::= fun s => Z.land s (not8 CF_NEED_VALID) |>
       <| next_sequence := Z.lor (Z.land (seq + 1) MESSAGE_SEQ_MASK) MESSAGE_DEST |>).
Proof.
  intros Hk Hs Hl Hy Hn. unfold command_find_and_dispatch, mbind at 1, M_bind at 1.
  rewrite (find_block_frame seq (cs ≫= enc_cmd) rest Hs Hl w Hy Hn).
  set (w1 := upd next_sequence _ _). set (n := 5 + _). cbn [Z.ltb Z.compare].
  assert (forall w, command_dispatch command_index irq_poll
    (command_add_frame seq (cs ≫= enc_cmd) ++ rest) n w = run_cmds (zip cps (snd <$> cs)) w) as Hd.
  { intros w0. unfold command_dispatch.
    rewrite (frame_eq seq (cs ≫= enc_cmd) rest Hl). fold n. set (l2 := u8 (Z.shiftr _ 8)). set (l1 := u8 _).
    set (tl := l2 :: l1 :: MESSAGE_SYNC :: rest).
    replace (drop (Z.to_nat (n - MESSAGE_TRAILER_SIZE)) ((n :: seq :: (cs ≫= enc_cmd)) ++ tl)) with tl.
    2: { symmetry. replace (Z.to_nat (n - MESSAGE_TRAILER_SIZE)) with (length (n :: seq :: (cs ≫= enc_cmd))).
         - by rewrite drop_app_length.
         - simpl. subst n. unfold MESSAGE_TRAILER_SIZE. lia. }
    change (drop (Z.to_nat MESSAGE_HEADER_SIZE) ((n :: seq :: (cs ≫= enc_cmd)) ++ tl))
      with ((cs ≫= enc_cmd) ++ tl).
    apply dispatch_loop_ok; [done|].
    pose proof (enc_cmds_length cs). subst n. lia. }
  unfold mbind, M_bind. rewrite Hd. destruct (run_cmds _ w1); [|done..].
  by destruct (command_send_ack _).
Qed.
End Dispatch.

(** A table with [identify] as command 1 and [get_config] as command 2. *)
Definition sample_index : list command_parser :=
  [mkParser 0 false [] (fun _ => mret tt);
   mkParser 2 true [PT_uint32; PT_byte] (@command_identify sample_board);
   mkParser 0 true [] command_get_config].

Lemma host_block_dispatched_witness :
  exists w', command_find_and_dispatch sample_index (mret tt)
    (command_add_frame 0x10 ([(1, [2; 40]); (2, [])] ≫= enc_cmd) ++ [0]) initial_world
    = Ok (1, 9) w' /\
  sent w' = [encode_acknak;
             mkMsg "config is_config=%c crc=%u is_shutdown=%c move_count=%hu"
               [AInt 0; AInt 0; AInt 0; AInt 0];
             mkMsg "identify_response offset=%u data=%.*s" [AInt 2; ABytes [1; 2; 3; 4; 5]]].
Proof.
  rewrite (host_block_dispatched sample_index (mret tt) 0x10 [(1, [2; 40]); (2, [])]
    (drop 1 sample_index) [0] initial_world).
  - eexists. split; vm_compute; reflexivity.
  - repeat (apply Forall2_cons; split); [| |apply Forall2_nil; exact I];
      (split; [simpl; lia|split; [reflexivity|split; [reflexivity|split; [reflexivity|]]]]).
    + repeat (apply Forall_cons; split); [simpl; unfold is_u32; lia..|]. apply Forall_nil. exact I.
    + apply Forall_nil. exact I.
  - unfold valid_seq. lia.
  - vm_compute. discriminate.
  - vm_compute. reflexivity.
  - vm_compute. reflexivity.
Defined.

(** The host encodes a command as the firmware expects it: its id number
    and arguments become the encoded id followed by the arguments; a command
    that does not fit in a block becomes an empty message. *)
Theorem host_command_encoded e v args :
  0 <= e < 0x3fe0 -> parse_int (encode_msgid e) = Some (v, []) ->
  Msgblock.qm_msg (Msgblock.message_alloc_and_encode (v :: args)) =
  if Z.of_nat (length (enc_cmd (e, args))) <=? MESSAGE_PAYLOAD_MAX then enc_cmd (e, args) else [].
Proof.
  intros He Hp. unfold Msgblock.message_alloc_and_encode. rewrite host_encode_loop.
  assert (encode_int v = encode_msgid e) as Hv.
  { pose proof (msgid_table e He) as Hk. unfold msgid_ok in Hk. rewrite Hp in Hk.
    rewrite !andb_true_iff, bool_decide_eq_true in Hk. tauto. }
  rewrite encode_ints_cons, Hv. simpl app.
  change (encode_msgid e ++ encode_ints args) with (enc_cmd (e, args)).
  rewrite bool_decide_false by done. by destruct (_ <=? MESSAGE_PAYLOAD_MAX).
Qed.

Lemma host_command_encoded_witness :
  Msgblock.qm_msg (Msgblock.message_alloc_and_encode [0xffffffee; 300; 7]) = [110; 0x82; 0x2c; 7].
Proof.
  rewrite (host_command_encoded 110 0xffffffee [300; 7]);
    [vm_compute; reflexivity|lia|vm_compute; reflexivity].
Defined.

(** ** Responses *)

Lemma encode_params_ints maxend vs : forall pts out,
  forallb int_type pts = true -> length pts = length vs -> Forall is_u32 vs ->
  Z.of_nat (length (out ++ encode_ints vs)) <= maxend ->
  encode_params maxend pts (VInt <$> vs) out = POk (out ++ encode_ints vs).
Proof.
  induction vs as [|v vs IH]; intros [|t pts] out Ht Hl Hv Hm; try done.
  - simpl. unfold encode_ints. simpl. by rewrite app_nil_r.
  - simpl in Ht. apply andb_true_iff in Ht as [Ht Hts]. apply Forall_cons in Hv as [Hv Hvs].
    rewrite encode_ints_cons, app_assoc in *. injection Hl as Hl.
    cbn [encode_params fmap list_fmap]. rewrite (proj2 (Z.ltb_ge _ _)).
    2: { rewrite !length_app in Hm. lia. }
    rewrite u32_id by done. rewrite <- (IH pts) by done. by destruct t.
Qed.

Lemma decode_loop_ints vs endp : Forall is_u32 vs ->
  Msgblock.decode_loop (length vs) (encode_ints vs ++ endp) endp = Some vs.
Proof.
  induction vs as [|v vs IH]; intros Hv; [simpl; by rewrite Nat.eqb_refl|].
  cbn [length Msgblock.decode_loop]. apply Forall_cons in Hv as [Hv Hvs]. pose proof (encode_int_length v).
  rewrite encode_ints_cons, <- app_assoc.
  rewrite (proj2 (Nat.leb_gt _ _)) by (rewrite length_app, length_app; lia).
  rewrite encode_parse_int by done. by rewrite IH.
Qed.

(** C35: Responses reach the host unchanged.  A response with integer
    parameters that fits its encoder's maximum size is encoded without error,
    its frame passes the host's check, and decoding it yields the host's
    number of the message id followed by the parameters. *)
Theorem response_roundtrip seq ce vs v :
  valid_seq seq -> 0 <= ce_encoded_msgid ce < 2 ^ 14 ->
  parse_int (encode_msgid (ce_encoded_msgid ce)) = Some (v, []) ->
  encode_int v = encode_msgid (ce_encoded_msgid ce) -> is_u32 v ->
  MESSAGE_MIN < ce_max_size ce <= MESSAGE_MAX ->
  forallb int_type (ce_param_types ce) = true -> length (ce_param_types ce) = length vs ->
  Forall is_u32 vs ->
  Z.of_nat (length (enc_cmd (ce_encoded_msgid ce, vs))) <= ce_max_size ce - MESSAGE_MIN ->
  exists msg, command_encode_and_frame seq ce (VInt <$> vs) = POk msg /\
    Msgblock.msgblock_check false msg = (false, Z.of_nat (length msg)) /\
    Z.of_nat (length msg) <= ce_max_size ce /\
    Msgblock.msgblock_decode (S (length vs)) msg = Some (v :: vs).
Proof.
  intros Hs He Hp Hv Hu Hm Ht Hl Hvs Hlen. set (e := ce_encoded_msgid ce) in *.
  unfold command_encode_and_frame, command_encodef.
  rewrite (proj2 (Z.leb_gt _ _)) by lia. fold e. rewrite encode_params_ints by done.
  change (encode_msgid e ++ encode_ints vs) with (enc_cmd (e, vs)).
  eexists. split; [done|]. set (msg := command_add_frame seq _).
  assert (Z.of_nat (length (enc_cmd (e, vs))) <= MESSAGE_PAYLOAD_MAX) as Hpm.
  { unfold MESSAGE_PAYLOAD_MAX. lia. }
  pose proof (frame_length seq (enc_cmd (e, vs)) [] Hpm) as Hfl.
  pose proof (msgblock_check_frame seq (enc_cmd (e, vs)) [] Hs Hpm) as Hc.
  pose proof (frame_eq seq (enc_cmd (e, vs)) [] Hpm) as Hf.
  rewrite !app_nil_r in *. fold msg in Hfl, Hc, Hf.
  rewrite Z.add_0_r in Hfl. split_and!; [by rewrite Hc, Hfl| |].
  { unfold MESSAGE_MIN in *. lia. }
  unfold Msgblock.msgblock_decode. rewrite Hf. set (l2 := u8 (Z.shiftr _ 8)). set (l1 := u8 _).
  set (tl := [l2; l1; MESSAGE_SYNC]). rewrite length_app. simpl (length tl).
  rewrite Nat.add_sub, drop_app_length. simpl (drop 2 _).
  change (S (length vs)) with (length (v :: vs)).
  replace (enc_cmd (e, vs)) with (encode_ints (v :: vs)).
  - apply decode_loop_ints. by constructor.
  - rewrite encode_ints_cons, Hv. done.
Qed.

Lemma response_roundtrip_witness :
  exists msg, command_encode_and_frame 0x15 (mkEncoder 9 12 [PT_byte; PT_uint32]) [VInt 3; VInt 70000]
    = POk msg /\ Msgblock.msgblock_decode 3 msg = Some [9; 3; 70000].
Proof.
  destruct (response_roundtrip 0x15 (mkEncoder 9 12 [PT_byte; PT_uint32]) [3; 70000] 9)
    as (msg & E & _ & _ & Hd).
  - unfold valid_seq. lia.
  - simpl. lia.
  - vm_compute. reflexivity.
  - vm_compute. reflexivity.
  - unfold is_u32. lia.
  - simpl. unfold MESSAGE_MIN, MESSAGE_MAX. lia.
  - reflexivity.
  - reflexivity.
  - repeat (apply Forall_cons; split); [unfold is_u32; lia..|]. apply Forall_nil. exact I.
  - vm_compute. discriminate.
  - exists msg. split; assumption.
Defined.
