(* ===== verification/TrdispatchProps.v ===== *)
(** * Propagation of triggers: src/klippy/chelper/trdispatch.c

    When one micro-controller of a homing move reports a trigger, the trigger
    is sent to all of them, once. *)
From stdpp Require Import gmap list.
From S2P Require Import Prelude Double Protocol ProtocolFacts Msgblock Serialqueue Trdispatch World SerialFacts ProtocolProps DispatchProps.
Import Msgblock.

(** The messages that wait on the command queue [c] of the serial queue [q]. *)
Definition upcoming (sqs : queues) (q c : Z) : list queue_message :=
  match sqs !! q with Some sq => cq_upcoming (get_cq sq c) | None => [] end.

(** A batch that is not empty is appended to its queue. *)
Lemma send_batch_upcoming c msgs sq c' : total_len (map raise_min_clock msgs) <> 0 ->
  cq_upcoming (get_cq (serialqueue_send_batch c msgs sq) c') =
    if decide (c' = c) then cq_upcoming (get_cq sq c) ++ map raise_min_clock msgs
    else cq_upcoming (get_cq sq c').
Proof.
  intros Hl. unfold serialqueue_send_batch. destruct msgs as [|m msgs]; [done|]. cbn [map] in *.
  apply Z.eqb_neq in Hl. rewrite Hl.
  set (st := match cq_upcoming (get_cq sq c) with [] => _ | _ => _ end).
  assert (forall x, get_cq st.2 x = get_cq sq x) as Hst.
  { intros x. unfold st. destruct (cq_upcoming _); [|done]. by repeat destruct (_ <? _). }
  destruct st as [mw sq1]. cbn [snd] in Hst.
  assert (forall s, get_cq (if mw then kick_bg_thread s else s) c' = get_cq s c') as -> by by destruct mw.
  change (get_cq (upd sq_tr ?f ?s) c') with (get_cq s c'). rewrite get_set_cq.
  destruct (decide (c' = c)) as [->|]; [done|]. by rewrite Hst.
Qed.

Lemma send_one_lookup m qm sqs q : is_Some (sqs !! q) <-> is_Some (send_one m qm sqs !! q).
Proof.
  unfold send_one. destruct (decide (q = tdm_sq m)) as [->|Hn].
  - rewrite lookup_alter_eq. by rewrite fmap_is_Some.
  - by rewrite lookup_alter_ne.
Qed.

Lemma trigger_message_ok reason m : exists out, trigger_message reason m = mkQM out 0 0 0 /\ out <> [].
Proof.
  unfold trigger_message, message_alloc_and_encode. rewrite host_encode_loop.
  set (l := [tdm_trigger_msgtag m; tdm_trsync_oid m; reason]).
  assert (3 <= length (encode_ints l) <= 15)%nat as Hl.
  { unfold l. rewrite !encode_ints_cons, !length_app.
    pose proof (encode_int_length (tdm_trigger_msgtag m)).
    pose proof (encode_int_length (tdm_trsync_oid m)). pose proof (encode_int_length reason).
    change (length (encode_ints [])) with 0%nat. lia. }
  clearbody l. change ([] ++ encode_ints l) with (encode_ints l).
  rewrite (proj2 (Z.leb_le (Z.of_nat (length (encode_ints l))) MESSAGE_PAYLOAD_MAX))
    by (change MESSAGE_PAYLOAD_MAX with 59; lia).
  eexists. split; [done|]. intros E. rewrite E in Hl. simpl in Hl. lia.
Qed.

(** One trigger message is appended to the queue of its micro-controller. *)
Lemma send_trigger_upcoming reason m sqs q c : is_Some (sqs !! tdm_sq m) ->
  upcoming (send_trsync_trigger reason m sqs) q c =
    upcoming sqs q c ++ (if decide (tdm_sq m = q /\ tdm_cq m = c) then [trigger_message reason m] else []).
Proof.
  intros [sq Hsq]. unfold send_trsync_trigger, upcoming, send_one.
  destruct (decide (tdm_sq m = q)) as [<-|Hq].
  2: { rewrite lookup_alter_ne by done. rewrite decide_False by tauto. by rewrite app_nil_r. }
  rewrite lookup_alter_eq, Hsq. cbn [fmap option_fmap option_map]. unfold serialqueue_send_one.
  destruct (trigger_message_ok reason m) as (out & -> & Ho).
  rewrite send_batch_upcoming.
  2: { change (total_len _) with (msg_len out + 0). unfold msg_len. destruct out; [done|]. simpl length. lia. }
  destruct (decide (c = tdm_cq m)) as [->|Hc].
  - by rewrite decide_True.
  - rewrite decide_False by naive_solver. by rewrite app_nil_r.
Qed.

(** The micro-controllers that use the command queue [c] of [q]. *)
Definition users (q c : Z) (ms : list trdispatch_mcu) : list trdispatch_mcu :=
  filter (fun m => tdm_sq m = q /\ tdm_cq m = c) ms.

Lemma send_all_upcoming reason q c ms : forall sqs, Forall (fun m => is_Some (sqs !! tdm_sq m)) ms ->
  upcoming (foldl (fun sqs m => send_trsync_trigger reason m sqs) sqs ms) q c =
    upcoming sqs q c ++ map (trigger_message reason) (users q c ms).
Proof.
  induction ms as [|m ms IH]; intros sqs Hm; [symmetry; apply app_nil_r|].
  apply Forall_cons in Hm as [Hm Hms]. cbn [foldl]. rewrite IH, send_trigger_upcoming by
    (done || (eapply Forall_impl; [exact Hms|]; intros x; apply send_one_lookup)).
  unfold users. rewrite filter_cons, <- app_assoc. f_equal. by case_decide.
Qed.

(** C27: A trigger reaches every micro-controller, once.  If a message from one
    micro-controller says that it can no longer trigger, a [trsync_trigger]
    command is appended to the command queue of every micro-controller, in the
    order of the list, and nothing else is queued; from then on no message
    changes anything. *)
Theorem trigger_propagated i data td sqs tdm tag reason clock :
  td_list td !! i = Some tdm -> td_can_trigger td = true ->
  msgblock_decode 5 data = Some [tag; tdm_trsync_oid tdm; 0; reason; clock] ->
  Forall (fun m => is_Some (sqs !! tdm_sq m)) (td_list td) ->
  exists td' sqs', handle_trsync_state i data td sqs = Some (td', sqs') /\
    (forall q c, upcoming sqs' q c =
       upcoming sqs q c ++ map (trigger_message (td_dispatch_reason td)) (users q c (td_list td))) /\
    forall j data', handle_trsync_state j data' td' sqs' = Some (td', sqs').
Proof.
  intros Hi Hc Hd Hm. unfold handle_trsync_state at 1. rewrite Hi, Hd, Z.eqb_refl, Hc. cbn [negb Z.eqb].
  eexists _, _. split; [done|]. split; [intros; by apply send_all_upcoming|].
  intros j data'. unfold handle_trsync_state. cbn [td_list td_can_trigger upd].
  repeat case_match; done.
Qed.


(** Two micro-controllers. *)
Definition sample_td : trdispatch :=
  (trdispatch_mcu_alloc 1 1 6 20 21 22 1 (trdispatch_mcu_alloc 0 1 5 20 21 22 0 trdispatch_alloc))
    <| td_can_trigger := true |> <| td_dispatch_reason := 3 |>.

Definition sample_queues : queues :=
  <[0 := serialqueue_alloc SQT_UART 0]> (<[1 := serialqueue_alloc SQT_UART 0]> ∅).

(** A [trsync_state] message of the first one that reports a trigger. *)
Definition sample_state : list Z := command_add_frame 0x10 (encode_ints [22; 5; 0; 1; 4000]).

Lemma trigger_propagated_witness :
  exists td' sqs', handle_trsync_state 0 sample_state sample_td sample_queues = Some (td', sqs') /\
    upcoming sqs' 1 1 = [mkQM [21; 6; 3] 0 0 0].
Proof.
  destruct (trigger_propagated 0 sample_state sample_td sample_queues
    (mkTDM (mkFR [22; 5] 0) 0 1 5 20 21 0 0 0 0 (mkCE 0 0 (f64 0) (f64 0))) 22 1 4000)
    as (td' & sqs' & E & Hu & _).
  - vm_compute. reflexivity.
  - reflexivity.
  - vm_compute. reflexivity.
  - repeat constructor; vm_compute; eexists; reflexivity.
  - exists td', sqs'. split; [exact E|]. rewrite (Hu 1 1). vm_compute. reflexivity.
Defined.

