(* ===== verification/BaseProps.v ===== *)
(** * Properties of the move queues, the allocator and the object table *)
From S2P Require Import Prelude Paths World Frames Sched Command BaseCmd Firmware Sample.

(** ** Chains of move nodes *)

Definition mnext (w : world) (p : Z) : option Z := mn_next (node w p).

(** The nodes [l] are linked in order from [p]. *)
Definition chain (w : world) (p : option Z) (l : list Z) : Prop :=
  p = head l /\ path (mnext w) l.

(** A move queue that holds the nodes [l]. *)
Definition queue (w : world) (mh : move_queue_head) (l : list Z) : Prop :=
  chain w (mq_first mh) l /\ (l <> [] -> mq_last mh = last l).

(** The nodes of [l] are the same in both states. *)
Definition same_nodes (w w' : world) (l : list Z) : Prop := forall x, x ∈ l -> node w' x = node w x.

Lemma node_upd w p x q :
  node (w <| nodes := <[p := x]> (nodes w) |>) q = if decide (p = q) then x else node w q.
Proof. unfold node. cbn. rewrite lookup_insert. by case_decide. Qed.

Lemma chain_same w w' p l : same_nodes w w' l -> chain w p l -> chain w' p l.
Proof.
  intros Hs [Hp Hl]. split; [done|]. eapply path_ext, Hl. intros x Hx. unfold mnext. by rewrite Hs.
Qed.

Lemma queue_same w w' mh l : same_nodes w w' l -> queue w mh l -> queue w' mh l.
Proof. intros Hs [Hc Hl]. split; [by eapply chain_same|done]. Qed.

(** The state after [m] was linked behind [p]. *)
Definition node_link (w : world) (p m : Z) : world :=
  w <| nodes := <[p := (node w p) <| mn_next := Some m |>]> (nodes w) |>.
Definition node_end (w : world) (m : Z) : world :=
  w <| nodes := <[m := (node w m) <| mn_next := None |>]> (nodes w) |>.

Lemma path_snoc {A} (nx nx' : A -> option A) (l : list A) p m :
  path nx (l ++ [p]) -> NoDup (l ++ [p]) -> m ∉ l ++ [p] ->
  nx' p = Some m -> nx' m = None -> (forall x, x ∈ l -> nx' x = nx x) ->
  path nx' (l ++ [p; m]).
Proof.
  intros Hp Hnd Hm Hpm Hmn Hx. apply path_app. apply path_app in Hp as [Hs _].
  split; [|simpl; by rewrite Hpm, Hmn]. by eapply seg_ext.
Qed.

Section Queue.
Context (w : world) (mh : move_queue_head) (q : list Z) (m : Z).
Hypothesis Hq : queue w mh q.
Hypothesis Hnd : NoDup q.
Hypothesis Hm : m ∉ q.

(** Pushing appends the node, and reports whether the queue was empty. *)
Lemma move_queue_push_ok :
  exists w' mh', move_queue_push m mh w = Ok (b2z (bool_decide (q = [])), mh') w' /\
    queue w' mh' (q ++ [m]) /\ mn_data (node w' m) = mn_data (node w m) /\
    (forall x, x ∈ q -> mn_data (node w' x) = mn_data (node w x)) /\
    (forall x, x ∉ m :: q -> node w' x = node w x) /\ w' = w <| nodes := nodes w' |>.
Proof.
  destruct Hq as [[Hf Hp] Hl]. unfold move_queue_push, mod_node. munfold. cbn.
  destruct (exists_last_or_nil q) as [->|(q0 & p & ->)].
  - simpl in Hf. rewrite Hf. exists (node_end w m), (mkMQ (Some m) (Some m)).
    split; [done|]. split_and!.
    + split; [|done]. split; [done|]. simpl. unfold mnext, node_end. rewrite node_upd.
      by rewrite decide_True.
    + unfold node_end. rewrite node_upd. by rewrite decide_True.
    + intros x Hx. by apply not_elem_of_nil in Hx.
    + intros x Hx. unfold node_end. rewrite node_upd. rewrite decide_False; [done|set_solver].
    + by destruct w.
  - rewrite bool_decide_false by (by destruct q0).
    assert (is_Some (mq_first mh)) as [f Ef] by (rewrite Hf; by destruct q0).
    rewrite Ef, Hl by (by destruct q0). rewrite last_snoc. cbn.
    assert (p <> m) as Hpm by (intros ->; apply Hm; set_solver).
    set (w' := node_link (node_end w m) p m).
    exists w', (mh <| mq_last := Some m |>). split; [done|].
    assert (forall x, node w' x = if decide (x = p) then (node w p) <| mn_next := Some m |>
      else if decide (x = m) then (node w m) <| mn_next := None |> else node w x) as Hn.
    { intros x. unfold w', node_link, node_end. rewrite !node_upd.
      repeat case_decide; subst; congruence. }
    split_and!.
    + rewrite <- app_assoc. split; [split|].
      * cbn. rewrite Hf. by destruct q0.
      * eapply path_snoc with (nx := mnext w); [done|done|done|..]; unfold mnext; [rewrite Hn..|].
        -- by rewrite decide_True.
        -- by rewrite decide_False, decide_True.
        -- intros x Hx. rewrite Hn. rewrite !decide_False; [done|set_solver|].
           apply NoDup_app in Hnd as (_ & Hd & _). intros ->. specialize (Hd p Hx). set_solver.
      * intros _. cbn. by rewrite (last_app q0 [p; m]).
    + rewrite Hn. by rewrite decide_False, decide_True.
    + intros x Hx. rewrite Hn. repeat case_decide; by subst.
    + intros x Hx. rewrite Hn. rewrite !decide_False; [done|set_solver..].
    + by destruct w.
Qed.
End Queue.

(** Popping takes the first node; the rest of the queue is unchanged. *)
Lemma move_queue_pop_ok w mh m q :
  queue w mh (m :: q) ->
  exists mh', move_queue_pop mh w = Ok (m, mh') w /\ queue w mh' q /\ mq_first mh' = head q.
Proof.
  intros [[Hf [Hn Hp]] Hl]. unfold move_queue_pop. rewrite Hf. munfold. cbn.
  unfold mnext in Hn. rewrite Hn. eexists. split; [done|]. split; [|done].
  split; [done|]. intros Hq. cbn. rewrite Hl by done. by destruct q.
Qed.

Lemma move_free_ok w m free :
  chain w (move_free_list w) free -> m ∉ free ->
  exists w', move_free m w = Ok tt w' /\ chain w' (move_free_list w') (m :: free) /\
    mn_data (node w' m) = mn_data (node w m) /\ (forall x, x <> m -> node w' x = node w x) /\
    w' = w <| nodes := nodes w' |> <| move_free_list := Some m |>.
Proof.
  intros [Hf Hp] Hm. unfold move_free, mod_node. munfold. cbn.
  set (w1 := w <| nodes := _ |>). exists (w1 <| move_free_list := Some m |>).
  assert (forall x, node (w1 <| move_free_list := Some m |>) x =
    if decide (m = x) then (node w m) <| mn_next := move_free_list w |> else node w x) as Hn.
  { intros x. change (node w1 x = if decide (m = x)
      then (node w m) <| mn_next := move_free_list w |> else node w x).
    unfold w1. apply node_upd. }
  split_and!; [done| | | |by destruct w].
  - split; [done|]. split.
    + unfold mnext. rewrite Hn. by rewrite decide_True.
    + eapply path_ext, Hp. intros x Hx. unfold mnext. rewrite Hn. rewrite decide_False; [done|].
      by intros ->.
  - rewrite Hn. by rewrite decide_True.
  - intros x Hx. rewrite Hn. by rewrite decide_False.
Qed.

Lemma move_alloc_ok w m free :
  chain w (move_free_list w) (m :: free) ->
  move_alloc w = Ok m (w <| move_free_list := head free |>) /\ chain w (head free) free.
Proof.
  intros [Hf [Hn Hp]]. unfold move_alloc, get_node. munfold. cbn. rewrite Hf. cbn.
  unfold mnext in Hn. by rewrite Hn.
Qed.

(** Queueing a move, as the command handlers do it. *)
Definition enqueue (d : move_data) (mh : move_queue_head) : M (Z * move_queue_head) :=
  mn ← move_alloc;
  mod_node mn (fun n => n <| mn_data := d |>) ;;
  move_queue_push mn mh.

(** Taking a move off a queue, as the event handlers do it. *)
Definition dequeue (mh : move_queue_head) : M (move_data * move_queue_head) :=
  '(mn, mh') ← move_queue_pop mh;
  n ← get_node mn;
  move_free mn ;;
  mret (mn_data n, mh').

(** Queueing a move is appending to a first-in first-out queue.  With the
    free nodes [free], the queue's nodes [q] and any nodes [others] in use
    elsewhere all distinct, a node is taken from the free list and becomes the
    last of the queue with the new data; the other nodes keep their place and
    contents.  With no free node the request is refused by a shutdown. *)
Theorem move_enqueue_correct w mh q free others d :
  chain w (move_free_list w) free -> queue w mh q -> NoDup (free ++ q ++ others) ->
  match free with
  | [] => enqueue d mh w = Shut "Move queue overflow" w
  | m :: free' => exists w' mh', enqueue d mh w = Ok (b2z (bool_decide (q = [])), mh') w' /\
      chain w' (move_free_list w') free' /\ queue w' mh' (q ++ [m]) /\
      mn_data (node w' m) = d /\ (forall x, x ∈ q -> mn_data (node w' x) = mn_data (node w x)) /\
      same_nodes w w' others
  end.
Proof.
  intros Hf Hq Hnd. destruct free as [|m free].
  { destruct Hf as [Hf _]. unfold enqueue, move_alloc. munfold. by rewrite Hf. }
  destruct (move_alloc_ok w m free Hf) as [Ha Hc].
  change ((m :: free) ++ q ++ others) with (m :: (free ++ q ++ others)) in Hnd.
  apply NoDup_cons in Hnd as [Hm Hnd]. apply NoDup_app in Hnd as (Hfr & Hd & Hnd).
  apply NoDup_app in Hnd as (Hndq & Hdq & Hndo).
  set (w1 := w <| move_free_list := head free |>).
  set (w2 := w1 <| nodes := <[m := (node w1 m) <| mn_data := d |>]> (nodes w1) |>).
  assert (forall x, node w2 x = if decide (m = x) then (node w m) <| mn_data := d |> else node w x) as Hn2
    by (intros x; unfold w2; by rewrite node_upd).
  assert (same_nodes w w2 (free ++ q ++ others)) as Hs2.
  { intros x Hx. rewrite Hn2. rewrite decide_False; [done|]. by intros ->. }
  assert (m ∉ q) as Hmq by set_solver.
  destruct (move_queue_push_ok w2 mh q m) as (w3 & mh' & Ep & Hq3 & Hd3 & Hdq3 & Hn3 & Ew3); [|done..|].
  { apply (queue_same w); [|done]. intros x Hx. apply Hs2. set_solver. }
  exists w3, mh'. split_and!.
  - unfold enqueue. rewrite (bind_ok _ _ _ _ _ Ha). exact Ep.
  - rewrite Ew3. cbn. apply (chain_same w); [|done]. intros x Hx.
    change (node w3 x = node w x). rewrite Hn3; [apply Hs2; set_solver|set_solver].
  - done.
  - rewrite Hd3, Hn2. by rewrite decide_True.
  - intros x Hx. rewrite Hdq3 by done. rewrite Hs2; [done|set_solver].
  - intros x Hx. rewrite Hn3; [apply Hs2; set_solver|]. set_solver.
Qed.

(** Taking a move off a queue yields the data of its oldest move and
    returns the node to the free list; the rest of the queue, in order and
    contents, and all nodes in use elsewhere are unchanged. *)
Theorem move_dequeue_correct w mh m q free others :
  chain w (move_free_list w) free -> queue w mh (m :: q) -> NoDup (free ++ (m :: q) ++ others) ->
  exists w' mh', dequeue mh w = Ok (mn_data (node w m), mh') w' /\
    chain w' (move_free_list w') (m :: free) /\ queue w' mh' q /\ same_nodes w w' (q ++ others).
Proof.
  intros Hf Hq Hnd. apply NoDup_app in Hnd as (Hfr & Hd & Hnd). simpl in Hnd.
  apply NoDup_cons in Hnd as [Hm Hnd].
  destruct (move_queue_pop_ok w mh m q Hq) as (mh' & Ep & Hq' & _).
  destruct (move_free_ok w m free Hf) as (w' & Ef & Hc & _ & Hn & _); [set_solver|].
  assert (same_nodes w w' (q ++ others)) as Hs.
  { intros x Hx. apply Hn. by intros ->. }
  exists w', mh'. split_and!; [|done| |done].
  - unfold dequeue. rewrite (bind_ok _ _ _ _ _ Ep). unfold get_node.
    unfold mbind, M_bind, gets. rewrite Ef. done.
  - apply (queue_same w); [|done]. intros x Hx. apply Hs. set_solver.
Qed.

(** ** Building the free list *)

Fixpoint node_list (n : nat) (ml sz : Z) : list Z :=
  match n with O => [] | S n => ml :: node_list n (ml + sz) sz end.

Lemma node_list_head n ml sz : (0 < n)%nat -> head (node_list n ml sz) = Some ml.
Proof. destruct n; [lia|done]. Qed.

Lemma node_list_bound n : forall ml sz x, 0 < sz -> x ∈ node_list n ml sz -> ml <= x.
Proof.
  induction n as [|n IH]; intros ml sz x Hs; simpl; [by intros ?%not_elem_of_nil|].
  intros [->|Hx]%elem_of_cons; [lia|]. apply IH in Hx; lia.
Qed.

Lemma node_list_nodup n : forall ml sz, 0 < sz -> NoDup (node_list n ml sz).
Proof.
  induction n as [|n IH]; intros ml sz Hs; simpl; constructor; [|by apply IH].
  intros Hx%node_list_bound; lia.
Qed.

Lemma move_reset_loop_ok n : forall i ml sz w, 0 < sz ->
  exists w', move_reset_loop n i ml sz w = Ok tt w' /\ w' = w <| nodes := nodes w' |> /\
    (forall k, 0 <= k < Z.of_nat n ->
       mnext w' (ml + (i + k) * sz) = Some (ml + (i + k + 1) * sz)) /\
    (forall x, x < ml + i * sz -> node w' x = node w x).
Proof.
  induction n as [|n IH]; intros i ml sz w Hs.
  { exists w. split_and!; [done|by destruct w| |done]. intros; lia. }
  cbn [move_reset_loop]. unfold mod_node at 1. munfold. cbn.
  match goal with |- context [move_reset_loop n (i + 1) ml sz ?x] => set (w1 := x) end.
  assert (forall x, node w1 x = if decide (ml + i * sz = x)
    then (node w (ml + i * sz)) <| mn_next := Some (ml + (i + 1) * sz) |> else node w x) as Hn
    by (intros x; unfold w1; by rewrite node_upd).
  destruct (IH (i + 1) ml sz w1 Hs) as (w' & E & Ew & Hk & Hx). exists w'. split_and!; [done| | |].
  - rewrite Ew. by destruct w.
  - intros k Hk'. destruct (decide (k = 0)) as [->|Hk0].
    + rewrite Z.add_0_r. unfold mnext. rewrite Hx by lia. rewrite Hn. by rewrite decide_True.
    + replace (i + k) with (i + 1 + (k - 1)) by lia. apply Hk. lia.
  - intros x Hlt. rewrite Hx by lia. rewrite Hn. rewrite decide_False by lia. done.
Qed.

Lemma node_list_path nx n ml sz : forall i, (0 < n)%nat ->
  (forall k, 0 <= k < Z.of_nat n - 1 -> nx (ml + (i + k) * sz) = Some (ml + (i + k + 1) * sz)) ->
  nx (ml + (i + Z.of_nat n - 1) * sz) = None ->
  path nx (node_list n (ml + i * sz) sz).
Proof.
  induction n as [|n IH]; intros i Hn Hk Hl; [lia|]. cbn [node_list].
  replace (ml + i * sz + sz) with (ml + (i + 1) * sz) by lia. split.
  - destruct (decide (n = 0%nat)) as [->|Hn0].
    + simpl. rewrite <- Hl. do 2 f_equal. lia.
    + rewrite node_list_head by lia. specialize (Hk 0 ltac:(lia)). rewrite !Z.add_0_r in Hk. done.
  - destruct (decide (n = 0%nat)) as [->|Hn0]; [done|]. apply IH; [lia| |].
    + intros k Hk'. replace (i + 1 + k) with (i + (k + 1)) by lia. apply Hk. lia.
    + rewrite <- Hl. do 2 f_equal. lia.
Qed.

(** A shutdown returns every move node to the pool: whatever the queues
    and the free list were, [move_reset] rebuilds the free list from all
    [move_count] nodes of the move memory, each exactly once. *)
Theorem move_reset_correct w ml :
  0 < move_count w -> move_list w = Some ml -> 0 < move_item_size w ->
  exists w', move_reset w = Ok tt w' /\
    chain w' (move_free_list w') (node_list (Z.to_nat (move_count w)) ml (move_item_size w)) /\
    NoDup (node_list (Z.to_nat (move_count w)) ml (move_item_size w)) /\
    w' = w <| nodes := nodes w' |> <| move_free_list := Some ml |>.
Proof.
  intros Hc Hm Hs. unfold move_reset, mod_node. munfold.
  rewrite (proj2 (Z.eqb_neq (move_count w) 0)), Hm by lia. cbn -[move_reset_loop].
  set (cnt := move_count w) in *. set (sz := move_item_size w) in *.
  destruct (move_reset_loop_ok (Z.to_nat (cnt - 1)) 0 ml sz w Hs) as (w1 & E & Ew & Hk & _).
  rewrite E. set (l := ml + (cnt - 1) * sz).
  set (w2 := w1 <| nodes := <[l := (node w1 l) <| mn_next := None |>]> (nodes w1) |>).
  exists (w2 <| move_free_list := Some ml |>). split_and!; [done| | |].
  - split; [cbn; rewrite node_list_head by lia; done|].
    rewrite <- (Z.add_0_r ml), <- (Z.mul_0_l sz) at 1. apply node_list_path; [lia| |].
    + intros k Hk'. unfold mnext.
      change (node (w2 <| move_free_list := Some ml |>) (ml + (0 + k) * sz)) with (node w2 (ml + (0 + k) * sz)).
      unfold w2. rewrite node_upd. rewrite decide_False by (unfold l; nia). apply Hk. lia.
    + unfold mnext. change (mn_next (node w2 (ml + (0 + Z.of_nat (Z.to_nat cnt) - 1) * sz)) = None).
      unfold w2. rewrite node_upd. rewrite decide_True; [done|]. unfold l. f_equal. f_equal. lia.
  - by apply node_list_nodup.
  - unfold w2. rewrite Ew. by destruct w.
Qed.

(** ** Visiting the objects of a type *)

(** What [oid_next] looks at: the types and which data pointers are null. *)
Definition slot_sig (o : oid_s) : option otype * bool :=
  (o_type o, bool_decide (is_Some (o_data o))).
Definition oid_sig (w : world) : option (list (option otype * bool)) :=
  match oids w with Some l => Some (slot_sig <$> l) | None => None end.

Definition same_sig (w w' : world) : Prop := oid_sig w' = oid_sig w /\ oid_count w' = oid_count w.
#[export] Instance same_sig_preorder : PreOrder same_sig.
Proof. split; [done|]. intros w1 w2 w3 [E1 E2] [E3 E4]. split; congruence. Qed.

(** The oids of a given type, from position [i] on. *)
Fixpoint typed_from (i : Z) (l : list oid_s) (type : otype) : list Z :=
  match l with
  | [] => []
  | o :: l =>
      if decide (o_type o = Some type) then i :: typed_from (i + 1) l type
      else typed_from (i + 1) l type
  end.

(** Every allocated slot has its data. *)
Definition oids_ok (w : world) (l : list oid_s) : Prop :=
  oids w = Some l /\ oid_count w = Z.of_nat (length l) /\ oid_count w <= 255 /\
  Forall (fun o => o_type o <> None -> is_Some (o_data o)) l.

(** Run [body] on each element in turn. *)
Fixpoint run_each (body : Z -> M unit) (ids : list Z) : M unit :=
  match ids with [] => mret tt | i :: ids => body i ;; run_each body ids end.

Lemma sig_typed i l l' type :
  slot_sig <$> l' = slot_sig <$> l ->
  typed_from i l' type = typed_from i l type.
Proof.
  revert i l'. induction l as [|o l IH]; intros i [|o' l']; simpl; try done.
  intros [= E1 E2 E3]. rewrite E1. by rewrite (IH (i + 1) l' E3).
Qed.

Lemma oids_ok_sig w w' l : oids_ok w l -> same_sig w w' -> exists l', oids_ok w' l' /\
  slot_sig <$> l' = slot_sig <$> l.
Proof.
  intros (Ho & Hc & H255 & Hd) [Hs Hcn]. unfold oid_sig in Hs. rewrite Ho in Hs.
  destruct (oids w') as [l'|] eqn:Ho'; [|done]. injection Hs as Hs.
  exists l'. split; [|done].
  pose proof (f_equal length Hs) as Hl. rewrite !length_fmap in Hl.
  split_and!; [done|congruence|lia|].
  apply Forall_forall. intros o' Ho2 Hty. apply list_elem_of_lookup in Ho2 as [k Hk].
  pose proof (f_equal (fun x => x !! k) Hs) as Hkk. simpl in Hkk. rewrite !list_lookup_fmap, Hk in Hkk.
  destruct (l !! k) as [o|] eqn:Hko; [|done]. simpl in Hkk. injection Hkk as E1 E2.
  eapply Forall_forall in Hd; [|apply list_elem_of_lookup; by exists k]. rewrite E1 in Hty.
  apply Hd in Hty. rewrite (bool_decide_true _ Hty), bool_decide_eq_true in E2. done.
Qed.

Lemma typed_bound l : forall i type x, x ∈ typed_from i l type -> i <= x < i + Z.of_nat (length l).
Proof.
  induction l as [|o l IH]; intros i type x; simpl; [by intros ?%not_elem_of_nil|].
  case_decide; [intros [->|Hx]%elem_of_cons; [lia|]|intros Hx]; apply IH in Hx; lia.
Qed.

(** The search finds the next object of the type. *)
Lemma oid_next_loop_ok w l type : oids_ok w l -> forall l2 l1 fuel,
  l = l1 ++ l2 -> (length l2 < fuel)%nat ->
  oid_next_loop fuel (u8 (Z.of_nat (length l1) - 1)) type w =
  Ok (head (typed_from (Z.of_nat (length l1)) l2 type)) w.
Proof.
  intros (Ho & Hc & H255 & Hd). induction l2 as [|o l2 IH]; intros l1 [|fuel] El Hf; try (simpl in Hf; lia).
  all: assert (u8 (u8 (Z.of_nat (length l1) - 1) + 1) = Z.of_nat (length l1)) as E8
    by (rewrite El, length_app in Hc; word_lia).
  all: cbn [oid_next_loop]; rewrite E8; munfold; cbn -[oid_next_loop].
  - rewrite app_nil_r in El. rewrite (proj2 (Z.leb_le _ _)) by (subst; lia). done.
  - rewrite (proj2 (Z.leb_gt _ _)) by (rewrite El, length_app in Hc; simpl in Hc; lia).
    unfold oid_slot. rewrite Ho, El, Nat2Z.id, list_lookup_middle by done.
    unfold mret, M_ret. case_bool_decide as Ht.
    + rewrite decide_True by done. assert (is_Some (o_data o)) as [d ->].
      { eapply Forall_forall in Hd; [apply Hd; by rewrite Ht|]. rewrite El. set_solver. }
      done.
    + rewrite decide_False by done.
      specialize (IH (l1 ++ [o]) fuel). rewrite length_app, Nat2Z.inj_add in IH.
      change (Z.of_nat (length [o])) with 1 in IH.
      rewrite Z.add_simpl_r in IH. rewrite <- IH; [|by rewrite <- app_assoc|simpl in Hf; lia].
      f_equal. rewrite El, length_app in Hc. simpl in Hc. word_lia.
Qed.

Lemma typed_from_after l : forall i type x xs, typed_from i l type = x :: xs ->
  exists l1 l2, l = l1 ++ l2 /\ x + 1 = i + Z.of_nat (length l1) /\
    xs = typed_from (x + 1) l2 type.
Proof.
  induction l as [|o l IH]; intros i type x xs; simpl; [done|]. case_decide as Ht.
  - intros [= <- <-]. exists [o], l. done.
  - intros E. apply IH in E as (l1 & l2 & -> & E & ->). exists (o :: l1), l2.
    split_and!; [done|simpl; lia|done].
Qed.

Lemma foreach_loop_ok type body : (forall i, Keeps same_sig (body i)) ->
  forall fuel l1 l2 w, oids_ok w (l1 ++ l2) -> (length l2 < fuel)%nat ->
  foreach_loop fuel (u8 (Z.of_nat (length l1) - 1)) type body w =
  run_each body (typed_from (Z.of_nat (length l1)) l2 type) w.
Proof.
  intros Hb. induction fuel as [|fuel IH]; intros l1 l2 w Hok Hf; [lia|].
  cbn [foreach_loop]. unfold oid_next, mbind at 1, M_bind at 1.
  pose proof Hok as (Ho & Hc & H255 & Hd). rewrite length_app in Hc.
  rewrite (oid_next_loop_ok w (l1 ++ l2) type Hok l2 l1 257) by (done || lia).
  destruct (typed_from (Z.of_nat (length l1)) l2 type) as [|x xs] eqn:E; [done|].
  cbn [head run_each]. unfold mbind, M_bind. pose proof (Hb x w) as Hs.
  destruct (body x w) as [[] w1|r w1|]; [|done..]. specialize (Hs w1 eq_refl).
  pose proof (typed_bound l2 _ type x ltac:(rewrite E; left)) as Hx.
  apply typed_from_after in E as (l3 & l4 & -> & Ex & ->). rewrite length_app in Hf, Hc.
  destruct (oids_ok_sig _ _ _ Hok Hs) as (l' & Hok' & Hsig).
  rewrite app_assoc in Hsig. set (k := length (l1 ++ l3)).
  assert (length (take k l') = k) as Hk.
  { pose proof (f_equal length Hsig) as Hl. rewrite !length_fmap, length_app in Hl.
    rewrite length_take. lia. }
  assert (slot_sig <$> drop k l' = slot_sig <$> l4) as Hs4.
  { pose proof (f_equal (drop k) Hsig) as Hd4. rewrite fmap_drop, Hd4.
    rewrite <- fmap_drop. unfold k. by rewrite drop_app_length. }
  pose proof (f_equal length Hs4) as Hl4. rewrite !length_fmap in Hl4.
  rewrite <- (take_drop k l') in Hok'. specialize (IH _ _ w1 Hok' ltac:(lia)).
  rewrite Hk in IH. unfold k in IH. rewrite length_app in IH.
  replace (u8 (Z.of_nat (length l1 + length l3) - 1)) with x in IH by word_lia.
  unfold k in Hs4. rewrite length_app in Hs4.
  rewrite IH, (sig_typed _ _ _ type Hs4). do 2 f_equal. lia.
Qed.

Lemma foreach_oid_ok type body w l :
  (forall i, Keeps same_sig (body i)) -> oids_ok w l ->
  foreach_oid type body w = run_each body (typed_from 0 l type) w.
Proof.
  intros Hb Hok. unfold foreach_oid. apply (foreach_loop_ok type body Hb 257 [] l w Hok).
  destruct Hok as (_ & ? & ? & _). lia.
Qed.

(** Storing to an object keeps the table's types. *)
Lemma mod_obj_sig (T : Set) `{ObjType T} p f : Keeps same_sig (mod_obj T p f).
Proof.
  intros w w'. unfold mod_obj. destruct (obj_at T w p) as [t|] eqn:E; [|done]. intros [= <-].
  unfold obj_at, oid_slot in E. split; [|done]. unfold oid_sig, set_oid_slot. cbn.
  destruct (oids w) as [l|]; [|done]. cbn. f_equal. apply list_eq. intros i.
  rewrite !list_lookup_fmap. destruct (decide (i = Z.to_nat p)) as [->|Hi].
  - rewrite list_lookup_alter_eq. destruct (l !! Z.to_nat p) as [[ty [d|]]|]; done.
  - by rewrite list_lookup_alter_ne.
Qed.

#[export] Hint Extern 1 (Keeps same_sig (mod_obj _ _ _)) => (apply mod_obj_sig) : frame.
#[export] Hint Extern 2 (same_sig _ _) => (split; reflexivity) : frame.

Lemma typed_nodup l : forall i type, NoDup (typed_from i l type).
Proof.
  induction l as [|o l IH]; intros i type; simpl; [constructor|]. case_decide; [|done].
  constructor; [|done]. intros Hx%typed_bound. lia.
Qed.

Lemma typed_pos l type : Forall (fun i => 0 <= i) (typed_from 0 l type).
Proof. apply Forall_forall. intros x Hx%typed_bound. lia. Qed.

(** Object [p] is configured with the given type. *)
Definition is_oid (w : world) (p : Z) (type : otype) : Prop :=
  0 <= p < 256 /\ p < oid_count w /\ exists o, oid_slot w p = Some o /\ o_type o = Some type.

Lemma oid_lookup_ok w p type : is_oid w p type -> oid_lookup p type w = Ok p w.
Proof.
  intros (Hp & Hc & o & Ho & Ht). unfold oid_lookup. rewrite u8_id by done. munfold.
  unfold id. rewrite Ho, Ht. rewrite (proj2 (Z.leb_gt _ _)), bool_decide_true by done. done.
Qed.

(** ** Memory *)

Section Memory.
Context `{Board}.

Lemma count_chunks_ok count size : forall p e k q, 0 < size -> count_chunks count size p e = (k, q) ->
  0 <= k <= Z.of_nat count /\ q = p + k * size /\ (0 < k -> q <= e) /\
  (k < Z.of_nat count -> e < q + size).
Proof.
  induction count as [|count IH]; intros p e k q Hs; cbn [count_chunks].
  { intros [= <- <-]. lia. }
  destruct (Z.leb_spec (p + size) e).
  - destruct (count_chunks count size (p + size) e) as [k' q'] eqn:E. intros [= <- <-].
    apply IH in E as (? & -> & H1 & H2); [|done]. split_and!; [lia..| |].
    + intros _. destruct (decide (0 < k')); [by apply H1|]. assert (k' = 0) as -> by lia. lia.
    + intros. apply H2. lia.
  - intros [= <- <-]. lia.
Qed.

(** The allocator hands out disjoint memory inside the dynamic area.  A
    successful [alloc_chunks] returns the address of [cnt] chunks, at least one
    and at most the number asked for, that start at the old end of the
    allocated memory and end before the new end and before the end of the
    area; as many chunks as fit are taken.  It fails only if not even one
    chunk fits. *)
Theorem alloc_chunks_bounds w size count k :
  0 < size -> Z.of_nat count <= 65535 -> alignof_ptr = 2 ^ k -> 0 <= k ->
  match alloc_chunks size count w with
  | Ok (data, cnt) w' => data = alloc_end w /\ 1 <= cnt <= Z.of_nat count /\
      data + cnt * size <= dynmem_end /\ data + cnt * size <= alloc_end w' /\
      (cnt < Z.of_nat count -> dynmem_end < data + (cnt + 1) * size)
  | Shut r w' => w' = w /\ (count <> 0%nat -> dynmem_end < alloc_end w + size)
  | Fault => False
  end.
Proof.
  intros Hs Hc Ha Hk0. unfold alloc_chunks, alloc_chunk. munfold. cbn -[count_chunks].
  destruct (count_chunks count size (alloc_end w) dynmem_end) as [n q] eqn:E.
  apply count_chunks_ok in E as (Hn & -> & H1 & H2); [|done].
  destruct (Z.eqb_spec n 0) as [->|Hn0].
  - split; [done|]. intros. assert (0 < Z.of_nat count) by lia. specialize (H2 ltac:(lia)). lia.
  - specialize (H1 ltac:(lia)). cbn. replace (alloc_end w + n * size - alloc_end w) with (n * size) by lia.
    rewrite (proj2 (Z.ltb_ge _ _)) by lia. cbn.
    pose proof (ALIGN_ge (n * size) k Hk0) as Hge. rewrite <- Ha in Hge.
    rewrite u16_id by lia. split_and!; [done|lia|lia|done|lia|]. intros. specialize (H2 ltac:(lia)). lia.
Qed.
End Memory.

(** ** Statistics and clocks *)

(** The cost that [stats_update] adds for a task of [d] ticks, rounded up. *)
Definition sumsq_cost (d : Z) : Z :=
  if d <=? 0xffff then (d * d + 255) / 256
  else if d <=? 0xfffff then (d + 255) / 256 * d
  else 0xffffffff.

(** The sum of squared task times saturates instead of wrapping: no
    intermediate product overflows 32 bits, and the new value is the exact sum
    or the largest 32 bit number. *)
Theorem next_sumsq_saturates s d :
  is_u32 s -> is_u32 d -> next_sumsq s d = Z.min 0xffffffff (s + sumsq_cost d).
Proof.
  intros Hs Hd. unfold is_u32 in *. unfold next_sumsq, sumsq_cost, SUMSQ_BASE.
  assert (forall c, 0 <= c <= 0xffffffff ->
    (if u32 (s + c) <? s then 0xffffffff else u32 (s + c)) = Z.min 0xffffffff (s + c)) as Hk.
  { intros c Hc. destruct (Z.ltb_spec (u32 (s + c)) s); word_lia. }
  destruct (Z.leb_spec d 0xffff).
  - rewrite (u32_id (d * d)) by nia. rewrite (u32_id (d * d + 256 - 1)) by nia.
    replace (d * d + 256 - 1) with (d * d + 255) by lia. apply Hk.
    split; [apply Z.div_pos; nia|]. apply Z.div_le_upper_bound; nia.
  - destruct (Z.leb_spec d 0xfffff).
    + rewrite (u32_id (d + 256 - 1)) by lia. replace (d + 256 - 1) with (d + 255) by lia.
      assert (0 <= (d + 255) / 256 <= 4096) as Hq by word_lia.
      assert (0 <= (d + 255) / 256 * d <= 0xffffffff) as Hb by nia.
      rewrite (u32_id ((d + 255) / 256 * d)) by lia. by apply Hk.
    + rewrite (proj2 (Z.ltb_ge _ _)) by lia. lia.
Qed.

Section Clock.
Context `{Board}.

(** The 64 bit time recorded by the statistics. *)
Definition stats_time (w : world) (t : Z) : Prop :=
  stats_send_time w = u32 t /\ stats_send_time_high w = u32 (t / 2 ^ 32).

(** The uptime command reports the full 64 bit clock: if the recorded
    time is less than 2^32 ticks old, the response carries the high and low
    words of the current time. *)
Theorem uptime_correct w t now :
  stats_time w t -> 0 <= t -> t <= now < t + 2 ^ 32 ->
  u32 (clock_reading (clock_reads w)) = u32 now -> in_sendf w = false ->
  exists w', command_get_uptime [] w = Ok tt w' /\
    sent w' = mkMsg "uptime high=%u clock=%u" [AInt (u32 (now / 2 ^ 32)); AInt (u32 now)] :: sent w.
Proof.
  intros [Hl Hh] H0 Hn Hc Hs.
  unfold command_get_uptime, sendf, command_sendf, console_sendf, timer_read_time. munfold. cbn.
  rewrite Hc, Hs, Hl, Hh. eexists. split; [reflexivity|]. cbn. do 4 f_equal.
  destruct (Z.ltb_spec (u32 now) (u32 t)); unfold b2z; word_lia.
Qed.

(** The statistics keep that record up to date: an update at time [now],
    less than 2^32 ticks after the recorded one, either leaves the record
    alone (less than five seconds have passed) or moves it to [now]. *)
Theorem stats_update_clock w t start now :
  stats_time w t -> 0 <= t -> t <= now < t + 2 ^ 32 ->
  exists w', stats_update start (u32 now) w = Ok tt w' /\
    (stats_time w' t /\ now - t < timer_from_us 5000000 \/
     stats_time w' now /\ timer_from_us 5000000 <= now - t).
Proof.
  intros [Hl Hh] H0 Hn. unfold stats_update, timer_has_elapsed. munfold. cbn -[next_sumsq timer_from_us].
  rewrite Hl. assert (u32 (u32 now - u32 t) = now - t) as -> by word_lia.
  destruct (Z.leb_spec (timer_from_us 5000000) (now - t)) as [Ht|Ht]; cbn -[next_sumsq timer_from_us].
  2: { eexists. split; [reflexivity|]. left. by split. }
  unfold sendf, command_sendf, console_sendf. munfold. cbn -[next_sumsq timer_from_us].
  destruct (in_sendf w); cbn -[next_sumsq timer_from_us]; rewrite Hl;
    destruct (Z.ltb_spec (u32 now) (u32 t)) as [Hw|Hw]; eexists.
  all: split; [reflexivity|]; right; split; [|done].
  all: split; cbn; [done|]; rewrite Hh; word_lia.
Qed.

(** Reading the identification data never leaves the array: the response
    holds exactly the bytes from [offset] on, at most [count] of them and none
    past the end. *)
Theorem identify_bounds w offset count :
  is_u32 offset -> is_u8 count -> in_sendf w = false ->
  Z.of_nat (length command_identify_data) < 2 ^ 32 - 256 ->
  exists w' data, command_identify [offset; count] w = Ok tt w' /\
    sent w' = mkMsg "identify_response offset=%u data=%.*s" [AInt offset; ABytes data] :: sent w /\
    data = take (Z.to_nat count) (drop (Z.to_nat offset) command_identify_data) /\
    Z.of_nat (length data) =
      Z.max 0 (Z.min count (Z.of_nat (length command_identify_data) - offset)).
Proof.
  intros Ho Hc Hs Hz. unfold command_identify, arg. cbn [nth]. rewrite (u32_id offset) by done.
  rewrite (u8_id count) by done. unfold is_u32, is_u8 in *.
  set (isize := Z.of_nat (length command_identify_data)) in *.
  unfold sendf, command_sendf, console_sendf. munfold. cbn -[take drop]. rewrite Hs.
  eexists _, _. split; [reflexivity|]. cbn -[take drop]. split; [reflexivity|].
  assert (forall n, 0 <= n -> (isize - offset <= n -> isize - offset <= count) ->
    (n < isize - offset -> n = count) ->
    take (Z.to_nat n) (drop (Z.to_nat offset) command_identify_data) =
    take (Z.to_nat count) (drop (Z.to_nat offset) command_identify_data)) as Hk.
  { intros n Hn H1 H2. destruct (decide (n < isize - offset)) as [Hlt|Hge].
    - by rewrite H2.
    - rewrite !take_ge; [done|rewrite length_drop; lia..]. }
  assert (Z.of_nat (length (take (Z.to_nat count) (drop (Z.to_nat offset) command_identify_data))) =
    Z.max 0 (Z.min count (isize - offset))) as Hlen.
  { rewrite length_take, length_drop. lia. }
  destruct (Z.leb_spec isize offset).
  - rewrite (Hk 0) by lia. done.
  - rewrite (u32_id (offset + count)) by lia. destruct (Z.ltb_spec isize (offset + count)); [|done].
    rewrite u8_id by lia. rewrite Hk by lia. done.
Qed.
End Clock.

(** ** Witnesses *)

(** The free nodes of the sample state with the two outputs. *)
Definition output_free : list Z := node_list 70 1208 12.

Ltac eval_chain := split; [vm_compute; reflexivity|vm_compute; repeat split].

Lemma move_enqueue_correct_witness :
  exists w' mh', enqueue (MD_pwm (mkPwmMove 9000 5)) (mkMQ (Some 1184) (Some 1184)) output_world
    = Ok (0, mh') w' /\ queue w' mh' [1184; 1208] /\ same_nodes output_world w' [1196].
Proof.
  destruct (move_enqueue_correct output_world (mkMQ (Some 1184) (Some 1184)) [1184] output_free [1196]
    (MD_pwm (mkPwmMove 9000 5))) as (w' & mh' & E & _ & Hq & _ & _ & Hs).
  - eval_chain.
  - split; [eval_chain|intros _; reflexivity].
  - eval_decide.
  - exists w', mh'. split; [exact E|]. split; [exact Hq|exact Hs].
Defined.

Lemma move_dequeue_correct_witness :
  exists w' mh', dequeue (mkMQ (Some 1184) (Some 1184)) output_world
    = Ok (MD_digital (mkDigitalMove 5000 150), mh') w' /\ queue w' mh' [].
Proof.
  destruct (move_dequeue_correct output_world (mkMQ (Some 1184) (Some 1184)) 1184 [] output_free [1196])
    as (w' & mh' & E & _ & Hq & _).
  - eval_chain.
  - split; [eval_chain|intros _; reflexivity].
  - eval_decide.
  - exists w', mh'. split; [exact E|exact Hq].
Defined.

Lemma move_reset_correct_witness :
  exists w', move_reset output_world = Ok tt w' /\
    chain w' (move_free_list w') (node_list 72 1184 12).
Proof.
  destruct (move_reset_correct output_world 1184) as (w' & E & Hc & _).
  - vm_compute. reflexivity.
  - vm_compute. reflexivity.
  - vm_compute. reflexivity.
  - exists w'. split; [exact E|exact Hc].
Defined.

Lemma alloc_chunks_bounds_witness :
  match @alloc_chunks sample_board 100 20 (initial_world <| alloc_end := 1024 |>) with
  | Ok (data, cnt) w' => data + cnt * 100 <= 2048
  | _ => False
  end.
Proof.
  pose proof (@alloc_chunks_bounds sample_board (initial_world <| alloc_end := 1024 |>) 100 20 2
    ltac:(lia) ltac:(lia) ltac:(reflexivity) ltac:(lia)) as Hx.
  destruct (@alloc_chunks sample_board 100 20 (initial_world <| alloc_end := 1024 |>))
    as [[data cnt] w'|r w'|] eqn:E.
  - apply Hx.
  - vm_compute in E. discriminate.
  - exact Hx.
Defined.

Lemma next_sumsq_saturates_witness :
  next_sumsq 0xfffffff0 70000 = 0xffffffff /\ next_sumsq 16 1000 = 16 + 3907.
Proof.
  split.
  - rewrite (next_sumsq_saturates 0xfffffff0 70000); [reflexivity|unfold is_u32; lia..].
  - rewrite (next_sumsq_saturates 16 1000); [reflexivity|unfold is_u32; lia..].
Defined.

(** A state whose statistics were sent at time 2^33 - 1, with the clock read
    50 times before. *)
Definition clock_world : world :=
  initial_world <| stats_send_time := 0xffffffff |> <| stats_send_time_high := 1 |>
    <| clock_reads := 50%nat |>.

Lemma uptime_correct_witness :
  exists w', @command_get_uptime sample_board [] clock_world = Ok tt w' /\
    sent w' = [mkMsg "uptime high=%u clock=%u" [AInt 2; AInt 5000]].
Proof.
  apply (@uptime_correct sample_board clock_world (2 ^ 33 - 1) (2 ^ 33 + 5000)).
  - split; vm_compute; reflexivity.
  - lia.
  - lia.
  - vm_compute. reflexivity.
  - reflexivity.
Defined.

Lemma stats_update_clock_witness :
  exists w', @stats_update sample_board 0 (u32 (2 ^ 33 + 90000000)) clock_world = Ok tt w' /\
    stats_time w' (2 ^ 33 + 90000000).
Proof.
  destruct (@stats_update_clock sample_board clock_world (2 ^ 33 - 1) 0 (2 ^ 33 + 90000000))
    as (w' & E & [[_ Hx]|[Hx _]]).
  - split; vm_compute; reflexivity.
  - lia.
  - lia.
  - exfalso. vm_compute in Hx. discriminate.
  - exists w'. split; [exact E|exact Hx].
Defined.

Lemma identify_bounds_witness :
  exists w', @command_identify sample_board [3; 40] initial_world = Ok tt w' /\
    sent w' = [mkMsg "identify_response offset=%u data=%.*s" [AInt 3; ABytes [2; 3; 4; 5]]].
Proof.
  destruct (@identify_bounds sample_board initial_world 3 40) as (w' & data & E & Hs & Hd & _).
  - unfold is_u32. lia.
  - unfold is_u8. lia.
  - reflexivity.
  - vm_compute. reflexivity.
  - exists w'. split; [exact E|]. rewrite Hs, Hd. reflexivity.
Defined.
