(* ===== verification/ConsoleProps.v ===== *)
(** * The consoles of the firmware keep the byte streams

    Receiving: whatever arrives while a block is removed from the front of a
    receive buffer (src/src/generic/serial_irq.c and canserial.c), no byte is
    lost, duplicated or moved out of order.  Sending: [TxConsole] is what the
    message layer may expect of a console, namely that every message is sent
    completely and in order or dropped completely; its instances are the serial
    and the CAN console. *)
From S2P Require Import Prelude Buffers Protocol World Sched Command SerialIrq CanSerial Firmware Sample.

(** ** Receiving: the serial console *)

(** The bytes that are received and not consumed. *)
Definition rx_pending (s : serial) : list Z := take (Z.to_nat (receive_pos s)) (receive_buf s).

Record rx_ok (s : serial) : Prop := {
  rx_len : length (receive_buf s) = 192%nat;
  rx_pos : 0 <= receive_pos s <= RX_BUFFER_SIZE
}.

Lemma length_rx_pending s : rx_ok s -> Z.of_nat (length (rx_pending s)) = receive_pos s.
Proof. intros [Hl Hp]. unfold rx_pending, RX_BUFFER_SIZE in *. rewrite length_take. lia. Qed.

(** The buffer in the middle of [console_pop_input]. *)
Record popping_serial (len copied : Z) (P : list Z) (s : serial) : Prop := {
  ps_len : length (receive_buf s) = 192%nat;
  ps_pos : receive_pos s = Z.of_nat (length P);
  ps_range : 0 <= len /\ 0 <= copied;
  ps_buf : popping (Z.to_nat len) (Z.to_nat copied) P (receive_buf s)
}.

Definition free_after (P : list Z) : nat := (192 - length P)%nat.

Lemma popping_rx_store len copied P c s :
  popping_serial len copied P s ->
  popping_serial len copied (P ++ take (free_after P) [c]) (rx_store c s).
Proof.
  intros [Hl Hp Hr Hb]. unfold rx_store, RX_BUFFER_SIZE, free_after.
  pose proof (pop_bound _ _ _ _ Hb) as Hle.
  destruct (Z.leb_spec 192 (receive_pos s)).
  { replace (192 - length P)%nat with 0%nat by lia. rewrite app_nil_r. by constructor. }
  rewrite take_ge by (simpl; lia).
  assert (Z.to_nat (receive_pos s) = length P) as En by lia.
  constructor; cbn [receive_buf receive_pos upd eta eta_serial]; rewrite ?length_insert;
    [done| |done|].
  - rewrite length_app, Hp. simpl. word_lia.
  - rewrite En, insert_copy_to by lia. apply popping_arrive; [done|]. simpl. lia.
Qed.

(** Arrivals, one at a time; each only wakes the tasks up. *)
Lemma rx_bytes_spec data : forall s w,
  exists st, rx_bytes data s w = Ok (foldl (fun s c => rx_store c s) s data)
    (w <| tasks_status := st |>).
Proof.
  induction data as [|c data IH]; intros s w; [exists (tasks_status w); by destruct w|].
  cbn [rx_bytes foldl]. unfold serial_rx_byte, when, sched_wake_tasks.
  destruct (c =? MESSAGE_SYNC); munfold.
  - destruct (IH (rx_store c s) (w <| tasks_status := TS_REQUESTED |>)) as [st E]. exists st. exact E.
  - destruct (IH (rx_store c s) w) as [st E]. exists st. exact E.
Qed.

Lemma popping_rx_all len copied data : forall P s,
  popping_serial len copied P s ->
  popping_serial len copied (P ++ take (free_after P) data) (foldl (fun s c => rx_store c s) s data).
Proof.
  induction data as [|c data IH]; intros P s Hp; [by rewrite take_nil, app_nil_r|].
  cbn [foldl]. pose proof (IH _ _ (popping_rx_store _ _ _ c _ Hp)) as Hn.
  replace (P ++ take (free_after P) (c :: data)) with
    ((P ++ take (free_after P) [c]) ++ take (free_after (P ++ take (free_after P) [c])) data);
    [done|].
  rewrite <- app_assoc. f_equal. unfold free_after. rewrite length_app, length_take. cbn [length].
  destruct (192 - length P)%nat as [|k] eqn:E; [by rewrite Nat.min_0_l, Nat.add_0_r, E|].
  cbn [take app]. rewrite take_nil. cbn [app]. do 2 f_equal. lia.
Qed.

Lemma popping_pop_copy len copied n P s :
  popping_serial len copied P s -> copied <= n - len -> 0 <= n - len ->
  n <= Z.of_nat (length P) -> (n - len = 0 -> copied = 0) ->
  let '(copied', s') := pop_copy len copied n s in
  copied' = n - len /\ popping_serial len (n - len) P s' /\ receive_pos s' = receive_pos s.
Proof.
  intros [Hl Hp Hr Hb] Hc Hn Hle Hz. pose proof (pop_bound _ _ _ _ Hb).
  unfold pop_copy. assert (u8 (n - len) = n - len) as -> by word_lia.
  destruct (Z.eqb_spec (n - len) 0) as [E|E].
  { rewrite Hz in * by done. rewrite E. by split_and!. }
  split_and!; [done| |done].
  constructor; cbn [receive_buf receive_pos upd eta eta_serial]; [|done|lia|].
  - rewrite length_memmove; lia.
  - replace (Z.to_nat (copied + len)) with (Z.to_nat copied + Z.to_nat len)%nat by lia.
    replace (Z.to_nat (n - len - copied)) with (Z.to_nat (n - len) - Z.to_nat copied)%nat by lia.
    apply popping_copy; [done|lia..].
Qed.

(** What arrived in a number of passes. *)
Definition arrivals {A} (irqs : list (list A * list A)) : list A :=
  concat (map (fun ab => ab.1 ++ ab.2) irqs).

Lemma take_free P (x y : list Z) :
  P ++ take (free_after P) (x ++ y) =
  (P ++ take (free_after P) x) ++ take (free_after (P ++ take (free_after P) x)) y.
Proof.
  rewrite <- app_assoc. f_equal. rewrite take_app. f_equal. unfold free_after.
  rewrite length_app, length_take. f_equal. lia.
Qed.

Lemma popping_finish len P s :
  popping_serial len (Z.of_nat (length P) - len) P s -> 0 <= len <= Z.of_nat (length P) ->
  let s' := s <| receive_pos := u8 (Z.of_nat (length P) - len) |> in
  rx_ok s' /\ rx_pending s' = drop (Z.to_nat len) P.
Proof.
  intros [Hl Hp Hr Hb] Hlen. pose proof (pop_bound _ _ _ _ Hb).
  assert (u8 (Z.of_nat (length P) - len) = Z.of_nat (length P) - len) as E by word_lia.
  unfold rx_pending, RX_BUFFER_SIZE in *. cbn zeta. split.
  - constructor; cbn [receive_buf receive_pos upd eta eta_serial];
      unfold RX_BUFFER_SIZE; rewrite ?E; [done|lia].
  - cbn [receive_buf receive_pos upd eta eta_serial]. rewrite E.
    replace (Z.to_nat (_ - len)) with (length P - Z.to_nat len)%nat in * by lia.
    by apply popping_done.
Qed.

(** One pass: everything that arrived is behind what was moved. *)
Lemma pop_pass_ok early late len copied P s w :
  popping_serial len copied P s -> 0 <= len <= Z.of_nat (length P) ->
  exists s' st,
    pop_pass early late len copied s w
      = Ok (Z.of_nat (length P) - len, s') (w <| tasks_status := st |>) /\
    popping_serial len (Z.of_nat (length P) - len)
      (P ++ take (free_after P) (early ++ late)) s'.
Proof.
  intros Hs Hlen. pose proof Hs as [Hl Hp Hr Hb]. pose proof (pop_bound _ _ _ _ Hb) as Hbd.
  unfold pop_pass. rewrite Hp. destruct (rx_bytes_spec early s w) as [st1 E1].
  pose proof (popping_rx_all _ _ early _ _ Hs) as H1.
  set (P1 := P ++ take (free_after P) early) in *.
  assert (length P <= length P1)%nat by (unfold P1; rewrite length_app; lia).
  pose proof (popping_pop_copy len copied (Z.of_nat (length P)) P1 _ H1) as Hc.
  rewrite (bind_ok _ _ _ _ _ E1).
  destruct (pop_copy _ _ _ _) as [copied' s1]. destruct Hc as (-> & H2 & _); [lia..|].
  pose proof (popping_rx_all _ _ late _ _ H2) as H3. rewrite take_free. fold P1.
  unfold when, sched_wake_tasks. destruct (negb _); munfold;
    match goal with |- context [rx_bytes late s1 ?w1] =>
      destruct (rx_bytes_spec late s1 w1) as [st2 E2]; rewrite E2 end; by eexists _, st2.
Qed.

Lemma pop_loop_ok irqs : forall len copied P s w,
  popping_serial len copied P s -> 0 <= len <= Z.of_nat (length P) ->
  exists k s' st, (k <= length irqs)%nat /\
    pop_input_loop irqs len copied s w = Ok s' (w <| tasks_status := st |>) /\ rx_ok s' /\
    rx_pending s' = drop (Z.to_nat len) (P ++ take (free_after P) (arrivals (take k irqs))).
Proof.
  induction irqs as [|[early late] irqs IH]; intros len copied P s w Hs Hlen;
    cbn [pop_input_loop head from_option id]; rewrite (ps_pos _ _ _ _ Hs).
  - destruct (pop_pass_ok [] [] len copied P s w Hs Hlen) as (s1 & st & E & H1).
    rewrite (bind_ok _ _ _ _ _ E). cbn [app] in H1. rewrite take_nil, app_nil_r in H1.
    destruct (popping_finish _ _ _ H1 Hlen) as [Hok Hpend].
    eexists 0%nat, _, st. split_and!; [lia|done|done|]. rewrite Hpend. unfold arrivals.
    cbn [take map concat]. by rewrite take_nil, app_nil_r.
  - destruct (pop_pass_ok early late len copied P s w Hs Hlen) as (s1 & st & E & H1).
    rewrite (bind_ok _ _ _ _ _ E), (ps_pos _ _ _ _ H1).
    set (P1 := P ++ take (free_after P) (early ++ late)) in *.
    assert (length P <= length P1)%nat by (unfold P1; rewrite length_app; lia).
    destruct (Z.eqb_spec (Z.of_nat (length P)) (Z.of_nat (length P1))) as [En|En]; cbn [negb].
    + assert (P1 = P) as EP.
      { unfold P1 in *. rewrite length_app in En.
        rewrite (nil_length_inv (take (free_after P) (early ++ late))) by lia. apply app_nil_r. }
      rewrite EP in H1. destruct (popping_finish _ _ _ H1 Hlen) as [Hok Hpend].
      eexists 1%nat, _, st. split_and!; [simpl; lia|done|done|]. rewrite Hpend.
      unfold arrivals. cbn [take map concat fst snd]. rewrite app_nil_r. by fold P1; rewrite EP.
    + destruct (IH len (Z.of_nat (length P) - len) P1 s1 (w <| tasks_status := st |>) H1
        ltac:(lia)) as (k & s' & st' & Hk & E' & Hok & Hpend).
      exists (S k), s', st'. split_and!; [simpl; lia|exact E'|done|].
      rewrite Hpend. unfold arrivals. cbn [take map concat fst snd]. by rewrite take_free.
Qed.


Definition rx_sample : serial :=
  foldl (fun s c => rx_store c s) serial_zero [7; 0x10; 1; 2; 3; 4; 0x7e; 9; 0x11].


(** ** Sending: the contract of a console *)

(** [tx_sent] is what left the micro-controller, [tx_waiting] what is queued.
    [tx_put max msg] is the call of [console_sendf] for a message [msg] whose
    encoder announced at most [max] bytes; [tx_drain] is what the hardware and
    its task do in between. *)
Class TxConsole (S : Type) := {
  tx_ok : S -> Prop;
  tx_sent : S -> list Z;
  tx_waiting : S -> list Z;
  tx_size : Z;
  tx_put : Z -> list Z -> S -> S -> Prop;
  tx_drain : S -> S -> Prop;
  tx_put_ok max msg s s' :
    tx_ok s -> Z.of_nat (length msg) <= max <= tx_size -> tx_put max msg s s' ->
    tx_ok s' /\ tx_sent s `prefix_of` tx_sent s' /\
    tx_sent s' ++ tx_waiting s' = tx_sent s ++ tx_waiting s ++
      (if Z.of_nat (length (tx_waiting s)) + max <=? tx_size then msg else []);
  tx_drain_ok s s' :
    tx_ok s -> tx_drain s s' ->
    tx_ok s' /\ tx_sent s `prefix_of` tx_sent s' /\
    tx_sent s' ++ tx_waiting s' = tx_sent s ++ tx_waiting s
}.

(** A run of a console in which the given messages are offered. *)
Inductive tx_run {S} `{TxConsole S} : S -> list (list Z) -> S -> Prop :=
| run_done s : tx_run s [] s
| run_put max msg s1 s2 s3 msgs :
    Z.of_nat (length msg) <= max <= tx_size -> tx_put max msg s1 s2 -> tx_run s2 msgs s3 ->
    tx_run s1 (msg :: msgs) s3
| run_drain s1 s2 s3 msgs : tx_drain s1 s2 -> tx_run s2 msgs s3 -> tx_run s1 msgs s3.

Lemma tx_run_stream {S} `{TxConsole S} (s s' : S) msgs :
  tx_run s msgs s' -> tx_ok s ->
  tx_ok s' /\ tx_sent s `prefix_of` tx_sent s' /\
  exists kept, sublist kept msgs /\
    tx_sent s' ++ tx_waiting s' = tx_sent s ++ tx_waiting s ++ concat kept.
Proof.
  induction 1 as [s|max msg s1 s2 s3 msgs Hm Hput _ IH|s1 s2 s3 msgs Hd _ IH]; intros Hok.
  - split_and!; [done..|]. exists []. split; [constructor|]. by rewrite app_nil_r.
  - destruct (tx_put_ok _ _ _ _ Hok Hm Hput) as (Hok2 & Hp2 & E2).
    destruct (IH Hok2) as (Hok3 & Hp3 & kept & Hk & E3).
    split_and!; [done|by etrans|]. rewrite E3, app_assoc, E2, <- !app_assoc.
    destruct (_ <=? _).
    + exists (msg :: kept). split; [by constructor|done].
    + exists kept. split; [by constructor|done].
  - destruct (tx_drain_ok _ _ Hok Hd) as (Hok2 & Hp2 & E2).
    destruct (IH Hok2) as (Hok3 & Hp3 & kept & Hk & E3).
    split_and!; [done|by etrans|]. exists kept. split; [done|]. by rewrite E3, app_assoc, E2, <- app_assoc.
Qed.

(** ** The serial console sends in order *)

Definition ser_waiting (s : serial) : list Z :=
  window (transmit_pos s) (transmit_max s) (transmit_buf s).

Record ser_ok (s : serial) : Prop := {
  ser_len : length (transmit_buf s) = 96%nat;
  ser_pos : 0 <= transmit_pos s <= transmit_max s;
  ser_max : transmit_max s <= TX_BUFFER_SIZE
}.

Lemma window_next a b buf :
  0 <= a < b -> b <= Z.of_nat (length buf) ->
  window a b buf = byte_at buf a :: window (a + 1) b buf.
Proof.
  intros. rewrite (window_app a (a + 1)) by lia. unfold window at 1, byte_at.
  replace (a + 1 - a) with 1 by lia. rewrite nth_lookup.
  destruct (lookup_lt_is_Some_2 buf (Z.to_nat a)) as [x Hx]; [lia|].
  by rewrite (drop_S _ _ _ Hx), Hx.
Qed.

Lemma tx_irqs_ok n : forall s, ser_ok s ->
  let '(out, s') := tx_irqs n s in
  ser_ok s' /\ out ++ ser_waiting s' = ser_waiting s /\ transmit_max s' = transmit_max s.
Proof.
  induction n as [|n IH]; intros s Hs; [done|]. cbn [tx_irqs]. unfold serial_get_tx_byte.
  destruct Hs as [Hl Hp Hm]. unfold TX_BUFFER_SIZE in *.
  destruct (Z.leb_spec (transmit_max s) (transmit_pos s)); [done|].
  assert (u8 (transmit_pos s + 1) = transmit_pos s + 1) as Eu by word_lia. rewrite Eu.
  set (s1 := s <| transmit_pos := transmit_pos s + 1 |>).
  assert (ser_ok s1) as H1 by (constructor; cbn; unfold TX_BUFFER_SIZE; [done|lia|lia]).
  specialize (IH s1 H1). destruct (tx_irqs n s1) as [out s2]. destruct IH as (H2 & E & Em).
  split_and!; [done| |done]. cbn [app]. rewrite E. unfold ser_waiting.
  by rewrite (window_next (transmit_pos s)) by lia.
Qed.

(** [console_sendf] in terms of the stream. *)
Lemma serial_sendf_ok n max msg s :
  ser_ok s -> Z.of_nat (length msg) <= max <= TX_BUFFER_SIZE ->
  let '(out, s') := SerialIrq.console_sendf n max msg s in
  ser_ok s' /\ out ++ ser_waiting s' = ser_waiting s ++
    (if Z.of_nat (length (ser_waiting s)) + max <=? TX_BUFFER_SIZE then msg else []).
Proof.
  intros Hs Hm. pose proof Hs as [Hl Hp Hx]. unfold SerialIrq.console_sendf, tx_reserve, TX_BUFFER_SIZE in *.
  assert (Z.of_nat (length (ser_waiting s)) = transmit_max s - transmit_pos s) as El
    by (apply length_window; lia). rewrite El.
  destruct (Z.leb_spec (transmit_max s) (transmit_pos s)) as [Hc|Hc].
  - rewrite Z.add_0_l, Z.sub_0_r. destruct (Z.ltb_spec 96 max); [lia|].
    destruct (Z.leb_spec (transmit_max s - transmit_pos s + max) 96); [|lia].
    rewrite Z.add_0_l. rewrite u8_id by lia.
    assert (ser_waiting s = []) as -> by (apply window_empty; lia).
    split; [constructor; cbn; unfold TX_BUFFER_SIZE; rewrite ?length_copy_to; lia|].
    unfold ser_waiting. cbn [transmit_pos transmit_max transmit_buf upd eta eta_serial app].
    apply window_fresh. lia.
  - destruct (Z.ltb_spec 96 (transmit_max s + max)) as [Hr|Hr].
    + destruct (Z.ltb_spec 96 (transmit_max s + max - transmit_pos s)).
      { destruct (Z.leb_spec (transmit_max s - transmit_pos s + max) 96); [lia|].
        split; [done|]. by rewrite app_nil_r. }
      destruct (Z.leb_spec (transmit_max s - transmit_pos s + max) 96); [|lia].
      pose proof (tx_irqs_ok n s Hs) as Hi. destruct (tx_irqs n s) as [out s1].
      destruct Hi as ([Hl1 Hp1 Hx1] & E1 & Em1). unfold TX_BUFFER_SIZE in *.
      assert (Z.of_nat (length (ser_waiting s1)) = transmit_max s1 - transmit_pos s1) as El1
        by (apply length_window; lia).
      assert (length (ser_waiting s1) <= length (ser_waiting s))%nat
        by (rewrite <- E1, length_app; lia).
      rewrite <- Em1. set (tmax := transmit_max s1 - transmit_pos s1) in *.
      rewrite u8_id by lia. rewrite <- E1, <- app_assoc.
      split; [constructor; cbn; unfold TX_BUFFER_SIZE; rewrite ?length_copy_to;
              rewrite ?length_memmove; lia|]. f_equal.
      unfold ser_waiting at 1. cbn [transmit_pos transmit_max transmit_buf upd eta eta_serial].
      apply window_moved; lia.
    + destruct (Z.leb_spec (transmit_max s - transmit_pos s + max) 96); [|lia].
      rewrite u8_id by lia. cbn [app].
      split; [constructor; cbn; unfold TX_BUFFER_SIZE; rewrite ?length_copy_to; lia|].
      unfold ser_waiting. cbn [transmit_pos transmit_max transmit_buf upd eta eta_serial].
      by rewrite window_copy_end by lia.
Qed.

(** The console with everything it sent so far; between two calls the transmit
    interrupt takes any number of bytes. *)
#[export] Program Instance serial_tx : TxConsole (list Z * serial) := {|
  tx_ok st := ser_ok st.2;
  tx_sent st := st.1;
  tx_waiting st := ser_waiting st.2;
  tx_size := TX_BUFFER_SIZE;
  tx_put max msg st st' :=
    exists n, let '(out, s') := SerialIrq.console_sendf n max msg st.2 in st' = (st.1 ++ out, s');
  tx_drain st st' := exists n, let '(out, s') := tx_irqs n st.2 in st' = (st.1 ++ out, s')
|}.
Next Obligation.
  intros max msg [out s] st' Hok Hm [n E]. pose proof (serial_sendf_ok n max msg s Hok Hm) as Hs.
  cbn [fst snd] in *. destruct (SerialIrq.console_sendf n max msg s) as [o s']. destruct Hs as [H1 H2].
  subst st'. cbn [fst snd]. split_and!; [done|by eexists|]. by rewrite <- app_assoc, H2.
Qed.
Next Obligation.
  intros [out s] st' Hok [n E]. pose proof (tx_irqs_ok n s Hok) as Hs.
  cbn [fst snd] in *. destruct (tx_irqs n s) as [o s']. destruct Hs as (H1 & H2 & _).
  subst st'. cbn [fst snd]. split_and!; [done|by eexists|]. by rewrite <- app_assoc, H2.
Qed.

(** Whenever the transmit interrupt runs, the bytes sent by the serial
    console are the messages in the order of the calls of [console_sendf];
    a message without room is left out as a whole. *)
Theorem serial_stream s out s' msgs :
  ser_ok s -> tx_run (S := list Z * serial) ([], s) msgs (out, s') ->
  ser_ok s' /\ exists kept, sublist kept msgs /\
    out ++ ser_waiting s' = ser_waiting s ++ concat kept.
Proof.
  intros Hok Hrun. destruct (tx_run_stream _ _ _ Hrun Hok) as (Hok' & _ & kept & Hk & E).
  split; [done|]. by exists kept.
Qed.

Lemma serial_stream_witness :
  exists s', ser_ok s' /\ exists kept, sublist kept [[5; 6; 7]; [8; 9]] /\
    [5; 6] ++ ser_waiting s' = ser_waiting serial_zero ++ concat kept.
Proof.
  set (s1 := (SerialIrq.console_sendf 0 3 [5; 6; 7] serial_zero).2).
  set (s2 := (tx_irqs 2 s1).2).
  set (s3 := (SerialIrq.console_sendf 0 94 [8; 9] s2).2).
  exists s3. apply (serial_stream serial_zero [5; 6] s3 [[5; 6; 7]; [8; 9]]).
  - constructor; vm_compute; [done|by split|done].
  - apply (run_put 3 [5; 6; 7] _ ([], s1)); [cbn; unfold TX_BUFFER_SIZE; lia|by exists 0%nat|].
    apply (run_drain _ ([5; 6], s2)); [by exists 2%nat|].
    apply (run_put 94 [8; 9] _ ([5; 6], s3)); [cbn; unfold TX_BUFFER_SIZE; lia|by exists 0%nat|].
    apply run_done.
Defined.

(** ** The CAN console sends in order *)

(** The data of the frames with the given id, from a trace of events. *)
Fixpoint bus_data (id : Z) (tr : list hw_event) : list Z :=
  match tr with
  | [] => []
  | HwCanSend m :: tr => bus_data id tr ++ (if cm_id m =? id then cm_data m else [])
  | _ :: tr => bus_data id tr
  end.

(** What canserial.c may rely on when it sends: [bus_sent] gives the data of the
    frames with an id that are on their way, and a frame of one to eight bytes
    is sent as a whole or not at all. *)
Class CanBusLaws `{CanBus} := {
  bus_sent : Z -> list hw_event -> list Z;
  bus_send_law id n data w :
    1 <= n <= 8 -> Z.of_nat (length data) = n ->
    exists ret w', cb_send (mkCanMsg id n data) w = Ok ret w' /\ candata w' = candata w /\
      (ret = -1 /\ bus_sent id (hw_trace w') = bus_sent id (hw_trace w) \/
       ret = n /\ bus_sent id (hw_trace w') = bus_sent id (hw_trace w) ++ data)
}.

Section CanTx.
Context `{CanBusLaws}.

Definition can_waiting (w : world) : list Z :=
  window (cd_transmit_pos (candata w)) (cd_transmit_max (candata w)) (cd_transmit_buf (candata w)).

Record can_tx_ok (c : canbus_data) : Prop := {
  ctx_len : length (cd_transmit_buf c) = 96%nat;
  ctx_pos : 0 <= cd_transmit_pos c <= cd_transmit_max c;
  ctx_max : cd_transmit_max c <= CAN_TX_SIZE
}.

Lemma can_tx_loop_ok id fuel : forall tpos tmax w,
  (Z.to_nat (tmax - tpos) <= fuel)%nat -> 0 <= tpos <= tmax -> tmax <= CAN_TX_SIZE ->
  length (cd_transmit_buf (candata w)) = 96%nat ->
  exists tpos' w', tpos <= tpos' <= tmax /\ can_tx_loop fuel id tpos tmax w = Ok tpos' w' /\
    candata w' = candata w /\
    bus_sent id (hw_trace w')
      = bus_sent id (hw_trace w) ++ window tpos tpos' (cd_transmit_buf (candata w)).
Proof.
  unfold CAN_TX_SIZE. induction fuel as [|fuel IH]; intros tpos tmax w Hf Hp Hm Hl; cbn [can_tx_loop];
    (assert (s32 (tmax - tpos) = tmax - tpos) as -> by word_lia);
    (destruct (Z.leb_spec (tmax - tpos) 0);
     [exists tpos, w; rewrite window_empty, app_nil_r by lia; split_and!; [lia|lia|done..]|]); [lia|].
  set (now := if 8 <? tmax - tpos then 8 else tmax - tpos).
  assert (1 <= now <= 8 /\ now <= tmax - tpos) as [Hn1 Hn2]
    by (unfold now; destruct (Z.ltb_spec 8 (tmax - tpos)); lia).
  unfold can. munfold. set (buf := cd_transmit_buf (candata w)) in *.
  destruct (bus_send_law id now (window tpos (tpos + now) buf) w) as (ret & w1 & E1 & C1 & Hret);
    [done|rewrite length_window; lia|]. rewrite E1. destruct Hret as [[-> Es]|[-> Es]].
  - cbn [Z.leb Z.compare]. exists tpos, w1. rewrite window_empty, app_nil_r by lia.
    split_and!; [lia|lia|done..].
  - rewrite (proj2 (Z.leb_gt now 0)), u32_id by lia.
    destruct (IH (tpos + now) tmax w1) as (tpos' & w' & Ht & E & C & Eb); [lia..|by rewrite C1|].
    exists tpos', w'. rewrite C1 in *. fold buf in Eb.
    split_and!; [lia|lia|exact E|done|]. rewrite Eb, Es, <- app_assoc. f_equal.
    by rewrite <- window_app by lia.
Qed.

(** [canserial_tx_task] always ends. *)
Lemma can_tx_task_ok w :
  can_tx_ok (candata w) -> cd_assigned_id (candata w) <> 0 ->
  let id := u32 (cd_assigned_id (candata w) + 1) in
  exists w', canserial_tx_task w = Ok tt w' /\
    can_tx_ok (candata w') /\ cd_assigned_id (candata w') = cd_assigned_id (candata w) /\
    bus_sent id (hw_trace w) `prefix_of` bus_sent id (hw_trace w') /\
    bus_sent id (hw_trace w') ++ can_waiting w' = bus_sent id (hw_trace w) ++ can_waiting w.
Proof.
  intros [Hl Hp Hm] Hid id. unfold canserial_tx_task, sched_check_wake. munfold.
  destruct (decide (can_tx_wake ∈ woken w)) as [Hw|Hw]; cbn [negb].
  2: { exists w. by split_and!. }
  unfold can. munfold. cbn [candata upd eta eta_world].
  destruct (Z.eqb_spec (cd_assigned_id (candata w)) 0) as [|_]; [done|]. munfold.
  cbn [candata upd eta eta_world].
  set (w1 := w <| woken := _ |>).
  destruct (can_tx_loop_ok id (Z.to_nat CAN_TX_SIZE) (cd_transmit_pos (candata w))
    (cd_transmit_max (candata w)) w1) as (tpos & w2 & Ht & E & C & Eb);
    [unfold CAN_TX_SIZE in *; lia|lia|done|done|].
  fold id. rewrite E. unfold set_can. munfold. rewrite u8_id by (unfold CAN_TX_SIZE in *; lia).
  change (candata w1) with (candata w) in *. change (hw_trace w1) with (hw_trace w) in Eb.
  eexists. split; [reflexivity|].
  cbn [candata hw_trace cd_assigned_id upd eta eta_world eta_canbus_data].
  split_and!; [constructor; cbn; rewrite C; [done|lia|done]|by rewrite C|rewrite Eb; by eexists|].
  rewrite Eb, <- app_assoc. f_equal. unfold can_waiting.
  cbn [candata cd_transmit_pos cd_transmit_max cd_transmit_buf upd eta eta_world eta_canbus_data].
  rewrite C. by rewrite <- window_app by lia.
Qed.

(** [console_sendf] in terms of the stream. *)
Lemma can_sendf_ok max msg w :
  can_tx_ok (candata w) -> Z.of_nat (length msg) <= max <= CAN_TX_SIZE ->
  exists w', can_console_sendf max msg w = Ok tt w' /\
    can_tx_ok (candata w') /\ cd_assigned_id (candata w') = cd_assigned_id (candata w) /\
    hw_trace w' = hw_trace w /\
    can_waiting w' = can_waiting w ++
      (if Z.of_nat (length (can_waiting w)) + max <=? CAN_TX_SIZE then msg else []).
Proof.
  intros [Hl Hp Hx] Hm. unfold can_console_sendf, CAN_TX_SIZE in *.
  assert (Z.of_nat (length (can_waiting w))
    = cd_transmit_max (candata w) - cd_transmit_pos (candata w)) as El
    by (apply length_window; lia). rewrite El.
  set (tpos := cd_transmit_pos (candata w)) in *. set (tmax := cd_transmit_max (candata w)) in *.
  unfold can, set_can, canserial_notify_tx, sched_wake_task, sched_wake_tasks. munfold.
  fold tpos tmax. destruct (Z.leb_spec tmax tpos) as [Hc|Hc]; munfold.
  - rewrite Z.add_0_l, Z.sub_0_r. destruct (Z.ltb_spec 96 max); [lia|].
    destruct (Z.leb_spec (tmax - tpos + max) 96); [|lia]. rewrite Z.add_0_l, u8_id by lia.
    assert (can_waiting w = []) as -> by (apply window_empty; fold tmax tpos; lia).
    eexists. split; [reflexivity|]. split_and!; [|done|done|].
    + constructor; cbn; unfold CAN_TX_SIZE; rewrite ?length_copy_to; lia.
    + unfold can_waiting. cbn. apply window_fresh. lia.
  - destruct (Z.ltb_spec 96 (tmax + max)) as [Hr|Hr].
    + destruct (Z.ltb_spec 96 (tmax + max - tpos)).
      { destruct (Z.leb_spec (tmax - tpos + max) 96); [lia|]. exists w.
        rewrite app_nil_r. by split_and!. }
      destruct (Z.leb_spec (tmax - tpos + max) 96); [|lia]. munfold.
      rewrite !u8_id by lia. eexists. split; [reflexivity|]. split_and!; [|done|done|].
      * constructor; cbn; unfold CAN_TX_SIZE; rewrite ?length_copy_to; rewrite ?length_memmove; lia.
      * unfold can_waiting at 1. cbn. apply window_moved; lia.
    + destruct (Z.leb_spec (tmax - tpos + max) 96); [|lia]. munfold. rewrite !u8_id by lia.
      eexists. split; [reflexivity|]. split_and!; [|done|done|].
      * constructor; cbn; unfold CAN_TX_SIZE; fold tpos tmax; rewrite ?length_copy_to; lia.
      * unfold can_waiting at 1. cbn. fold tpos. apply window_copy_end; lia.
Qed.

(** The console of a node with the id [id]. *)
Program Definition can_tx (id : Z) : TxConsole world := {|
  tx_ok w := can_tx_ok (candata w) /\ cd_assigned_id (candata w) = id /\ id <> 0;
  tx_sent w := bus_sent (u32 (id + 1)) (hw_trace w);
  tx_waiting := can_waiting;
  tx_size := CAN_TX_SIZE;
  tx_put max msg w w' := can_console_sendf max msg w = Ok tt w';
  tx_drain w w' := canserial_tx_task w = Ok tt w'
|}.
Next Obligation.
  intros id max msg w w' (Hok & Hid & Hn) Hm E.
  destruct (can_sendf_ok max msg w Hok Hm) as (w1 & E1 & Hok1 & Hid1 & Ht & Ew).
  rewrite E in E1. injection E1 as <-. cbn beta in *. rewrite Ht, Ew, Hid1.
  by split_and!.
Qed.
Next Obligation.
  intros id w w' (Hok & Hid & Hn) E.
  destruct (can_tx_task_ok w Hok) as (w1 & E1 & Hok1 & Hid1 & Hpre & Eb);
    [congruence|]. rewrite E in E1. injection E1 as <-. rewrite Hid in *. by split_and!.
Qed.

Lemma can_tx_stream id w w' msgs :
  can_tx_ok (candata w) -> cd_assigned_id (candata w) = id -> id <> 0 ->
  tx_run (H := can_tx id) w msgs w' ->
  can_tx_ok (candata w') /\
  exists kept, sublist kept msgs /\
    bus_sent (u32 (id + 1)) (hw_trace w') ++ can_waiting w'
    = bus_sent (u32 (id + 1)) (hw_trace w) ++ can_waiting w ++ concat kept.
Proof.
  intros Hok Hid Hn Hrun.
  destruct (tx_run_stream (H := can_tx id) _ _ _ Hrun) as ((Hok' & _) & _ & Hk); [done|].
  by split.
Qed.
End CanTx.

(** canbus.c keeps the contract with a driver that sends the whole frame or
    reports that it is busy. *)
Section CanbusLaws.
Context `{CanHw}.

Definition canhw_ok : Prop :=
  forall n m, canhw_send_result n m = -1 \/ canhw_send_result n m = CANMSG_DATA_LEN m.

Hypothesis driver : canhw_ok.

Program Definition canbus_laws : CanBusLaws := {| bus_sent := bus_data |}.
Next Obligation.
  intros id n data w Hn Hl. cbn [cb_send canbus_c]. unfold canbus_send, canhw_send. munfold.
  set (m := mkCanMsg id n data).
  assert (CANMSG_DATA_LEN m = n) as Em
    by (unfold CANMSG_DATA_LEN; cbn; destruct (Z.ltb_spec 8 n); lia).
  destruct (driver (io_calls w) m) as [Er|Er]; rewrite Er, ?Em.
  - cbn [Z.leb Z.compare]. munfold. eexists _, _. split; [reflexivity|]. by auto.
  - rewrite (proj2 (Z.leb_le 0 n)) by lia. unfold hw. munfold. eexists _, _. split; [reflexivity|].
    split; [done|]. right. split; [done|]. cbn [bus_data hw_trace upd eta eta_world cm_id cm_data m].
    by rewrite Z.eqb_refl.
Qed.

End CanbusLaws.

(** A driver whose third call finds the hardware busy. *)
Definition sample_can : CanHw := {|
  canhw_send_result n m := if (n =? 2)%nat then -1 else CANMSG_DATA_LEN m;
  canhw_get_status _ := mkCanStatus 0 0 0 0;
  fasthash64 _ _ := 0x123456789abcdef0;
  HAVE_BOOTLOADER_REQUEST := false;
  bootloader_request := mret tt
|}.

Lemma sample_driver : canhw_ok (H := sample_can).
Proof. intros n m. unfold canhw_send_result, sample_can. destruct (n =? 2)%nat; [by left|by right]. Qed.

(** A node with the id 0x10a. *)
Definition can_world : world :=
  initial_world <| candata ::= fun c => c <| cd_assigned_id := 0x10a |> <| cd_uuid := [1; 2; 3; 4; 5; 6] |> |>.

