(* ===== verification/CanProps.v ===== *)
(** * Receiving over the CAN bus: src/src/generic/canserial.c

    Frames of data and administrative frames arrive in an interrupt, also in
    the middle of the task that consumes them.  The receive buffer keeps the
    byte stream, the ring of administrative messages is a queue, and an id is
    assigned, reported and given up as the protocol demands. *)
From S2P Require Import Prelude Buffers Protocol World Frames Sched Command CanSerial Firmware Sample ConsoleProps.

(** A message of the hardware. *)
Definition msg_ok (m : canbus_msg) : Prop := length (cm_data m) = 8%nat /\ 0 <= cm_dlc m.

(** ** What a received message does to [CanData] *)

(** The bytes of a frame addressed to the node [id]. *)
Definition frame_bytes (id : Z) (m : canbus_msg) : list Z :=
  if negb (id =? 0) && (cm_id m =? id) then take (Z.to_nat (CANMSG_DATA_LEN m)) (cm_data m) else [].

(** Frames are accepted as long as they fit as a whole. *)
Fixpoint accepted (id : Z) (space : nat) (msgs : list canbus_msg) : list Z :=
  match msgs with
  | [] => []
  | m :: msgs =>
      let d := frame_bytes id m in
      if (length d <=? space)%nat then d ++ accepted id (space - length d) msgs
      else accepted id space msgs
  end.

Lemma accepted_app id a b : forall space,
  accepted id space (a ++ b)
  = accepted id space a ++ accepted id (space - length (accepted id space a)) b.
Proof.
  induction a as [|m a IH]; intros space; [by rewrite Nat.sub_0_r|]. cbn [app accepted].
  destruct (_ <=? space)%nat; [|apply IH]. rewrite IH, <- app_assoc, length_app.
  do 3 f_equal. lia.
Qed.

Lemma accepted_le id msgs : forall space, (length (accepted id space msgs) <= space)%nat.
Proof.
  induction msgs as [|m msgs IH]; intros space; cbn [accepted length]; [lia|].
  destruct (Nat.leb_spec (length (frame_bytes id m)) space); [|apply IH].
  rewrite length_app. pose proof (IH (space - length (frame_bytes id m))%nat). lia.
Qed.

(** The administrative messages of a node. *)
Definition is_admin (id : Z) (m : canbus_msg) : bool :=
  (cm_id m =? CANBUS_ID_ADMIN) || (negb (id =? 0) && (cm_id m =? u32 (id + 1))).

(** [canserial_process_data] on [CanData]. *)
Definition recv (m : canbus_msg) (c : canbus_data) : canbus_data :=
  let id := cd_assigned_id c in
  if negb (id =? 0) && (cm_id m =? id) then
    if u32 (CAN_RX_SIZE - cd_receive_pos c) <? CANMSG_DATA_LEN m then c
    else c <| cd_receive_buf ::= copy_to (Z.to_nat (cd_receive_pos c)) (frame_bytes id m) |>
           <| cd_receive_pos := u8 (cd_receive_pos c + CANMSG_DATA_LEN m) |>
  else if is_admin id m then
    if u32 (cd_admin_pull_pos c + ADMIN_QUEUE_SIZE) <=? cd_admin_push_pos c then c
    else c <| cd_admin_queue ::= <[Z.to_nat (cd_admin_push_pos c mod ADMIN_QUEUE_SIZE) := m]> |>
           <| cd_admin_push_pos := u32 (cd_admin_push_pos c + 1) |>
  else c.

(** Nothing else changes but the pending tasks. *)
Definition only_rx (w w' : world) : Prop :=
  w' = w <| candata := candata w' |> <| woken := woken w' |> <| tasks_status := tasks_status w' |>.

#[export] Instance only_rx_preorder : PreOrder only_rx.
Proof.
  split; [intros w; by destruct w|]. intros w1 w2 w3 E1 E2. unfold only_rx in *.
  rewrite E2, E1. by destruct w3.
Qed.

Lemma process_data_recv m w : exists w',
  canserial_process_data m w = Ok tt w' /\ candata w' = recv m (candata w) /\ only_rx w w'.
Proof.
  unfold canserial_process_data, recv, is_admin, frame_bytes, can, set_can, canserial_notify_rx,
    sched_wake_task, sched_wake_tasks, only_rx. munfold.
  repeat case_match; eexists; (split; [reflexivity|]); split; try done; try (by destruct w).
Qed.

Lemma can_irqs_recv msgs : forall w, exists w',
  can_irqs msgs w = Ok tt w' /\ candata w' = foldl (fun c m => recv m c) (candata w) msgs /\
  only_rx w w'.
Proof.
  induction msgs as [|m msgs IH]; intros w; [by exists w|]. cbn [can_irqs foldl].
  destruct (process_data_recv m w) as (w1 & E1 & C1 & F1).
  unfold canbus_process_data. rewrite (bind_ok _ _ _ _ _ E1).
  destruct (IH w1) as (w2 & E2 & C2 & F2). exists w2. rewrite C2, C1.
  split_and!; [done|done|by etrans].
Qed.

(** ** Data frames while a block is removed *)

Definition can_pending (c : canbus_data) : list Z :=
  take (Z.to_nat (cd_receive_pos c)) (cd_receive_buf c).

Record can_rx_ok (c : canbus_data) : Prop := {
  crx_len : length (cd_receive_buf c) = 192%nat;
  crx_pos : 0 <= cd_receive_pos c <= CAN_RX_SIZE
}.

(** The buffer in the middle of [console_pop_input]. *)
Record popping_can (id len copied : Z) (P : list Z) (c : canbus_data) : Prop := {
  pc_len : length (cd_receive_buf c) = 192%nat;
  pc_id : cd_assigned_id c = id;
  pc_pos : cd_receive_pos c = Z.of_nat (length P);
  pc_range : 0 <= len /\ 0 <= copied;
  pc_buf : popping (Z.to_nat len) (Z.to_nat copied) P (cd_receive_buf c)
}.

Lemma length_frame_bytes id m : msg_ok m ->
  Z.of_nat (length (frame_bytes id m))
  = if negb (id =? 0) && (cm_id m =? id) then CANMSG_DATA_LEN m else 0.
Proof.
  intros [Hl Hd]. unfold frame_bytes, CANMSG_DATA_LEN. destruct (_ && _); [|done].
  rewrite length_take. destruct (Z.ltb_spec 8 (cm_dlc m)); lia.
Qed.

Lemma popping_recv id len copied P m c :
  popping_can id len copied P c -> msg_ok m ->
  popping_can id len copied (P ++ accepted id (free_after P) [m]) (recv m c).
Proof.
  intros [Hl Hi Hp Hr Hb] Hm. pose proof (length_frame_bytes id m Hm) as Hf.
  pose proof (pop_bound _ _ _ _ Hb) as Hbd. unfold recv, CAN_RX_SIZE. rewrite Hi, Hp.
  cbn [accepted]. destruct (negb (id =? 0) && (cm_id m =? id)) eqn:Ec.
  - rewrite u32_id by lia.
    destruct (Z.ltb_spec (192 - Z.of_nat (length P)) (CANMSG_DATA_LEN m));
      destruct (Nat.leb_spec (length (frame_bytes id m)) (free_after P)); unfold free_after in *;
      try lia; rewrite ?app_nil_r; [by constructor|].
    constructor; cbn [cd_receive_buf cd_receive_pos cd_assigned_id upd eta eta_canbus_data];
      [by rewrite length_copy_to; [|lia]|done|rewrite length_app; word_lia|done|].
    rewrite Nat2Z.id. apply popping_arrive; [done|lia].
  - assert (frame_bytes id m = []) as -> by (apply nil_length_inv; lia).
    cbn [length Nat.leb app]. rewrite app_nil_r. by repeat case_match; constructor.
Qed.

Lemma popping_recv_all id len copied msgs : forall P c,
  popping_can id len copied P c -> Forall msg_ok msgs ->
  popping_can id len copied (P ++ accepted id (free_after P) msgs)
    (foldl (fun c m => recv m c) c msgs).
Proof.
  induction msgs as [|m msgs IH]; intros P c Hp Hm; [by rewrite app_nil_r|].
  apply Forall_cons in Hm as [Hm Hms]. cbn [foldl].
  pose proof (IH _ _ (popping_recv _ _ _ _ m _ Hp Hm) Hms) as Hn.
  change (m :: msgs) with ([m] ++ msgs). rewrite accepted_app, app_assoc.
  replace (free_after P - length (accepted id (free_after P) [m]))%nat
    with (free_after (P ++ accepted id (free_after P) [m])); [done|].
  unfold free_after. rewrite length_app. lia.
Qed.

Lemma can_pop_copy_ok id len copied n P w :
  popping_can id len copied P (candata w) -> copied <= n - len -> 0 <= n - len ->
  n <= Z.of_nat (length P) ->
  exists w', can_pop_copy len copied n w = Ok (n - len) w' /\
    popping_can id len (n - len) P (candata w') /\ only_rx w w'.
Proof.
  intros [Hl Hi Hp Hr Hb] Hc Hn Hle. pose proof (pop_bound _ _ _ _ Hb).
  unfold can_pop_copy. destruct (Z.eqb_spec (n - len) 0) as [E|E].
  { exists w. replace copied with (n - len) in * by lia. by split_and!. }
  unfold set_can, canserial_notify_rx, sched_wake_task, sched_wake_tasks. munfold.
  eexists. split; [reflexivity|]. split; [|by destruct w].
  constructor; cbn [candata cd_receive_buf cd_receive_pos cd_assigned_id upd eta eta_world
    eta_canbus_data]; [rewrite length_memmove; lia|done|done|lia|].
  replace (Z.to_nat (copied + len)) with (Z.to_nat copied + Z.to_nat len)%nat by lia.
  replace (Z.to_nat (n - len - copied)) with (Z.to_nat (n - len) - Z.to_nat copied)%nat by lia.
  apply popping_copy; [done|lia..].
Qed.

Lemma take_accepted id P a b :
  P ++ accepted id (free_after P) (a ++ b) =
  (P ++ accepted id (free_after P) a)
    ++ accepted id (free_after (P ++ accepted id (free_after P) a)) b.
Proof.
  rewrite accepted_app, app_assoc. unfold free_after. rewrite length_app. do 2 f_equal. lia.
Qed.

Lemma can_pop_pass_ok id early late len copied P w :
  popping_can id len copied P (candata w) -> 0 <= len <= Z.of_nat (length P) ->
  Forall msg_ok (early ++ late) ->
  exists w', can_pop_pass early late len copied w = Ok (Z.of_nat (length P) - len) w' /\
    popping_can id len (Z.of_nat (length P) - len)
      (P ++ accepted id (free_after P) (early ++ late)) (candata w') /\ only_rx w w'.
Proof.
  intros Hs Hlen [Hm1 Hm2]%Forall_app. pose proof Hs as [Hl Hi Hp Hr Hb].
  pose proof (pop_bound _ _ _ _ Hb) as Hbd. unfold can_pop_pass, can.
  destruct (can_irqs_recv early w) as (w1 & E1 & C1 & F1).
  pose proof (popping_recv_all _ _ _ early _ _ Hs Hm1) as H1. rewrite <- C1 in H1.
  munfold. rewrite E1, Hp. set (P1 := P ++ accepted id (free_after P) early) in *.
  assert (length P <= length P1)%nat by (unfold P1; rewrite length_app; lia).
  destruct (can_pop_copy_ok id len copied (Z.of_nat (length P)) P1 w1 H1)
    as (w2 & E2 & H2 & F2); [lia..|]. rewrite E2.
  destruct (can_irqs_recv late w2) as (w3 & E3 & C3 & F3). rewrite E3.
  pose proof (popping_recv_all _ _ _ late _ _ H2 Hm2) as H3. rewrite <- C3 in H3.
  exists w3. rewrite take_accepted. split_and!; [done|done|]. by do 2 (etrans; [eassumption|]).
Qed.

Lemma can_popping_finish id len P w :
  popping_can id len (Z.of_nat (length P) - len) P (candata w) -> 0 <= len <= Z.of_nat (length P) ->
  exists w', set_can (fun c => c <| cd_receive_pos := u8 (Z.of_nat (length P) - len) |>) w = Ok tt w' /\
    can_rx_ok (candata w') /\ can_pending (candata w') = drop (Z.to_nat len) P /\ only_rx w w'.
Proof.
  intros [Hl Hi Hp Hr Hb] Hlen. pose proof (pop_bound _ _ _ _ Hb).
  assert (u8 (Z.of_nat (length P) - len) = Z.of_nat (length P) - len) as E by word_lia.
  eexists. split; [reflexivity|]. unfold can_pending, CAN_RX_SIZE in *. split_and!.
  - constructor; cbn; unfold CAN_RX_SIZE; rewrite ?E; [done|lia].
  - cbn [candata cd_receive_pos cd_receive_buf upd eta eta_world eta_canbus_data]. rewrite E.
    replace (Z.to_nat (_ - len)) with (length P - Z.to_nat len)%nat in * by lia.
    by apply popping_done.
  - by destruct w.
Qed.

Lemma can_pop_loop_ok id irqs : forall len copied P w,
  popping_can id len copied P (candata w) -> 0 <= len <= Z.of_nat (length P) ->
  Forall msg_ok (arrivals irqs) ->
  exists k w', (k <= length irqs)%nat /\ can_pop_loop irqs len copied w = Ok tt w' /\
    only_rx w w' /\ can_rx_ok (candata w') /\
    can_pending (candata w')
      = drop (Z.to_nat len) (P ++ accepted id (free_after P) (arrivals (take k irqs))).
Proof.
  induction irqs as [|[early late] irqs IH]; intros len copied P w Hs Hlen Hm;
    cbn [can_pop_loop head from_option Datatypes.id]; unfold can; munfold; rewrite (pc_pos _ _ _ _ _ Hs).
  - destruct (can_pop_pass_ok id [] [] len copied P w Hs Hlen) as (w1 & E & H1 & F1); [done|].
    rewrite E. cbn [app accepted] in H1. rewrite app_nil_r in H1.
    destruct (can_popping_finish _ _ _ _ H1 Hlen) as (w2 & E2 & Hok & Hpend & F2).
    exists 0%nat, w2. unfold arrivals. cbn [take map concat accepted]. rewrite app_nil_r.
    split_and!; [lia|done|by etrans|done|done].
  - unfold arrivals in Hm. cbn [map concat fst snd] in Hm. apply Forall_app in Hm as [Hm1 Hm2].
    destruct (can_pop_pass_ok id early late len copied P w Hs Hlen Hm1) as (w1 & E & H1 & F1).
    rewrite E, (pc_pos _ _ _ _ _ H1).
    set (P1 := P ++ accepted id (free_after P) (early ++ late)) in *.
    assert (length P <= length P1)%nat by (unfold P1; rewrite length_app; lia).
    destruct (Z.eqb_spec (Z.of_nat (length P)) (Z.of_nat (length P1))) as [En|En]; cbn [negb].
    + assert (P1 = P) as EP.
      { unfold P1 in *. rewrite length_app in En.
        rewrite (nil_length_inv (accepted id (free_after P) (early ++ late))) by lia. apply app_nil_r. }
      rewrite EP in H1. destruct (can_popping_finish _ _ _ _ H1 Hlen) as (w2 & E2 & Hok & Hpend & F2).
      exists 1%nat, w2. split_and!; [simpl; lia|done|by etrans|done|]. rewrite Hpend.
      unfold arrivals. cbn [take map concat fst snd]. rewrite app_nil_r. by fold P1; rewrite EP.
    + destruct (IH len (Z.of_nat (length P) - len) P1 w1 H1 ltac:(lia) Hm2)
        as (k & w' & Hk & E' & F' & Hok & Hpend).
      exists (S k), w'. split_and!; [simpl; lia|exact E'|by etrans|done|].
      rewrite Hpend. unfold arrivals. cbn [take map concat fst snd]. by rewrite take_accepted.
Qed.

(** Whatever frames the interrupt receives while [console_pop_input]
    removes a block of [len] bytes, the call returns and the buffer then holds
    the other bytes followed by the data of the frames for this node that fit
    as a whole, in order. *)
Theorem can_pop_race irqs len w :
  can_rx_ok (candata w) -> 0 <= len <= cd_receive_pos (candata w) -> Forall msg_ok (arrivals irqs) ->
  exists k w', (k <= length irqs)%nat /\ can_pop_input irqs len w = Ok tt w' /\
    only_rx w w' /\ can_rx_ok (candata w') /\
    can_pending (candata w') = drop (Z.to_nat len) (can_pending (candata w))
      ++ accepted (cd_assigned_id (candata w)) (192 - length (can_pending (candata w)))
           (arrivals (take k irqs)).
Proof.
  intros [Hl Hp] Hlen Hm. unfold CAN_RX_SIZE in *.
  assert (Z.of_nat (length (can_pending (candata w))) = cd_receive_pos (candata w)) as El
    by (unfold can_pending; rewrite length_take; lia).
  destruct (can_pop_loop_ok (cd_assigned_id (candata w)) irqs len 0 (can_pending (candata w)) w)
    as (k & w' & Hk & E & F & Hok & Hpend).
  - constructor; [done|done|lia|lia|]. apply popping_start; [|lia].
    unfold can_pending. rewrite length_take. f_equal. lia.
  - lia.
  - done.
  - exists k, w'. split_and!; [done|exact E|done|done|]. rewrite Hpend, drop_app_le by lia. done.
Qed.

(** The node 0x10a with nine bytes received. *)
Definition can_rx_world : world :=
  after (can_irqs [mkCanMsg 0x10a 8 [7; 0x10; 1; 2; 3; 4; 0x7e; 9];
                   mkCanMsg 0x10a 1 [0x11; 0; 0; 0; 0; 0; 0; 0]]) can_world.

(** A data frame, a frame for another node and an administrative frame. *)
Definition can_rx_irqs : list (list canbus_msg * list canbus_msg) :=
  [([mkCanMsg 0x10a 3 [1; 2; 3; 0; 0; 0; 0; 0]], [mkCanMsg 0x10c 2 [8; 8; 0; 0; 0; 0; 0; 0]]);
   ([], [mkCanMsg 0x3f0 1 [0; 0; 0; 0; 0; 0; 0; 0]])].

Lemma can_pop_race_witness :
  exists k w', (k <= 2)%nat /\ can_pop_input can_rx_irqs 7 can_rx_world = Ok tt w' /\
    only_rx can_rx_world w' /\ can_rx_ok (candata w') /\
    can_pending (candata w') = drop 7 (can_pending (candata can_rx_world))
      ++ accepted 0x10a (192 - length (can_pending (candata can_rx_world)))
           (arrivals (take k can_rx_irqs)).
Proof.
  apply (can_pop_race can_rx_irqs 7 can_rx_world).
  - constructor; vm_compute; [done|by split].
  - vm_compute. by split.
  - repeat constructor; vm_compute; done.
Defined.

(** ** The queue of administrative messages *)

(** The messages between [admin_pull_pos] and [admin_push_pos]. *)
Definition admin_pending (c : canbus_data) : list canbus_msg :=
  map (fun i => default canbus_msg_zero (cd_admin_queue c !! Z.to_nat (i mod ADMIN_QUEUE_SIZE)))
    (seqZ (cd_admin_pull_pos c) (cd_admin_push_pos c - cd_admin_pull_pos c)).

Record admin_ok (c : canbus_data) : Prop := {
  ad_len : length (cd_admin_queue c) = 8%nat;
  ad_pos : 0 <= cd_admin_pull_pos c <= cd_admin_push_pos c;
  ad_max : cd_admin_push_pos c <= cd_admin_pull_pos c + ADMIN_QUEUE_SIZE
}.

Lemma length_admin_pending c : admin_ok c ->
  Z.of_nat (length (admin_pending c)) = cd_admin_push_pos c - cd_admin_pull_pos c.
Proof. intros [_ Hp _]. unfold admin_pending. rewrite length_map, length_seqZ. lia. Qed.

(** A message for the queue is appended if there is room. *)
Lemma recv_admin m c :
  admin_ok c -> cd_admin_pull_pos c + ADMIN_QUEUE_SIZE < 2 ^ 32 ->
  is_admin (cd_assigned_id c) m = true -> cm_id m <> cd_assigned_id c ->
  admin_ok (recv m c) /\ cd_admin_pull_pos (recv m c) = cd_admin_pull_pos c /\
  cd_assigned_id (recv m c) = cd_assigned_id c /\
  admin_pending (recv m c)
    = if (length (admin_pending c) <? 8)%nat then admin_pending c ++ [m] else admin_pending c.
Proof.
  intros Hok Hb Ha Hi. pose proof (length_admin_pending c Hok) as Hl. pose proof Hok as [Hq Hp Hm].
  unfold recv, ADMIN_QUEUE_SIZE in *. rewrite Ha, (proj2 (Z.eqb_neq _ _) Hi), andb_false_r.
  rewrite u32_id by lia.
  destruct (Z.leb_spec (cd_admin_pull_pos c + 8) (cd_admin_push_pos c)) as [Hf|Hf];
    destruct (Nat.ltb_spec (length (admin_pending c)) 8); try lia; [done|].
  rewrite u32_id by lia. split_and!; [|done|done|].
  { constructor; cbn; unfold ADMIN_QUEUE_SIZE; rewrite ?length_insert; [done|lia..]. }
  unfold admin_pending. cbn [cd_admin_queue cd_admin_pull_pos cd_admin_push_pos upd eta eta_canbus_data].
  unfold ADMIN_QUEUE_SIZE. set (pull := cd_admin_pull_pos c) in *. set (push := cd_admin_push_pos c) in *.
  replace (push + 1 - pull) with ((push - pull) + 1) by lia. rewrite seqZ_app, map_app by lia.
  f_equal.
  - apply map_ext_in. intros i [Hi1 Hi2]%list_elem_of_In%elem_of_seqZ.
    rewrite list_lookup_insert_ne; [done|]. intros E%(f_equal Z.of_nat).
    rewrite !Z2Nat.id in E by (apply Z.mod_pos_bound; lia). revert E.
    clear -Hi1 Hi2 Hf. intros E. Z.to_euclidean_division_equations. lia.
  - replace (pull + (push - pull)) with push by lia.
    change (seqZ push 1) with [0 + push]. cbn [map]. rewrite Z.add_0_l.
    rewrite list_lookup_insert_eq; [done|]. rewrite Hq. pose proof (Z.mod_pos_bound push 8). lia.
Qed.

Lemma recv_all_admin msgs : forall c,
  admin_ok c -> cd_admin_pull_pos c + ADMIN_QUEUE_SIZE < 2 ^ 32 ->
  Forall (fun m => is_admin (cd_assigned_id c) m = true /\ cm_id m <> cd_assigned_id c) msgs ->
  let c' := foldl (fun c m => recv m c) c msgs in
  admin_ok c' /\ cd_admin_pull_pos c' = cd_admin_pull_pos c /\
  admin_pending c' = take 8 (admin_pending c ++ msgs).
Proof.
  induction msgs as [|m msgs IH]; intros c Hok Hb Hm.
  - cbn. rewrite app_nil_r, take_ge; [done|]. pose proof (length_admin_pending c Hok).
    destruct Hok as [_ _ Hx]. unfold ADMIN_QUEUE_SIZE in *. lia.
  - apply Forall_cons in Hm as [[Ha Hi] Hm].
    destruct (recv_admin m c Hok Hb Ha Hi) as (Hok1 & E1 & I1 & P1). cbn [foldl].
    destruct (IH (recv m c)) as (Hok2 & E2 & P2); [done|by rewrite E1|by rewrite I1|].
    split_and!; [done|by rewrite E2|]. rewrite P2, P1.
    pose proof (length_admin_pending c Hok) as Hl. destruct Hok as [_ _ Hx].
    unfold ADMIN_QUEUE_SIZE in *.
    destruct (Nat.ltb_spec (length (admin_pending c)) 8); [by rewrite <- app_assoc|].
    rewrite !take_app_le by lia. done.
Qed.

Lemma admin_pending_cons c : admin_ok c -> cd_admin_pull_pos c <> cd_admin_push_pos c ->
  exists m, cd_admin_queue c !! Z.to_nat (cd_admin_pull_pos c mod ADMIN_QUEUE_SIZE) = Some m /\
    admin_pending c = m :: admin_pending (c <| cd_admin_pull_pos := cd_admin_pull_pos c + 1 |>).
Proof.
  intros [Hq Hp Hm] Hne. unfold ADMIN_QUEUE_SIZE in *.
  destruct (lookup_lt_is_Some_2 (cd_admin_queue c) (Z.to_nat (cd_admin_pull_pos c mod 8))) as [m Em].
  { rewrite Hq. pose proof (Z.mod_pos_bound (cd_admin_pull_pos c) 8). lia. }
  exists m. split; [done|]. unfold admin_pending, ADMIN_QUEUE_SIZE.
  cbn [cd_admin_queue cd_admin_pull_pos cd_admin_push_pos upd eta eta_canbus_data].
  rewrite seqZ_cons by lia. cbn [map]. rewrite Em. cbn [default from_option id]. f_equal.
  f_equal. f_equal; lia.
Qed.

(** Everything about the queue is the same. *)
Definition admin_same (w w' : world) : Prop :=
  cd_admin_queue (candata w') = cd_admin_queue (candata w) /\
  cd_admin_pull_pos (candata w') = cd_admin_pull_pos (candata w) /\
  cd_admin_push_pos (candata w') = cd_admin_push_pos (candata w).

#[export] Instance admin_same_preorder : PreOrder admin_same.
Proof. split; unfold admin_same; [done|]. intros ??? (?&?&?) (?&?&?). split_and!; congruence. Qed.

Section Admin.
Context `{Board} `{CanHw}.

(** Entering the bootloader does not queue administrative messages. *)
Hypothesis bootloader_same : Keeps admin_same bootloader_request.

Lemma canbus_send_same m : Keeps admin_same (cb_send m).
Proof. cbn [cb_send canbus_c]. unfold canbus_send, canhw_send, hw. frame_solve; done. Qed.

Lemma send_retry_same fuel m : Keeps admin_same (send_retry fuel m).
Proof.
  induction fuel as [|fuel IH]; cbn [send_retry]; [apply keeps_fault; exact _|].
  apply keeps_bind; [exact _|apply canbus_send_same|]. intros ret.
  destruct (0 <=? ret); [apply keeps_ret; exact _|done].
Qed.

Lemma can_admin_message_same m : Keeps admin_same (can_admin_message m).
Proof.
  pose proof send_retry_same.
  unfold can_admin_message, can_id_conflict, can_process_admin, can_process_query_unassigned,
    can_process_set_klipper_nodeid, can_process_request_bootloader, can_check_uuid, can, set_can.
  cbn [cb_set_filter canbus_c]. unfold canbus_set_filter, hw.
  repeat (frame_solve; eauto); done.
Qed.

(** The ids that can be assigned. *)
Definition valid_id (id : Z) : Prop := exists b, 0 <= b < 256 /\ id = can_decode_nodeid b.

Lemma valid_id_range id : valid_id id -> 0x100 <= id <= 0x2fe.
Proof.
  intros (b & Hb & ->). unfold can_decode_nodeid. rewrite Z.shiftl_mul_pow2 by lia. word_lia.
Qed.

(** The reference: a list of messages, handled one after the other. *)
Fixpoint admin_each (msgs : list canbus_msg) : M unit :=
  match msgs with
  | [] => mret tt
  | m :: msgs =>
      can_admin_message m ;;
      set_can (fun c => c <| cd_admin_pull_pos ::= fun p => u32 (p + 1) |>) ;;
      admin_each msgs
  end.

Lemma admin_loop_each fuel : forall w,
  admin_ok (candata w) -> cd_admin_push_pos (candata w) < 2 ^ 32 ->
  (length (admin_pending (candata w)) <= fuel)%nat ->
  can_admin_loop fuel [] w = admin_each (admin_pending (candata w)) w.
Proof.
  induction fuel as [|fuel IH]; intros w Hok Hb Hf; pose proof (length_admin_pending _ Hok) as Hl;
    cbn [can_admin_loop head from_option can_irqs]; unfold can; munfold.
  - rewrite (nil_length_inv (admin_pending (candata w))) by lia.
    rewrite (proj2 (Z.eqb_eq _ _)) by lia. done.
  - destruct (Z.eqb_spec (cd_admin_push_pos (candata w)) (cd_admin_pull_pos (candata w))) as [E|E].
    { by rewrite (nil_length_inv (admin_pending (candata w))) by lia. }
    destruct (admin_pending_cons _ Hok) as (m & Em & Ep); [congruence|].
    rewrite Em, Ep. cbn [deref admin_each]. munfold. cbn [tail can_irqs].
    destruct (can_admin_message m w) as [[] w1|r w1|] eqn:E1; [|done|done].
    destruct (can_admin_message_same m w w1) as (S1 & S2 & S3); [by rewrite E1|].
    unfold set_can. munfold.
    set (w2 := w1 <| candata ::= fun c => c <| cd_admin_pull_pos ::= fun p => u32 (p + 1) |> |>).
    pose proof Hok as [Hq Hp Hm].
    assert (u32 (cd_admin_pull_pos (candata w) + 1) = cd_admin_pull_pos (candata w) + 1) as Eu
      by (apply u32_id; lia).
    replace (w1 <| candata ::= fun c =>
        c <| cd_admin_pull_pos := u32 (cd_admin_pull_pos (candata w) + 1) |> |>)
      with w2 by (rewrite <- S2; reflexivity).
    assert (admin_pending (candata w2) = admin_pending
      ((candata w) <| cd_admin_pull_pos := cd_admin_pull_pos (candata w) + 1 |>)) as Ep2
      by (unfold admin_pending; cbn; by rewrite S1, S2, S3, Eu).
    rewrite <- Ep2. apply IH.
    + constructor; cbn; rewrite ?S1, ?S2, ?S3, ?Eu; unfold ADMIN_QUEUE_SIZE in *; [done|lia..].
    + cbn. by rewrite S3.
    + rewrite Ep2. rewrite Ep in Hf. cbn in Hf. lia.
Qed.

(** The ring of eight administrative messages is a queue: after any number
    of arrivals the loop of [canserial_rx_task] handles the first eight
    waiting messages one after the other in the order of their arrival, and
    eight passes are enough. *)
Theorem can_admin_fifo msgs w :
  admin_ok (candata w) -> cd_admin_pull_pos (candata w) + ADMIN_QUEUE_SIZE < 2 ^ 32 ->
  Forall (fun m => is_admin (cd_assigned_id (candata w)) m = true
                   /\ cm_id m <> cd_assigned_id (candata w)) msgs ->
  exists w', can_irqs msgs w = Ok tt w' /\
    can_admin_loop 8 [] w' = admin_each (take 8 (admin_pending (candata w) ++ msgs)) w'.
Proof.
  intros Hok Hb Hm. destruct (can_irqs_recv msgs w) as (w' & E & C & F). exists w'. split; [done|].
  destruct (recv_all_admin msgs (candata w) Hok Hb Hm) as (Hok' & Ep & Eq). rewrite <- C in *.
  rewrite <- Eq. apply admin_loop_each; [done| |].
  - destruct Hok' as [_ _ Hx]. unfold ADMIN_QUEUE_SIZE in *. lia.
  - pose proof (length_admin_pending _ Hok'). destruct Hok' as [_ _ Hx].
    unfold ADMIN_QUEUE_SIZE in *. lia.
Qed.

(** when another node sends with the id of this one, the node gives its id
    up and shuts down; the message is still queued then, and the next run of
    the task ignores it, so that the node does not shut down again. *)
Theorem can_conflict_once w m rest :
  admin_ok (candata w) -> cd_admin_push_pos (candata w) < 2 ^ 32 ->
  valid_id (cd_assigned_id (candata w)) ->
  admin_pending (candata w) = m :: rest -> cm_id m = cd_assigned_id (candata w) + 1 ->
  exists w1, can_admin_loop 8 [] w = Shut "Another CAN node assigned this ID" w1 /\
    cd_assigned_id (candata w1) = 0 /\ admin_pending (candata w1) = m :: rest /\
    hw_trace w1 = HwCanFilter 0 :: hw_trace w /\
    can_admin_loop 8 [] w1
      = (set_can (fun c => c <| cd_admin_pull_pos ::= fun p => u32 (p + 1) |>) ;; admin_each rest) w1.
Proof.
  intros Hok Hb Hid Ep Em. pose proof (length_admin_pending _ Hok) as Hl. pose proof Hok as [Hq Hp Hx].
  unfold ADMIN_QUEUE_SIZE in *.
  pose proof (valid_id_range _ Hid) as Hr.
  assert (forall w', (cd_assigned_id (candata w') = 0 -> can_admin_message m w' = Ok tt w')) as Hi.
  { intros w' E. unfold can_admin_message, can. munfold. rewrite E. cbn [Z.eqb negb andb].
    rewrite (proj2 (Z.eqb_neq _ _)) by (unfold CANBUS_ID_ADMIN; lia). done. }
  set (w1 := w <| candata ::= fun c => c <| cd_assigned_id := 0 |> |>
               <| hw_trace := HwCanFilter 0 :: hw_trace w |>).
  exists w1. split_and!; [|done|done|done|].
  - rewrite admin_loop_each by (done || lia). rewrite Ep. cbn [admin_each]. munfold.
    unfold can_admin_message, can. munfold. rewrite Em, u32_id by lia.
    rewrite (proj2 (Z.eqb_neq _ _)), Z.eqb_refl by lia. cbn [negb andb].
    unfold can_id_conflict, set_can, can. cbn [cb_set_filter canbus_c].
    unfold canbus_set_filter, hw, shutdown. munfold. done.
  - rewrite admin_loop_each; [|constructor; done|done|].
    + change (admin_pending (candata w1)) with (admin_pending (candata w)). rewrite Ep.
      cbn [admin_each]. munfold. by rewrite Hi.
    + change (admin_pending (candata w1)) with (admin_pending (candata w)). lia.
Qed.
End Admin.

(** A node that was asked for its id and then sees a frame with its own id. *)
Definition can_admin_world : world :=
  after (can_irqs [mkCanMsg 0x10b 2 [1; 2; 0; 0; 0; 0; 0; 0];
                   mkCanMsg 0x3f0 1 [0; 0; 0; 0; 0; 0; 0; 0]]) can_world.

Lemma sample_bootloader : Keeps admin_same (@bootloader_request sample_can).
Proof. apply keeps_ret. exact _. Qed.

Lemma admin_world_ok : admin_ok (candata can_admin_world).
Proof. constructor; vm_compute; [done|by split|done]. Qed.

Lemma can_admin_fifo_witness :
  exists w', can_irqs (replicate 7 (mkCanMsg 0x3f0 1 [0; 0; 0; 0; 0; 0; 0; 0])) can_admin_world = Ok tt w' /\
    @can_admin_loop sample_board sample_can (@canbus_c sample_can) 8 [] w'
    = @admin_each sample_board sample_can (take 8 (admin_pending (candata can_admin_world)
        ++ replicate 7 (mkCanMsg 0x3f0 1 [0; 0; 0; 0; 0; 0; 0; 0]))) w'.
Proof.
  apply (@can_admin_fifo sample_board sample_can sample_bootloader).
  - apply admin_world_ok.
  - vm_compute. reflexivity.
  - repeat constructor; vm_compute; done.
Defined.

Lemma can_conflict_once_witness :
  exists w1, @can_admin_loop sample_board sample_can (@canbus_c sample_can) 8 [] can_admin_world
               = Shut "Another CAN node assigned this ID" w1 /\
    cd_assigned_id (candata w1) = 0 /\
    admin_pending (candata w1) = [mkCanMsg 0x10b 2 [1; 2; 0; 0; 0; 0; 0; 0];
                                  mkCanMsg 0x3f0 1 [0; 0; 0; 0; 0; 0; 0; 0]] /\
    hw_trace w1 = HwCanFilter 0 :: hw_trace can_admin_world /\
    @can_admin_loop sample_board sample_can (@canbus_c sample_can) 8 [] w1
      = (set_can (fun c => c <| cd_admin_pull_pos ::= fun p => u32 (p + 1) |>) ;;
         @admin_each sample_board sample_can [mkCanMsg 0x3f0 1 [0; 0; 0; 0; 0; 0; 0; 0]]) w1.
Proof.
  apply (@can_conflict_once sample_board sample_can sample_bootloader can_admin_world
    (mkCanMsg 0x10b 2 [1; 2; 0; 0; 0; 0; 0; 0]) [mkCanMsg 0x3f0 1 [0; 0; 0; 0; 0; 0; 0; 0]]).
  - apply admin_world_ok.
  - vm_compute. reflexivity.
  - exists 5. split; [lia|reflexivity].
  - vm_compute. reflexivity.
  - vm_compute. reflexivity.
Defined.

(** C39: the positions of the ring count all messages and are compared without
    regard to their wrap around: once they reach the last eight values of an
    [uint32_t], every administrative message is dropped although the queue is
    empty. *)
Theorem can_admin_blocked m w :
  2 ^ 32 - 8 <= cd_admin_pull_pos (candata w) < 2 ^ 32 ->
  cd_admin_push_pos (candata w) = cd_admin_pull_pos (candata w) ->
  is_admin (cd_assigned_id (candata w)) m = true -> cm_id m <> cd_assigned_id (candata w) ->
  admin_pending (candata w) = [] /\ canserial_process_data m w = Ok tt w.
Proof.
  intros Hp Hq Ha Hi. split.
  - unfold admin_pending. by rewrite Hq, Z.sub_diag.
  - unfold canserial_process_data, can. unfold is_admin in Ha. munfold.
    rewrite (proj2 (Z.eqb_neq _ _) Hi), andb_false_r, Ha. munfold.
    rewrite Hq. unfold ADMIN_QUEUE_SIZE.
    rewrite (proj2 (Z.leb_le _ _)); [done|]. word_lia.
Qed.

Definition can_old_world : world :=
  can_world <| candata ::= fun c => c <| cd_admin_pull_pos := 2 ^ 32 - 8 |>
                                      <| cd_admin_push_pos := 2 ^ 32 - 8 |> |>.

Lemma can_admin_blocked_witness :
  admin_pending (candata can_old_world) = [] /\
  canserial_process_data (mkCanMsg 0x3f0 1 [0; 0; 0; 0; 0; 0; 0; 0]) can_old_world
    = Ok tt can_old_world.
Proof.
  apply (can_admin_blocked (mkCanMsg 0x3f0 1 [0; 0; 0; 0; 0; 0; 0; 0]) can_old_world).
  - vm_compute. by split.
  - reflexivity.
  - reflexivity.
  - vm_compute. done.
Defined.

(** ** Assigning an id *)

(** A request with the uuid of the node sets its id: the hardware is told
    the new id if it changed, and the node reports the assigned number. *)
Theorem can_nodeid_assigned `{Board} `{CanHw} b w :
  0 <= b < 256 -> length (cd_uuid (candata w)) = 6%nat ->
  cd_assigned_id (candata w) = 0 \/ valid_id (cd_assigned_id (candata w)) ->
  let newid := 0x100 + 2 * b in
  exists w', can_admin_message (mkCanMsg CANBUS_ID_ADMIN 8
      ([CANBUS_CMD_SET_KLIPPER_NODEID] ++ cd_uuid (candata w) ++ [b])) w = Ok tt w' /\
    cd_assigned_id (candata w') = newid /\ can_get_nodeid w' = Ok b w' /\
    hw_trace w' = (if newid =? cd_assigned_id (candata w) then [] else [HwCanFilter newid])
                  ++ hw_trace w.
Proof.
  intros Hb Hl Hid newid. assert (can_decode_nodeid b = newid) as Ed.
  { unfold can_decode_nodeid, newid. rewrite Z.shiftl_mul_pow2 by lia. word_lia. }
  assert (forall w', cd_assigned_id (candata w') = newid -> can_get_nodeid w' = Ok b w') as Hg.
  { intros w' E. unfold can_get_nodeid, can. munfold. rewrite E, (proj2 (Z.eqb_neq _ _)) by lia.
    munfold. rewrite Z.shiftr_div_pow2 by lia. f_equal. unfold newid. word_lia. }
  set (id := cd_assigned_id (candata w)) in *.
  assert (0 <= id <= 0x2fe) as Hr by (destruct Hid as [->|Hid%valid_id_range]; lia).
  destruct (cd_uuid (candata w)) as [|u0 [|u1 [|u2 [|u3 [|u4 [|u5 [|]]]]]]] eqn:Eu; try done.
  unfold can_admin_message, can. munfold. fold id. cbn [cm_id].
  rewrite (proj2 (Z.eqb_neq CANBUS_ID_ADMIN _)), andb_false_r, Z.eqb_refl
    by (unfold CANBUS_ID_ADMIN; rewrite u32_id by lia; lia).
  change (when true ?m) with m.
  set (m := mkCanMsg _ _ _).
  change (can_process_admin m) with (can_process_set_klipper_nodeid m).
  unfold can_process_set_klipper_nodeid, can_check_uuid, can. munfold.
  change (cm_dlc m) with 8. change (byte_at (cm_data m) 7) with b.
  change (take (Z.to_nat CANBUS_UUID_LEN) (drop 1 (cm_data m))) with [u0; u1; u2; u3; u4; u5].
  change (8 <? 8) with false. cbn iota beta. rewrite Eu, bool_decide_eq_true_2 by done.
  change (7 <=? 8) with true. cbn [andb].
  rewrite Ed. fold id. destruct (Z.eqb_spec newid id) as [E|E]; cbn [negb when].
  - exists w. split_and!; [done|done|by apply Hg|done].
  - unfold set_can. cbn [cb_set_filter canbus_c]. unfold canbus_set_filter, hw. munfold. eexists. split; [reflexivity|].
    split_and!; [done|by apply Hg|done].
Qed.

Lemma can_nodeid_assigned_witness :
  exists w', @can_admin_message sample_board sample_can (@canbus_c sample_can) (mkCanMsg CANBUS_ID_ADMIN 8
      ([CANBUS_CMD_SET_KLIPPER_NODEID] ++ cd_uuid (candata can_world) ++ [0x21])) can_world = Ok tt w' /\
    cd_assigned_id (candata w') = 0x142 /\ can_get_nodeid w' = Ok 0x21 w' /\
    hw_trace w' = [HwCanFilter 0x142].
Proof.
  apply (@can_nodeid_assigned sample_board sample_can 0x21 can_world).
  - lia.
  - reflexivity.
  - right. exists 5. split; [lia|reflexivity].
Defined.
