(* ===== verification/UsbProps.v ===== *)
(** * The USB console keeps its streams: src/src/generic/usb_cdc.c

    The bulk endpoints meet the contract of a console ([TxConsole]) and keep
    the received bytes; a control transfer sends exactly the packets of the
    requested descriptor, however often the endpoint is busy. *)
From S2P Require Import Prelude Buffers Protocol World Frames Sched Command UsbCdc Firmware Sample ConsoleProps.

(** ** Sending *)

Fixpoint bulk_data (tr : list hw_event) : list Z :=
  match tr with
  | [] => []
  | HwUsbBulkIn d :: tr => bulk_data tr ++ d
  | _ :: tr => bulk_data tr
  end.

Definition usb_waiting (w : world) : list Z :=
  window 0 (ub_transmit_pos (usbcdc w)) (ub_transmit_buf (usbcdc w)).

Record usb_tx_ok (u : usb_cdc) : Prop := {
  utx_len : length (ub_transmit_buf u) = 192%nat;
  utx_pos : 0 <= ub_transmit_pos u <= USB_TX_SIZE
}.

Section Bulk.
Context `{UsbHw}.

(** The driver sends the whole packet or reports that it is busy. *)
Definition usb_bulk_ok : Prop :=
  forall n d, usb_send_bulk_in_result n d = -1 \/ usb_send_bulk_in_result n d = Z.of_nat (length d).

Hypothesis driver : usb_bulk_ok.

(** A packet has 1 to 64 bytes; a full one is only sent if more follows, so
    that no empty packet is needed to end a transfer. *)
Definition good_packet (d : list Z) (more : list Z) : Prop :=
  1 <= Z.of_nat (length d) <= USB_CDC_EP_BULK_IN_SIZE /\
  (Z.of_nat (length d) = USB_CDC_EP_BULK_IN_SIZE -> more <> []).

Lemma usb_bulk_in_ok w :
  usb_tx_ok (usbcdc w) ->
  exists w', usb_bulk_in_task w = Ok tt w' /\ usb_tx_ok (usbcdc w') /\
    (hw_trace w' = hw_trace w /\ usb_waiting w' = usb_waiting w \/
     exists d, hw_trace w' = HwUsbBulkIn d :: hw_trace w /\
       usb_waiting w = d ++ usb_waiting w' /\ good_packet d (usb_waiting w')).
Proof.
  intros Hok. pose proof Hok as [Hl Hp]. unfold USB_TX_SIZE in *.
  unfold usb_bulk_in_task, sched_check_wake. munfold.
  destruct (decide (usb_bulk_in_wake ∈ woken w)) as [Hw|Hw]; cbn [negb]; [|exists w; by auto].
  unfold usb. munfold. cbn [usbcdc upd eta eta_world].
  set (tpos := ub_transmit_pos (usbcdc w)) in *. set (buf := ub_transmit_buf (usbcdc w)) in *.
  destruct (Z.eqb_spec tpos 0) as [E0|E0]; [eexists; split; [reflexivity|]; by auto|].
  set (n := if USB_CDC_EP_BULK_IN_SIZE <? tpos then _ else _).
  assert (1 <= n <= 64 /\ n <= tpos /\ (n = 64 -> n < tpos)) as (Hn1 & Hn2 & Hn3).
  { unfold n, USB_CDC_EP_BULK_IN_SIZE. destruct (Z.ltb_spec 64 tpos); [lia|].
    destruct (Z.eqb_spec tpos 64); lia. }
  set (d := take (Z.to_nat n) buf).
  assert (Z.of_nat (length d) = n) as Hd by (unfold d; rewrite length_take; lia).
  assert (window 0 tpos buf = d ++ window n tpos buf) as Ew
    by (rewrite (window_app 0 n) by lia; unfold window at 1; by rewrite Z.sub_0_r).
  unfold usb_send_bulk_in, next_call. munfold. change (usbcdc (w <| woken := _ |>)) with (usbcdc w).
  change (io_calls (w <| woken := _ |>)) with (io_calls w). fold buf d.
  destruct (driver (io_calls w) d) as [Er|Er]; rewrite Er.
  { cbn [Z.leb Z.compare]. munfold. eexists; split; [reflexivity|]. by auto. }
  rewrite Hd. destruct (Z.leb_spec 0 n); [|lia]. unfold hw. munfold.
  destruct (Z.leb_spec n 0); [lia|]. rewrite u8_id by lia.
  unfold set_usb, usb_notify_bulk_in, sched_wake_task, sched_wake_tasks.
  destruct (Z.eqb_spec (tpos - n) 0) as [En|En]; cbn [negb when]; munfold;
    (eexists; split; [reflexivity|]; split;
     [constructor; cbn; unfold USB_TX_SIZE; rewrite ?length_memmove; fold buf; lia|]);
    right; exists d; unfold usb_waiting; cbn [usbcdc hw_trace ub_transmit_pos ub_transmit_buf upd
      eta eta_world eta_usb_cdc]; fold tpos buf.
  - rewrite Ew, !window_empty by lia. split_and!; [done|done|].
    split; unfold USB_CDC_EP_BULK_IN_SIZE; lia.
  - rewrite window_memmove by lia. split_and!; [done|done|].
    split; unfold USB_CDC_EP_BULK_IN_SIZE; [lia|]. intros _ E%(f_equal length).
    pose proof (length_window n tpos buf). cbn [length] in E. lia.
Qed.

Lemma usb_sendf_ok max msg w :
  usb_tx_ok (usbcdc w) -> Z.of_nat (length msg) <= max <= USB_TX_SIZE ->
  exists w', usb_console_sendf max msg w = Ok tt w' /\ usb_tx_ok (usbcdc w') /\
    hw_trace w' = hw_trace w /\
    usb_waiting w' = usb_waiting w ++
      (if Z.of_nat (length (usb_waiting w)) + max <=? USB_TX_SIZE then msg else []).
Proof.
  intros Hok Hm. pose proof Hok as [Hl Hp]. unfold USB_TX_SIZE in *.
  assert (Z.of_nat (length (usb_waiting w)) = ub_transmit_pos (usbcdc w)) as El
    by (unfold usb_waiting; rewrite length_window; lia). rewrite El.
  unfold usb_console_sendf, usb, USB_TX_SIZE. munfold.
  destruct (Z.ltb_spec 192 (ub_transmit_pos (usbcdc w) + max));
    destruct (Z.leb_spec (ub_transmit_pos (usbcdc w) + max) 192); try lia.
  { exists w. rewrite app_nil_r. by split_and!. }
  unfold set_usb, usb_notify_bulk_in, sched_wake_task, sched_wake_tasks. munfold.
  rewrite u8_id by lia. eexists. split; [reflexivity|]. split_and!; [|done|].
  - constructor; cbn; unfold USB_TX_SIZE; rewrite ?length_copy_to; lia.
  - unfold usb_waiting. cbn [usbcdc ub_transmit_pos ub_transmit_buf upd eta eta_world eta_usb_cdc].
    by rewrite window_copy_end by lia.
Qed.

Program Definition usb_tx : TxConsole world := {|
  tx_ok w := usb_tx_ok (usbcdc w);
  tx_sent w := bulk_data (hw_trace w);
  tx_waiting := usb_waiting;
  tx_size := USB_TX_SIZE;
  tx_put max msg w w' := usb_console_sendf max msg w = Ok tt w';
  tx_drain w w' := usb_bulk_in_task w = Ok tt w'
|}.
Next Obligation.
  intros max msg w w' Hok Hm E. destruct (usb_sendf_ok max msg w Hok Hm) as (w1 & E1 & Hok1 & Ht & Ew).
  rewrite E in E1. injection E1 as <-. cbn beta in *. rewrite Ht, Ew. by split_and!.
Qed.
Next Obligation.
  intros w w' Hok E. destruct (usb_bulk_in_ok w Hok) as (w1 & E1 & Hok1 & Hs).
  rewrite E in E1. injection E1 as <-. split; [done|].
  destruct Hs as [[-> ->]|(d & -> & -> & _)]; [done|]. cbn [bulk_data].
  split; [by eexists|by rewrite <- app_assoc].
Qed.

(** Over any sequence of responses and runs of [usb_bulk_in_task], the
    bytes of the packets sent are the messages in the order of the calls of
    [console_sendf]; a message without room is left out as a whole. *)
Theorem usb_stream w w' msgs :
  usb_tx_ok (usbcdc w) -> tx_run (H := usb_tx) w msgs w' ->
  usb_tx_ok (usbcdc w') /\
  exists kept, sublist kept msgs /\
    bulk_data (hw_trace w') ++ usb_waiting w'
    = bulk_data (hw_trace w) ++ usb_waiting w ++ concat kept.
Proof.
  intros Hok Hrun. by destruct (tx_run_stream (H := usb_tx) _ _ _ Hrun) as (Hok' & _ & Hk).
Qed.
End Bulk.

(** ** Receiving *)

Definition usb_pending (u : usb_cdc) : list Z :=
  window 0 (ub_receive_pos u) (ub_receive_buf u).

Record usb_rx_ok (u : usb_cdc) : Prop := {
  urx_len : length (ub_receive_buf u) = 128%nat;
  urx_pos : 0 <= ub_receive_pos u <= USB_RX_SIZE
}.

Section BulkRx.
Context `{UsbHw}.
Variable command_index : list command_parser.
Variable irq_poll : M unit.

(** What the driver has for the next call of [usb_read_bulk_out]. *)
Definition usb_next_data (n : nat) : list Z :=
  let '(ret, data) := usb_read_bulk_out_result n USB_CDC_EP_BULK_OUT_SIZE in
  if 0 <? ret then data else [].

(** The driver stores as many bytes as it returns and at most 64. *)
Definition usb_read_ok : Prop := forall n,
  let '(ret, data) := usb_read_bulk_out_result n USB_CDC_EP_BULK_OUT_SIZE in
  ret <= USB_CDC_EP_BULK_OUT_SIZE /\ (0 < ret -> Z.of_nat (length data) = ret).

Hypothesis driver : usb_read_ok.

(** The reading: a packet is only taken if the buffer has room for a full
    one. *)
Lemma usb_fill_ok w :
  usb_rx_ok (usbcdc w) ->
  let room := ub_receive_pos (usbcdc w) + USB_CDC_EP_BULK_OUT_SIZE <=? USB_RX_SIZE in
  exists w' rpos, usb_fill w = Ok rpos w' /\ 0 <= rpos <= USB_RX_SIZE /\
    length (ub_receive_buf (usbcdc w')) = 128%nat /\
    window 0 rpos (ub_receive_buf (usbcdc w'))
      = usb_pending (usbcdc w) ++ (if room then usb_next_data (io_calls w) else []).
Proof.
  intros [Hl Hp] room. unfold usb_fill, usb, next_call, usb_notify_bulk_out, sched_wake_task,
    sched_wake_tasks, set_usb. munfold. fold room. unfold usb_pending, USB_RX_SIZE in *.
  destruct room eqn:Er; munfold.
  2: { eexists _, _. split; [reflexivity|]. by rewrite app_nil_r. }
  unfold room, USB_CDC_EP_BULK_OUT_SIZE in Er. apply Z.leb_le in Er. unfold usb_next_data.
  pose proof (driver (io_calls w)) as Hd.
  destruct (usb_read_bulk_out_result _ _) as [ret data]. destruct Hd as [Hd1 Hd2].
  unfold USB_CDC_EP_BULK_OUT_SIZE in *.
  destruct (Z.ltb_spec 0 ret) as [Hret|Hret]; munfold; eexists _, _; (split; [reflexivity|]).
  - specialize (Hd2 Hret). cbn [usbcdc ub_receive_buf upd eta eta_world eta_usb_cdc].
    rewrite length_copy_to, <- Hd2 by lia. split_and!; [lia|lia|done|].
    by rewrite window_copy_end by lia.
  - by rewrite app_nil_r.
Qed.

(** [usb_bulk_out_task] hands the command layer the bytes that were left
    over followed by those of the next packet, and keeps exactly the bytes
    behind what the command layer consumed. *)
Theorem usb_receive w w0 w1 rpos w2 ret pop :
  usb_rx_ok (usbcdc w) -> sched_check_wake usb_bulk_out_wake w = Ok true w0 ->
  usb_fill w0 = Ok rpos w1 ->
  let room := ub_receive_pos (usbcdc w) + USB_CDC_EP_BULK_OUT_SIZE <=? USB_RX_SIZE in
  let P := usb_pending (usbcdc w) ++ (if room then usb_next_data (io_calls w) else []) in
  command_find_and_dispatch command_index irq_poll P w1 = Ok (ret, pop) w2 ->
  usbcdc w2 = usbcdc w1 -> 0 <= pop <= Z.of_nat (length P) ->
  exists w', usb_bulk_out_task command_index irq_poll w = Ok tt w' /\ usb_rx_ok (usbcdc w') /\
    usb_pending (usbcdc w') = drop (if ret =? 0 then 0 else Z.to_nat pop) P.
Proof.
  intros Hok Hw Ef room P Ed Eu Hpop.
  assert (usbcdc w0 = usbcdc w /\ io_calls w0 = io_calls w) as [Eu0 Ei0].
  { revert Hw. unfold sched_check_wake. munfold. case_decide; [|done]. by intros [= <-]. }
  rewrite <- Eu0 in Hok. destruct (usb_fill_ok w0 Hok) as (w1' & rpos' & Ef' & Hr & Hl & EP).
  rewrite Ef in Ef'. injection Ef' as <- <-. rewrite Eu0, Ei0 in EP.
  change (window 0 rpos (ub_receive_buf (usbcdc w1)) = P) in EP.
  assert (Z.of_nat (length P) = rpos) as HP
    by (rewrite <- EP, length_window; unfold USB_RX_SIZE in *; lia).
  unfold usb_bulk_out_task. rewrite (bind_ok _ _ _ _ _ Hw). cbn [negb].
  munfold. rewrite Ef. unfold usb, set_usb. munfold.
  replace (take (Z.to_nat rpos) (ub_receive_buf (usbcdc w1))) with P
    by (rewrite <- EP; unfold window; by rewrite Z.sub_0_r). rewrite Ed.
  unfold usb_notify_bulk_out, sched_wake_task, sched_wake_tasks, usb_pending, USB_RX_SIZE in *.
  destruct (Z.eqb_spec ret 0) as [E|E]; munfold.
  { eexists. split; [reflexivity|]. split.
    - constructor; cbn; unfold USB_RX_SIZE; rewrite ?Eu, ?u8_id; lia.
    - cbn [usbcdc ub_receive_pos ub_receive_buf upd eta eta_world eta_usb_cdc].
      by rewrite Eu, u8_id, EP by lia. }
  destruct (Z.eqb_spec (rpos - pop) 0) as [En|En]; cbn [negb]; munfold;
    (eexists; split; [reflexivity|]);
    (split; [constructor; cbn; unfold USB_RX_SIZE; rewrite ?Eu, ?length_memmove, ?u8_id; lia|]);
    cbn [usbcdc ub_receive_pos ub_receive_buf upd eta eta_world eta_usb_cdc]; rewrite ?Eu, u8_id by lia.
  - rewrite window_empty, drop_ge by lia. done.
  - rewrite window_memmove by lia. rewrite <- EP.
    unfold window. rewrite Z.sub_0_r, skipn_firstn_comm. cbn [Z.to_nat]. f_equal. lia.
Qed.
End BulkRx.

(** ** Control transfers *)

(** The packets of endpoint zero, in order. *)
Fixpoint ep0_sent (tr : list hw_event) : list (list Z) :=
  match tr with
  | [] => []
  | HwUsbEp0 d :: tr => ep0_sent tr ++ [d]
  | _ :: tr => ep0_sent tr
  end.

(** The reference: data in packets of 16 bytes.  A host that expects more than
    it gets needs a packet that is not full as the last one. *)
Fixpoint chunks (fuel : nat) (zlp : bool) (data : list Z) : list (list Z) :=
  match fuel with
  | O => []
  | S fuel =>
      if (length data <=? 16)%nat
      then if (length data =? 16)%nat && zlp then [data; []] else [data]
      else take 16 data :: chunks fuel zlp (drop 16 data)
  end.
Definition packets (zlp : bool) (data : list Z) : list (list Z) := chunks (S (length data)) zlp data.

Lemma chunks_fuel zlp f1 : forall f2 data, (length data < f1)%nat -> (length data < f2)%nat ->
  chunks f1 zlp data = chunks f2 zlp data.
Proof.
  induction f1 as [|f1 IH]; intros [|f2] data H1 H2; try lia. cbn [chunks].
  destruct (Nat.leb_spec (length data) 16); [done|]. f_equal. apply IH; rewrite length_drop; lia.
Qed.

Lemma packets_long zlp data : (16 < length data)%nat ->
  packets zlp data = take 16 data :: packets zlp (drop 16 data).
Proof.
  intros Hl. unfold packets at 1. cbn [chunks]. rewrite (proj2 (Nat.leb_gt _ _)) by lia.
  f_equal. apply chunks_fuel; rewrite length_drop; lia.
Qed.

Section Ep0.
Context `{UsbHw}.

(** Sending succeeds as a whole, is busy, or fails. *)
Definition usb_ep0_ok : Prop := forall n p d,
  usb_send_ep0_result n p d <= -1 \/ usb_send_ep0_result n p d = Z.of_nat (length d).

Hypothesis driver : usb_ep0_ok.

(** What is left of the transfer under way. *)
Definition region_bytes (u : usb_cdc) (r : usb_region) : list Z :=
  match r with
  | UR_null => []
  | UR_const data => data
  | UR_serialid => usbserial_serialid
  | UR_line_coding => ub_line_coding u
  | UR_gs v => ub_gs u v
  end.

Record xfer_ok (u : usb_cdc) (r : usb_region) (off size flags : Z) : Prop := {
  xo_off : 0 <= off;
  xo_size : 0 <= size < 256;
  xo_data : off + size <= Z.of_nat (length (region_bytes u r));
  xo_flags : 0 < flags < 256;
  xo_send : flag flags UX_READ = false
}.

Definition xfer_packets (u : usb_cdc) (r : usb_region) (off size flags : Z) : list (list Z) :=
  packets (flag flags UX_SEND_ZLP) (window off (off + size) (region_bytes u r)).

Definition ep0_pending (u : usb_cdc) : list (list Z) :=
  if ub_xfer_flags u =? 0 then []
  else xfer_packets u (ub_xfer_data u).1 (ub_xfer_data u).2 (ub_xfer_size u) (ub_xfer_flags u).

(** Idle, or in the middle of sending. *)
Definition sending (u : usb_cdc) : Prop :=
  ub_xfer_flags u = 0 \/
  xfer_ok u (ub_xfer_data u).1 (ub_xfer_data u).2 (ub_xfer_size u) (ub_xfer_flags u).

Definition stalled (w : world) : Prop := exists tr, hw_trace w = HwUsbStall :: tr.

(** The next packet of a transfer, and what is left after it. *)
Lemma xfer_packets_next u r off size flags :
  xfer_ok u r off size flags ->
  let xs := if USB_CDC_EP0_SIZE <? size then USB_CDC_EP0_SIZE else size in
  let d := window off (off + xs) (region_bytes u r) in
  xfer_packets u r off size flags
  = d :: (if (size - xs =? 0) && negb ((xs =? USB_CDC_EP0_SIZE) && flag flags UX_SEND_ZLP) then []
          else xfer_packets u r (off + xs) (size - xs) flags).
Proof.
  intros [Ho Hs Hd _ _]. unfold xfer_packets, USB_CDC_EP0_SIZE. cbv zeta.
  set (D := window off (off + size) (region_bytes u r)).
  assert (Z.of_nat (length D) = size) as HD by (unfold D; rewrite length_window; lia).
  destruct (Z.ltb_spec 16 size) as [Hx|Hx].
  - rewrite packets_long by lia. rewrite (proj2 (Z.eqb_neq (size - 16) 0)) by lia. cbn [andb].
    assert (D = window off (off + 16) (region_bytes u r)
              ++ window (off + 16) (off + size) (region_bytes u r)) as ED
      by (unfold D; rewrite <- window_app; [done|lia..]).
    assert (length (window off (off + 16) (region_bytes u r)) = 16%nat) as Hw
      by (pose proof (length_window off (off + 16) (region_bytes u r)); lia).
    rewrite ED, take_app_le, drop_app_le, take_ge, drop_ge by lia. cbn [app].
    do 3 f_equal. lia.
  - rewrite Z.sub_diag. cbn [Z.eqb andb]. fold D. unfold packets. cbn [chunks].
    rewrite (proj2 (Nat.leb_le _ _)) by lia.
    assert ((length D =? 16)%nat = (size =? 16)) as ->
      by (destruct (Nat.eqb_spec (length D) 16), (Z.eqb_spec size 16); lia || done).
    destruct ((size =? 16) && flag flags UX_SEND_ZLP); cbn [negb]; [|done].
    rewrite (window_empty (off + size)) by lia. done.
Qed.

Lemma do_xfer_ok fuel : forall r off size flags w,
  xfer_ok (usbcdc w) r off size flags -> (Z.to_nat size < fuel)%nat ->
  exists w', do_xfer_loop fuel r off size flags w = Ok tt w' /\ sending (usbcdc w') /\
    (stalled w' /\ ub_xfer_flags (usbcdc w') = 0 \/
     ep0_sent (hw_trace w') ++ ep0_pending (usbcdc w')
     = ep0_sent (hw_trace w) ++ xfer_packets (usbcdc w) r off size flags).
Proof.
  induction fuel as [|fuel IH]; intros r off size flags w Hx Hf; [lia|]. cbn [do_xfer_loop].
  pose proof (xfer_packets_next _ _ _ _ _ Hx) as Enext. pose proof Hx as [Ho Hs Hd Hfl Hsd].
  set (xs := if USB_CDC_EP0_SIZE <? size then _ else _) in *.
  assert (0 <= xs <= size /\ (size <> 0 -> 0 < xs)) as [Hx1 Hx2]
    by (unfold xs, USB_CDC_EP0_SIZE; destruct (Z.ltb_spec 16 size); lia).
  assert (usb_bytes r w = Ok (region_bytes (usbcdc w) r) w) as Eb by (by destruct r).
  rewrite (bind_ok _ _ _ _ _ Eb), Hsd.
  set (d := window off (off + xs) (region_bytes (usbcdc w) r)) in *.
  assert (Z.of_nat (length d) = xs) as Hdl by (unfold d; rewrite length_window; lia).
  unfold usb_send_ep0, next_call. munfold.
  destruct (driver (io_calls w) (NEED_PROGMEM && flag flags UX_SEND_PROGMEM) d) as [Er|Er].
  - rewrite (proj2 (Z.leb_gt 0 _)) by lia. munfold. rewrite (proj2 (Z.eqb_neq _ xs)) by lia.
    destruct (Z.eqb_spec (usb_send_ep0_result (io_calls w) (NEED_PROGMEM && flag flags UX_SEND_PROGMEM) d) (-1)).
    + unfold set_usb. munfold. eexists. split; [reflexivity|]. rewrite !u8_id by lia.
      split; [right; by constructor|right]. unfold ep0_pending. cbn.
      by rewrite (proj2 (Z.eqb_neq flags 0)) by lia.
    + unfold usb_do_stall, hw, set_usb. munfold. eexists. split; [reflexivity|].
      split; [by left|]. left. split; [by eexists|done].
  - rewrite Er, Hdl, (proj2 (Z.leb_le 0 xs)) by lia. unfold hw. munfold. rewrite Z.eqb_refl.
    set (w1 := w <| io_calls ::= S |> <| hw_trace ::= cons (HwUsbEp0 d) |>).
    assert (xfer_ok (usbcdc w1) r (off + xs) (size - xs) flags) as Hx'
      by (constructor; [lia|lia|cbn; lia|done|done]).
    rewrite Enext. change (usbcdc w) with (usbcdc w1).
    destruct ((size - xs =? 0) && negb ((xs =? USB_CDC_EP0_SIZE) && flag flags UX_SEND_ZLP)) eqn:Ec.
    + apply andb_true_iff in Ec as [-> ->%negb_true_iff]. cbn iota.
      unfold set_usb, usb_notify_ep0, sched_wake_task, sched_wake_tasks. munfold.
      eexists. split; [reflexivity|]. split; [by left|right]. by rewrite app_nil_r.
    + assert (xs <> 0) as Hnz.
      { intros E0. assert (size = 0) as Esz by lia. rewrite E0, Esz in Ec. done. }
      destruct (IH r (off + xs) (size - xs) flags w1 Hx') as (w' & E' & Hs' & Hr'); [lia|].
      exists w'. split; [|split; [done|]].
      * destruct (size - xs =? 0); cbn [andb] in Ec; [|exact E'].
        apply negb_false_iff in Ec. rewrite Ec. exact E'.
      * destruct Hr' as [?|Hr']; [by left|right]. rewrite Hr'.
        change (ep0_sent (hw_trace w1)) with (ep0_sent (hw_trace w) ++ [d]). by rewrite <- app_assoc.
Qed.

(** The interrupts wake the task; the task continues the transfer. *)
Inductive ep0_step : world -> world -> Prop :=
| ep0_wake w w' : usb_notify_ep0 w = Ok tt w' -> ep0_step w w'
| ep0_resume w w' : ub_xfer_flags (usbcdc w) <> 0 -> usb_ep0_task w = Ok tt w' -> ep0_step w w'.

Lemma ep0_step_ok w w' :
  ep0_step w w' -> sending (usbcdc w) ->
  sending (usbcdc w') /\
  (stalled w' /\ ub_xfer_flags (usbcdc w') = 0 \/
   ep0_sent (hw_trace w') ++ ep0_pending (usbcdc w') = ep0_sent (hw_trace w) ++ ep0_pending (usbcdc w)).
Proof.
  intros [w1 w2 E|w1 w2 Hfl E] Hs.
  - revert E. unfold usb_notify_ep0, sched_wake_task, sched_wake_tasks. munfold.
    intros [= <-]. split; [done|by right].
  - revert E. unfold usb_ep0_task, sched_check_wake. munfold.
    case_decide; cbn [negb]; [|intros [= <-]; split; [done|by right]].
    unfold usb. munfold. destruct Hs as [?|Hx]; [done|]. unfold ep0_pending at 2.
    rewrite (proj2 (Z.eqb_neq (ub_xfer_flags _) 0)) by done. cbn [negb]. munfold.
    change (usbcdc (w1 <| woken := _ |>)) with (usbcdc w1).
    destruct (ub_xfer_data (usbcdc w1)) as [r off] eqn:Ed. cbn [fst snd] in *. intros E.
    set (w0 := w1 <| woken := _ |>) in *. change (usbcdc w0) with (usbcdc w1) in E.
    destruct (do_xfer_ok (Z.to_nat (ub_xfer_size (usbcdc w1)) + 3) r off (ub_xfer_size (usbcdc w1))
      (ub_xfer_flags (usbcdc w1)) w0 Hx) as (w3 & E' & Hs' & Hr'); [lia|].
    unfold usb_do_xfer in E. rewrite E in E'. injection E' as <-.
    rewrite (proj2 (Z.eqb_neq (ub_xfer_flags (usbcdc w1)) 0)) by done.
    split; [exact Hs'|exact Hr'].
Qed.

(** The descriptor that a request asks for. *)
Definition wanted (req : usb_ctrlrequest) (d : descriptor_s) : Prop :=
  d_wValue d = rq_wValue req /\ d_wIndex d = rq_wIndex req.

#[local] Instance wanted_dec req d : Decision (wanted req d).
Proof. unfold wanted. apply _. Defined.

Definition requested (ds : list descriptor_s) (req : usb_ctrlrequest) : option (list Z) :=
  if CONFIG_USB_SERIAL_NUMBER_CHIPID
     && (rq_wValue req =? Z.lor (Z.shiftl USB_DT_STRING 8) USB_STR_ID_SERIAL)
     && (rq_wIndex req =? USB_LANGID_ENGLISH_US)
  then Some usbserial_serialid
  else d_desc <$> head (reverse (filter (wanted req) ds)).

Lemma find_descriptor_spec req ds :
  match find_descriptor ds req with
  | None => filter (wanted req) ds = []
  | Some (r, n) => exists d, r = UR_const (d_desc d) /\ d ∈ ds /\
      n = Z.of_nat (length (d_desc d)) /\ head (reverse (filter (wanted req) ds)) = Some d
  end.
Proof.
  induction ds as [|d ds IH]; [done|]. cbn [find_descriptor].
  rewrite filter_cons. destruct (find_descriptor ds req) as [[r n]|].
  - destruct IH as (d' & -> & Hj & -> & Hh). exists d'. split_and!; [done|by right|done|].
    case_decide; [|done]. rewrite reverse_cons. by destruct (reverse (filter (wanted req) ds)).
  - rewrite IH. destruct (Z.eqb_spec (d_wValue d) (rq_wValue req)) as [Ev|Ev],
      (Z.eqb_spec (d_wIndex d) (rq_wIndex req)) as [Ei|Ei]; cbn [andb];
      try (by rewrite decide_False by (by intros [? ?])).
    rewrite decide_True by done. exists d. split_and!; [done|by left|done..].
Qed.

(** The descriptors are shorter than 256 bytes, and that of the chip begins
    with its length. *)
Definition descriptors_ok (ds : list descriptor_s) : Prop :=
  Forall (fun d => length (d_desc d) < 256)%nat ds /\
  byte_at usbserial_serialid 0 = Z.of_nat (length usbserial_serialid) /\
  (length usbserial_serialid < 256)%nat.

(** The choice made by [usb_req_get_descriptor]. *)
Lemma select_descriptor u ds req bytes :
  descriptors_ok ds -> requested ds req = Some bytes ->
  exists r flags, region_bytes u r = bytes /\ (length bytes < 256)%nat /\
    (flags = UX_SEND \/ flags = UX_SEND_PROGMEM) /\
    (if CONFIG_USB_SERIAL_NUMBER_CHIPID
         && (rq_wValue req =? Z.lor (Z.shiftl USB_DT_STRING 8) USB_STR_ID_SERIAL)
         && (rq_wIndex req =? USB_LANGID_ENGLISH_US)
     then Some (UR_serialid, byte_at usbserial_serialid 0, UX_SEND)
     else (fun d => (d, if NEED_PROGMEM then UX_SEND_PROGMEM else UX_SEND))
          <$> find_descriptor ds req) = Some (r, Z.of_nat (length bytes), flags).
Proof.
  intros (Hd1 & Hd2 & Hd3) Hreq. unfold requested in Hreq. destruct (_ && _ && _).
  - injection Hreq as <-. rewrite Hd2. by exists UR_serialid, UX_SEND; auto.
  - pose proof (find_descriptor_spec req ds) as Hf.
    destruct (find_descriptor ds req) as [[r n]|]; [|by rewrite Hf in Hreq].
    destruct Hf as (d & -> & Hj & -> & Hh). rewrite Hh in Hreq. injection Hreq as <-.
    eexists _, _. split_and!; [| | |reflexivity]; [done| |by destruct NEED_PROGMEM; auto].
    rewrite Forall_forall in Hd1. by apply Hd1.
Qed.

Lemma xfer_from_start r size flags bytes w :
  region_bytes (usbcdc w) r = bytes -> (length bytes < 256)%nat ->
  0 <= size <= Z.of_nat (length bytes) -> 0 < flags < 256 -> flag flags UX_READ = false ->
  exists w', usb_do_xfer r 0 size flags w = Ok tt w' /\ sending (usbcdc w') /\
    (stalled w' /\ ub_xfer_flags (usbcdc w') = 0 \/
     ep0_sent (hw_trace w') ++ ep0_pending (usbcdc w')
     = ep0_sent (hw_trace w) ++ packets (flag flags UX_SEND_ZLP) (take (Z.to_nat size) bytes)).
Proof.
  intros Hr Hl Hs Hf1 Hf2.
  destruct (do_xfer_ok (Z.to_nat size + 3) r 0 size flags w) as (w' & E & Hs' & Hr'); [|lia|].
  - constructor; [lia|lia|rewrite Hr; lia|done|done].
  - exists w'. split_and!; [done|done|]. unfold xfer_packets, window in Hr'.
    by rewrite Hr, Z.add_0_l, Z.sub_0_r in Hr'.
Qed.

Lemma get_descriptor_ok ds req bytes w :
  descriptors_ok ds -> rq_bRequestType req = USB_DIR_IN -> 0 <= rq_wLength req ->
  requested ds req = Some bytes ->
  exists w', usb_req_get_descriptor ds req w = Ok tt w' /\ sending (usbcdc w') /\
    (stalled w' /\ ub_xfer_flags (usbcdc w') = 0 \/
     ep0_sent (hw_trace w') ++ ep0_pending (usbcdc w')
     = ep0_sent (hw_trace w) ++
       packets (Z.of_nat (length bytes) <? rq_wLength req) (take (Z.to_nat (rq_wLength req)) bytes)).
Proof.
  intros Hd Ht Hw Hreq. unfold usb_req_get_descriptor. rewrite Ht. cbn [Z.eqb negb Pos.eqb].
  destruct (select_descriptor (usbcdc w) ds req bytes Hd Hreq) as (r & flags & Hr & Hl & Hfl & ->).
  set (n := Z.of_nat (length bytes)) in *.
  destruct (Z.ltb_spec (rq_wLength req) n) as [Hc|Hc].
  - rewrite (proj2 (Z.ltb_ge n _)) by lia.
    destruct (xfer_from_start r (rq_wLength req) flags bytes w Hr Hl) as (w' & ? & ? & Hr');
      [lia|by destruct Hfl as [-> | ->]..|].
    exists w'. split_and!; [done|done|]. by destruct Hfl as [-> | ->].
  - rewrite (take_ge bytes (Z.to_nat (rq_wLength req))) by lia.
    destruct (Z.ltb_spec n (rq_wLength req)).
    + destruct (xfer_from_start r n (Z.lor flags UX_SEND_ZLP) bytes w Hr Hl) as (w' & ? & ? & Hr');
        [lia|by destruct Hfl as [-> | ->]..|]. rewrite (take_ge bytes) in Hr' by lia.
      exists w'. split_and!; [done|done|]. by destruct Hfl as [-> | ->].
    + destruct (xfer_from_start r n flags bytes w Hr Hl) as (w' & ? & ? & Hr');
        [lia|by destruct Hfl as [-> | ->]..|]. rewrite (take_ge bytes) in Hr' by lia.
      exists w'. split_and!; [done|done|]. by destruct Hfl as [-> | ->].
Qed.

End Ep0.

(** ** A sample driver

    Its second call finds the hardware busy; it receives an empty message
    block and the first bytes of another one. *)
Definition sample_usb : UsbHw := {|
  usb_send_bulk_in_result n d := if (n =? 1)%nat then -1 else Z.of_nat (length d);
  usb_read_bulk_out_result n _ := (7, command_add_frame 0x10 [] ++ [9; 0x11]);
  usb_read_ep0_result n _ := (-1, []);
  usb_read_ep0_setup_result n := (-1, mkReq 0 0 0 0 0);
  usb_send_ep0_result n p d := if (n =? 1)%nat then -1 else Z.of_nat (length d);
  NEED_PROGMEM := false;
  CONFIG_USB_VENDOR_ID := 0x1d50; CONFIG_USB_DEVICE_ID := 0x614e;
  CONFIG_MCU := [114; 112]; CONFIG_USB_SERIAL_NUMBER := [49; 50];
  CONFIG_USB_SERIAL_NUMBER_CHIPID := true;
  usbserial_serialid := usb_fill_serial 4 [0x1a; 0x2b];
  CONFIG_HAVE_BOOTLOADER_REQUEST := false;
  usb_bootloader_request := mret tt
|}.

Lemma sample_bulk_ok : @usb_bulk_ok sample_usb.
Proof. intros n d. cbn. destruct (n =? 1)%nat; [by left|by right]. Qed.

Lemma usb_stream_witness :
  exists w', usb_tx_ok (usbcdc w') /\
  exists kept, sublist kept [replicate 70 3; [8; 9]] /\
    bulk_data (hw_trace w') ++ usb_waiting w'
    = bulk_data (hw_trace initial_world) ++ usb_waiting initial_world ++ concat kept.
Proof.
  set (w1 := after (usb_console_sendf 70 (replicate 70 3)) initial_world).
  set (w2 := after (@usb_bulk_in_task sample_usb) w1).
  set (w3 := after (usb_console_sendf 2 [8; 9]) w2).
  exists w3. apply (@usb_stream sample_usb sample_bulk_ok initial_world w3 [replicate 70 3; [8; 9]]).
  - constructor; vm_compute; [done|by split].
  - apply (run_put 70 (replicate 70 3) _ w1); [cbn; unfold USB_TX_SIZE; lia|vm_compute; reflexivity|].
    apply (run_drain _ w2); [vm_compute; reflexivity|].
    apply (run_put 2 [8; 9] _ w3); [cbn; unfold USB_TX_SIZE; lia|vm_compute; reflexivity|].
    apply run_done.
Defined.

Lemma sample_read_ok : @usb_read_ok sample_usb.
Proof. intros n. cbn. unfold USB_CDC_EP_BULK_OUT_SIZE. by split. Qed.

Definition usb_rx_world : world := after usb_notify_bulk_out initial_world.

Lemma usb_receive_witness :
  exists w', @usb_bulk_out_task sample_usb [] (mret tt) usb_rx_world = Ok tt w' /\
    usb_rx_ok (usbcdc w') /\ usb_pending (usbcdc w') = [9; 0x11].
Proof.
  set (w0 := after (A := bool) (sched_check_wake usb_bulk_out_wake) usb_rx_world).
  set (w1 := after (@usb_fill sample_usb) w0).
  set (P := command_add_frame 0x10 [] ++ [9; 0x11]).
  set (w2 := after (command_find_and_dispatch [] (mret tt) P) w1).
  apply (@usb_receive sample_usb [] (mret tt) sample_read_ok usb_rx_world w0 w1 7 w2 1 5).
  - constructor; vm_compute; [done|by split].
  - vm_compute. reflexivity.
  - vm_compute. reflexivity.
  - vm_compute. reflexivity.
  - vm_compute. reflexivity.
  - vm_compute. by split.
Defined.

Lemma sample_ep0_ok : @usb_ep0_ok sample_usb.
Proof. intros n p d. cbn. destruct (n =? 1)%nat; [by left|by right]. Qed.

