(* ===== verification/BridgeProps.v ===== *)
(** * The USB to CAN bridge routes in order: src/src/generic/usb_canbus.c

    Its two rings are queues at all positions, wrapped around or not; the
    frames of the bus reach the host in order although they arrive in an
    interrupt; every frame of the host is echoed, handled by the node itself
    and sent to the bus exactly as its id demands; a frame is only discarded
    when the bus has refused to send for 50 ms. *)
From S2P Require Import Prelude Buffers Protocol World Frames Sched Command CanSerial UsbCdc UsbCanbus Firmware Sample ConsoleProps CanProps UsbProps.

(** ** Rings

    A ring of [n] elements with two positions that count modulo 2^32. *)
Section Ring.
Context {A : Type} (n : Z) (d : A).
Hypothesis n_pos : 0 < n < 2 ^ 32.
Hypothesis n_div : (n | 2 ^ 32).

Definition ring (q : list A) (pull push : Z) : list A :=
  map (fun j => default d (q !! Z.to_nat ((pull + j) mod n))) (seqZ 0 (u32 (push - pull))).

Record ring_ok (q : list A) (pull push : Z) : Prop := {
  rg_len : Z.of_nat (length q) = n;
  rg_pull : 0 <= pull < 2 ^ 32;
  rg_push : 0 <= push < 2 ^ 32;
  rg_max : u32 (push - pull) <= n
}.

Lemma mod_u32 x : u32 x mod n = x mod n.
Proof. apply Z.mod_mod_divide. done. Qed.

Lemma length_ring q pull push : Z.of_nat (length (ring q pull push)) = u32 (push - pull).
Proof. clear n_pos n_div. unfold ring. rewrite length_map, length_seqZ. pose proof (u32_range (push - pull)). lia. Qed.

Lemma ring_empty q pull : ring q pull pull = [].
Proof. unfold ring. by rewrite Z.sub_diag. Qed.

Lemma ring_nil_inv q pull push : ring_ok q pull push -> ring q pull push = [] -> pull = push.
Proof.
  clear n_pos n_div. intros [_ H1 H2 _] E. pose proof (length_ring q pull push) as El. rewrite E in El. simpl in El.
  word_lia.
Qed.

(** The element at [pull] is the first one. *)
Lemma ring_pop q pull push : ring_ok q pull push -> pull <> push ->
  exists x, q !! Z.to_nat (pull mod n) = Some x /\
    ring q pull push = x :: ring q (u32 (pull + 1)) push /\ ring_ok q (u32 (pull + 1)) push.
Proof.
  intros [Hl H1 H2 Hm] Hne.
  destruct (lookup_lt_is_Some_2 q (Z.to_nat (pull mod n))) as [x Ex].
  { pose proof (Z.mod_pos_bound pull n (proj1 n_pos)). lia. }
  exists x. assert (u32 (push - u32 (pull + 1)) = u32 (push - pull) - 1) as E by word_lia.
  assert (1 <= u32 (push - pull)) as Hlen by word_lia.
  split_and!; [done| |constructor; [done|apply u32_range|done|lia]].
  unfold ring. rewrite E, seqZ_cons by lia. cbn [map]. rewrite Z.add_0_r, Ex. f_equal.
  change (Z.succ 0) with (1 + 0). rewrite <- (fmap_add_seqZ 1), map_map.
  replace (Z.pred (u32 (push - pull))) with (u32 (push - pull) - 1) by lia.
  apply map_ext. intros j. do 3 f_equal. rewrite <- (mod_u32 (u32 _ + _)), u32_add_l, mod_u32. f_equal. lia.
Qed.

(** An element stored at [push] is the last one. *)
Lemma ring_push q pull push x : ring_ok q pull push -> u32 (push - pull) < n ->
  ring (<[Z.to_nat (push mod n) := x]> q) pull (u32 (push + 1)) = ring q pull push ++ [x] /\
  ring_ok (<[Z.to_nat (push mod n) := x]> q) pull (u32 (push + 1)).
Proof.
  intros [Hl H1 H2 Hm] Hroom. pose proof (Z.mod_pos_bound push n (proj1 n_pos)) as Hb.
  assert (u32 (u32 (push + 1) - pull) = u32 (push - pull) + 1) as E by (clear Hb n_div; word_lia).
  assert (0 <= u32 (push - pull)) as Hlen by apply u32_range.
  split; [|constructor; [by rewrite length_insert|done|apply u32_range|lia]].
  unfold ring. rewrite E, seqZ_app, map_app by lia. f_equal.
  - apply map_ext_in. intros j [Hj1 Hj2]%list_elem_of_In%elem_of_seqZ.
    rewrite list_lookup_insert_ne; [done|]. intros E2%(f_equal Z.of_nat).
    rewrite !Z2Nat.id in E2 by (apply Z.mod_pos_bound; lia).
    assert (push mod n = (pull + u32 (push - pull)) mod n) as E3.
    { rewrite <- (mod_u32 (pull + _)), u32_add_r. replace (pull + (push - pull)) with push by lia.
      by rewrite mod_u32. }
    set (L := u32 (push - pull)) in *. rewrite E3 in E2. clear -Hj1 Hj2 Hroom E2 n_pos.
    assert ((L - j) mod n = 0) as E4; [|rewrite Z.mod_small in E4; lia].
    replace (L - j) with ((pull + L) - (pull + j)) by lia.
    rewrite Zminus_mod, E2, Z.sub_diag. apply Z.mod_0_l. lia.
  - rewrite Z.add_0_l. change (seqZ (u32 (push - pull)) 1) with [0 + u32 (push - pull)]. cbn [map].
    rewrite Z.add_0_l. rewrite <- (mod_u32 (pull + _)), u32_add_r.
    replace (pull + (push - pull)) with push by lia. rewrite mod_u32, list_lookup_insert_eq by lia. done.
Qed.
End Ring.

(** ** Frames from the bus *)

Definition canhw_pending (c : usbcan_data) : list canbus_msg :=
  ring CANHW_QUEUE canbus_msg_zero (uc_canhw_queue c) (uc_canhw_pull_pos c) (uc_canhw_push_pos c).

Definition canhw_ring_ok (c : usbcan_data) : Prop :=
  ring_ok CANHW_QUEUE (uc_canhw_queue c) (uc_canhw_pull_pos c) (uc_canhw_push_pos c).

(** Frames with the ids of the node itself are not forwarded. *)
Definition forwarded (assigned : Z) (m : canbus_msg) : bool :=
  negb (negb (assigned =? 0) && (Z.land (cm_id m) (Z.lnot 1) =? assigned)).

(** The reference: a list of at most 32 frames; a frame that finds it full is
    dropped. *)
Definition arrive (assigned : Z) (q msgs : list canbus_msg) : list canbus_msg :=
  take 32 (q ++ filter (forwarded assigned) msgs).

Lemma arrive_app a q xs ys : arrive a (arrive a q xs) ys = arrive a q (xs ++ ys).
Proof.
  unfold arrive. rewrite filter_app, app_assoc. set (l := q ++ filter _ xs).
  destruct (decide (length l <= 32)%nat); [by rewrite (take_ge l) by lia|].
  rewrite !take_app_le by (rewrite ?length_take; lia). by rewrite take_take.
Qed.

Lemma arrive_nil a q : (length q <= 32)%nat -> arrive a q [] = q.
Proof. intros. unfold arrive. rewrite app_nil_r. by apply take_ge. Qed.

(** What the interrupt may change: the queue and its [push_pos], and if it does
    so, the task is woken. *)
Record received (w w' : world) : Prop := {
  rc_world : w' = w <| usbcan := usbcan w' |> <| woken := woken w' |>
                    <| tasks_status := tasks_status w' |>;
  rc_uc : usbcan w' = (usbcan w) <| uc_canhw_queue := uc_canhw_queue (usbcan w') |>
                                 <| uc_canhw_push_pos := uc_canhw_push_pos (usbcan w') |>;
  rc_wake : canhw_pending (usbcan w') = canhw_pending (usbcan w) /\ woken w' = woken w
            \/ usbcan_wake ∈ woken w'
}.

#[export] Instance received_preorder : PreOrder received.
Proof.
  split.
  - intros w. constructor; [by destruct w|by destruct (usbcan w)|by left].
  - intros w1 w2 w3 [A1 B1 C1] [A2 B2 C2]. constructor.
    + rewrite A2, A1. by destruct w3.
    + rewrite B2, B1. by destruct (usbcan w3).
    + destruct C2 as [[-> ->]|C2]; [by destruct C1; auto|by right].
Qed.

Lemma canhw_size : 0 < CANHW_QUEUE < 2 ^ 32. Proof. unfold CANHW_QUEUE. lia. Qed.
Lemma canhw_div : (CANHW_QUEUE | 2 ^ 32). Proof. by exists (2 ^ 27). Qed.
Lemma host_size : 0 < HOST_FRAMES < 2 ^ 32. Proof. unfold HOST_FRAMES. lia. Qed.
Lemma host_div : (HOST_FRAMES | 2 ^ 32). Proof. by exists (2 ^ 28). Qed.
#[local] Hint Resolve canhw_size canhw_div host_size host_div : core.

Lemma length_canhw_pending c : canhw_ring_ok c -> (length (canhw_pending c) <= 32)%nat.
Proof.
  intros [_ _ _ Hm]. pose proof (length_ring CANHW_QUEUE canbus_msg_zero (uc_canhw_queue c)
    (uc_canhw_pull_pos c) (uc_canhw_push_pos c)). unfold canhw_pending, CANHW_QUEUE in *. lia.
Qed.

Lemma process_data_arrive m w :
  canhw_ring_ok (usbcan w) ->
  exists w', canbus_process_data m w = Ok tt w' /\ canhw_ring_ok (usbcan w') /\ received w w' /\
    canhw_pending (usbcan w') = arrive (uc_assigned_id (usbcan w)) (canhw_pending (usbcan w)) [m].
Proof.
  intros Hok. pose proof (length_canhw_pending _ Hok) as Hl.
  assert (Z.of_nat (length (canhw_pending (usbcan w)))
    = u32 (uc_canhw_push_pos (usbcan w) - uc_canhw_pull_pos (usbcan w))) as El by apply length_ring.
  unfold canbus_process_data, uc, arrive. munfold. rewrite filter_cons, filter_nil.
  destruct (Z.leb_spec CANHW_QUEUE (u32 (uc_canhw_push_pos (usbcan w) - uc_canhw_pull_pos (usbcan w))))
    as [Hf|Hf]; unfold CANHW_QUEUE in Hf; munfold.
  { exists w. split_and!; [done..|]. rewrite take_app_le, take_ge by lia. done. }
  replace (negb _ && _) with (negb (forwarded (uc_assigned_id (usbcan w)) m))
    by (unfold forwarded; by rewrite negb_involutive).
  case_decide as Hd; [apply Is_true_true in Hd|apply Is_true_false in Hd]; rewrite Hd; cbn [negb].
  2: { exists w. split_and!; [done..|]. rewrite app_nil_r, take_ge by lia. done. }
  unfold set_uc, wake_usbcan_task, sched_wake_task, sched_wake_tasks. munfold.
  destruct (ring_push CANHW_QUEUE canbus_msg_zero canhw_size canhw_div (uc_canhw_queue (usbcan w))
    (uc_canhw_pull_pos (usbcan w)) (uc_canhw_push_pos (usbcan w)) m Hok Hf) as [Er Hok'].
  eexists. split; [reflexivity|]. split_and!; [exact Hok'| |].
  - constructor; [by destruct w|cbn; by destruct (usbcan w)|right; by left].
  - etrans; [exact Er|]. rewrite take_ge; [done|].
    rewrite length_app. cbn. lia.
Qed.

Lemma canhw_irqs_arrive msgs : forall w,
  canhw_ring_ok (usbcan w) ->
  exists w', canhw_irqs msgs w = Ok tt w' /\ canhw_ring_ok (usbcan w') /\ received w w' /\
    canhw_pending (usbcan w') = arrive (uc_assigned_id (usbcan w)) (canhw_pending (usbcan w)) msgs.
Proof.
  induction msgs as [|m msgs IH]; intros w Hok; cbn [canhw_irqs].
  - exists w. rewrite arrive_nil by (by apply length_canhw_pending). done.
  - destruct (process_data_arrive m w Hok) as (w1 & E1 & H1 & R1 & P1).
    destruct (IH w1 H1) as (w2 & E2 & H2 & R2 & P2). rewrite (bind_ok _ _ _ _ _ E1).
    exists w2. split_and!; [done|done|by etrans|].
    rewrite P2, P1. rewrite (rc_uc _ _ R1). cbn [uc_assigned_id upd eta eta_usbcan_data].
    apply arrive_app.
Qed.

Lemma arrive_split a q msgs : (length q <= 32)%nat ->
  exists acc, arrive a q msgs = q ++ acc /\ sublist acc (filter (forwarded a) msgs) /\
    (length q + length (filter (forwarded a) msgs) <= 32 -> acc = filter (forwarded a) msgs)%nat.
Proof.
  intros Hq. exists (take (32 - length q) (filter (forwarded a) msgs)). split_and!.
  - unfold arrive. by rewrite take_app, (take_ge q) by lia.
  - apply sublist_take.
  - intros. apply take_ge. lia.
Qed.

Lemma received_same w w' : received w w' ->
  uc_canhw_pull_pos (usbcan w') = uc_canhw_pull_pos (usbcan w) /\
  uc_assigned_id (usbcan w') = uc_assigned_id (usbcan w).
Proof. intros [_ -> _]. done. Qed.

(** All that arrives in the passes of [irqs]. *)
Definition pass_arrivals (now : pass_irqs) : list canbus_msg := pi_early now ++ pi_mid now ++ pi_late now.
Definition bus_arrivals (irqs : list pass_irqs) : list canbus_msg := concat (map pass_arrivals irqs).

(** What [drain_canhw_queue] may change. *)
Record drained (w w' : world) : Prop := {
  dr_world : w' = w <| usbcan := usbcan w' |> <| woken := woken w' |>
                    <| tasks_status := tasks_status w' |> <| io_calls := io_calls w' |>
                    <| hw_trace := hw_trace w' |>;
  dr_uc : usbcan w' = (usbcan w) <| uc_usb_send_busy := uc_usb_send_busy (usbcan w') |>
                                 <| uc_canhw_queue := uc_canhw_queue (usbcan w') |>
                                 <| uc_canhw_pull_pos := uc_canhw_pull_pos (usbcan w') |>
                                 <| uc_canhw_push_pos := uc_canhw_push_pos (usbcan w') |>
}.

#[export] Instance drained_preorder : PreOrder drained.
Proof.
  split.
  - intros w. constructor; [by destruct w|by destruct (usbcan w)].
  - intros w1 w2 w3 [A1 B1] [A2 B2]. constructor.
    + rewrite A2, A1. by destruct w3.
    + rewrite B2, B1. by destruct (usbcan w3).
Qed.

Lemma received_drained w w' : received w w' -> drained w w'.
Proof.
  intros [A B _]. constructor; [rewrite A; by destruct w|]. rewrite B. cbn. by destruct (usbcan w).
Qed.

Section Drain.
Context `{UsbHw}.
Variable unset : list Z.

(** The frame that carries a message to the host. *)
Definition host_frame (msg : canbus_msg) : gs_host_frame :=
  mkGsFrame 0xffffffff (cm_id msg) (u8 (cm_dlc msg)) 0 0 0 (take 8 (cm_data msg ++ unset)).
Definition to_host (msg : canbus_msg) : hw_event := HwUsbBulkIn (gs_bytes (host_frame msg)).

(** The last call of the driver found the endpoint busy. *)
Definition usb_refused (w : world) : Prop :=
  exists d, usb_send_bulk_in_result (pred (io_calls w)) d < 0.

Lemma usb_send_bulk_in_run d w :
  let ret := usb_send_bulk_in_result (io_calls w) d in
  usb_send_bulk_in d w
  = Ok ret (w <| io_calls := S (io_calls w) |>
              <| hw_trace := (if ret <? 0 then [] else [HwUsbBulkIn d]) ++ hw_trace w |>).
Proof.
  unfold usb_send_bulk_in, next_call, hw. munfold. cbv zeta.
  destruct (Z.leb_spec 0 (usb_send_bulk_in_result (io_calls w) d)),
    (Z.ltb_spec (usb_send_bulk_in_result (io_calls w) d) 0); try lia; [done|by destruct w].
Qed.

(** The first two groups of interrupts of a pass: if the queue was seen not to
    be empty, its first frame is there to be read. *)
Lemma canhw_pass_front now w :
  canhw_ring_ok (usbcan w) ->
  exists w1 w2 q, canhw_irqs (pi_early now) w = Ok tt w1 /\ canhw_irqs (pi_mid now) w1 = Ok tt w2 /\
    canhw_ring_ok (usbcan w2) /\ received w w2 /\ canhw_pending (usbcan w2) = q /\
    q = arrive (uc_assigned_id (usbcan w)) (canhw_pending (usbcan w)) (pi_early now ++ pi_mid now) /\
    (uc_canhw_push_pos (usbcan w1) = uc_canhw_pull_pos (usbcan w) -> canhw_pending (usbcan w) = []) /\
    (uc_canhw_push_pos (usbcan w1) <> uc_canhw_pull_pos (usbcan w) ->
     exists m q', q = m :: q' /\
       uc_canhw_queue (usbcan w2) !! Z.to_nat (uc_canhw_pull_pos (usbcan w) mod CANHW_QUEUE) = Some m).
Proof.
  intros Hok. destruct (canhw_irqs_arrive (pi_early now) w Hok) as (w1 & E1 & H1 & R1 & P1).
  destruct (canhw_irqs_arrive (pi_mid now) w1 H1) as (w2 & E2 & H2 & R2 & P2).
  destruct (received_same _ _ R1) as [L1 I1], (received_same _ _ R2) as [L2 I2].
  exists w1, w2, (canhw_pending (usbcan w2)). split_and!; [done|done|done|by etrans|done| | |].
  - rewrite P2, P1, I1. apply arrive_app.
  - intros E. assert (canhw_pending (usbcan w1) = []) as En
      by (unfold canhw_pending; rewrite L1, E; apply ring_empty).
    rewrite En in P1. symmetry in P1. unfold arrive in P1. by destruct (canhw_pending (usbcan w)).
  - intros E. rewrite <- L1 in E.
    destruct (ring_pop CANHW_QUEUE canbus_msg_zero canhw_size canhw_div _ _ _ H1 (not_eq_sym E))
      as (m1 & _ & Em1 & _). fold (canhw_pending (usbcan w1)) in Em1.
    assert (uc_canhw_pull_pos (usbcan w2) <> uc_canhw_push_pos (usbcan w2)) as Hne.
    { intros E3. assert (canhw_pending (usbcan w2) = []) as En
        by (unfold canhw_pending; rewrite <- E3; apply ring_empty).
      by rewrite En, Em1 in P2. }
    destruct (ring_pop CANHW_QUEUE canbus_msg_zero canhw_size canhw_div _ _ _ H2 Hne)
      as (m2 & Em2 & Ep2 & _). rewrite L2, L1 in Em2. by eexists _, _.
Qed.

(** The last group, and the store to [canhw_pull_pos]. *)
Lemma canhw_pass_back now w w2 :
  canhw_ring_ok (usbcan w2) -> uc_assigned_id (usbcan w2) = uc_assigned_id (usbcan w) ->
  canhw_pending (usbcan w2) = arrive (uc_assigned_id (usbcan w)) (canhw_pending (usbcan w))
                                (pi_early now ++ pi_mid now) ->
  exists w3, canhw_irqs (pi_late now) w2 = Ok tt w3 /\ canhw_ring_ok (usbcan w3) /\ received w2 w3 /\
    canhw_pending (usbcan w3)
      = arrive (uc_assigned_id (usbcan w)) (canhw_pending (usbcan w)) (pass_arrivals now) /\
    forall m q', canhw_pending (usbcan w2) = m :: q' ->
      let c := (usbcan w3) <| uc_canhw_pull_pos := u32 (uc_canhw_pull_pos (usbcan w2) + 1) |> in
      canhw_ring_ok c /\ canhw_pending (usbcan w3) = m :: canhw_pending c.
Proof.
  intros H2 I2 P2. destruct (canhw_irqs_arrive (pi_late now) w2 H2) as (w3 & E3 & H3 & R3 & P3).
  destruct (received_same _ _ R3) as [L3 I3]. exists w3. split_and!; [done..| |].
  - rewrite P3, P2, I2. unfold pass_arrivals. by rewrite arrive_app, <- app_assoc.
  - intros m q' Em. rewrite Em in P3. rewrite <- L3. cbv zeta. set (c := _ <| uc_canhw_pull_pos := _ |>).
    assert (uc_canhw_pull_pos (usbcan w3) <> uc_canhw_push_pos (usbcan w3)) as Hne.
    { intros E. assert (canhw_pending (usbcan w3) = []) as En
        by (unfold canhw_pending; rewrite <- E; apply ring_empty). by rewrite En in P3. }
    destruct (ring_pop CANHW_QUEUE canbus_msg_zero canhw_size canhw_div _ _ _ H3 Hne)
      as (m3 & _ & Ep & Hok). split; [exact Hok|].
    change (canhw_pending (usbcan w3) = m3 :: canhw_pending c) in Ep.
    rewrite Ep in P3. unfold arrive in P3. cbn [app take] in P3. injection P3 as <- _. done.
Qed.
Lemma pass_take irqs k :
  bus_arrivals (take (S k) irqs)
  = pass_arrivals (default no_irqs (head irqs)) ++ bus_arrivals (take k (tail irqs)).
Proof. destruct irqs as [|now irqs]; cbn; [by destruct k|done]. Qed.

Lemma pass_rest irqs :
  length (bus_arrivals irqs)
  = (length (pass_arrivals (default no_irqs (head irqs))) + length (bus_arrivals (tail irqs)))%nat.
Proof. destruct irqs as [|now irqs]; cbn; [done|]. by rewrite length_app. Qed.

(** How the loop ends: all is sent or more has arrived, or the endpoint is
    busy. *)
Definition drain_end (w' : world) : Prop :=
  uc_usb_send_busy (usbcan w') = 0 /\ (canhw_pending (usbcan w') = [] \/ usbcan_wake ∈ woken w') \/
  uc_usb_send_busy (usbcan w') = 1 /\ usb_refused w'.

(** What it sends, of the frames waiting and those that arrive. *)
Definition drain_result (irqs : list pass_irqs) (w w' : world) : Prop :=
  exists k sent acc,
    let A := filter (forwarded (uc_assigned_id (usbcan w))) (bus_arrivals (take k irqs)) in
    sublist acc A /\ (length (canhw_pending (usbcan w)) + length A <= 32 -> acc = A)%nat /\
    canhw_pending (usbcan w) ++ acc = sent ++ canhw_pending (usbcan w') /\
    hw_trace w' = reverse (map to_host sent) ++ hw_trace w.

(** A pass that ends the loop. *)
Lemma drain_result_stop irqs w w' :
  let now := default no_irqs (head irqs) in
  canhw_ring_ok (usbcan w) ->
  canhw_pending (usbcan w')
    = arrive (uc_assigned_id (usbcan w)) (canhw_pending (usbcan w)) (pass_arrivals now) ->
  hw_trace w' = hw_trace w -> drain_result irqs w w'.
Proof.
  intros now Hok Ep Et. pose proof (length_canhw_pending _ Hok) as HQ.
  destruct (arrive_split (uc_assigned_id (usbcan w)) _ (pass_arrivals now) HQ) as (acc & Ea & Hs & Hall).
  exists 1%nat, [], acc. cbv zeta. rewrite pass_take. cbn [take bus_arrivals map concat].
  rewrite app_nil_r. fold now. rewrite Ep, Ea. by split_and!.
Qed.

(** A pass that sends the frame [m]. *)
Lemma drain_result_sent irqs w w4 w' m :
  let now := default no_irqs (head irqs) in
  canhw_ring_ok (usbcan w) -> uc_assigned_id (usbcan w4) = uc_assigned_id (usbcan w) ->
  m :: canhw_pending (usbcan w4)
    = arrive (uc_assigned_id (usbcan w)) (canhw_pending (usbcan w)) (pass_arrivals now) ->
  hw_trace w4 = to_host m :: hw_trace w ->
  drain_result (tail irqs) w4 w' -> drain_result irqs w w'.
Proof.
  intros now Hok Ei Ep Et (k & sent & acc' & Hs' & Hall' & Ec & Et').
  pose proof (length_canhw_pending _ Hok) as HQ.
  destruct (arrive_split (uc_assigned_id (usbcan w)) _ (pass_arrivals now) HQ) as (acc & Ea & Hs & Hall).
  exists (S k), (m :: sent), (acc ++ acc'). cbv zeta. rewrite pass_take, filter_app, length_app. fold now.
  rewrite Ei in *. rewrite <- Ep in Ea. split_and!.
  - by apply sublist_app.
  - intros Hl. apply (f_equal length) in Ea. rewrite length_app in Ea. cbn [length] in Ea.
    assert (acc = filter (forwarded (uc_assigned_id (usbcan w))) (pass_arrivals now)) as E by (apply Hall; lia).
    rewrite <- E in *. f_equal. apply Hall'. lia.
  - cbn [app]. rewrite app_assoc, <- Ea. cbn [app]. by f_equal.
  - rewrite Et', Et. cbn [map]. by rewrite reverse_cons, <- app_assoc.
Qed.

Lemma canhw_loop_ok fuel : forall irqs w,
  canhw_ring_ok (usbcan w) ->
  (length (canhw_pending (usbcan w)) + length (bus_arrivals irqs) < fuel)%nat ->
  exists w', canhw_loop unset fuel irqs (uc_canhw_pull_pos (usbcan w)) w = Ok tt w' /\
    canhw_ring_ok (usbcan w') /\ drained w w' /\ drain_result irqs w w' /\ drain_end w'.
Proof.
  induction fuel as [|fuel IH]; intros irqs w Hok Hf; [lia|]. cbn [canhw_loop].
  pose proof (pass_rest irqs) as Hrest. set (now := default no_irqs (head irqs)) in *.
  destruct (canhw_pass_front now w Hok) as (w1 & w2 & q & E1 & E2 & H2 & R2 & Eq & Ep & Hem & Hne).
  destruct (received_same _ _ R2) as [L2 I2]. unfold uc. munfold. rewrite E1, E2.
  destruct (Z.eqb_spec (uc_canhw_push_pos (usbcan w1)) (uc_canhw_pull_pos (usbcan w))) as [E|E].
  - destruct (canhw_pass_back now w w2 H2 I2) as (w3 & E3 & H3 & R3 & P3 & _); [congruence|].
    rewrite E3. unfold set_uc. munfold. eexists. split; [reflexivity|]. split_and!.
    + exact H3.
    + etrans; [apply received_drained; etrans; [exact R2|exact R3]|].
      constructor; [by destruct w3|cbn; by destruct (usbcan w3)].
    + apply drain_result_stop; [done|exact P3|]. cbn. by rewrite (rc_world _ _ R3), (rc_world _ _ R2).
    + left. split; [done|]. assert (received w w3) as [_ _ Hw] by (by etrans).
      destruct Hw as [[Hw _]|Hw]; [left|by right].
      change (canhw_pending (usbcan w3) = []). rewrite Hw. by apply Hem.
  - destruct (Hne E) as (m & q' & Em & ->). unfold deref, send_frame. munfold.
    fold (host_frame m). rewrite usb_send_bulk_in_run.
    set (ret := usb_send_bulk_in_result (io_calls w2) _).
    set (w2' := w2 <| io_calls := _ |> <| hw_trace := _ |>).
    destruct (canhw_pass_back now w w2' H2 I2) as (w3 & E3 & H3 & R3 & P3 & Hpop); [cbn; congruence|].
    assert (hw_trace w2 = hw_trace w) as Ht by (by rewrite (rc_world _ _ R2)).
    assert (drained w w3) as D3.
    { etrans; [apply received_drained, R2|]. etrans; [|apply received_drained, R3].
      constructor; [by destruct w2|cbn; by destruct (usbcan w2)]. }
    rewrite E3. destruct (Z.ltb_spec ret 0) as [Hr|Hr]; unfold set_uc; munfold.
    + eexists. split; [reflexivity|]. split_and!.
      * exact H3.
      * etrans; [exact D3|]. constructor; [by destruct w3|cbn; by destruct (usbcan w3)].
      * apply drain_result_stop; [done|exact P3|]. cbn. rewrite (rc_world _ _ R3). cbn.
        exact Ht.
      * right. split; [done|]. eexists. cbn. rewrite (rc_world _ _ R3). exact Hr.
    + set (w4 := w3 <| usbcan ::= _ |>).
      destruct (Hpop m q') as [H4 P4]; [cbn; congruence|].
      change (uc_canhw_pull_pos (usbcan w2')) with (uc_canhw_pull_pos (usbcan w2)) in H4, P4.
      rewrite L2 in H4, P4. change (canhw_ring_ok (usbcan w4)) in H4.
      change (canhw_pending (usbcan w3) = m :: canhw_pending (usbcan w4)) in P4.
      change (u32 (uc_canhw_pull_pos (usbcan w) + 1)) with (uc_canhw_pull_pos (usbcan w4)).
      destruct (IH (tail irqs) w4 H4) as (w' & E' & H' & D' & Hres & Hend).
      { pose proof (f_equal length P4) as Hl. rewrite P3 in Hl. unfold arrive in Hl.
        rewrite length_take, length_app in Hl. cbn [length] in Hl.
        pose proof (length_filter (forwarded (uc_assigned_id (usbcan w))) (pass_arrivals now)). lia. }
      exists w'. split_and!; [exact E'|done| | |done].
      * etrans; [exact D3|]. etrans; [|exact D'].
        constructor; [by destruct w3|cbn; by destruct (usbcan w3)].
      * apply (drain_result_sent irqs w w4 w' m); [done| |by rewrite <- P4| |done].
        -- cbn. by rewrite (dr_uc _ _ D3).
        -- cbn. rewrite (rc_world _ _ R3). cbn. by rewrite Ht.
Qed.

(** The frames of the bus reach the host: whatever arrives while
    [drain_canhw_queue] runs, it returns, and the frames that it sends and then
    leaves in the queue are those of the queue and the ones that arrived, in
    order; none is left out as long as there are not more than 32, also when
    the positions wrap around.  It ends with all frames sent or, if more have
    just arrived, the task woken again, or with the endpoint busy. *)
Theorem canhw_forwarded irqs fuel w :
  canhw_ring_ok (usbcan w) -> (32 + length (bus_arrivals irqs) < fuel)%nat ->
  exists w', drain_canhw_queue unset fuel irqs w = Ok tt w' /\
    canhw_ring_ok (usbcan w') /\ drained w w' /\ drain_result irqs w w' /\ drain_end w'.
Proof.
  intros Hok Hf. apply canhw_loop_ok; [done|]. pose proof (length_canhw_pending _ Hok). lia.
Qed.
End Drain.

(** ** Frames from the host *)

Definition host_pending (c : usbcan_data) : list gs_host_frame :=
  ring HOST_FRAMES gs_host_frame_zero (uc_host_frames c) (uc_host_pull_pos c) (uc_host_push_pos c).

Record host_ok (c : usbcan_data) : Prop := {
  ho_ring : ring_ok HOST_FRAMES (uc_host_frames c) (uc_host_pull_pos c) (uc_host_push_pos c);
  ho_status : uc_host_status c = 0
              \/ 0 < uc_host_status c < 8 /\ uc_host_pull_pos c <> uc_host_push_pos c;
  ho_state : 0 <= uc_bus_send_state c <= 2
}.

(** The reference: what is to be done with a frame. *)
Inductive action : Set :=
| A_echo (g : gs_host_frame)
| A_local (g : gs_host_frame)
| A_bus (g : gs_host_frame).

Definition todo (status : Z) (g : gs_host_frame) : list action :=
  (if flag status HS_TX_ECHO then [A_echo g] else [])
  ++ (if flag status HS_TX_LOCAL then [A_local g] else [])
  ++ (if flag status HS_TX_HW then [A_bus g] else []).

(** A frame that has just arrived is echoed; administrative frames go to the
    node itself and to the bus, frames with the id of the node only to the node,
    all others only to the bus. *)
Definition fresh (assigned : Z) (g : gs_host_frame) : list action :=
  let admin := gs_can_id g =? 0x3f0 in
  let ours := negb (assigned =? 0) && (gs_can_id g =? assigned) in
  [A_echo g] ++ (if admin || ours then [A_local g] else []) ++ (if admin || negb ours then [A_bus g] else []).

Lemma fresh_todo assigned g : fresh assigned g = todo (frame_status assigned (gs_can_id g)) g.
Proof.
  unfold fresh, frame_status, CANBUS_ID_ADMIN. rewrite (Z.eqb_sym assigned (gs_can_id g)).
  by destruct (gs_can_id g =? 0x3f0), (assigned =? 0), (gs_can_id g =? assigned).
Qed.

(** All that is left to do: the rest of the frame that is being handled, and
    the frames behind it. *)
Definition work (c : usbcan_data) : list action :=
  match host_pending c with
  | [] => []
  | g :: q =>
      (if uc_host_status c =? 0 then fresh (uc_assigned_id c) g else todo (uc_host_status c) g)
      ++ concat (map (fresh (uc_assigned_id c)) q)
  end.

(** Actions that were performed; [false] for a message to the bus that was
    discarded. *)
Definition act_event (x : action * bool) : list hw_event :=
  match x with
  | (A_echo g, _) => [HwUsbBulkIn (gs_bytes g)]
  | (A_bus g, true) => [HwCanSend (frame_msg g)]
  | _ => []
  end.
Definition act_local (x : action * bool) : list canbus_msg :=
  match x with (A_local g, _) => [frame_msg g] | _ => [] end.

(** What [drain_host_queue] may change. *)
Record routed (w w' : world) : Prop := {
  ro_world : w' = w <| usbcan := usbcan w' |> <| candata := candata w' |> <| woken := woken w' |>
                    <| tasks_status := tasks_status w' |> <| io_calls := io_calls w' |>
                    <| hw_trace := hw_trace w' |> <| clock_reads := clock_reads w' |>
                    <| sent := sent w' |> <| in_sendf := in_sendf w' |>;
  ro_uc : usbcan w' = (usbcan w) <| uc_host_status := uc_host_status (usbcan w') |>
                                 <| uc_host_pull_pos := uc_host_pull_pos (usbcan w') |>
                                 <| uc_bus_send_state := uc_bus_send_state (usbcan w') |>
                                 <| uc_bus_send_discard_time := uc_bus_send_discard_time (usbcan w') |>
}.

#[export] Instance routed_preorder : PreOrder routed.
Proof.
  split.
  - intros w. constructor; [by destruct w|by destruct (usbcan w)].
  - intros w1 w2 w3 [A1 B1] [A2 B2]. constructor.
    + rewrite A2, A1. by destruct w3.
    + rewrite B2, B1. by destruct (usbcan w3).
Qed.

(** The effects of performed actions; nothing is discarded if the bus was ready
    at the start. *)
Record effects (done : list (action * bool)) (w w' : world) : Prop := {
  ef_routed : routed w w';
  ef_trace : hw_trace w' = concat (map act_event (reverse done)) ++ hw_trace w;
  ef_local : candata w' = foldl (fun c m => recv m c) (candata w) (concat (map act_local done));
  ef_drop : Forall (fun x => match x with (A_bus _, _) | (_, true) => True | _ => False end) done;
  ef_state : 0 <= uc_bus_send_state (usbcan w) <= 2 -> 0 <= uc_bus_send_state (usbcan w') <= 2;
  ef_ready : uc_bus_send_state (usbcan w) = BSS_READY -> Forall (fun x => x.2 = true) done
}.

Definition ready_kept (w w' : world) : Prop :=
  uc_bus_send_state (usbcan w) = BSS_READY -> uc_bus_send_state (usbcan w') = BSS_READY.

Lemma effects_nil w w' : routed w w' -> hw_trace w' = hw_trace w -> candata w' = candata w ->
  0 <= uc_bus_send_state (usbcan w') <= 2 -> effects [] w w'.
Proof. intros. by constructor. Qed.

Lemma effects_app d1 d2 w w1 w2 :
  effects d1 w w1 -> ready_kept w w1 -> effects d2 w1 w2 -> effects (d1 ++ d2) w w2.
Proof.
  intros [A1 B1 C1 D1 S1 E1] K1 [A2 B2 C2 D2 S2 E2]. constructor.
  - by etrans.
  - by rewrite B2, B1, reverse_app, map_app, concat_app, app_assoc.
  - by rewrite C2, C1, map_app, concat_app, foldl_app.
  - by apply Forall_app.
  - auto.
  - intros E. apply Forall_app. auto.
Qed.

Section Host.
Context `{Board} `{CanHw} `{UsbHw}.

Lemma canhw_send_run m w :
  let ret := canhw_send_result (io_calls w) m in
  canhw_send m w
  = Ok ret (w <| io_calls := S (io_calls w) |>
              <| hw_trace := (if ret <? 0 then [] else [HwCanSend m]) ++ hw_trace w |>).
Proof.
  unfold canhw_send, hw. munfold. cbv zeta.
  destruct (Z.leb_spec 0 (canhw_send_result (io_calls w) m)),
    (Z.ltb_spec (canhw_send_result (io_calls w) m) 0); try lia; [done|by destruct w].
Qed.

(** A report changes nothing but the messages. *)
Lemma note_discard_run d w : exists msgs b,
  note_discard_state d w = Ok tt (w <| sent := msgs |> <| in_sendf := b |>).
Proof.
  unfold note_discard_state, sendf, command_sendf, console_sendf. munfold.
  destruct (in_sendf w) eqn:E; [exists (sent w), true; by destruct w; cbn in *; subst|].
  by eexists _, _.
Qed.

(** The three ways an attempt to send can end. *)
Inductive attempt (m : canbus_msg) (w w' : world) (ret : Z) : Prop :=
| at_sent : 0 <= ret -> hw_trace w' = HwCanSend m :: hw_trace w ->
    uc_bus_send_state (usbcan w') = BSS_READY -> attempt m w w' ret
| at_dropped : ret = 0 -> canhw_send_result (io_calls w) m < 0 -> hw_trace w' = hw_trace w ->
    uc_bus_send_state (usbcan w) <> BSS_READY -> uc_bus_send_state (usbcan w') = BSS_DISCARDING ->
    attempt m w w' ret
| at_blocked : ret < 0 -> canhw_send_result (io_calls w) m = ret -> hw_trace w' = hw_trace w ->
    uc_bus_send_state (usbcan w') = BSS_BLOCKING -> attempt m w w' ret.

(** All that an attempt may change. *)
Definition bus_upd (n : nat) (tr : list hw_event) (ck : nat) (msgs : list message) (b : bool)
    (st t : Z) (w : world) : world :=
  w <| io_calls := n |> <| hw_trace := tr |> <| clock_reads := ck |> <| sent := msgs |>
    <| in_sendf := b |>
    <| usbcan := (usbcan w) <| uc_bus_send_state := st |> <| uc_bus_send_discard_time := t |> |>.

Lemma bus_upd_routed n tr ck msgs b st t w : routed w (bus_upd n tr ck msgs b st t w).
Proof. constructor; [by destruct w|cbn; by destruct (usbcan w)]. Qed.

(** Equality of such states, by their fields. *)
Ltac bus_eq w :=
  try match goal with E : uc_bus_send_state (usbcan w) = _ |- _ => rewrite <- E end;
  unfold bus_upd; destruct w as [????? ????? ????? ????? ????? ????? ???? [] ?]; clear;
  lazy -[u32 timer_from_us Z.add]; reflexivity.

Lemma try_send_sent m w : 0 <= canhw_send_result (io_calls w) m ->
  exists msgs b, try_canmsg_send m w
    = Ok (canhw_send_result (io_calls w) m)
        (bus_upd (S (io_calls w)) (HwCanSend m :: hw_trace w) (clock_reads w) msgs b BSS_READY
           (uc_bus_send_discard_time (usbcan w)) w).
Proof.
  intros Hr. unfold try_canmsg_send. rewrite (bind_ok _ _ _ _ _ (canhw_send_run m w)).
  rewrite (proj2 (Z.leb_le _ _)), (proj2 (Z.ltb_ge _ _)) by lia.
  unfold uc, set_bus_state, set_uc. munfold. cbn [usbcan upd eta eta_world].
  destruct (_ =? BSS_DISCARDING).
  - match goal with |- context [note_discard_state 0 ?x] => destruct (note_discard_run 0 x) as (msgs & b & ->) end.
    exists msgs, b. bus_eq w.
  - exists (sent w), (in_sendf w). bus_eq w.
Qed.

Lemma try_send_ready m w :
  canhw_send_result (io_calls w) m < 0 -> uc_bus_send_state (usbcan w) = BSS_READY ->
  try_canmsg_send m w
  = Ok (canhw_send_result (io_calls w) m)
      (bus_upd (S (io_calls w)) (hw_trace w) (S (clock_reads w)) (sent w) (in_sendf w) BSS_BLOCKING
         (u32 (u32 (clock_reading (clock_reads w)) + timer_from_us 50000)) w).
Proof.
  intros Hr Es. unfold try_canmsg_send. rewrite (bind_ok _ _ _ _ _ (canhw_send_run m w)).
  rewrite (proj2 (Z.leb_gt _ _)), (proj2 (Z.ltb_lt _ _)) by lia.
  unfold check_need_discard, uc, set_bus_state, set_uc, timer_read_time. munfold.
  cbn [usbcan upd eta eta_world]. rewrite Es. cbn [negb Z.eqb BSS_BLOCKING BSS_READY]. munfold.
  cbn [usbcan upd eta eta_world]. rewrite Es. cbn [Z.eqb BSS_DISCARDING BSS_READY].
  bus_eq w.
Qed.

Lemma try_send_blocking m w :
  canhw_send_result (io_calls w) m < 0 -> uc_bus_send_state (usbcan w) = BSS_BLOCKING ->
  let t := uc_bus_send_discard_time (usbcan w) in
  if timer_is_before t (u32 (clock_reading (clock_reads w))) then
    exists msgs b, try_canmsg_send m w
    = Ok 0 (bus_upd (S (io_calls w)) (hw_trace w) (S (clock_reads w)) msgs b BSS_DISCARDING t w)
  else try_canmsg_send m w
    = Ok (canhw_send_result (io_calls w) m)
        (bus_upd (S (io_calls w)) (hw_trace w) (S (clock_reads w)) (sent w) (in_sendf w) BSS_BLOCKING t w).
Proof.
  intros Hr Es. cbv zeta. unfold try_canmsg_send. rewrite (bind_ok _ _ _ _ _ (canhw_send_run m w)).
  rewrite (proj2 (Z.leb_gt _ _)), (proj2 (Z.ltb_lt _ _)) by lia.
  unfold check_need_discard, uc, set_bus_state, set_uc, timer_read_time. munfold.
  cbn [usbcan clock_reads upd eta eta_world]. rewrite Es. cbn [negb Z.eqb BSS_BLOCKING Pos.eqb]. munfold.
  cbn [usbcan clock_reads upd eta eta_world].
  destruct (timer_is_before _ _).
  - match goal with |- context [note_discard_state 1 ?x] => destruct (note_discard_run 1 x) as (msgs & b & ->) end.
    exists msgs, b. cbn [usbcan uc_bus_send_state upd eta eta_world eta_usbcan_data Z.eqb BSS_DISCARDING Pos.eqb].
    bus_eq w.
  - cbn [usbcan clock_reads upd eta eta_world]. rewrite Es. cbn [Z.eqb BSS_DISCARDING BSS_BLOCKING BSS_READY Pos.eqb].
    bus_eq w.
Qed.

Lemma try_send_discarding m w :
  canhw_send_result (io_calls w) m < 0 -> uc_bus_send_state (usbcan w) = BSS_DISCARDING ->
  try_canmsg_send m w
  = Ok 0 (bus_upd (S (io_calls w)) (hw_trace w) (clock_reads w) (sent w) (in_sendf w) BSS_DISCARDING
            (uc_bus_send_discard_time (usbcan w)) w).
Proof.
  intros Hr Es. unfold try_canmsg_send. rewrite (bind_ok _ _ _ _ _ (canhw_send_run m w)).
  rewrite (proj2 (Z.leb_gt _ _)), (proj2 (Z.ltb_lt _ _)) by lia.
  unfold check_need_discard, uc, set_bus_state, set_uc, timer_read_time. munfold.
  cbn [usbcan upd eta eta_world]. rewrite Es. cbn [negb Z.eqb BSS_BLOCKING BSS_DISCARDING Pos.eqb]. munfold.
  cbn [usbcan upd eta eta_world]. rewrite Es. cbn [Z.eqb BSS_DISCARDING Pos.eqb].
  bus_eq w.
Qed.

Lemma try_send_ok m w :
  0 <= uc_bus_send_state (usbcan w) <= 2 ->
  exists ret w', try_canmsg_send m w = Ok ret w' /\ routed w w' /\ candata w' = candata w /\
    uc_host_status (usbcan w') = uc_host_status (usbcan w) /\
    uc_host_pull_pos (usbcan w') = uc_host_pull_pos (usbcan w) /\ io_calls w' = S (io_calls w) /\
    attempt m w w' ret.
Proof.
  intros Hs. destruct (Z.leb_spec 0 (canhw_send_result (io_calls w) m)) as [Hr|Hr].
  { destruct (try_send_sent m w Hr) as (msgs & b & E). eexists _, _. split; [exact E|].
    split_and!; [apply bus_upd_routed|done..|by apply at_sent]. }
  assert (uc_bus_send_state (usbcan w) = BSS_READY \/ uc_bus_send_state (usbcan w) = BSS_BLOCKING
    \/ uc_bus_send_state (usbcan w) = BSS_DISCARDING) as [E|[E|E]]
    by (unfold BSS_READY, BSS_BLOCKING, BSS_DISCARDING; lia).
  - eexists _, _. split; [by apply try_send_ready|].
    split_and!; [apply bus_upd_routed|done..|by apply at_blocked].
  - pose proof (try_send_blocking m w Hr E) as Eb. cbv zeta in Eb. destruct (timer_is_before _ _).
    + destruct Eb as (msgs & b & Eb). eexists _, _. split; [exact Eb|].
      split_and!; [apply bus_upd_routed|done..|apply at_dropped; [done..|by rewrite E|done]].
    + eexists _, _. split; [exact Eb|].
      split_and!; [apply bus_upd_routed|done..|by apply at_blocked].
  - eexists _, _. split; [by apply try_send_discarding|].
    split_and!; [apply bus_upd_routed|done..|apply at_dropped; [done..|by rewrite E|done]].
Qed.

(** *** The three steps of a pass *)

Definition small (s : Z) : Prop := 0 <= s < 8.

Lemma small_cases s : small s ->
  s = 0 \/ s = 1 \/ s = 2 \/ s = 3 \/ s = 4 \/ s = 5 \/ s = 6 \/ s = 7.
Proof. unfold small. lia. Qed.

Lemma todo_echo s g : small s ->
  todo s g = (if flag s HS_TX_ECHO then [A_echo g] else []) ++ todo (Z.land s (Z.lnot HS_TX_ECHO)) g /\
  small (Z.land s (Z.lnot HS_TX_ECHO)) /\ flag (Z.land s (Z.lnot HS_TX_ECHO)) HS_TX_ECHO = false.
Proof.
  intros Hc%small_cases. by repeat destruct Hc as [->|Hc]; [..|subst].
Qed.

Lemma todo_local s g : small s -> flag s HS_TX_ECHO = false ->
  let s' := Z.land s (Z.lnot HS_TX_LOCAL) in
  todo s g = (if flag s HS_TX_LOCAL then [A_local g] else []) ++ todo s' g /\
  (s' = 0 /\ flag s HS_TX_HW = false \/ s' = HS_TX_HW).
Proof.
  intros Hc%small_cases. repeat destruct Hc as [->|Hc]; [..|subst]; intros Hf; try discriminate Hf;
    (split; [done|]); (by left) || (by right).
Qed.

Definition marked (l : list action) : list (action * bool) := map (fun a => (a, true)) l.

Lemma map_fst_marked l : map fst (marked l) = l.
Proof. unfold marked. rewrite map_map. apply map_id. Qed.

Lemma routed_status w s : routed w (w <| usbcan ::= fun c => c <| uc_host_status := s |> |>).
Proof. constructor; [by destruct w|cbn; by destruct (usbcan w)]. Qed.

Lemma echo_step_ok g s w :
  uc_host_status (usbcan w) = s -> small s -> 0 <= uc_bus_send_state (usbcan w) <= 2 ->
  exists r w', echo_step g s w = Ok r w' /\
  match r with
  | None => flag s HS_TX_ECHO = true /\ effects [] w w' /\ usbcan w' = usbcan w /\
      (uc_notify_local (usbcan w) <> 0 \/ uc_usb_send_busy (usbcan w) <> 0 \/ usb_refused w')
  | Some s' => s' = Z.land s (Z.lnot HS_TX_ECHO) /\
      usbcan w' = (usbcan w) <| uc_host_status := s' |> /\
      effects (marked (if flag s HS_TX_ECHO then [A_echo g] else [])) w w'
  end.
Proof.
  intros Es Hs Hb. unfold echo_step, uc. munfold. destruct (flag s HS_TX_ECHO) eqn:Ef.
  2: { exists (Some s), w. split; [done|].
       assert (Z.land s (Z.lnot HS_TX_ECHO) = s) as ->.
       { revert Ef. apply small_cases in Hs. by clear -Hs; repeat destruct Hs as [->|Hs]; [..|subst]. }
       split_and!; [done|by rewrite <- Es; destruct (usbcan w)|by apply effects_nil]. }
  destruct (Z.eqb_spec (uc_notify_local (usbcan w)) 0) as [El|El]; cbn [negb orb].
  2: { exists None, w. split_and!; [done|done|by apply effects_nil|done|by left]. }
  destruct (Z.eqb_spec (uc_usb_send_busy (usbcan w)) 0) as [Eb|Eb]; cbn [negb orb].
  2: { exists None, w. split_and!; [done|done|by apply effects_nil|done|by right; left]. }
  rewrite usb_send_bulk_in_run. set (ret := usb_send_bulk_in_result _ _).
  destruct (Z.ltb_spec ret 0) as [Hr|Hr].
  - eexists None, _. split; [reflexivity|]. split_and!; [done| |done|].
    + apply effects_nil; [|done..]. constructor; [by destruct w|cbn; by destruct (usbcan w)].
    + right; right. by exists (gs_bytes g).
  - unfold set_host_status, set_uc. munfold. eexists (Some _), _. split; [reflexivity|].
    split_and!; [done|done|]. constructor; [|done|done|by repeat constructor|done|by repeat constructor].
    constructor; [by destruct w|cbn; by destruct (usbcan w)].
Qed.

Lemma local_step_ok g s w :
  uc_host_status (usbcan w) = s -> small s -> 0 <= uc_bus_send_state (usbcan w) <= 2 ->
  let s' := Z.land s (Z.lnot HS_TX_LOCAL) in
  exists w', local_step g s w = Ok s' w' /\ usbcan w' = (usbcan w) <| uc_host_status := s' |> /\
    effects (marked (if flag s HS_TX_LOCAL then [A_local g] else [])) w w'.
Proof.
  intros Es Hs Hb. unfold local_step. destruct (flag s HS_TX_LOCAL) eqn:Ef.
  - destruct (process_data_recv (frame_msg g) w) as (w1 & E1 & C1 & R1).
    unfold set_host_status, set_uc. munfold. rewrite E1. eexists. split; [reflexivity|].
    unfold only_rx in R1. split.
    + rewrite R1. done.
    + constructor; [|by rewrite R1|exact C1|by repeat constructor|by rewrite R1|by repeat constructor].
      rewrite R1. constructor; [by destruct w|cbn; by destruct (usbcan w)].
  - assert (Z.land s (Z.lnot HS_TX_LOCAL) = s) as ->
      by (apply small_cases in Hs; by clear -Hs Ef; repeat destruct Hs as [->|Hs]; [..|subst]).
    exists w. split_and!; [done|by rewrite <- Es; destruct (usbcan w)|by apply effects_nil].
Qed.

(** The last call of the driver could not send. *)
Definition bus_refused (w : world) : Prop :=
  exists m, canhw_send_result (pred (io_calls w)) m < 0.

Lemma hw_step_ok g s w :
  uc_host_status (usbcan w) = s -> s = 0 \/ s = HS_TX_HW -> 0 <= uc_bus_send_state (usbcan w) <= 2 ->
  exists r w', hw_step g s w = Ok r w' /\
    uc_host_pull_pos (usbcan w') = uc_host_pull_pos (usbcan w) /\
  match r with
  | None => s = HS_TX_HW /\ effects [] w w' /\ uc_host_status (usbcan w') = s /\
      uc_bus_send_state (usbcan w') = BSS_BLOCKING /\ bus_refused w'
  | Some _ => uc_host_status (usbcan w') = 0 /\ ready_kept w w' /\
      exists done, map fst done = todo s g /\ effects done w w'
  end.
Proof.
  intros Es Hs Hb. unfold hw_step. destruct Hs as [->| ->].
  { exists (Some 0), w. split_and!; [done|done|done|by intros ?|]. exists []. split; [done|].
    by apply effects_nil. }
  change (flag HS_TX_HW HS_TX_HW) with true. cbn iota.
  destruct (try_send_ok (frame_msg g) w Hb) as (ret & w1 & E & R & C & S & P & N & Ha).
  unfold set_host_status, set_uc. munfold. rewrite E.
  destruct Ha as [Hr Ht Est| -> Href Ht Hst Est|Hr Href Ht Est].
  - rewrite (proj2 (Z.ltb_ge ret 0)) by lia. eexists (Some _), _. split; [reflexivity|].
    split_and!; [done|done|intros _; exact Est|]. exists [(A_bus g, true)]. split; [done|].
    constructor; [|exact Ht|done|by repeat constructor|cbn; by rewrite Est|by repeat constructor].
    etrans; [exact R|apply routed_status].
  - eexists (Some _), _. split; [reflexivity|]. split_and!; [done|done|by intros ?|].
    exists [(A_bus g, false)]. split; [done|].
    constructor; [|exact Ht|done|by repeat constructor|cbn; by rewrite Est|done].
    etrans; [exact R|apply routed_status].
  - rewrite (proj2 (Z.ltb_lt ret 0)) by lia. exists None, w1. split_and!; [done..| |congruence|done|].
    + apply effects_nil; [done..|by rewrite Est].
    + exists (frame_msg g). rewrite N. cbn [pred]. lia.
Qed.

(** Why a pass is broken off. *)
Definition held (l : list action) (w : world) : Prop :=
  (exists g rest, l = A_echo g :: rest /\
     (uc_notify_local (usbcan w) <> 0 \/ uc_usb_send_busy (usbcan w) <> 0 \/ usb_refused w)) \/
  (exists g rest, l = A_bus g :: rest /\ uc_bus_send_state (usbcan w) = BSS_BLOCKING /\ bus_refused w).

Lemma host_steps_ok g s w :
  uc_host_status (usbcan w) = s -> small s -> 0 <= uc_bus_send_state (usbcan w) <= 2 ->
  exists b w' done, host_steps g s w = Ok b w' /\ effects done w w' /\
    uc_host_pull_pos (usbcan w') = uc_host_pull_pos (usbcan w) /\
    let s' := uc_host_status (usbcan w') in
    todo s g = map fst done ++ todo s' g /\
    if b : bool then s' = 0 /\ ready_kept w w'
    else 0 < s' < 8 /\ forall rest, held (todo s' g ++ rest) w'.
Proof.
  intros Es Hs Hb. unfold host_steps.
  destruct (echo_step_ok g s w Es Hs Hb) as (r1 & w1 & E1 & G1). munfold. rewrite E1.
  destruct (todo_echo s g Hs) as (T1 & S1 & F1).
  destruct r1 as [s1|]; [destruct G1 as (-> & U1 & F)|destruct G1 as (Hf & F & U1 & Hw)].
  2: { exists false, w1, []. rewrite U1, Es. unfold small in Hs.
       assert (s <> 0) by (by intros ->). split_and!; [done|done|done|done|lia|lia|].
       intros rest. left. rewrite T1, Hf. eexists _, _. split; [reflexivity|]. by rewrite U1. }
  set (s1 := Z.land s _) in *.
  destruct (local_step_ok g s1 w1) as (w2 & E2 & U2 & F2); [by rewrite U1|done|by rewrite U1|].
  destruct (todo_local s1 g S1 F1) as (T2 & Hs2). rewrite E2.
  set (s2 := Z.land s1 _) in *.
  assert (s2 = 0 \/ s2 = HS_TX_HW) as Hs2' by (destruct Hs2 as [[? _]|?]; auto).
  destruct (hw_step_ok g s2 w2) as (r3 & w3 & E3 & P3 & H3); [by rewrite U2|done|by rewrite U2, U1|].
  rewrite E3. assert (effects (marked (if flag s HS_TX_ECHO then [A_echo g] else [])
    ++ marked (if flag s1 HS_TX_LOCAL then [A_local g] else [])) w w2) as F12
    by (eapply effects_app; [done|intros ?; by rewrite U1|done]).
  assert (ready_kept w w2) as K12 by (intros ?; by rewrite U2, U1).
  destruct r3 as [x|].
  - destruct H3 as (Es3 & K3 & done & Ed & F3). exists true, w3.
    eexists. split_and!; [reflexivity|exact (effects_app _ _ _ _ _ F12 K12 F3)| | |done|].
    + by rewrite P3, U2, U1.
    + rewrite Es3, T1, T2, !map_app, !map_fst_marked, Ed, app_nil_r. by rewrite app_assoc.
    + intros Hr. auto.
  - destruct H3 as (Ehw & F3 & Es3 & Est & Hbus). exists false, w3.
    eexists. split_and!; [reflexivity|exact (effects_app _ _ _ _ _ F12 K12 F3)| | |by rewrite Es3, Ehw|by rewrite Es3, Ehw|].
    + by rewrite P3, U2, U1.
    + rewrite Es3, T1, T2, !map_app, !map_fst_marked, app_nil_r. by rewrite app_assoc.
    + intros rest. right. rewrite Es3, Ehw. by exists g, rest.
Qed.

(** *** The loop *)

Lemma frame_status_range a id : 0 < frame_status a id < 8.
Proof. unfold frame_status. repeat case_match; done. Qed.

Lemma work_fresh c : uc_host_status c = 0 ->
  work c = concat (map (fresh (uc_assigned_id c)) (host_pending c)).
Proof. intros E. unfold work. rewrite E. by destruct (host_pending c). Qed.

Lemma work_cons c g q : host_pending c = g :: q -> uc_host_status c <> 0 ->
  work c = todo (uc_host_status c) g ++ concat (map (fresh (uc_assigned_id c)) q).
Proof. intros E Hs. unfold work. by rewrite E, (proj2 (Z.eqb_neq _ _) Hs). Qed.

Lemma ring_lookup {A} n (q : list A) pull push : 0 < n -> ring_ok n q pull push ->
  exists x, q !! Z.to_nat (pull mod n) = Some x.
Proof.
  intros Hn [Hl _ _ _]. apply lookup_lt_is_Some_2. pose proof (Z.mod_pos_bound pull n Hn). lia.
Qed.

Lemma extract_ok g q w :
  host_ok (usbcan w) -> host_pending (usbcan w) = g :: q ->
  exists s w0, extract_status g (uc_host_status (usbcan w)) w = Ok s w0 /\ effects [] w w0 /\ ready_kept w w0 /\
    0 < s < 8 /\ usbcan w0 = (usbcan w) <| uc_host_status := s |> /\
    work (usbcan w) = todo s g ++ concat (map (fresh (uc_assigned_id (usbcan w))) q).
Proof.
  intros [Hr Hs Hb] Ep. unfold extract_status. destruct (Z.eqb_spec (uc_host_status (usbcan w)) 0) as [E|E].
  - unfold uc, set_host_status, set_uc. munfold. eexists _, _. split; [reflexivity|].
    split_and!; [apply effects_nil; [apply routed_status|done..]|by intros ?|apply frame_status_range..|done|].
    rewrite work_fresh, Ep by done. cbn [map concat]. by rewrite fresh_todo.
  - destruct Hs as [|[Hs _]]; [done|]. exists (uc_host_status (usbcan w)), w.
    split_and!; [done|by apply effects_nil|by intros ?|lia|lia|by destruct (usbcan w)|by apply work_cons].
Qed.

Lemma host_loop_ok fuel : forall w,
  host_ok (usbcan w) -> (length (host_pending (usbcan w)) < fuel)%nat ->
  exists done w', host_loop fuel (uc_host_pull_pos (usbcan w)) (uc_host_push_pos (usbcan w)) w = Ok tt w' /\
    host_ok (usbcan w') /\ effects done w w' /\
    work (usbcan w) = map fst done ++ work (usbcan w') /\
    (work (usbcan w') = [] \/ held (work (usbcan w')) w').
Proof.
  induction fuel as [|fuel IH]; intros w Hok Hf; [lia|]. cbn [host_loop]. pose proof Hok as [Hr Hs Hb].
  destruct (ring_lookup _ _ _ _ (proj1 host_size) Hr) as [g Eg]. unfold uc. munfold. rewrite Eg. munfold.
  destruct (Z.eq_dec (uc_host_pull_pos (usbcan w)) (uc_host_push_pos (usbcan w))) as [Ee|Ee].
  { destruct Hs as [Es|[_ ?]]; [|done]. rewrite Es, (proj2 (Z.eqb_eq _ _) Ee). cbn [Z.eqb andb]. munfold.
    exists [], w. assert (work (usbcan w) = []) as Ew
      by (rewrite work_fresh by done; unfold host_pending; by rewrite Ee, ring_empty).
    rewrite Ew. split_and!; [done|done|by apply effects_nil|done|by left]. }
  rewrite (proj2 (Z.eqb_neq _ _) Ee), andb_false_r.
  destruct (ring_pop HOST_FRAMES gs_host_frame_zero host_size host_div _ _ _ Hr Ee) as (g' & Eg' & Ep & Hr').
  rewrite Eg in Eg'. injection Eg' as <-. fold (host_pending (usbcan w)) in Ep.
  destruct (extract_ok g _ w Hok Ep) as (s & w0 & E0 & F0 & K0 & Hs0 & U0 & Ew).
  rewrite E0. destruct (host_steps_ok g s w0) as (b & w1 & done & E1 & F1 & P1 & T1 & Hcase);
    [by rewrite U0|unfold small; lia|by rewrite U0|]. rewrite E1.
  pose proof (effects_app _ _ _ _ _ F0 K0 F1) as F. cbn [app] in F. rewrite U0 in P1. cbn in P1.
  pose proof (ro_uc _ _ (ef_routed _ _ _ F)) as Uc. rewrite P1 in Uc.
  assert (0 <= uc_bus_send_state (usbcan w1) <= 2) as Hb1 by (by apply (ef_state _ _ _ F)).
  destruct b; [destruct Hcase as [Es1 K1]|destruct Hcase as [Hs1 Hheld]].
  - unfold set_uc. munfold. set (w2 := w1 <| usbcan ::= _ |>).
    assert (host_pending (usbcan w2)
      = ring HOST_FRAMES gs_host_frame_zero (uc_host_frames (usbcan w))
          (u32 (uc_host_pull_pos (usbcan w) + 1)) (uc_host_push_pos (usbcan w))) as Ep2
      by (unfold host_pending, w2; cbn; by rewrite Uc).
    destruct (IH w2) as (done2 & w' & E2 & Hok' & F2 & Ew2 & Hend).
    + constructor; [unfold w2; cbn; rewrite Uc; exact Hr'|by left|done].
    + rewrite Ep in Hf. rewrite Ep2. cbn [length] in Hf. lia.
    + assert (uc_host_push_pos (usbcan w) = uc_host_push_pos (usbcan w2)) as -> by (cbn; by rewrite Uc).
      change (u32 (uc_host_pull_pos (usbcan w) + 1)) with (uc_host_pull_pos (usbcan w2)).
      exists (done ++ done2), w'. split_and!; [exact E2|done| | |done].
      * apply (effects_app _ _ _ w1); [done|by intros ?; auto|].
        apply (effects_app [] _ _ w2); [|by intros ?|done]. apply effects_nil; [|done..].
        constructor; [by destruct w1|cbn; by destruct (usbcan w1)].
      * rewrite Ew, T1, Es1, map_app, <- (app_assoc _ (map fst done2)), <- Ew2, (work_fresh (usbcan w2)) by done.
        rewrite Ep2. cbn [todo flag Z.land Z.eqb negb app]. rewrite app_nil_r.
        change (uc_assigned_id (usbcan w2)) with (uc_assigned_id (usbcan w1)). by rewrite Uc.
  - exists done, w1. munfold.
    assert (host_pending (usbcan w1) = host_pending (usbcan w)) as Ep1
      by (unfold host_pending; by rewrite Uc).
    assert (work (usbcan w1) = todo (uc_host_status (usbcan w1)) g
      ++ concat (map (fresh (uc_assigned_id (usbcan w)))
           (ring HOST_FRAMES gs_host_frame_zero (uc_host_frames (usbcan w))
              (u32 (uc_host_pull_pos (usbcan w) + 1)) (uc_host_push_pos (usbcan w))))) as Ew1.
    { rewrite (work_cons _ g _ (eq_trans Ep1 Ep)) by lia. by rewrite Uc. }
    split_and!; [done| |done| |right; rewrite Ew1; apply Hheld].
    + constructor; [by rewrite Uc|right; split; [done|by rewrite Uc]|done].
    + by rewrite Ew, T1, Ew1, app_assoc.
Qed.

(** *** Reading the frames of the host *)

(** The frames of the queue are whole structures. *)
Definition frames_ok (c : usbcan_data) : Prop := Forall (fun g => length (gs_data g) = 8%nat) (uc_host_frames c).

(** The driver delivers whole frames. *)
Definition usb_frames_ok : Prop := forall n,
  let '(ret, data) := usb_read_bulk_out_result n GS_FRAME_SIZE in
  0 < ret -> length data = Z.to_nat GS_FRAME_SIZE.

(** The [n]-th call returns a frame. *)
Definition read_frame (n : nat) : option gs_host_frame :=
  let '(ret, data) := usb_read_bulk_out_result n GS_FRAME_SIZE in
  if ret <=? 0 then None else Some (gs_parse data).

(** What the reading may change. *)
Definition host_read (w w' : world) : Prop :=
  w' = w <| usbcan := (usbcan w) <| uc_host_frames := uc_host_frames (usbcan w') |>
                                 <| uc_host_push_pos := uc_host_push_pos (usbcan w') |> |>
         <| io_calls := io_calls w' |>.

Hypothesis whole_frames : usb_frames_ok.

Lemma copy_whole_frame data g :
  length (gs_data g) = 8%nat -> length data = 20%nat -> copy_to 0 data (gs_bytes g) = data.
Proof.
  intros Hg Hd. unfold copy_to. rewrite drop_ge; [by rewrite app_nil_r|].
  unfold gs_bytes. rewrite !length_app. cbn [length le32]. lia.
Qed.

Lemma alter_at {A} (f : A -> A) (l : list A) : forall (i : nat) x, l !! i = Some x -> alter f i l = <[i := f x]> l.
Proof. induction l as [|y l IH]; intros [|i] x E; [done..|by injection E as ->|]. cbn. f_equal. by apply IH. Qed.

Lemma host_read_refl w : host_read w w.
Proof. unfold host_read. by destruct w as [????? ????? ????? ????? ????? ????? ???? [] ?]. Qed.

Lemma host_read_trans w1 w2 w3 : host_read w1 w2 -> host_read w2 w3 -> host_read w1 w3.
Proof. unfold host_read. intros -> ->. done. Qed.

Lemma host_read_loop_ok fuel : forall w,
  ring_ok HOST_FRAMES (uc_host_frames (usbcan w)) (uc_host_pull_pos (usbcan w)) (uc_host_push_pos (usbcan w)) ->
  frames_ok (usbcan w) -> (16 - length (host_pending (usbcan w)) <= fuel)%nat ->
  exists new w', host_read_loop fuel (uc_host_pull_pos (usbcan w)) (uc_host_push_pos (usbcan w)) w = Ok tt w' /\
    ring_ok HOST_FRAMES (uc_host_frames (usbcan w')) (uc_host_pull_pos (usbcan w')) (uc_host_push_pos (usbcan w')) /\
    frames_ok (usbcan w') /\ host_read w w' /\
    host_pending (usbcan w') = host_pending (usbcan w) ++ new /\
    map read_frame (seq (io_calls w) (length new)) = map Some new /\
    (length (host_pending (usbcan w')) = 16%nat \/ read_frame (io_calls w + length new) = None).
Proof.
  induction fuel as [|fuel IH]; intros w Hr Hg Hf;
    (assert (Z.of_nat (length (host_pending (usbcan w)))
       = u32 (uc_host_push_pos (usbcan w) - uc_host_pull_pos (usbcan w))) as El by apply length_ring);
    cbn [host_read_loop];
    (destruct (Z.leb_spec HOST_FRAMES (u32 (uc_host_push_pos (usbcan w) - uc_host_pull_pos (usbcan w)))) as [Hx|Hx];
     [exists [], w; rewrite app_nil_r; pose proof (rg_max _ _ _ _ Hr); unfold HOST_FRAMES in *;
      split_and!; [done|done|done|apply host_read_refl|done|done|left; lia]|]).
  { unfold HOST_FRAMES in Hx. lia. }
  unfold next_call. munfold. pose proof (whole_frames (io_calls w)) as Hw.
  destruct (usb_read_bulk_out_result (io_calls w) GS_FRAME_SIZE) as [ret data] eqn:Er.
  destruct (Z.leb_spec ret 0) as [Hret|Hret].
  { eexists [], _. split; [reflexivity|]. rewrite app_nil_r. split_and!; [done|done| |done|done|right].
    - unfold host_read. by destruct w as [????? ????? ????? ????? ????? ????? ???? [] ?].
    - unfold read_frame. rewrite Nat.add_0_r, Er. by rewrite (proj2 (Z.leb_le _ _)). }
  specialize (Hw Hret). change (Z.to_nat GS_FRAME_SIZE) with 20%nat in Hw.
  destruct (ring_lookup HOST_FRAMES (uc_host_frames (usbcan w)) (uc_host_push_pos (usbcan w))
    (uc_host_push_pos (usbcan w))) as [g Eg].
  { by destruct host_size. }
  { destruct Hr. constructor; [done..|rewrite Z.sub_diag; unfold HOST_FRAMES; by vm_compute]. }
  assert (length (gs_data g) = 8%nat) as Hg8
    by (unfold frames_ok in Hg; rewrite Forall_forall in Hg; apply Hg; by eapply list_elem_of_lookup_2).
  unfold set_uc. munfold. set (w1 := _ <| usbcan ::= _ |> <| usbcan ::= _ |>).
  assert (uc_host_frames (usbcan w1)
    = <[Z.to_nat (uc_host_push_pos (usbcan w) mod HOST_FRAMES) := gs_parse data]> (uc_host_frames (usbcan w))) as Ef.
  { unfold w1. cbn [usbcan uc_host_frames upd eta eta_world eta_usbcan_data].
    by rewrite (alter_at _ _ _ g), copy_whole_frame. }
  destruct (ring_push HOST_FRAMES gs_host_frame_zero host_size host_div _ _ _ (gs_parse data) Hr Hx) as [Er' Hr'].
  rewrite <- Ef in Er', Hr'. change (host_pending (usbcan w1) = host_pending (usbcan w) ++ [gs_parse data]) in Er'.
  assert (host_read w w1) as R1
    by (unfold host_read, w1; by destruct w as [????? ????? ????? ????? ????? ????? ???? [] ?]).
  destruct (IH w1) as (new & w' & E & Hr2 & Hg2 & R2 & Ep & Em & Hend).
  - exact Hr'.
  - unfold frames_ok. rewrite Ef. apply Forall_insert; [done|]. cbn [gs_data gs_parse].
    assert (Z.of_nat (length (window 12 20 data)) = 8) by (rewrite length_window; lia). lia.
  - rewrite Er', length_app. cbn [length]. lia.
  - exists (gs_parse data :: new), w'. split_and!; [exact E|done|done|by eapply host_read_trans| | |].
    + by rewrite Ep, Er', <- app_assoc.
    + cbn [length seq map]. f_equal; [|exact Em]. unfold read_frame. rewrite Er.
      by rewrite (proj2 (Z.leb_gt _ _)).
    + cbn [length]. rewrite Nat.add_succ_r. exact Hend.
Qed.

(** Frames at the end of the queue are work at the end. *)
Lemma work_app c c' new :
  host_ok c -> host_pending c' = host_pending c ++ new ->
  uc_host_status c' = uc_host_status c -> uc_assigned_id c' = uc_assigned_id c ->
  work c' = work c ++ concat (map (fresh (uc_assigned_id c)) new).
Proof.
  intros [Hr Hs _] Ep Es Ei. destruct Hs as [Hs|[Hs Hne]].
  - rewrite !work_fresh, Ep, Ei by congruence. by rewrite map_app, concat_app.
  - destruct (ring_pop HOST_FRAMES gs_host_frame_zero host_size host_div _ _ _ Hr Hne) as (g & _ & Eg & _).
    fold (host_pending c) in Eg. rewrite Eg in Ep. cbn [app] in Ep.
    rewrite (work_cons c' _ _ Ep), (work_cons c _ _ Eg), Es, Ei by lia.
    by rewrite map_app, concat_app, app_assoc.
Qed.

(** The invariant of [UsbCan]. *)
Record usbcan_ok (c : usbcan_data) : Prop := {
  uo_canhw : canhw_ring_ok c;
  uo_host : host_ok c;
  uo_frames : frames_ok c
}.

(** The part of [UsbCan] for the frames of the host. *)
Definition same_host (c c' : usbcan_data) : Prop :=
  uc_host_status c' = uc_host_status c /\ uc_host_pull_pos c' = uc_host_pull_pos c /\
  uc_host_push_pos c' = uc_host_push_pos c /\ uc_host_frames c' = uc_host_frames c /\
  uc_assigned_id c' = uc_assigned_id c /\ uc_bus_send_state c' = uc_bus_send_state c.

Lemma drained_host w w' : drained w w' -> same_host (usbcan w) (usbcan w').
Proof. intros [_ ->]. by split_and!. Qed.

Lemma same_host_ok c c' : same_host c c' -> host_ok c -> frames_ok c ->
  host_ok c' /\ frames_ok c' /\ host_pending c' = host_pending c /\ work c' = work c.
Proof.
  intros (E1 & E2 & E3 & E4 & E5 & E6) [Hr Hs Hb] Hf.
  assert (host_pending c' = host_pending c) as Ep by (unfold host_pending; by rewrite E2, E3, E4).
  split_and!; [constructor; by rewrite ?E1, ?E2, ?E3, ?E4, ?E6|by unfold frames_ok; rewrite E4|done|].
  unfold work. by rewrite Ep, E1, E5.
Qed.

(** The two drains of frames of the host in sequence. *)
Lemma host_side w :
  host_ok (usbcan w) -> frames_ok (usbcan w) ->
  exists w' new done,
    (drain_usb_host_messages ;; drain_host_queue) w = Ok tt w' /\
    host_ok (usbcan w') /\ frames_ok (usbcan w') /\
    uc_canhw_queue (usbcan w') = uc_canhw_queue (usbcan w) /\
    uc_canhw_pull_pos (usbcan w') = uc_canhw_pull_pos (usbcan w) /\
    uc_canhw_push_pos (usbcan w') = uc_canhw_push_pos (usbcan w) /\
    map read_frame (seq (io_calls w) (length new)) = map Some new /\
    work (usbcan w) ++ concat (map (fresh (uc_assigned_id (usbcan w))) new)
      = map fst done ++ work (usbcan w') /\
    hw_trace w' = concat (map act_event (reverse done)) ++ hw_trace w /\
    candata w' = foldl (fun c m => recv m c) (candata w) (concat (map act_local done)) /\
    Forall (fun x => match x with (A_bus _, _) | (_, true) => True | _ => False end) done /\
    (uc_bus_send_state (usbcan w) = BSS_READY -> Forall (fun x => x.2 = true) done) /\
    (work (usbcan w') = [] \/ held (work (usbcan w')) w').
Proof.
  intros Hh Hf. pose proof Hh as [Hr Hs Hb]. unfold drain_usb_host_messages, drain_host_queue, uc. munfold.
  destruct (host_read_loop_ok (Z.to_nat HOST_FRAMES) w Hr Hf) as (new & w1 & E1 & Hr1 & Hf1 & R1 & Ep & Em & _);
    [unfold HOST_FRAMES; lia|]. rewrite E1. unfold host_read in R1.
  assert (host_ok (usbcan w1)) as Hh1.
  { constructor; [exact Hr1| |by rewrite R1]. rewrite R1; cbn. destruct Hs as [?|[? Hne]]; [by left|right].
    split; [done|]. intros E. assert (host_pending (usbcan w1) = []) as En
      by (unfold host_pending; rewrite <- E, R1; cbn; apply ring_empty).
    rewrite En in Ep. destruct (app_eq_nil _ _ (eq_sym Ep)) as [En' _]. apply Hne.
    eapply ring_nil_inv; [exact Hr|exact En']. }
  destruct (host_loop_ok (S (Z.to_nat HOST_FRAMES)) w1 Hh1) as (done & w' & E2 & Hh2 & F & Ew & Hend).
  { pose proof (rg_max _ _ _ _ Hr1). pose proof (length_ring HOST_FRAMES gs_host_frame_zero
      (uc_host_frames (usbcan w1)) (uc_host_pull_pos (usbcan w1)) (uc_host_push_pos (usbcan w1))).
    unfold host_pending, HOST_FRAMES in *. lia. }
  exists w', new, done. pose proof (ro_uc _ _ (ef_routed _ _ _ F)) as U.
  rewrite (work_app _ (usbcan w1) new Hh Ep) in Ew by (by rewrite R1).
  split_and!; [exact E2|done| | | | |done|done| | |apply (ef_drop _ _ _ F)| |done].
  - unfold frames_ok. by rewrite U.
  - by rewrite U, R1.
  - by rewrite U, R1.
  - by rewrite U, R1.
  - rewrite (ef_trace _ _ _ F). by rewrite R1.
  - rewrite (ef_local _ _ _ F). by rewrite R1.
  - intros E. apply (ef_ready _ _ _ F). by rewrite R1.
Qed.

End Host.
