(* ===== verification/BridgeNode.v ===== *)
(** * The bridge as a node, and a bus that is stuck: src/src/generic/usb_canbus.c

    The node that is the bridge answers the host through the bridge: it meets
    the contract of canserial.c, so that its responses arrive in order.  A
    message is only discarded 50 ms after the bus began to refuse.  The retry
    loop of canserial.c does not end while the bridge holds frames for a busy
    endpoint. *)
From S2P Require Import Prelude Buffers Protocol World Frames Sched Command CanSerial UsbCdc UsbCanbus Firmware Sample ConsoleProps CanProps UsbProps BridgeProps.

(** ** Frames as bytes *)

Lemma get_le32_at x pre rest :
  get_le32 (pre ++ le32 x ++ rest) (Z.of_nat (length pre)) = u32 x.
Proof.
  unfold get_le32, byte_at.
  rewrite !(app_nth2 pre) by lia.
  replace (Z.to_nat (Z.of_nat (length pre)) - length pre)%nat with 0%nat by lia.
  replace (Z.to_nat (Z.of_nat (length pre) + 1) - length pre)%nat with 1%nat by lia.
  replace (Z.to_nat (Z.of_nat (length pre) + 2) - length pre)%nat with 2%nat by lia.
  replace (Z.to_nat (Z.of_nat (length pre) + 3) - length pre)%nat with 3%nat by lia.
  cbn [nth le32 app]. rewrite !Z.shiftr_div_pow2 by lia. change (2 ^ 16) with (2 ^ 8 * 2 ^ 8).
  change (2 ^ 24) with (2 ^ 8 * 2 ^ 8 * 2 ^ 8). rewrite <- !Z.div_div by lia.
  unfold u8, u32. set (y := x / 2 ^ 8). set (z := y / 2 ^ 8). set (v := z / 2 ^ 8).
  assert (x = 2 ^ 8 * y + x mod 2 ^ 8) as Ex by (apply Z.div_mod; lia).
  assert (y = 2 ^ 8 * z + y mod 2 ^ 8) as Ey by (apply Z.div_mod; lia).
  assert (z = 2 ^ 8 * v + z mod 2 ^ 8) as Ez by (apply Z.div_mod; lia).
  assert (v = 2 ^ 8 * (v / 2 ^ 8) + v mod 2 ^ 8) as Ev by (apply Z.div_mod; lia).
  apply (Z.mod_unique _ _ (v / 2 ^ 8)); [left|lia].
  pose proof (Z.mod_pos_bound x (2 ^ 8)). pose proof (Z.mod_pos_bound y (2 ^ 8)).
  pose proof (Z.mod_pos_bound z (2 ^ 8)). pose proof (Z.mod_pos_bound v (2 ^ 8)). lia.
Qed.

(** A frame survives the way through memory. *)
Lemma gs_parse_bytes g : length (gs_data g) = 8%nat ->
  gs_parse (gs_bytes g)
  = mkGsFrame (u32 (gs_echo_id g)) (u32 (gs_can_id g)) (gs_can_dlc g) (gs_channel g) (gs_flags g)
      (gs_reserved g) (gs_data g).
Proof.
  destruct g as [e i dlc ch fl rs data]; cbn [gs_data gs_echo_id gs_can_id gs_can_dlc gs_channel
    gs_flags gs_reserved]. intros Hl. unfold gs_parse, gs_bytes. f_equal; [..|].
  - apply (get_le32_at e []).
  - apply (get_le32_at i (le32 e)).
  - by destruct data as [|x0 [|x1 [|x2 [|x3 [|x4 [|x5 [|x6 [|x7 []]]]]]]]].
Qed.

(** ** The node's own messages *)

Section NodeTx.
Context `{UsbHw}.
Variable unset : list Z.

(** The rest of a message fills its eight bytes. *)
Hypothesis unset_len : length unset = 8%nat.

(** The data that the host receives from the CAN id [id], from a trace. *)
Fixpoint node_data (id : Z) (tr : list hw_event) : list Z :=
  match tr with
  | [] => []
  | HwUsbBulkIn d :: tr =>
      let g := gs_parse d in
      node_data id tr ++
      (if (gs_echo_id g =? 0xffffffff) && (gs_can_id g =? u32 id)
       then take (Z.to_nat (gs_can_dlc g)) (gs_data g) else [])
  | _ :: tr => node_data id tr
  end.

Lemma canbus_send_busy m w : uc_usb_send_busy (usbcan w) <> 0 ->
  canbus_send unset m w = Ok (-1) (w <| usbcan ::= fun c => c <| uc_notify_local := 1 |> |>).
Proof.
  intros Hb. unfold canbus_send, uc, set_uc. munfold. by rewrite (proj2 (Z.eqb_neq _ _) Hb).
Qed.

(** The bridge keeps the contract of canserial.c. *)
#[program] Definition bridge_laws : CanBusLaws (H := usb_canbus_c unset) := {| bus_sent := node_data |}.
Next Obligation.
  intros id n data w Hn Hl. cbn [cb_send usb_canbus_c].
  destruct (Z.eq_dec (uc_usb_send_busy (usbcan w)) 0) as [Eb|Eb].
  2: { rewrite canbus_send_busy by done. eexists _, _. split; [reflexivity|]. by auto. }
  unfold canbus_send, uc, set_uc. munfold. rewrite Eb. cbn [Z.eqb negb]. unfold send_frame.
  fold (host_frame unset (mkCanMsg id n data)). set (m := mkCanMsg id n data). rewrite usb_send_bulk_in_run.
  set (ret := usb_send_bulk_in_result _ _). destruct (Z.ltb_spec ret 0) as [Hr|Hr].
  { eexists _, _. split; [reflexivity|]. by auto. }
  set (w1 := w <| io_calls := _ |> <| hw_trace := _ |>). change (cm_dlc m) with n.
  assert (node_data id (hw_trace w1) = node_data id (hw_trace w) ++ data) as En.
  { unfold w1. cbn [node_data hw_trace upd eta eta_world app]. f_equal.
    rewrite gs_parse_bytes by (cbn; rewrite length_take, length_app; lia).
    cbn [gs_echo_id gs_can_id gs_can_dlc gs_data host_frame cm_id cm_dlc cm_data m].
    rewrite (Z.eqb_refl (u32 id)), u8_id by lia. change (u32 0xffffffff =? 0xffffffff) with true. cbn [andb].
    rewrite take_take, Nat.min_l by lia. rewrite take_app_le, take_ge by lia. done. }
  destruct (negb _); unfold wake_usbcan_task, sched_wake_task, sched_wake_tasks; munfold;
    (eexists _, _; split; [reflexivity|]; split; [done|by right]).
Qed.

(** Over any sequence of responses and runs of [canserial_tx_task] of the node
    that is the bridge, the data that the host receives from it are the
    messages in the order of the calls of [console_sendf]. *)
Theorem bridge_stream id w w' msgs :
  can_tx_ok (candata w) -> cd_assigned_id (candata w) = id -> id <> 0 ->
  tx_run (H := can_tx (H0 := bridge_laws) id) w msgs w' ->
  can_tx_ok (candata w') /\
  exists kept, sublist kept msgs /\
    node_data (u32 (id + 1)) (hw_trace w') ++ can_waiting w'
    = node_data (u32 (id + 1)) (hw_trace w) ++ can_waiting w ++ concat kept.
Proof. exact (can_tx_stream (H0 := bridge_laws) id w w' msgs). Qed.
End NodeTx.

(** ** A bus that is stuck *)

Section Stall.
Context `{Board} `{CanHw}.

(** The state of the detection. *)
Definition same_bus (w w' : world) : Prop :=
  uc_bus_send_state (usbcan w') = uc_bus_send_state (usbcan w) /\
  uc_bus_send_discard_time (usbcan w') = uc_bus_send_discard_time (usbcan w) /\
  (clock_reads w <= clock_reads w')%nat.

(** The bus was ready until the attempt at the time [t0], and every attempt
    since then was refused. *)
Inductive refused_since (t0 : Z) : world -> Prop :=
| rf_first m w w' ret :
    uc_bus_send_state (usbcan w) = BSS_READY -> canhw_send_result (io_calls w) m < 0 ->
    u32 (clock_reading (clock_reads w)) = t0 -> try_canmsg_send m w = Ok ret w' -> refused_since t0 w'
| rf_again m w w' ret :
    refused_since t0 w -> canhw_send_result (io_calls w) m < 0 ->
    try_canmsg_send m w = Ok ret w' -> refused_since t0 w'
| rf_other w w' : refused_since t0 w -> same_bus w w' -> refused_since t0 w'.

(** 50 ms have passed, by a reading of the clock before [w]. *)
Definition stalled_by (t0 : Z) (w : world) : Prop :=
  exists n, (n < clock_reads w)%nat /\
    timer_is_before (u32 (t0 + timer_from_us 50000)) (u32 (clock_reading n)) = true.

Lemma stalled_by_le t0 w w' : stalled_by t0 w -> (clock_reads w <= clock_reads w')%nat -> stalled_by t0 w'.
Proof. intros (n & Hn & Ht) Hle. exists n. split; [lia|done]. Qed.

(** Blocking until then, discarding afterwards. *)
Definition bus_inv (t0 : Z) (w : world) : Prop :=
  uc_bus_send_state (usbcan w) = BSS_BLOCKING /\
    uc_bus_send_discard_time (usbcan w) = u32 (t0 + timer_from_us 50000) \/
  uc_bus_send_state (usbcan w) = BSS_DISCARDING /\ stalled_by t0 w.

Lemma bus_inv_attempt t0 m w w' ret :
  bus_inv t0 w -> canhw_send_result (io_calls w) m < 0 -> try_canmsg_send m w = Ok ret w' ->
  bus_inv t0 w' /\ (ret < 0 \/ stalled_by t0 w').
Proof.
  intros [[Es Ed]|[Es Hst]] Hr E.
  - pose proof (try_send_blocking m w Hr Es) as Eb. cbv zeta in Eb.
    destruct (timer_is_before _ _) eqn:Et; [destruct Eb as (msgs & b & Eb)|]; rewrite E in Eb; injection Eb as -> ->.
    + assert (stalled_by t0 (bus_upd (S (io_calls w)) (hw_trace w) (S (clock_reads w)) msgs b BSS_DISCARDING
        (uc_bus_send_discard_time (usbcan w)) w)) as Hn.
      { exists (clock_reads w). split; [cbn; lia|]. by rewrite <- Ed. }
      split; [by right|by right].
    + split; [left|by left]. cbn. by rewrite Ed.
  - rewrite (try_send_discarding m w Hr Es) in E. injection E as <- <-.
    assert (stalled_by t0 (bus_upd (S (io_calls w)) (hw_trace w) (clock_reads w) (sent w) (in_sendf w)
      BSS_DISCARDING (uc_bus_send_discard_time (usbcan w)) w)) as Hn by (by eapply stalled_by_le).
    split; [by right|by right].
Qed.

Lemma refused_since_inv t0 w : refused_since t0 w -> bus_inv t0 w.
Proof.
  induction 1 as [m w w' ret Es Hr Et E|m w w' ret _ IH Hr E|w w' _ IH (E1 & E2 & Hc)].
  - rewrite (try_send_ready m w Hr Es) in E. injection E as _ <-. left. cbn. by rewrite Et.
  - by apply (bus_inv_attempt t0 m w w' ret).
  - unfold bus_inv in *. rewrite E1, E2. destruct IH as [?|[? ?]]; [by left|right].
    split; [done|by eapply stalled_by_le].
Qed.


(** ** A retry that never ends *)

Context `{UsbHw}.
Variable unset : list Z.

(** What can happen while canserial.c retries: its next attempt, and the
    interrupts. *)
Inductive retry_step (m : canbus_msg) (w w' : world) : Prop :=
| rs_send ret : canbus_send unset m w = Ok ret w' -> retry_step m w w'
| rs_frame x : canbus_process_data x w = Ok tt w' -> retry_step m w w'
| rs_notify : wake_usbcan_task w = Ok tt w' -> retry_step m w w'.

Lemma process_data_busy x w w' : canbus_process_data x w = Ok tt w' ->
  uc_usb_send_busy (usbcan w') = uc_usb_send_busy (usbcan w).
Proof.
  unfold canbus_process_data, uc, set_uc, wake_usbcan_task, sched_wake_task, sched_wake_tasks. munfold.
  repeat case_match; by intros [= <-].
Qed.

Lemma retry_step_busy m w w' : retry_step m w w' -> uc_usb_send_busy (usbcan w) <> 0 ->
  uc_usb_send_busy (usbcan w') <> 0.
Proof.
  intros [ret E|x E|E] Hb.
  - rewrite canbus_send_busy in E by done. by injection E as _ <-.
  - by rewrite (process_data_busy _ _ _ E).
  - revert E. unfold wake_usbcan_task, sched_wake_task, sched_wake_tasks. munfold. by intros [= <-].
Qed.

Lemma send_retry_busy fuel m : forall w, uc_usb_send_busy (usbcan w) <> 0 ->
  send_retry (H1 := usb_canbus_c unset) fuel m w = Fault.
Proof.
  induction fuel as [|fuel IH]; intros w Hb; [done|]. cbn [send_retry cb_send usb_canbus_c].
  rewrite (bind_ok _ _ _ _ _ (canbus_send_busy unset m w Hb)). cbn [Z.leb Z.compare]. by apply IH.
Qed.

(** C37: if the bridge has frames for the host that the busy endpoint refused, a
    request for nodes without an id makes the firmware loop for ever: no bound
    on the retries of [can_process_query_unassigned] suffices, since whatever
    the interrupts do, every attempt is answered with -1 without asking the
    endpoint; only [usbcan_task] would notice that it is free again. *)
Theorem bridge_query_livelock q w :
  cd_assigned_id (candata w) = 0 -> uc_usb_send_busy (usbcan w) <> 0 ->
  can_process_query_unassigned (H1 := usb_canbus_c unset) q w = Fault /\
  forall m w', rtc (retry_step m) w w' -> exists w'', canbus_send unset m w' = Ok (-1) w''.
Proof.
  intros Hid Hb. split.
  - unfold can_process_query_unassigned, can. munfold. rewrite Hid. cbn [Z.eqb negb].
    by apply send_retry_busy.
  - intros m w' Hrun. assert (uc_usb_send_busy (usbcan w') <> 0) as Hb'.
    { clear Hid. induction Hrun as [|w1 w2 w3 Hs _ IH]; [done|]. apply IH. by eapply retry_step_busy. }
    eexists. by apply canbus_send_busy.
Qed.
End Stall.

(** ** Samples

    A bridge whose endpoint is busy at its second call, with the queues at the
    end of their counters. *)
Definition bridge_world : world :=
  initial_world <| io_calls := 1%nat |>
    <| usbcan ::= fun c => c <| uc_canhw_pull_pos := 2 ^ 32 - 1 |> <| uc_canhw_push_pos := 2 ^ 32 - 1 |>
                             <| uc_host_pull_pos := 2 ^ 32 - 1 |> <| uc_host_push_pos := 2 ^ 32 - 1 |> |>.

(** Two frames of the bus have arrived. *)
Definition bus_frame (id : Z) : canbus_msg := mkCanMsg id 2 [1; 2; 0; 0; 0; 0; 0; 0].
Definition bridge_rx_world : world := after (canhw_irqs [bus_frame 0x201; bus_frame 0x202]) bridge_world.

(** The endpoint refuses the first of them. *)
Definition bridge_busy_world : world :=
  after (@drain_canhw_queue sample_usb [] 40 []) bridge_rx_world.

Lemma bridge_query_livelock_witness :
  @can_process_query_unassigned sample_board (@usb_canbus_c sample_usb [])
      (mkCanMsg CANBUS_ID_ADMIN 1 [0; 0; 0; 0; 0; 0; 0; 0]) bridge_busy_world = Fault /\
  forall m w', rtc (@retry_step sample_usb [] m) bridge_busy_world w' ->
    exists w'', @canbus_send sample_usb [] m w' = Ok (-1) w''.
Proof.
  apply (@bridge_query_livelock sample_board sample_usb [] (mkCanMsg CANBUS_ID_ADMIN 1 [0; 0; 0; 0; 0; 0; 0; 0])
    bridge_busy_world).
  - reflexivity.
  - vm_compute. done.
Defined.

(** A driver that has two frames of the host at its fourth and fifth call. *)
Definition host_sends (id : Z) : gs_host_frame := mkGsFrame 7 id 1 0 0 0 [0; 0; 0; 0; 0; 0; 0; 0].
Definition sample_gs : UsbHw := {|
  usb_send_bulk_in_result n d := Z.of_nat (length d);
  usb_read_bulk_out_result n _ :=
    if (n =? 3)%nat then (20, gs_bytes (host_sends CANBUS_ID_ADMIN))
    else if (n =? 4)%nat then (20, gs_bytes (host_sends 0x123)) else (-1, []);
  usb_read_ep0_result n _ := (-1, []);
  usb_read_ep0_setup_result n := (-1, mkReq 0 0 0 0 0);
  usb_send_ep0_result n p d := Z.of_nat (length d);
  NEED_PROGMEM := false;
  CONFIG_USB_VENDOR_ID := 0x1d50; CONFIG_USB_DEVICE_ID := 0x606f;
  CONFIG_MCU := [114; 112]; CONFIG_USB_SERIAL_NUMBER := [49; 50];
  CONFIG_USB_SERIAL_NUMBER_CHIPID := true;
  usbserial_serialid := usb_fill_serial 4 [0x1a; 0x2b];
  CONFIG_HAVE_BOOTLOADER_REQUEST := false;
  usb_bootloader_request := mret tt
|}.

Lemma sample_gs_frames : @usb_frames_ok sample_gs.
Proof. intros n. cbn. by destruct n as [|[|[|[|[|n]]]]]. Qed.

Lemma bridge_rx_ok : usbcan_ok (usbcan bridge_rx_world).
Proof.
  constructor; [constructor|constructor; [constructor|by left|]|]; vm_compute; repeat split; try done.
  repeat constructor.
Qed.


(** A bus that refuses everything. *)
Definition stuck_can : CanHw := {|
  canhw_send_result n m := -1;
  canhw_get_status _ := mkCanStatus 0 0 0 0;
  fasthash64 _ _ := 0;
  HAVE_BOOTLOADER_REQUEST := false;
  bootloader_request := mret tt
|}.

(** The state after the first attempt, and later. *)
Definition refused_world : world := after (@try_canmsg_send sample_board stuck_can (bus_frame 0x201)) initial_world.
Definition stuck_world : world := refused_world <| clock_reads := 9000%nat |>.

