(* ===== verification/OutputProps.v ===== *)
(** * Properties of the digital and pwm outputs *)
From S2P Require Import Prelude World Frames Sched SchedFacts Command BaseCmd ObjFacts GpioCmds PwmCmds Firmware Sample BaseProps.

(** ** Running a body on every object of a type *)

Section Each.
Context {T : Set} `{ObjType T}.
(** The body stores [g d] and emits the event [ev d]. *)
Context (body : Z -> M unit) (g : T -> T) (ev : T -> hw_event) (F : Z -> world -> world).
Hypothesis Hbody : forall i w d, obj_at T w i = Some d ->
  body i w = Ok tt (put_obj i (g d) (F i (w <| hw_trace ::= cons (ev d) |>))).
Hypothesis HF : forall i w, oids (F i w) = oids w /\ hw_trace (F i w) = hw_trace w.

Lemma run_each_objs ids : forall ds w,
  NoDup ids -> Forall (fun i => 0 <= i) ids -> Forall2 (fun i d => obj_at T w i = Some d) ids ds ->
  exists w', run_each body ids w = Ok tt w' /\
    Forall2 (fun i d => obj_at T w' i = Some (g d)) ids ds /\
    hw_trace w' = reverse (ev <$> ds) ++ hw_trace w /\
    (forall i, 0 <= i -> i ∉ ids -> obj_at T w' i = obj_at T w i).
Proof.
  induction ids as [|i ids IH]; intros ds w Hnd Hpos Hds.
  { apply Forall2_nil_inv_l in Hds as ->. exists w. by split_and!. }
  apply Forall2_cons_inv_l in Hds as (d & ds' & Hd & Hds & ->).
  apply NoDup_cons in Hnd as [Hi Hnd]. apply Forall_cons in Hpos as [Hi0 Hpos].
  set (w1 := put_obj i (g d) (F i (w <| hw_trace ::= cons (ev d) |>))).
  assert (forall j, 0 <= j -> j <> i -> obj_at T w1 j = obj_at T w j) as Ho.
  { intros j Hj Hne. unfold w1. rewrite obj_at_put_ne by (done || congruence).
    apply obj_at_oids. by rewrite (proj1 (HF _ _)). }
  assert (hw_trace w1 = ev d :: hw_trace w) as Ht.
  { change (hw_trace w1) with (hw_trace (F i (w <| hw_trace ::= cons (ev d) |>))).
    by rewrite (proj2 (HF _ _)). }
  destruct (IH ds' w1 Hnd Hpos) as (w' & E & Hg & Htr & Hoth).
  { apply Forall2_same_length_lookup_2; [by eapply Forall2_length|]. intros k j d' Hj Hd'.
    pose proof (Forall2_lookup_lr _ _ _ _ _ _ Hds Hj Hd') as Hjd. cbv beta in Hjd.
    apply list_elem_of_lookup_2 in Hj. rewrite Ho; [done| |by intros ->].
    by eapply Forall_forall in Hpos. }
  exists w'. split_and!.
  - cbn [run_each]. rewrite (bind_ok _ _ _ _ _ (Hbody i w d Hd)). exact E.
  - constructor; [|done]. rewrite Hoth by done. unfold w1. eapply obj_at_put.
    rewrite (obj_at_oids w); [exact Hd|]. by rewrite (proj1 (HF _ _)).
  - rewrite Htr, Ht, fmap_cons, reverse_cons, <- app_assoc. done.
  - intros j Hj [Hji Hjl]%not_elem_of_cons. by rewrite Hoth, Ho.
Qed.
End Each.

(** Objects of a type, as found by [foreach_oid]. *)
Definition typed_objs (T : Set) `{ObjType T} (w : world) (l : list oid_s) (type : otype)
    (ds : list T) : Prop :=
  oids_ok w l /\ Forall2 (fun i d => obj_at T w i = Some d) (typed_from 0 l type) ds.

Section Shutdown.
Context `{Board}.

(** A digital output after shutdown. *)
Definition digital_safe (d : digital_out_s) : digital_out_s :=
  d <| do_flags := if flag (do_flags d) DF_DEFAULT_ON then Z.lor DF_ON DF_DEFAULT_ON else 0 |>
    <| do_mq ::= move_queue_clear |>.

Lemma digital_body i w d : obj_at digital_out_s w i = Some d ->
  ((d ← get_obj digital_out_s i;
    gpio_out_write (do_pin d) (Z.land (do_flags d) DF_DEFAULT_ON) ;;
    mod_obj digital_out_s i (fun d => d <| do_flags :=
      if flag (do_flags d) DF_DEFAULT_ON then Z.lor DF_ON DF_DEFAULT_ON else 0 |>) ;;
    mod_obj digital_out_s i (fun d => d <| do_mq ::= move_queue_clear |>)) : M unit) w =
  Ok tt (put_obj i (digital_safe d)
    (w <| hw_trace ::= cons (HwOutWrite (do_pin d) (Z.land (do_flags d) DF_DEFAULT_ON)) |>)).
Proof. intros Hd. unfold gpio_out_write, hw. mrun. reflexivity. Qed.

(** Shutdown drives every digital output to its default level.  For a
    well-formed object table, [digital_out_shutdown] never fails; it writes
    the default level to the pin of each configured output, in order, drops
    the pending changes and the pwm state. *)
Theorem digital_out_shutdown_safe w l ds :
  typed_objs digital_out_s w l command_config_digital_out_t ds ->
  exists w', digital_out_shutdown w = Ok tt w' /\
    hw_trace w' = reverse ((fun d => HwOutWrite (do_pin d) (Z.land (do_flags d) DF_DEFAULT_ON)) <$> ds)
                  ++ hw_trace w /\
    Forall2 (fun i d => obj_at digital_out_s w' i = Some (digital_safe d))
      (typed_from 0 l command_config_digital_out_t) ds.
Proof.
  intros [Hok Hds]. unfold digital_out_shutdown. rewrite (foreach_oid_ok _ _ w l); [| |done].
  - destruct (run_each_objs (T := digital_out_s) _ digital_safe
      (fun d => HwOutWrite (do_pin d) (Z.land (do_flags d) DF_DEFAULT_ON)) (fun _ w => w)
      (fun i w0 d Hd => digital_body i w0 d Hd) (fun _ _ => conj eq_refl eq_refl) _ ds w
      (typed_nodup _ _ _) (typed_pos _ _) Hds) as (w' & E & H1 & H2 & _).
    exists w'. split_and!; [exact E|exact H2|exact H1].
  - intros i. unfold gpio_out_write, hw. frame_solve.
Qed.

(** A pwm output after shutdown. *)
Definition pwm_safe (s : pwm_out_s) : pwm_out_s := s <| po_mq ::= move_queue_clear |>.

Definition pwm_func_world (i : Z) (w : world) : world :=
  w <| timers := <[po_timer i := (tmr w (po_timer i)) <| func := Some FN_pwm_event |>]> (timers w) |>.

Lemma pwm_body i w d : obj_at pwm_out_s w i = Some d ->
  ((s ← get_obj pwm_out_s i;
    gpio_pwm_write (po_pin s) (po_default_value s) ;;
    mod_timer (po_timer i) (fun t => t <| func := Some FN_pwm_event |>) ;;
    mod_obj pwm_out_s i (fun s => s <| po_mq ::= move_queue_clear |>)) : M unit) w =
  Ok tt (put_obj i (pwm_safe d) (pwm_func_world i
    (w <| hw_trace ::= cons (HwPwmWrite (po_pin d) (po_default_value d)) |>))).
Proof. intros Hd. unfold gpio_pwm_write, hw, mod_timer. mrun. reflexivity. Qed.

(** Shutdown drives every pwm output to its default value, and drops its
    pending changes. *)
Theorem pwm_shutdown_safe w l ds :
  typed_objs pwm_out_s w l command_config_pwm_out_t ds ->
  exists w', pwm_shutdown w = Ok tt w' /\
    hw_trace w' = reverse ((fun d => HwPwmWrite (po_pin d) (po_default_value d)) <$> ds)
                  ++ hw_trace w /\
    Forall2 (fun i d => obj_at pwm_out_s w' i = Some (pwm_safe d))
      (typed_from 0 l command_config_pwm_out_t) ds.
Proof.
  intros [Hok Hds]. unfold pwm_shutdown. rewrite (foreach_oid_ok _ _ w l); [| |done].
  - destruct (run_each_objs (T := pwm_out_s) _ pwm_safe
      (fun d => HwPwmWrite (po_pin d) (po_default_value d)) (fun i w => pwm_func_world i w)
      (fun i w0 d Hd => pwm_body i w0 d Hd) (fun _ _ => conj eq_refl eq_refl) _ ds w
      (typed_nodup _ _ _) (typed_pos _ _) Hds) as (w' & E & H1 & H2 & _).
    exists w'. split_and!; [exact E|exact H2|exact H1].
  - intros i. unfold gpio_pwm_write, hw, mod_timer. frame_solve.
Qed.
End Shutdown.

(** ** The safety limit on outputs away from their default *)

Section Limit.
Context `{Board}.

(** An output that is not constantly at its default level. *)
Definition digital_active (d : digital_out_s) (on : Z) : bool :=
  (negb (on =? 0) && (on <? do_cycle_time d))
  || negb (Bool.eqb (on =? 0) (negb (flag (do_flags d) DF_DEFAULT_ON))).

Lemma load_state_active d wk on :
  do_max_duration d <> 0 -> digital_active d on = true ->
  let '(flags, end_time) := load_state d wk on in
  flag flags DF_CHECK_END = true /\ end_time = u32 (wk + do_max_duration d).
Proof.
  intros Hm Ha. unfold load_state, digital_active in *. rewrite (proj2 (Z.eqb_neq _ _) Hm).
  destruct (Z.eqb_spec on 0) as [E|E]; simpl in *.
  - rewrite Ha. done.
  - destruct (Z.leb_spec (do_cycle_time d) on) as [Hc|Hc]; simpl; [|done].
    rewrite (proj2 (Z.ltb_ge _ _)) in Ha by lia. simpl in Ha. rewrite Ha. done.
Qed.

Lemma queue_empty_head mh q w : queue w mh q -> move_queue_empty mh = bool_decide (q = []).
Proof.
  intros [[Hf _] _]. unfold move_queue_empty. rewrite Hf. by destruct q.
Qed.

(** The node data of a queue of digital moves. *)
Definition digital_nodes (w : world) (q : list Z) : Prop :=
  Forall (fun n => exists dm, mn_data (node w n) = MD_digital dm) q.

(** What a digital output promises after loading a setting away from its
    default: a next load event no later than [max_duration]. *)
Definition digital_guarded (w : world) (p limit : Z) : Prop :=
  exists d, obj_at digital_out_s w p = Some d /\ flag (do_flags d) DF_CHECK_END = true /\
    timer_is_before limit (do_end_time d) = false /\
    (func (tmr w (do_timer p)) = Some FN_digital_load_event /\
       waketime (tmr w (do_timer p)) = do_end_time d \/
     func (tmr w (do_timer p)) = Some FN_digital_toggle_event /\
       timer_is_before (waketime (tmr w (do_timer p))) (do_end_time d) = true).


Lemma get_digital_move_ok w n dm :
  mn_data (node w n) = MD_digital dm -> get_digital_move n w = Ok dm w.
Proof. intros E. unfold get_digital_move, get_node. munfold. by rewrite E. Qed.

(** The end of [digital_load_event], once flags and end time are known. *)
Lemma digital_schedule_ok w p d flags end_time on wk limit :
  obj_at digital_out_s w p = Some d -> waketime (tmr w (do_timer p)) = wk ->
  func (tmr w (do_timer p)) = Some FN_digital_load_event ->
  flag flags DF_CHECK_END = true -> timer_is_before limit end_time = false ->
  exists w', digital_schedule p flags end_time wk on w = Ok SF_RESCHEDULE w' /\
    digital_guarded w' p limit.
Proof.
  intros Ho Hw Hf Hc Hb. unfold digital_schedule, mod_timer. mrun.
  rewrite Hc. cbn [negb andb].
  assert (forall x, flag (Z.lor flags (Z.land x DF_DEFAULT_ON)) DF_CHECK_END = true) as Hfl.
  { intros x. by rewrite flag_lor, Hc. }
  destruct (flag flags DF_TOGGLING); cbn [negb].
  - destruct (timer_is_before (u32 (wk + on)) end_time) eqn:Ht; cbn [negb].
    + mrun. eexists. split; [reflexivity|]. eexists. split; [obj_solve|]. split_and!; [apply Hfl|done|].
      right. unfold tmr. cbn. rewrite !insert_insert_eq, !lookup_insert_eq. done.
    + mrun. eexists. split; [reflexivity|]. eexists. split; [obj_solve|]. split_and!; [apply Hfl|done|].
      left. unfold tmr. cbn. rewrite !lookup_insert_eq. cbn. by unfold tmr in Hf.
  - mrun. eexists. split; [reflexivity|]. eexists. split; [obj_solve|]. split_and!; [apply Hfl|done|].
    left. unfold tmr. cbn. rewrite !lookup_insert_eq. cbn. by unfold tmr in Hf.
Qed.

(** No digital output stays away from its default level for longer than
    [max_duration].  When a setting that is not the default level is loaded,
    either the next load event is scheduled within [max_duration] of the
    wake time (possibly after software pwm toggles, which end there), or the
    machine shuts down because the next queued change comes too late. *)
Theorem digital_load_max_duration w p d m q dm :
  obj_at digital_out_s w p = Some d -> queue w (do_mq d) (m :: q) -> m ∉ q ->
  mn_data (node w m) = MD_digital dm -> digital_nodes w q ->
  func (tmr w (do_timer p)) = Some FN_digital_load_event ->
  do_max_duration d <> 0 -> digital_active d (dm_on_duration dm) = true ->
  match digital_load_event p w with
  | Ok res w' => res = SF_RESCHEDULE /\
      digital_guarded w' p (u32 (waketime (tmr w (do_timer p)) + do_max_duration d))
  | Shut r _ => r = "Scheduled digital out event will exceed max_duration"
  | Fault => False
  end.
Proof.
  intros Ho Hq Hmq Hdm Hdn Hf Hmax Hact. unfold digital_load_event. mrun.
  rewrite (queue_empty_head _ _ _ Hq). cbn [bool_decide decide decide_rel].
  rewrite bool_decide_false by done.
  destruct (move_queue_pop_ok w (do_mq d) m q Hq) as (mh & Ep & Hq' & Hmh).
  rewrite (bind_ok _ _ _ _ _ Ep). cbv beta iota. mrun.
  set (w1 := put_obj p _ w).
  rewrite (bind_ok _ _ _ _ _ (get_digital_move_ok w1 m dm Hdm)).
  set (on := dm_on_duration dm) in *. unfold gpio_out_write, hw, move_free, mod_node, get_timer. mrun.
  match goal with |- context [upd move_free_list _ ?x] => set (w2 := upd move_free_list (fun _ => Some m) x) end.
  assert (obj_at digital_out_s w2 p = Some (d <| do_mq := mh |>)) as Ho2.
  { unfold w2, w1. obj_solve. }
  assert (tmr w2 (do_timer p) = tmr w (do_timer p)) as -> by done.
  pose proof (load_state_active d (waketime (tmr w (do_timer p))) on Hmax Hact) as Hls.
  destruct (load_state d (waketime (tmr w (do_timer p))) on) as [flags e]. destruct Hls as [Hfl ->].
  set (limit := u32 _). rewrite (queue_empty_head _ _ _ Hq').
  destruct q as [|n q]; cbn [bool_decide decide decide_rel].
  - rewrite bool_decide_true by done. rewrite run_ret.
    edestruct (digital_schedule_ok w2 p _ flags limit on (waketime (tmr w (do_timer p))) limit
      Ho2 eq_refl Hf Hfl)
      as (w' & E & Hg); [apply timer_is_before_refl|]. rewrite E. by split.
  - rewrite bool_decide_false by done. unfold move_queue_first. rewrite Hmh. cbn [head].
    unfold deref at 1. mrun.
    apply Forall_cons in Hdn as [[dn Hdn] _].
    assert (mn_data (node w2 n) = MD_digital dn) as Hdn2.
    { unfold w2, node. cbn. rewrite lookup_insert_ne by set_solver. exact Hdn. }
    rewrite (bind_ok _ _ _ _ _ (get_digital_move_ok w2 n dn Hdn2)). rewrite Hfl. cbn [andb].
    destruct (timer_is_before limit (dm_waketime dn)) eqn:Ht; [done|]. rewrite run_ret.
    edestruct (digital_schedule_ok w2 p _ (Z.lor flags DF_CHECK_END) (dm_waketime dn) on
      (waketime (tmr w (do_timer p))) limit Ho2 eq_refl Hf) as (w' & E & Hg); [by rewrite flag_lor, Hfl|done|]. rewrite E. by split.
Qed.

(** Software pwm stays within the limit: a toggle event of a guarded
    output keeps it guarded with the same end time, handing over to the load
    event when the next edge would not be before the end. *)
Theorem digital_toggle_guarded w p limit :
  digital_guarded w p limit -> func (tmr w (do_timer p)) = Some FN_digital_toggle_event ->
  exists w', digital_toggle_event p w = Ok SF_RESCHEDULE w' /\ digital_guarded w' p limit.
Proof.
  intros (d & Ho & Hc & Hl & _) Hf.
  unfold digital_toggle_event, gpio_out_toggle_noirq, hw, get_timer, mod_timer. mrun.
  rewrite (flag_lxor_other _ DF_ON DF_CHECK_END) by done. rewrite Hc. cbn [andb].
  match goal with |- context [timer_is_before ?x (do_end_time d)] => set (wk := x) end.
  assert (flag (Z.lxor (do_flags d) DF_ON) DF_CHECK_END = true) as Hc'.
  { by rewrite (flag_lxor_other _ DF_ON DF_CHECK_END). }
  destruct (timer_is_before wk (do_end_time d)) eqn:Ht; cbn [negb]; mrun.
  - eexists. split; [reflexivity|]. eexists. split; [obj_solve|]. split_and!; [exact Hc'|done|].
    right. unfold tmr. cbn. rewrite !lookup_insert_eq. cbn. split; [exact Hf|exact Ht].
  - eexists. split; [reflexivity|]. eexists. split; [obj_solve|]. split_and!; [exact Hc'|done|].
    left. unfold tmr. cbn. rewrite !insert_insert_eq, !lookup_insert_eq. done.
Qed.

(** The same limit for hardware pwm.  After an event that sets a value
    other than the default, the timer fires again within [max_duration]:
    either with the next queued change, or with [pwm_end_event], which shuts
    the machine down.  A next change beyond the limit is refused. *)
Theorem pwm_event_max_duration w p s m q pm :
  obj_at pwm_out_s w p = Some s -> queue w (po_mq s) (m :: q) -> m ∉ q ->
  mn_data (node w m) = MD_pwm pm ->
  Forall (fun n => exists pn, mn_data (node w n) = MD_pwm pn) q ->
  po_max_duration s <> 0 -> pm_value pm <> po_default_value s ->
  let limit := u32 (waketime (tmr w (po_timer p)) + po_max_duration s) in
  match pwm_event p w with
  | Ok res w' => res = SF_RESCHEDULE /\
      hw_trace w' = HwPwmWrite (po_pin s) (pm_value pm) :: hw_trace w /\
      timer_is_before limit (waketime (tmr w' (po_timer p))) = false /\
      (q = [] -> func (tmr w' (po_timer p)) = Some FN_pwm_end_event)
  | Shut r _ => r = "Scheduled pwm event will exceed max_duration"
  | Fault => False
  end.
Proof.
  intros Ho Hq Hmq Hpm Hpn Hmax Hv limit. unfold pwm_event. mrun.
  destruct (move_queue_pop_ok w (po_mq s) m q Hq) as (mh & Ep & Hq' & Hmh).
  rewrite (bind_ok _ _ _ _ _ Ep). cbv beta iota. mrun. set (w1 := put_obj p _ w).
  assert (forall w n pn, mn_data (node w n) = MD_pwm pn -> get_pwm_move n w = Ok pn w) as Hget.
  { intros w0 n pn E. unfold get_pwm_move, get_node. munfold. by rewrite E. }
  rewrite (bind_ok _ _ _ _ _ (Hget w1 m pm Hpm)).
  unfold gpio_pwm_write, hw, move_free, mod_node, get_timer, mod_timer. mrun.
  rewrite (queue_empty_head _ _ _ Hq').
  rewrite (proj2 (Z.eqb_neq _ _) Hv), (proj2 (Z.eqb_neq _ _) Hmax). cbn [orb negb andb].
  destruct q as [|n q].
  - rewrite bool_decide_true by done. mrun. split_and!; [done..| |].
    + unfold tmr. cbn. rewrite !insert_insert_eq, !lookup_insert_eq. apply timer_is_before_refl.
    + intros _. unfold tmr. cbn. by rewrite !insert_insert_eq, !lookup_insert_eq.
  - rewrite bool_decide_false by done. unfold move_queue_first. rewrite Hmh. cbn [head].
    unfold deref at 1. mrun. apply Forall_cons in Hpn as [[pn Hpn] _].
    match goal with |- context [(get_pwm_move n ≫= ?f) ?x] => set (w2 := x) end.
    assert (mn_data (node w2 n) = MD_pwm pn) as Hpn2.
    { unfold w2, node. cbn. rewrite lookup_insert_ne by set_solver. exact Hpn. }
    rewrite (bind_ok _ _ _ _ _ (Hget w2 n pn Hpn2)).
    change (waketime (tmr _ (po_timer p))) with (waketime (tmr w (po_timer p))) at 1. fold limit.
    destruct (timer_is_before limit (pm_waketime pn)) eqn:Ht; [done|]. mrun.
    split_and!; [done..| |done]. unfold tmr. cbn. by rewrite !lookup_insert_eq.
Qed.
End Limit.

(** ** Witnesses *)

Ltac eval_queue :=
  split; [split; [vm_compute; reflexivity|vm_compute; repeat split]|intros _; vm_compute; reflexivity].
Ltac eval_oids :=
  split; [vm_compute; reflexivity|split; [vm_compute; reflexivity|split; [vm_compute; discriminate|eval_decide]]].

Definition output_oids : list oid_s := default [] (oids output_world).
Definition output_digital : digital_out_s :=
  default digital_out_zero (obj_at digital_out_s output_world 2).
Definition output_pwm : pwm_out_s := default pwm_out_zero (obj_at pwm_out_s output_world 1).

Lemma output_ids :
  typed_from 0 output_oids command_config_digital_out_t = [2] /\
  typed_from 0 output_oids command_config_pwm_out_t = [1].
Proof. split; vm_compute; reflexivity. Qed.

Lemma digital_out_shutdown_safe_witness :
  exists w', @digital_out_shutdown output_world = Ok tt w' /\
    hw_trace w' = HwOutWrite 7 0 :: hw_trace output_world.
Proof.
  destruct (digital_out_shutdown_safe output_world output_oids [output_digital])
    as (w' & E & Ht & _).
  - split; [eval_oids|]. rewrite (proj1 output_ids). apply Forall2_cons. split; [vm_compute; reflexivity|apply Forall2_nil; exact I].
  - exists w'. split; [exact E|]. rewrite Ht. vm_compute. reflexivity.
Defined.

Lemma pwm_shutdown_safe_witness :
  exists w', @pwm_shutdown output_world = Ok tt w' /\
    hw_trace w' = HwPwmWrite 9 0 :: hw_trace output_world.
Proof.
  destruct (pwm_shutdown_safe output_world output_oids [output_pwm]) as (w' & E & Ht & _).
  - split; [eval_oids|]. rewrite (proj2 output_ids). apply Forall2_cons. split; [vm_compute; reflexivity|apply Forall2_nil; exact I].
  - exists w'. split; [exact E|]. rewrite Ht. vm_compute. reflexivity.
Defined.

(** The digital output after its load event. *)
Definition output_loaded : world := after (@digital_load_event 2) output_world.

Lemma output_load_ok : @digital_load_event 2 output_world = Ok SF_RESCHEDULE output_loaded.
Proof. vm_compute. reflexivity. Qed.

Lemma digital_load_max_duration_witness : digital_guarded output_loaded 2 6000.
Proof.
  pose proof (digital_load_max_duration output_world 2 output_digital 1184 []
    (mkDigitalMove 5000 150)) as Hx.
  rewrite output_load_ok in Hx. destruct Hx as [_ Hx].
  - vm_compute. reflexivity.
  - eval_queue.
  - apply not_elem_of_nil.
  - vm_compute. reflexivity.
  - apply Forall_nil. exact I.
  - vm_compute. reflexivity.
  - vm_compute. discriminate.
  - vm_compute. reflexivity.
  - exact Hx.
Defined.

Lemma digital_toggle_guarded_witness :
  exists w', @digital_toggle_event 2 output_loaded = Ok SF_RESCHEDULE w' /\ digital_guarded w' 2 6000.
Proof.
  apply (digital_toggle_guarded output_loaded 2 6000).
  - eexists. split; [vm_compute; reflexivity|]. split; [vm_compute; reflexivity|].
    split; [vm_compute; reflexivity|]. right. split; vm_compute; reflexivity.
  - vm_compute. reflexivity.
Defined.

Lemma output_pwm_ok :
  @pwm_event 1 output_world = Ok SF_RESCHEDULE (after (@pwm_event 1) output_world).
Proof. vm_compute. reflexivity. Qed.

Lemma pwm_event_max_duration_witness :
  exists w', @pwm_event 1 output_world = Ok SF_RESCHEDULE w' /\
    func (tmr w' (po_timer 1)) = Some FN_pwm_end_event.
Proof.
  pose proof (pwm_event_max_duration output_world 1 output_pwm 1196 [] (mkPwmMove 5000 77)) as Hx.
  rewrite output_pwm_ok in Hx. destruct Hx as (_ & _ & _ & Hx).
  - vm_compute. reflexivity.
  - eval_queue.
  - apply not_elem_of_nil.
  - vm_compute. reflexivity.
  - apply Forall_nil. exact I.
  - vm_compute. discriminate.
  - vm_compute. discriminate.
  - eexists. split; [exact output_pwm_ok|]. apply Hx. reflexivity.
Defined.
