(* ===== verification/StepperProps.v ===== *)
(** * Properties of stepper motors *)
From S2P Require Import Prelude Paths World Frames Sched SchedFacts Command BaseCmd ObjFacts Trsync Stepper Firmware Sample BaseProps.

(** ** Step times *)

Section Steps.
Context `{Board}.

(** [n] timer events of a stepper in the optimised double edge mode. *)
Fixpoint edge_events (n : nat) (p : Z) : M unit :=
  match n with O => mret tt | S n => stepper_event_edge p ;; edge_events n p end.

(** The sum of the first [n] intervals that start at [i] and grow by [a]. *)
Fixpoint sum_intervals (n : nat) (i a : Z) : Z :=
  match n with O => 0 | S n => i + sum_intervals n (i + a) a end.

Lemma sum_intervals_mod n : forall i j a, u32 i = u32 j ->
  u32 (sum_intervals n i a) = u32 (sum_intervals n j a).
Proof.
  induction n as [|n IH]; intros i j a E; [done|]. cbn [sum_intervals].
  specialize (IH (i + a) (j + a) a ltac:(word_lia)).
  generalize dependent (sum_intervals n (i + a) a). generalize (sum_intervals n (j + a) a).
  intros. word_lia.
Qed.

Lemma sum_intervals_u32 n i a : u32 (sum_intervals n (u32 i) a) = u32 (sum_intervals n i a).
Proof. apply sum_intervals_mod, u32_idem. Qed.

Lemma edge_event_step w p s :
  obj_at stepper w p = Some s -> 1 < st_count s < 2 ^ 32 ->
  exists w', stepper_event_edge p w = Ok SF_RESCHEDULE w' /\
    obj_at stepper w' p = Some (s <| st_count := st_count s - 1 |>
                                  <| st_interval := u32 (st_interval s + st_add s) |>) /\
    waketime (tmr w' (st_time p)) = u32 (waketime (tmr w (st_time p)) + st_interval s) /\
    hw_trace w' = HwOutToggle (st_step_pin s) :: hw_trace w.
Proof.
  intros Ho Hc. unfold stepper_event_edge, gpio_out_toggle_noirq, hw, mod_timer. mrun.
  rewrite (u32_id (st_count s - 1)) by lia. rewrite (proj2 (Z.eqb_neq _ _)) by lia. cbn [negb].
  mrun. eexists. split; [reflexivity|]. split_and!.
  - erewrite obj_at_put; [|obj_solve]. reflexivity.
  - unfold tmr. cbn. by rewrite lookup_insert_eq.
  - reflexivity.
Qed.

(** In the optimised mode, [n] events of a move with more than [n] steps left
    produce [n] edges on the step pin, and the next step is due the sum of the
    next [n] intervals later, modulo 2^32. *)
Lemma edge_events_run n : forall w p s,
  obj_at stepper w p = Some s -> Z.of_nat n < st_count s < 2 ^ 32 ->
  exists w', edge_events n p w = Ok tt w' /\
    obj_at stepper w' p = Some (s <| st_count := st_count s - Z.of_nat n |>
      <| st_interval := if (n =? 0)%nat then st_interval s
                        else u32 (st_interval s + Z.of_nat n * st_add s) |>) /\
    u32 (waketime (tmr w' (st_time p))) =
      u32 (waketime (tmr w (st_time p)) + sum_intervals n (st_interval s) (st_add s)) /\
    hw_trace w' = replicate n (HwOutToggle (st_step_pin s)) ++ hw_trace w.
Proof.
  induction n as [|n IH]; intros w p s Ho Hc.
  { exists w. split_and!; [done| | |done].
    - rewrite Ho. f_equal. destruct s. cbn. unfold upd. cbn. f_equal. lia.
    - simpl. by rewrite Z.add_0_r. }
  destruct (edge_event_step w p s Ho ltac:(lia)) as (w1 & E1 & Ho1 & Hw1 & Ht1).
  destruct (IH w1 p _ Ho1) as (w2 & E2 & Ho2 & Hw2 & Ht2); [cbn; lia|].
  exists w2. split_and!.
  - cbn [edge_events]. rewrite (bind_ok _ _ _ _ _ E1). exact E2.
  - rewrite Ho2. f_equal. destruct s. cbn. unfold upd. cbn. f_equal; [|lia].
    destruct n; cbn [Nat.eqb]; [f_equal; lia|]. rewrite u32_add_l. f_equal. lia.
  - rewrite Hw2, Hw1. cbn [sum_intervals st_interval st_add upd]. cbn.
    rewrite u32_add_l, <- (u32_add_r _ (sum_intervals n _ _)), sum_intervals_u32, u32_add_r.
    f_equal. lia.
  - rewrite Ht2, Ht1, replicate_S_end, <- app_assoc. done.
Qed.
End Steps.

(** ** Position tracking *)

(** The position encoded by [position - count]: bit 31 marks a motor moving
    towards negative positions. *)
Definition decode_pos (x : Z) : Z := if flag x 0x80000000 then u32 (- x) else x.

Lemma decode_pos_neg x : 0 < x < 2 ^ 32 -> x <> 2 ^ 31 -> decode_pos (u32 (- x)) = decode_pos x.
Proof.
  intros Hx Hne. unfold decode_pos. rewrite !flag_bit31 by (apply u32_range || lia).
  destruct (Z.leb_spec (2 ^ 31) (u32 (- x))), (Z.leb_spec (2 ^ 31) x); word_lia.
Qed.

Lemma decode_pos_step x : 0 < x < 2 ^ 32 - 1 -> x <> 2 ^ 31 - 1 -> x <> 2 ^ 31 ->
  decode_pos (x + 1) = decode_pos x + (if x <? 2 ^ 31 then 1 else -1).
Proof.
  intros Hx H1 H2. unfold decode_pos. rewrite !flag_bit31 by lia.
  destruct (Z.leb_spec (2 ^ 31) (x + 1)), (Z.leb_spec (2 ^ 31) x), (Z.ltb_spec x (2 ^ 31)); word_lia.
Qed.

Lemma get_position_single s :
  flag (st_flags s) SF_SINGLE_SCHED = true ->
  stepper_get_position s = decode_pos (u32 (st_position s - st_count s)).
Proof. unfold stepper_get_position. by intros ->. Qed.

Section Position.
Context `{Board}.
Context (Hedge : HAVE_EDGE_OPTIMIZATION = true).

(** A stepper in the optimised mode with the moves [q] queued. *)
Record stepper_ok (w : world) (p : Z) (s : stepper) (q : list Z) : Prop := {
  so_obj : obj_at stepper w p = Some s;
  so_queue : queue w (st_mq s) q;
  so_nodup : NoDup q;
  so_moves : Forall (fun n => exists m, mn_data (node w n) = MD_stepper m /\ is_u16 (sm_count m)) q;
  so_single : flag (st_flags s) SF_SINGLE_SCHED = true;
  so_fast : flag (st_flags s) SF_OPTIMIZED_PATH = true
}.

Lemma get_stepper_move_ok w n m :
  mn_data (node w n) = MD_stepper m -> get_stepper_move n w = Ok m w.
Proof. intros E. unfold get_stepper_move, get_node. munfold. by rewrite E. Qed.

(** Loading the next move negates the encoding when the direction changes and
    adds the new steps to both counters. *)
Lemma load_next_ok w p s q :
  stepper_ok w p s q ->
  exists res w' s', stepper_load_next p w = Ok res w' /\ obj_at stepper w' p = Some s' /\
    st_flags s' = st_flags s /\
    match q with
    | [] => res = SF_DONE /\ s' = s <| st_count := 0 |>
    | n :: q' => exists m, mn_data (node w n) = MD_stepper m /\ res = SF_RESCHEDULE /\
        st_count s' = sm_count m /\ st_interval s' = u32 (sm_interval m + sm_add m) /\
        st_add s' = sm_add m /\
        st_position s' = u32 ((if flag (sm_flags m) MF_DIR then - st_position s
                               else st_position s) + sm_count m) /\
        waketime (tmr w' (st_time p)) = u32 (waketime (tmr w (st_time p)) + sm_interval m) /\
        stepper_ok w' p s' q'
    end.
Proof.
  intros [Ho Hq Hnd Hm Hs Hf]. unfold stepper_load_next. mrun.
  destruct q as [|n q].
  { unfold move_queue_empty. destruct Hq as [[-> _] _]. cbn [head]. rewrite bool_decide_true by done.
    mrun. eexists _, _, _. split; [reflexivity|]. split; [obj_solve|]. done. }
  destruct (move_queue_pop_ok w (st_mq s) n q Hq) as (mh & Ep & Hq' & _).
  apply Forall_cons in Hm as [(m & Hmv & Hmc) Hm]. apply NoDup_cons in Hnd as [Hnq Hnd].
  unfold move_queue_empty. destruct Hq as [[Hfst _] _]. rewrite Hfst. cbn [head].
  rewrite bool_decide_false by done. rewrite (bind_ok _ _ _ _ _ Ep). cbv beta iota. mrun.
  set (w1 := put_obj p _ w). rewrite (bind_ok _ _ _ _ _ (get_stepper_move_ok w1 n m Hmv)).
  assert (obj_at stepper w1 p = Some (s <| st_mq := mh |>)) as Ho1 by (unfold w1; obj_solve).
  unfold move_free, mod_node, mod_timer, gpio_out_toggle_noirq, hw. rewrite Hedge, Hf. cbn [andb].
  mrun. assert (forall w', nodes w' = <[n := (node w1 n) <| mn_next := move_free_list w1 |>]> (nodes w1) ->
    same_nodes w w' q) as Hsame.
  { intros w' Ew x Hx. unfold node. rewrite Ew, lookup_insert_ne by (by intros ->). done. }
  assert (forall w', same_nodes w w' q -> Forall (fun n => exists m, mn_data (node w' n) = MD_stepper m /\
    is_u16 (sm_count m)) q) as Hmv'.
  { intros w' Hw'. apply Forall_forall. intros x Hx. rewrite Hw' by done. by eapply Forall_forall in Hm. }
  destruct (flag (sm_flags m) MF_DIR) eqn:Hdir.
  all: eexists _, _, _; split; [reflexivity|]; split; [obj_solve|]; split; [done|]; exists m.
  all: rewrite Hdir; split_and!; [done..| |].
  1,3: unfold tmr; cbn; by rewrite lookup_insert_eq.
  all: constructor; [obj_solve|apply (queue_same w); [by apply Hsame|done]|done|by apply Hmv', Hsame|done|done].
Qed.

(** The position counter counts every step.  Each timer event of an
    active stepper changes the position it reports by exactly one, upwards or
    downwards according to the direction encoded in bit 31, also when the event
    ends a move and loads the next one with a change of direction. *)
Theorem edge_event_position w p s q x :
  stepper_ok w p s q -> 1 <= st_count s < 2 ^ 32 -> x = u32 (st_position s - st_count s) ->
  0 < x < 2 ^ 32 - 1 -> x <> 2 ^ 31 - 1 -> x <> 2 ^ 31 ->
  exists res w' s', stepper_event_edge p w = Ok res w' /\ obj_at stepper w' p = Some s' /\
    stepper_get_position s' = stepper_get_position s + (if x <? 2 ^ 31 then 1 else -1).
Proof.
  intros Hok Hc Hx Hx1 Hx2 Hx3. pose proof Hok as [Ho _ _ _ Hs _].
  rewrite (get_position_single s Hs), <- Hx, <- decode_pos_step by done.
  destruct (decide (st_count s = 1)) as [E1|E1].
  - unfold stepper_event_edge, gpio_out_toggle_noirq, hw. mrun. rewrite E1. cbn [Z.sub].
    change (u32 (1 - 1) =? 0) with true. cbn [negb].
    set (w1 := upd hw_trace _ w).
    assert (stepper_ok w1 p s q) as Hok1 by (destruct Hok; constructor; done).
    destruct (load_next_ok w1 p s q Hok1) as (res & w' & s' & E & Ho' & Hf & Hr).
    exists res, w', s'. split_and!; [done..|]. rewrite get_position_single by (by rewrite Hf).
    destruct q as [|n q].
    + destruct Hr as [_ ->]. cbn. f_equal. word_lia.
    + destruct Hr as (m & _ & _ & Hcnt & _ & _ & Hpos & _). rewrite Hcnt, Hpos.
      destruct (flag (sm_flags m) MF_DIR).
      * rewrite <- (decode_pos_neg (x + 1)) by lia. f_equal. word_lia.
      * f_equal. word_lia.
  - destruct (edge_event_step w p s Ho ltac:(lia)) as (w' & E & Ho' & _).
    eexists _, w', _. split_and!; [exact E|exact Ho'|]. rewrite get_position_single by done. cbn.
    f_equal. word_lia.
Qed.
End Position.

(** ** Stopping *)

Section Stop.
Context `{Board}.

Lemma mnext_dom w x : mnext w x <> None -> is_Some (nodes w !! x).
Proof. unfold mnext, node. destruct (nodes w !! x); naive_solver. Qed.

Lemma node_fuel_ok w mh q : queue w mh q -> NoDup q -> (length q <= node_fuel w)%nat.
Proof.
  intros [[_ Hp] _] Hnd. pose proof (path_length (nodes w) _ _ Hp Hnd (mnext_dom w)).
  unfold node_fuel. lia.
Qed.

(** The loop returns every queued node to the free list. *)
Lemma drain_moves_ok q : forall fuel w p s free,
  obj_at stepper w p = Some s -> queue w (st_mq s) q -> chain w (move_free_list w) free ->
  NoDup (free ++ q) -> (length q <= fuel)%nat ->
  exists w' mh, drain_moves fuel p w = Ok tt w' /\ obj_at stepper w' p = Some (s <| st_mq := mh |>) /\
    queue w' mh [] /\ chain w' (move_free_list w') (reverse q ++ free) /\
    timers w' = timers w /\ timer_list w' = timer_list w /\ last_insert w' = last_insert w /\
    hw_trace w' = hw_trace w.
Proof.
  induction q as [|m q IH]; intros fuel w p s free Ho Hq Hf Hnd Hfu.
  { exists w, (st_mq s). split_and!; try done.
    - destruct fuel; cbn [drain_moves]; mrun; unfold move_queue_empty; destruct Hq as [[-> _] _];
        by rewrite bool_decide_true.
    - rewrite Ho. by destruct s. }
  destruct fuel as [|fuel]; [simpl in Hfu; lia|].
  destruct (move_queue_pop_ok w (st_mq s) m q Hq) as (mh & Ep & Hq' & _).
  apply NoDup_app in Hnd as (Hn1 & Hn2 & Hn3). apply NoDup_cons in Hn3 as [Hmq Hn3].
  assert (m ∉ free) as Hmf by set_solver.
  set (w1 := put_obj p (s <| st_mq := mh |>) w).
  destruct (move_free_ok w1 m free Hf Hmf) as (w2 & Ef & Hc2 & _ & Hn & Ew2).
  assert (obj_at stepper w2 p = Some (s <| st_mq := mh |>)) as Ho2.
  { rewrite Ew2. unfold w1. obj_solve. }
  destruct (IH fuel w2 p _ (m :: free) Ho2) as (w' & mh' & E & Ho' & Hq2 & Hc & T1 & T2 & T3 & T4).
  - cbn. apply (queue_same w); [|done]. intros x Hx. rewrite Hn; [done|]. by intros ->.
  - done.
  - apply NoDup_cons. split; [set_solver|]. apply NoDup_app. split_and!; [done|set_solver|done].
  - simpl in Hfu. lia.
  - exists w', mh'. rewrite T1, T2, T3, T4. split_and!; [|exact Ho'|done| |by rewrite Ew2..].
    + cbn [drain_moves]. mrun. unfold move_queue_empty. destruct Hq as [[Hfst _] _]. rewrite Hfst.
      cbn [head]. rewrite bool_decide_false by done. rewrite (bind_ok _ _ _ _ _ Ep). cbv beta iota.
      mrun. fold w1. rewrite (bind_ok _ _ _ _ _ Ef). exact E.
    + by rewrite reverse_cons, <- app_assoc.
Qed.

(** Changing the wake time of a timer that is not on the list. *)
Lemma sched_list_other w w' us t :
  sched_list w us -> is_user t -> (forall u, nxt w' u = nxt w u) ->
  (forall u, u <> t -> wake w' u = wake w u) ->
  timer_list w' = timer_list w -> last_insert w' = last_insert w -> sched_list w' us.
Proof.
  intros Hl Hu Hn Hw E1 E2. destruct Hl. constructor; rewrite ?E1, ?E2; try done.
  - eapply path_ext, sl_path. intros; apply Hn.
  - rewrite !Hw by (by intros <-). done.
Qed.

Lemma stop_flags f :
  let g := Z.lor (Z.land f (Z.lor (Z.lor SF_INVERT_STEP SF_SINGLE_SCHED) SF_OPTIMIZED_PATH)) SF_NEED_RESET in
  flag g SF_SINGLE_SCHED = flag f SF_SINGLE_SCHED /\ flag g SF_NEED_RESET = true.
Proof.
  intros g. unfold g. rewrite !flag_lor, !flag_land. split; [|apply orb_true_r].
  by rewrite orb_false_r.
Qed.

(** A stepper after [stepper_stop], apart from its queue. *)
Definition stopped (s : stepper) : stepper :=
  s <| st_next_step_time := 0 |> <| st_position := u32 (- stepper_get_position s) |>
    <| st_count := 0 |>
    <| st_flags := Z.lor (Z.land (st_flags s)
         (Z.lor (Z.lor SF_INVERT_STEP SF_SINGLE_SCHED) SF_OPTIMIZED_PATH)) SF_NEED_RESET |>.

Lemma stopped_position s mh :
  0 < stepper_get_position s < 2 ^ 31 ->
  stepper_get_position ((stopped s) <| st_mq := mh |>) = stepper_get_position s.
Proof.
  intros Hg. unfold stepper_get_position at 1. cbn -[stepper_get_position flag].
  change (0 / 2) with 0. rewrite !Z.sub_0_r, u32_idem.
  assert (forall c : bool, (if c then u32 (- stepper_get_position s) else u32 (- stepper_get_position s))
    = u32 (- stepper_get_position s)) as Hif by by intros [].
  rewrite Hif. fold (decode_pos (u32 (- stepper_get_position s))).
  rewrite decode_pos_neg by lia. unfold decode_pos. rewrite flag_bit31 by lia.
  by rewrite (proj2 (Z.leb_gt _ _)) by lia.
Qed.

End Stop.

(** ** Motion after a stop *)

Section Reset.
Context `{Board}.

(** No motion after a trigger without a new clock.  A [queue_step]
    command for a stopped stepper (idle, reset needed) is discarded: its node
    returns to the free list, no pin changes, no timer is scheduled, and the
    stepper is unchanged. *)
Theorem queue_step_needs_reset w p s m free interval count add :
  is_oid w p command_config_stepper_t -> obj_at stepper w p = Some s -> st_count s = 0 ->
  flag (st_flags s) SF_NEED_RESET = true -> chain w (move_free_list w) (m :: free) ->
  m ∉ free -> u16 count <> 0 ->
  exists w', command_queue_step [p; interval; count; add] w = Ok tt w' /\
    obj_at stepper w' p = Some s /\ chain w' (move_free_list w') (m :: free) /\
    timers w' = timers w /\ timer_list w' = timer_list w /\ hw_trace w' = hw_trace w.
Proof.
  intros Hoid Ho Hc Hr Hf Hm Hcnt. unfold command_queue_step, stepper_oid_lookup. cbn [arg nth].
  rewrite (bind_ok _ _ _ _ _ (oid_lookup_ok _ _ _ Hoid)).
  destruct (move_alloc_ok w m free Hf) as [Ha Hc'].
  rewrite (bind_ok _ _ _ _ _ Ha). unfold set_stepper_move, mod_node. mrun.
  rewrite (proj2 (Z.eqb_neq _ _) Hcnt). mrun. rewrite Hc. cbn [negb Z.eqb].
  match goal with |- context [flag (if ?c then _ else _) SF_NEED_RESET] => set (turn := c) end.
  assert (flag (if turn then Z.lxor (st_flags s) SF_LAST_DIR else st_flags s) SF_NEED_RESET = true) as ->.
  { destruct turn; [|done]. by rewrite flag_lxor_other. }
  match goal with |- context [move_free m ?x] => set (w2 := x) end.
  assert (forall x, x <> m -> node w2 x = node w x) as Hn.
  { intros x Hx. unfold w2, node. cbn. by rewrite !lookup_insert_ne. }
  destruct (move_free_ok w2 m free) as (w' & E & Hch & _ & _ & Ew); [|done|].
  { apply (chain_same w); [|done]. intros x Hx. apply Hn. by intros ->. }
  exists w'. split_and!; [done| |done|by rewrite Ew..]. rewrite Ew. exact Ho.
Qed.

(** Pulses are never shorter than configured.  After an event of the
    generic driver that does not end a move, the next edge is scheduled no
    earlier than [step_pulse_ticks] after the clock was read for this one,
    even when the step times have fallen behind. *)
Theorem full_event_min_pulse w p s :
  obj_at stepper w p = Some s -> 1 < st_count s < 2 ^ 32 ->
  exists w', stepper_event_full p w = Ok SF_RESCHEDULE w' /\
    timer_is_before (waketime (tmr w' (st_time p)))
      (u32 (u32 (clock_reading (clock_reads w)) + st_step_pulse_ticks s)) = false /\
    hw_trace w' = HwOutToggle (st_step_pin s) :: hw_trace w.
Proof.
  intros Ho Hc. unfold stepper_event_full, gpio_out_toggle_noirq, hw, mod_timer. mrun.
  unfold timer_read_time at 1, mbind at 1, M_bind at 1. cbn [clock_reads].
  rewrite (u32_id (st_count s - 1)) by lia.
  change (clock_reads (upd hw_trace _ w)) with (clock_reads w).
  set (mn := u32 (u32 (clock_reading (clock_reads w)) + st_step_pulse_ticks s)).
  unfold reschedule_min, mod_timer.
  destruct (flag (st_count s - 1) 1 && _).
  { mrun. eexists. split; [reflexivity|]. split; [|done]. unfold tmr. cbn. rewrite lookup_insert_eq.
    apply timer_is_before_refl. }
  rewrite (proj2 (Z.eqb_neq _ _)) by lia. cbn [negb]. mrun.
  destruct (timer_is_before _ mn) eqn:Ht; mrun.
  - eexists. split; [reflexivity|]. split; [|done]. unfold tmr. cbn. rewrite lookup_insert_eq.
    apply timer_is_before_refl.
  - eexists. split; [reflexivity|]. split; [|done]. unfold tmr. cbn. by rewrite lookup_insert_eq.
Qed.
End Reset.

(** ** Witnesses *)

Lemma sample_stepper_at : obj_at stepper stepper_world 0 = Some sample_stepper.
Proof. vm_compute. reflexivity. Qed.

Lemma sample_stepper_queue : queue stepper_world (st_mq sample_stepper) [1120].
Proof. split; [eval_chain|intros _; vm_compute; reflexivity]. Qed.

Lemma sample_stepper_ok : stepper_ok stepper_world 0 sample_stepper [1120].
Proof.
  constructor.
  - exact sample_stepper_at.
  - exact sample_stepper_queue.
  - eval_decide.
  - apply Forall_cons. split; [|apply Forall_nil; exact I].
    exists (mkStepperMove 2000 0 3 1). split; [vm_compute; reflexivity|]. unfold is_u16. simpl. lia.
  - vm_compute. reflexivity.
  - vm_compute. reflexivity.
Qed.

Lemma edge_event_position_witness :
  exists res w' s', @stepper_event_edge edge_board 0 stepper_world = Ok res w' /\
    obj_at stepper w' 0 = Some s' /\
    stepper_get_position s' = stepper_get_position sample_stepper + 1.
Proof.
  apply (@edge_event_position edge_board ltac:(reflexivity) stepper_world 0 sample_stepper [1120]
    0x40000000 sample_stepper_ok).
  - vm_compute. split; [discriminate|reflexivity].
  - vm_compute. reflexivity.
  - lia.
  - lia.
  - lia.
Defined.

(** The free nodes of the sample state. *)
Definition stepper_free : list Z := node_list 57 1136 16.


(** The sample state after the stop. *)
Definition stopped_world : world := after (@stepper_stop edge_board 0 1) stepper_world.
Definition stopped_stepper : stepper := default stepper_zero (obj_at stepper stopped_world 0).

Lemma queue_step_needs_reset_witness :
  exists w', @command_queue_step edge_board [0; 500; 4; 0] stopped_world = Ok tt w' /\
    obj_at stepper w' 0 = Some stopped_stepper /\ hw_trace w' = hw_trace stopped_world.
Proof.
  destruct (@queue_step_needs_reset edge_board stopped_world 0 stopped_stepper 1120 stepper_free
    500 4 0) as (w' & E & Ho & _ & _ & _ & Ht).
  - split; [lia|]. split; [vm_compute; reflexivity|].
    eexists. split; vm_compute; reflexivity.
  - vm_compute. reflexivity.
  - vm_compute. reflexivity.
  - vm_compute. reflexivity.
  - eval_chain.
  - eval_decide.
  - vm_compute. discriminate.
  - exists w'. split; [exact E|]. split; [exact Ho|exact Ht].
Defined.

Lemma full_event_min_pulse_witness :
  exists w', @stepper_event_full edge_board 0 stepper_world = Ok SF_RESCHEDULE w' /\
    hw_trace w' = HwOutToggle 3 :: hw_trace stepper_world.
Proof.
  destruct (@full_event_min_pulse edge_board stepper_world 0 sample_stepper sample_stepper_at)
    as (w' & E & _ & Ht).
  - vm_compute. split; reflexivity.
  - exists w'. split; [exact E|]. rewrite Ht. vm_compute. reflexivity.
Defined.
