(* ===== verification/TmcuartProps.v ===== *)
(** * The wave form of a message: src/src/tmcuart.c

    The timer events of a transmission put every bit of the message on the
    line for exactly one bit time. *)
From S2P Require Import Prelude Protocol World Sched BaseCmd ObjFacts Tmcuart Firmware Sample.

(** The level of the line: 0 or 1. *)
Definition line_level (t : tmcuart_s) : Z := Z.land (tu_flags t) TU_LINE_HIGH.

Lemma land_1 x : Z.land x 1 = x mod 2.
Proof. change 1 with (Z.ones 1). by rewrite Z.land_ones. Qed.

Lemma data_bit_range data i : 0 <= data_bit data i <= 1.
Proof. unfold data_bit. rewrite land_1. pose proof (Z.mod_pos_bound
  (Z.shiftr (byte_at data (Z.shiftr i 3)) (Z.land i 0x07)) 2). lia. Qed.

Lemma toggle_level f : Z.land (Z.lxor f TU_LINE_HIGH) TU_LINE_HIGH = 1 - Z.land f TU_LINE_HIGH.
Proof.
  unfold TU_LINE_HIGH. rewrite !land_1, <- !Z.bit0_mod, Z.lxor_spec.
  by destruct (Z.testbit f 0).
Qed.

(** ** One event *)

(** The end of a run of equal bits. *)
Definition run_end (t : tmcuart_s) (level pos pos' : Z) : Prop :=
  pos < pos' <= tu_write_count t /\
  (forall i, pos < i < pos' -> data_bit (tu_data t) i = level) /\
  (pos' < tu_write_count t -> data_bit (tu_data t) pos' <> level).

Lemma send_scan_ok level t fuel : forall pos next w,
  0 <= pos < tu_write_count t -> tu_write_count t < 256 ->
  (Z.to_nat (tu_write_count t - pos) <= fuel)%nat -> 0 <= next < 2 ^ 32 ->
  exists pos', run_end t level pos pos' /\
    send_scan fuel t level pos next w
    = Ok (if pos' =? tu_write_count t then None else Some pos',
          u32 (next + (pos' - pos - 1) * tu_bit_time t)) w.
Proof.
  induction fuel as [|fuel IH]; intros pos next w Hp Hw Hf Hn; [lia|]. cbn [send_scan].
  rewrite u8_id by lia. destruct (Z.leb_spec (tu_write_count t) (pos + 1)) as [Hc|Hc].
  - exists (tu_write_count t). rewrite Z.eqb_refl. split.
    + split_and!; [lia|lia|intros; lia|lia].
    + replace (tu_write_count t - pos - 1) with 0 by lia. rewrite Z.mul_0_l, Z.add_0_r.
      by rewrite u32_id by lia.
  - destruct (Z.eqb_spec (data_bit (tu_data t) (pos + 1)) level) as [E|E]; cbn [negb].
    + destruct (IH (pos + 1) (u32 (next + tu_bit_time t)) w) as (pos' & (H1 & H2 & H3) & E');
        [lia|lia|lia|apply u32_range|].
      exists pos'. split.
      * split_and!; [lia|lia| |done]. intros i Hi.
        destruct (decide (i = pos + 1)) as [->|]; [done|]. apply H2. lia.
      * rewrite E'. do 2 f_equal. rewrite u32_add_l. f_equal. lia.
    + exists (pos + 1). rewrite (proj2 (Z.eqb_neq _ _)) by lia. split.
      * split_and!; [lia|lia|intros; lia|done].
      * replace (pos + 1 - pos - 1) with 0 by lia. rewrite Z.mul_0_l, Z.add_0_r.
        by rewrite u32_id by lia.
Qed.

Section Send.
Context `{Board}.

(** A message under way: the next event is at the beginning of bit [tu_pos]. *)
Record sending_msg (p t0 : Z) (t : tmcuart_s) (w : world) : Prop := {
  sm_obj : obj_at tmcuart_s w p = Some t;
  sm_func : func (tmr w (tu_timer p)) = Some FN_tmcuart_send_event;
  sm_pos : 0 <= tu_pos t < tu_write_count t;
  sm_count : tu_write_count t < 256;
  sm_time : 0 <= tu_bit_time t < 2 ^ 32;
  sm_wake : waketime (tmr w (tu_timer p)) = u32 (t0 + tu_pos t * tu_bit_time t)
}.

(** An event toggles the line once and is repeated at the beginning of the
    next bit with another level, or goes on to the end of the message. *)
Lemma send_event_ok p t0 t w :
  sending_msg p t0 t w -> data_bit (tu_data t) (tu_pos t) = 1 - line_level t ->
  exists w' t' pos', tmcuart_send_event p w = Ok SF_RESCHEDULE w' /\
    obj_at tmcuart_s w' p = Some t' /\ line_level t' = 1 - line_level t /\
    hw_trace w' = HwOutToggle (tu_tx_pin t) :: hw_trace w /\
    tu_data t' = tu_data t /\ tu_write_count t' = tu_write_count t /\
    tu_bit_time t' = tu_bit_time t /\ tu_tx_pin t' = tu_tx_pin t /\
    run_end t (1 - line_level t) (tu_pos t) pos' /\
    waketime (tmr w' (tu_timer p)) = u32 (t0 + pos' * tu_bit_time t) /\
    (if pos' =? tu_write_count t
     then func (tmr w' (tu_timer p)) = Some FN_tmcuart_send_finish_event
     else tu_pos t' = pos' /\ func (tmr w' (tu_timer p)) = Some FN_tmcuart_send_event).
Proof.
  intros [Ho Hf Hp Hc Ht Hwk] Hbit. unfold tmcuart_send_event, gpio_out_toggle_noirq, hw. mrun.
  set (t1 := t <| tu_flags ::= fun f => Z.lxor f TU_LINE_HIGH |>).
  change (Z.land (tu_flags t1) TU_LINE_HIGH) with (line_level t1).
  assert (line_level t1 = 1 - line_level t) as El by apply toggle_level. rewrite El.
  match goal with |- context [(send_scan 256 t1 ?l ?a ?b ≫= _) ?w1] =>
    destruct (send_scan_ok l t1 256 a b w1) as (pos' & Hrun & E); [done|done|cbn; lia|done|];
    rewrite (bind_ok _ _ _ _ _ E); set (w2 := w1) in * end.
  assert (obj_at tmcuart_s w2 p = Some t1) as Ho2 by (unfold w2; obj_solve).
  change (tu_write_count t1) with (tu_write_count t) in *. change (tu_pos t1) with (tu_pos t) in *.
  change (tu_bit_time t1) with (tu_bit_time t) in *.
  assert (u32 (waketime (tmr w (tu_timer p)) +
     u32 (tu_bit_time t + (pos' - tu_pos t - 1) * tu_bit_time t)) = u32 (t0 + pos' * tu_bit_time t)) as Ew.
  { rewrite Hwk, u32_add_l, u32_add_r. f_equal. lia. }
  destruct (Z.eqb_spec pos' (tu_write_count t)) as [Ee|Ee]; unfold mod_timer; mrun.
  - eexists _, t1, pos'. split; [reflexivity|]. rewrite tmr_upd, decide_True by done.
    rewrite (proj2 (Z.eqb_eq _ _)) by done. by split_and!.
  - set (t2 := t1 <| tu_pos := pos' |>). eexists _, t2, pos'. split; [reflexivity|].
    rewrite tmr_upd, decide_True by done. rewrite (proj2 (Z.eqb_neq _ _)) by done.
    split_and!; try done.
    apply (obj_at_put (T := tmcuart_s) w2 p t2 t1 Ho2).
Qed.

(** A transmission: for every event the bit it belongs to, its time and the
    level it sets, up to the event that ends the message. *)
Inductive send_trace (p : Z) : world -> list (Z * Z * Z) -> world -> Prop :=
| st_end w :
    func (tmr w (tu_timer p)) = Some FN_tmcuart_send_finish_event -> send_trace p w [] w
| st_event w t w' t' tr w'' :
    func (tmr w (tu_timer p)) = Some FN_tmcuart_send_event ->
    obj_at tmcuart_s w p = Some t ->
    tmcuart_send_event p w = Ok SF_RESCHEDULE w' ->
    obj_at tmcuart_s w' p = Some t' ->
    send_trace p w' tr w'' ->
    send_trace p w ((tu_pos t, waketime (tmr w (tu_timer p)), line_level t') :: tr) w''.

(** The level of the line during bit [i]. *)
Definition level_at (tr : list (Z * Z * Z)) (level i : Z) : Z :=
  foldl (fun l '(pos, _, lv) => if pos <=? i then lv else l) level tr.

Lemma level_at_before tr level i :
  Forall (fun '(pos, _, _) => i < pos) tr -> level_at tr level i = level.
Proof.
  unfold level_at. induction 1 as [|[[pos tm] lv] tr Hp _ IH]; [done|]. cbn [foldl].
  by rewrite (proj2 (Z.leb_gt _ _)) by done.
Qed.

Lemma send_trace_ok p t0 n : forall t w,
  (Z.to_nat (tu_write_count t - tu_pos t) <= n)%nat ->
  sending_msg p t0 t w -> data_bit (tu_data t) (tu_pos t) = 1 - line_level t ->
  exists tr w', send_trace p w tr w' /\
    waketime (tmr w' (tu_timer p)) = u32 (t0 + tu_write_count t * tu_bit_time t) /\
    Forall (fun '(pos, tm, _) => tu_pos t <= pos /\ tm = u32 (t0 + pos * tu_bit_time t)) tr /\
    forall level i, tu_pos t <= i < tu_write_count t -> level_at tr level i = data_bit (tu_data t) i.
Proof.
  induction n as [|n IH]; intros t w Hn Hs Hbit; pose proof Hs as [Ho Hf Hp Hc Ht Hwk]; [lia|].
  destruct (send_event_ok p t0 t w Hs Hbit) as (w1 & t1 & pos' & E & Ho1 & El & _ & Ed & Ec & Eb &
    _ & (Hr1 & Hr2 & Hr3) & Ew1 & Hend).
  destruct (Z.eqb_spec pos' (tu_write_count t)) as [Ee|Ee].
  - exists [(tu_pos t, waketime (tmr w (tu_timer p)), line_level t1)], w1. split_and!.
    + eapply st_event; [done..|]. by constructor.
    + by rewrite Ew1, Ee.
    + constructor; [|done]. by split.
    + intros level i Hi. cbn. rewrite (proj2 (Z.leb_le _ _)), El by lia.
      destruct (decide (i = tu_pos t)) as [->|]; [done|]. symmetry. apply Hr2. lia.
  - destruct Hend as [Epos Ef1]. specialize (Hr3 ltac:(lia)).
    assert (sending_msg p t0 t1 w1) as Hs1
      by (constructor; rewrite ?Epos, ?Ec, ?Eb; [done|done|lia|lia|done|done]).
    destruct (IH t1 w1) as (tr & w2 & Htr & Ew2 & Hall & Hlv); [lia|done| |].
    { rewrite Ed, Epos, El. pose proof (data_bit_range (tu_data t) pos').
      pose proof (data_bit_range (tu_data t) (tu_pos t)). lia. }
    rewrite Ed, Epos, Ec, Eb in *.
    exists ((tu_pos t, waketime (tmr w (tu_timer p)), line_level t1) :: tr), w2. split_and!.
    + by eapply st_event.
    + done.
    + constructor; [by split|]. eapply Forall_impl; [exact Hall|]. intros [[pos tm] lv] [? ?].
      split; [lia|done].
    + intros level i Hi. cbn [level_at foldl]. rewrite (proj2 (Z.leb_le _ _)) by lia.
      destruct (decide (pos' <= i)) as [Hle|Hlt]; [apply Hlv; lia|].
      change (level_at tr (line_level t1) i = data_bit (tu_data t) i).
      rewrite level_at_before, El.
      * destruct (decide (i = tu_pos t)) as [->|]; [done|]. symmetry. apply Hr2. lia.
      * eapply Forall_impl; [exact Hall|]. intros [[pos tm] lv] [? _]. lia.
Qed.

End Send.

(** A uart (oid 3, pin 5) that was asked to send the three bytes 0xf4 0x00 0x81
    and read none. *)
Definition uart_world : world :=
  after_all [@alloc_init sample_board;
             @command_allocate_oids sample_board [4];
             @command_config_tmcuart sample_board [3; 5; 1; 5; 400];
             @command_tmcuart_send sample_board [0xf4; 0x00; 0x81] [3; 3; 0; 0]].
Definition sample_uart : tmcuart_s := default tmcuart_zero (obj_at tmcuart_s uart_world 3).

