(* ===== verification/BitBang.v ===== *)
(** * Reasoning about bit-banged protocols

    [runs m w evs k Q]: [m] returns from [w] having produced the hardware events
    [evs] and consumed [k] readings of input pins; nothing else but the number
    of clock readings has changed.  Busy waits are such programs if the clock
    advances ([clock_live]).  Also the bits of a number, the most significant
    one first. *)
From S2P Require Import Prelude World Sched Delays Sample.

(** ** Bits *)

Fixpoint bits_msb (n : nat) (v : Z) : list bool :=
  match n with
  | O => []
  | S n => Z.testbit v (Z.of_nat n) :: bits_msb n v
  end.

Lemma length_bits_msb n v : length (bits_msb n v) = n.
Proof. induction n as [|n IH]; simpl; [done|by rewrite IH]. Qed.

Lemma bits_msb_ext n v v' :
  (forall i, 0 <= i < Z.of_nat n -> Z.testbit v i = Z.testbit v' i) -> bits_msb n v = bits_msb n v'.
Proof.
  induction n as [|n IH]; intros E; [done|]. simpl. rewrite E by lia. f_equal. apply IH.
  intros. apply E. lia.
Qed.

Lemma bits_msb_mod n m v : (n <= m)%nat -> bits_msb n (v mod 2 ^ Z.of_nat m) = bits_msb n v.
Proof. intros Hn. apply bits_msb_ext. intros i Hi. apply Z.mod_pow2_bits_low. lia. Qed.

(** Shifting a bit in at the low end. *)
Lemma bits_msb_in n v b :
  bits_msb (S n) (Z.lor (Z.shiftl v 1) b) = bits_msb n (Z.lor v (Z.shiftr b 1)) ++ [Z.odd b].
Proof.
  induction n as [|n IH].
  - cbn [bits_msb app Z.of_nat]. by rewrite Z.lor_spec, Z.shiftl_spec_low, orb_false_l, Z.bit0_odd by lia.
  - rewrite (eq_refl : bits_msb (S (S n)) _ = Z.testbit _ (Z.of_nat (S n)) :: bits_msb (S n) _), IH.
    cbn [bits_msb app]. f_equal. rewrite !Z.lor_spec, Z.shiftl_spec, Z.shiftr_spec by lia.
    f_equal; f_equal; lia.
Qed.

Lemma bits_msb_bit n v b :
  b = 0 \/ b = 1 -> bits_msb (S n) (Z.lor (Z.shiftl v 1) b) = bits_msb n v ++ [negb (b =? 0)].
Proof. intros Hb. rewrite bits_msb_in. by destruct Hb as [-> | ->]; cbn; rewrite Z.lor_0_r. Qed.

Lemma bits_msb_shl n v : bits_msb (S n) (Z.shiftl v 1) = bits_msb n v ++ [false].
Proof. rewrite <- (Z.lor_0_r (Z.shiftl v 1)). by rewrite bits_msb_bit by auto. Qed.

Lemma bits_msb_inj n v v' :
  0 <= v < 2 ^ Z.of_nat n -> 0 <= v' < 2 ^ Z.of_nat n -> bits_msb n v = bits_msb n v' -> v = v'.
Proof.
  intros Hv Hv' E. assert (Hi : forall i, 0 <= i < Z.of_nat n -> Z.testbit v i = Z.testbit v' i).
  { revert E. clear. induction n as [|n IH]; intros E i Hi; [lia|]. simpl in E.
    injection E as E0 E. destruct (decide (i = Z.of_nat n)) as [->|]; [done|]. apply IH; [done|lia]. }
  apply Z.bits_inj'. intros i H0. destruct (decide (i < Z.of_nat n)); [apply Hi; lia|].
  assert (Hp : 2 ^ Z.of_nat n <= 2 ^ i) by (apply Z.pow_le_mono_r; lia).
  destruct (decide (v = 0)) as [->|], (decide (v' = 0)) as [->|];
    rewrite ?Z.bits_0, ?Z.bits_above_log2; try done; try lia; apply Z.log2_lt_pow2; lia.
Qed.

Lemma lor_range n a b : 0 <= a < 2 ^ n -> 0 <= b < 2 ^ n -> 0 <= n -> 0 <= Z.lor a b < 2 ^ n.
Proof.
  intros Ha Hb Hn. assert (E : Z.lor a b = Z.lor a b mod 2 ^ n).
  { rewrite <- Z.land_ones by done. rewrite Z.land_lor_distr_l, !Z.land_ones by done.
    by rewrite !Z.mod_small. }
  rewrite E. apply Z.mod_pos_bound. lia.
Qed.

(** Bits that are shifted in at the low end of a register of [width] bits. *)
Definition shift_in (width : nat) (acc : Z) (vs : list Z) : Z :=
  foldl (fun acc v => Z.lor (Z.shiftl acc 1 mod 2 ^ Z.of_nat width) v) acc vs.

Definition is_bit (v : Z) : Prop := v = 0 \/ v = 1.
Definition nonzero (v : Z) : bool := negb (v =? 0).

Lemma bits_msb_lor_mod n m v b :
  (n <= m)%nat -> bits_msb n (Z.lor (v mod 2 ^ Z.of_nat m) b) = bits_msb n (Z.lor v b).
Proof.
  intros Hn. apply bits_msb_ext. intros i Hi. rewrite !Z.lor_spec.
  by rewrite Z.mod_pow2_bits_low by lia.
Qed.

Lemma shift_in_bits n width vs : forall acc, (n <= width)%nat -> Forall is_bit vs ->
  bits_msb n (shift_in width acc vs) = drop (length vs) (bits_msb n acc ++ map nonzero vs).
Proof.
  induction vs as [|v vs IH]; intros acc Hn Hvs.
  - by rewrite app_nil_r.
  - apply Forall_cons in Hvs as [Hv Hvs]. cbn [shift_in foldl]. fold (shift_in width).
    unfold shift_in in IH. rewrite IH, bits_msb_lor_mod by done. cbn [length map].
    destruct n as [|n]; [by rewrite !app_nil_l|]. rewrite bits_msb_bit by done.
    rewrite <- app_assoc. done.
Qed.

Lemma shift_in_range width vs : forall acc, (0 < width)%nat -> Forall is_bit vs ->
  0 <= acc < 2 ^ Z.of_nat width -> 0 <= shift_in width acc vs < 2 ^ Z.of_nat width.
Proof.
  induction vs as [|v vs IH]; intros acc Hw Hvs Ha; [done|].
  apply Forall_cons in Hvs as [Hv Hvs]. cbn [shift_in foldl]. apply IH; [done..|].
  assert (2 ^ 1 <= 2 ^ Z.of_nat width) by (apply Z.pow_le_mono_r; lia).
  apply lor_range; [apply Z.mod_pos_bound|destruct Hv as [-> | ->]|]; lia.
Qed.

(** Eight bits make a byte. *)
Lemma shift_in_byte vs : length vs = 8%nat -> Forall is_bit vs ->
  bits_msb 8 (shift_in 8 0 vs) = map nonzero vs.
Proof.
  intros Hl Hvs. rewrite shift_in_bits by auto. rewrite drop_app_ge by (rewrite length_bits_msb; lia).
  by rewrite length_bits_msb, Hl.
Qed.

(** The bit that is sent next, and the rest. *)
Lemma land_0x80 b : Z.land b 0x80 = if Z.testbit b 7 then 0x80 else 0.
Proof.
  apply Z.bits_inj'. intros i Hi. rewrite Z.land_spec. change 0x80 with (2 ^ 7).
  rewrite Z.pow2_bits_eqb by lia. destruct (Z.eqb_spec 7 i) as [<-|].
  - rewrite andb_true_r. by destruct (Z.testbit b 7).
  - rewrite andb_false_r. destruct (Z.testbit b 7); [|by rewrite Z.bits_0].
    rewrite Z.pow2_bits_false by lia. done.
Qed.

Lemma flag_0x80 b : flag b 0x80 = Z.testbit b 7.
Proof. unfold flag. rewrite land_0x80. by destruct (Z.testbit b 7). Qed.

Lemma take_bits_shl i b : (i <= 7)%nat ->
  take (S i) (bits_msb 8 b) = Z.testbit b 7 :: take i (bits_msb 8 (u8 (Z.shiftl b 1))).
Proof.
  intros Hi. unfold u8. change 8 with (Z.of_nat 8). rewrite bits_msb_mod by done.
  rewrite (bits_msb_shl 7 b). rewrite take_app_le by (rewrite length_bits_msb; lia). done.
Qed.

(** ** Programs that only touch pins and wait *)

Record emits (evs : list hw_event) (k : nat) (w w' : world) : Prop := {
  em_world : w' = w <| clock_reads := clock_reads w' |> <| pin_reads := (pin_reads w + k)%nat |>
                    <| hw_trace := rev evs ++ hw_trace w |>
}.

Lemma emits_refl w : emits [] 0 w w.
Proof. constructor. rewrite Nat.add_0_r. by destruct w. Qed.

Lemma emits_trans e1 k1 e2 k2 w w1 w2 :
  emits e1 k1 w w1 -> emits e2 k2 w1 w2 -> emits (e1 ++ e2) (k1 + k2) w w2.
Proof.
  intros [E1] [E2]. constructor. rewrite E2. rewrite E1. cbn -[app rev].
  rewrite rev_app_distr, <- app_assoc, Nat.add_assoc. by destruct w.
Qed.

Lemma emits_reads evs k w w' : emits evs k w w' -> pin_reads w' = (pin_reads w + k)%nat.
Proof. intros [->]. by destruct w. Qed.
Lemma emits_trace evs k w w' : emits evs k w w' -> hw_trace w' = rev evs ++ hw_trace w.
Proof. intros [->]. by destruct w. Qed.
Lemma emits_oids evs k w w' : emits evs k w w' -> oids w' = oids w.
Proof. intros [->]. by destruct w. Qed.

Definition runs {A} (m : M A) (w : world) (evs : list hw_event) (k : nat) (Q : A -> world -> Prop)
    : Prop := exists a w', m w = Ok a w' /\ emits evs k w w' /\ Q a w'.

Lemma runs_ret {A} (a : A) w (Q : A -> world -> Prop) : Q a w -> runs (mret a) w [] 0 Q.
Proof. intros HQ. exists a, w. auto using emits_refl. Qed.

Lemma runs_bind {A B} (m : M A) (f : A -> M B) w e1 k1 e2 k2 Q1 Q2 :
  runs m w e1 k1 Q1 ->
  (forall a w1, emits e1 k1 w w1 -> Q1 a w1 -> runs (f a) w1 e2 k2 Q2) ->
  runs (m ≫= f) w (e1 ++ e2) (k1 + k2) Q2.
Proof.
  intros (a & w1 & E1 & Em1 & HQ1) Hf. destruct (Hf a w1 Em1 HQ1) as (b & w2 & E2 & Em2 & HQ2).
  exists b, w2. rewrite (bind_ok _ _ _ _ _ E1). eauto using emits_trans.
Qed.

Lemma runs_mono {A} (m : M A) w evs k (Q Q' : A -> world -> Prop) :
  runs m w evs k Q -> (forall a w', emits evs k w w' -> Q a w' -> Q' a w') -> runs m w evs k Q'.
Proof. intros (a & w' & E & Em & HQ) HQ'. exists a, w'. auto. Qed.

Definition any {A} (a : A) (w : world) : Prop := True.

Section Waits.
Context `{Board}.

Lemma runs_hw e w : runs (hw e) w [e] 0 any.
Proof.
  eexists _, _. split; [done|]. split; [|done]. constructor. rewrite Nat.add_0_r. by destruct w.
Qed.

Lemma runs_in_read pin w :
  runs (gpio_in_read pin) w [] 1 (fun v _ => v = u8 (pin_reading (pin_reads w) pin)).
Proof.
  eexists _, _. split; [done|]. split; [|done]. constructor. rewrite Nat.add_1_r. by destruct w.
Qed.

(** A time [t] after the latest reading of the clock. *)
Definition armed (w : world) (t_end t : Z) : Prop :=
  exists n, clock_reads w = S n /\ t_end = u32 (u32 (clock_reading n) + t).

Lemma runs_read_time w :
  runs timer_read_time w [] 0 (fun now w' => forall t, armed w' (u32 (now + t)) t).
Proof.
  eexists _, _. split; [done|]. split.
  - constructor. rewrite Nat.add_0_r. by destruct w.
  - intros t. by exists (clock_reads w).
Qed.

(** The clock passes every time [t] ahead within [spin_limit] readings. *)
Definition clock_live (t : Z) : Prop := forall n, exists k, (k < spin_limit)%nat /\
  timer_is_before (u32 (clock_reading (S n + k))) (u32 (u32 (clock_reading n) + t)) = false.

Lemma spin_until_ends t_end fuel : forall w k, (k < fuel)%nat ->
  timer_is_before (u32 (clock_reading (clock_reads w + k))) t_end = false ->
  runs (spin_until fuel t_end) w [] 0 any.
Proof.
  induction fuel as [|fuel IH]; intros w k Hk Hb; [lia|]. cbn [spin_until].
  apply (runs_bind _ _ _ [] 0 [] 0 (fun now w' =>
    now = u32 (clock_reading (clock_reads w)) /\ clock_reads w' = S (clock_reads w))).
  { eexists _, _. split; [done|]. split; [|done]. constructor. rewrite Nat.add_0_r. by destruct w. }
  intros now w1 _ [-> Hw1].
  destruct (timer_is_before (u32 (clock_reading (clock_reads w))) t_end) eqn:E; [|by apply runs_ret].
  destruct k as [|k]; [rewrite Nat.add_0_r in Hb; congruence|].
  apply (IH w1 k); [lia|]. rewrite Hw1. by replace (S (clock_reads w) + k)%nat with (clock_reads w + S k)%nat by lia.
Qed.

Lemma runs_spin w t_end t :
  clock_live t -> armed w t_end t -> runs (spin_until spin_limit t_end) w [] 0 any.
Proof.
  intros Hl (n & Hn & ->). destruct (Hl n) as (k & Hk & Hb).
  apply (spin_until_ends _ _ w k); [done|]. by rewrite Hn.
Qed.

(** Without interrupts the two waits are the same. *)
Lemma poll_is_spin fuel t : forall w, poll_until (mret tt) fuel t w = spin_until fuel t w.
Proof.
  induction fuel as [|fuel IH]; intros w; [done|]. cbn [poll_until spin_until].
  apply bind_ext. intros now w1 _. case_match; [|done]. apply IH.
Qed.
End Waits.

(** The sample board's clock advances 100 ticks per reading. *)
Lemma sample_clock_live t : 0 <= t <= 1000 -> clock_live (H := sample_board) t.
Proof.
  intros Ht n. exists 9%nat. split; [cbn; lia|]. unfold timer_is_before. cbn [clock_reading sample_board].
  apply Z.ltb_ge. unfold s32, u32. rewrite Zplus_mod_idemp_l.
  rewrite <- (Zplus_mod_idemp_l (_ - _)), <- Zminus_mod, Zplus_mod_idemp_l.
  replace (_ - _ + _) with (1000 - t + 2 ^ 31) by lia. rewrite Z.mod_small; lia.
Qed.
