(* ===== verification/SpiProps.v ===== *)
(** * Transfers on a software SPI bus

    A reference slave follows the pins: it is selected by its chip select pin,
    and samples the data pin on the clock edge that its mode prescribes.  It
    receives the bytes that are sent, in all four modes. *)
From S2P Require Import Prelude Devices World Sched Delays Command BaseCmd ObjFacts SpiCmds Firmware Sample BitBang.

(** ** The slave *)

Record spi_slave : Set := mkSlave {
  sl_selected : bool; sl_sclk : bool; sl_mosi : bool; sl_in : list bool
}.

(** The clock changes to [level]: the first of the two edges of a bit leads away
    from the idle level [CPOL], and [CPHA] says which of the two is for sampling. *)
Definition slave_clock (mode : Z) (level : bool) (sl : spi_slave) : spi_slave :=
  let leading := xorb level (Z.testbit mode 1) in
  let samples := xorb leading (Z.testbit mode 0) in
  mkSlave (sl_selected sl) level (sl_mosi sl)
    (if xorb level (sl_sclk sl) && sl_selected sl && samples
     then sl_in sl ++ [sl_mosi sl] else sl_in sl).

Definition slave_step (s : spidev_s) (ss : spi_software) (sl : spi_slave) (e : hw_event) : spi_slave :=
  match e with
  | HwOutWrite pin v =>
      if pin =? sd_pin s
      then mkSlave (eqb (nonzero v) (flag (sd_flags s) SF_CS_ACTIVE_HIGH)) (sl_sclk sl) (sl_mosi sl) (sl_in sl)
      else if pin =? ss_sclk ss then slave_clock (ss_mode ss) (nonzero v) sl
      else if pin =? ss_mosi ss then mkSlave (sl_selected sl) (sl_sclk sl) (nonzero v) (sl_in sl)
      else sl
  | HwOutToggle pin =>
      if pin =? ss_sclk ss then slave_clock (ss_mode ss) (negb (sl_sclk sl)) sl else sl
  | _ => sl
  end.

(** ** The events of a transfer *)

Definition bit_level (b : bool) : Z := if b then 0x80 else 0.

Definition bit_events (ss : spi_software) (b : bool) : list hw_event :=
  if Z.testbit (ss_mode ss) 0
  then [HwOutToggle (ss_sclk ss); HwOutWrite (ss_mosi ss) (bit_level b); HwOutToggle (ss_sclk ss)]
  else [HwOutWrite (ss_mosi ss) (bit_level b); HwOutToggle (ss_sclk ss); HwOutToggle (ss_sclk ss)].

Definition byte_events (ss : spi_software) (b : Z) : list hw_event :=
  flat_map (bit_events ss) (bits_msb 8 b).

Section Spi.
Context `{Board}.
Context (ss : spi_software) (t1 t2 : Z) (Ht1 : clock_live t1) (Ht2 : clock_live t2).

(** The readings of the data pin from the [n]-th on. *)
Definition miso_readings (n k : nat) : list Z :=
  map (fun i => u8 (pin_reading i (ss_miso ss))) (seq n k).

(** What a loop over bits does: its events, and its registers. *)
Definition bits_run (i : nat) (inbuf : Z) (w : world) (m : M (Z * Z)) (evs : list hw_event) : Prop :=
  runs m w evs i (fun r w' =>
    r.1 = shift_in 8 inbuf (miso_readings (pin_reads w) i) /\ armed w' r.2 t1).

Lemma phase1_run : Z.testbit (ss_mode ss) 0 = true ->
  forall i w outbuf inbuf t_end, (i <= 8)%nat -> armed w t_end t1 ->
  bits_run i inbuf w (spi_bits_phase1 i ss t1 t2 outbuf inbuf t_end)
    (flat_map (bit_events ss) (take i (bits_msb 8 outbuf))).
Proof.
  intros Hm. induction i as [|i IH]; intros w outbuf inbuf t_end Hi Ha.
  { by apply runs_ret. }
  rewrite take_bits_shl by lia. cbn [flat_map spi_bits_phase1]. unfold bit_events at 1. rewrite Hm.
  unfold bits_run.
  apply (runs_bind _ _ _ [] 0 _ (S i) _ _ (runs_spin w t_end t1 Ht1 Ha)). intros _ w1 E1 _.
  apply (runs_bind _ _ _ [_] 0 (_ :: _ :: _) (S i) _ _ (runs_hw _ w1)). intros _ w2 E2 _.
  unfold bit_level. rewrite <- land_0x80.
  apply (runs_bind _ _ _ [_] 0 (_ :: _) (S i) _ _ (runs_hw _ w2)). intros _ w3 E3 _.
  apply (runs_bind _ _ _ [] 0 (_ :: _) (S i) _ _ (runs_read_time w3)). intros now w4 E4 Ha4. cbn zeta.
  apply (runs_bind _ _ _ [] 0 (_ :: _) (S i) _ _ (runs_spin w4 _ t2 Ht2 (Ha4 t2))). intros _ w5 E5 _.
  apply (runs_bind _ _ _ [_] 0 _ (S i) _ _ (runs_hw _ w5)). intros _ w6 E6 _.
  apply (runs_bind _ _ _ [] 1 _ i _ _ (runs_in_read _ w6)). intros v w7 E7 ->.
  apply (runs_bind _ _ _ [] 0 _ i _ _ (runs_read_time w7)). intros now' w8 E8 Ha8.
  eapply runs_mono; [apply IH; [lia|apply Ha8]|]. intros r w9 _ [-> Hr]. split; [|done].
  apply emits_reads in E1, E2, E3, E4, E5, E6, E7, E8. rewrite E8, E7, E6, E5, E4, E3, E2, E1.
  unfold miso_readings. cbn [seq map shift_in foldl]. rewrite !Nat.add_0_r, Nat.add_1_r. done.
Qed.

Lemma phase0_run : Z.testbit (ss_mode ss) 0 = false ->
  forall i w outbuf inbuf t_end, (i <= 8)%nat -> armed w t_end t1 ->
  bits_run i inbuf w (spi_bits_phase0 i ss t1 t2 outbuf inbuf t_end)
    (flat_map (bit_events ss) (take i (bits_msb 8 outbuf))).
Proof.
  intros Hm. induction i as [|i IH]; intros w outbuf inbuf t_end Hi Ha.
  { by apply runs_ret. }
  rewrite take_bits_shl by lia. cbn [flat_map spi_bits_phase0]. unfold bit_events at 1. rewrite Hm.
  unfold bits_run.
  apply (runs_bind _ _ _ [] 0 _ (S i) _ _ (runs_spin w t_end t1 Ht1 Ha)). intros _ w1 E1 _.
  unfold bit_level. rewrite <- land_0x80.
  apply (runs_bind _ _ _ [_] 0 (_ :: _ :: _) (S i) _ _ (runs_hw _ w1)). intros _ w2 E2 _.
  apply (runs_bind _ _ _ [_] 0 (_ :: _) (S i) _ _ (runs_hw _ w2)). intros _ w3 E3 _.
  apply (runs_bind _ _ _ [] 0 (_ :: _) (S i) _ _ (runs_read_time w3)). intros now w4 E4 Ha4. cbn zeta.
  apply (runs_bind _ _ _ [] 0 (_ :: _) (S i) _ _ (runs_spin w4 _ t2 Ht2 (Ha4 t2))). intros _ w5 E5 _.
  apply (runs_bind _ _ _ [] 1 (_ :: _) i _ _ (runs_in_read _ w5)). intros v w6 E6 ->.
  apply (runs_bind _ _ _ [_] 0 _ i _ _ (runs_hw _ w6)). intros _ w7 E7 _.
  apply (runs_bind _ _ _ [] 0 _ i _ _ (runs_read_time w7)). intros now' w8 E8 Ha8.
  eapply runs_mono; [apply IH; [lia|apply Ha8]|]. intros r w9 _ [-> Hr]. split; [|done].
  apply emits_reads in E1, E2, E3, E4, E5, E6, E7, E8. rewrite E8, E7, E6, E5, E4, E3, E2, E1.
  unfold miso_readings. cbn [seq map shift_in foldl]. rewrite !Nat.add_0_r, Nat.add_1_r. done.
Qed.
Lemma byte_run w outbuf t_end : armed w t_end t1 ->
  bits_run 8 0 w (if flag (ss_mode ss) 0x01 then spi_bits_phase1 8 ss t1 t2 outbuf 0 t_end
                  else spi_bits_phase0 8 ss t1 t2 outbuf 0 t_end) (byte_events ss outbuf).
Proof.
  intros Ha. assert (Hf : flag (ss_mode ss) 0x01 = Z.testbit (ss_mode ss) 0).
  { unfold flag. change 0x01 with (Z.ones 1). rewrite Z.land_ones by lia. change (2 ^ 1) with 2.
    rewrite <- Z.bit0_mod. by destruct (Z.testbit (ss_mode ss) 0). }
  rewrite Hf. unfold byte_events. rewrite <- (firstn_all (bits_msb 8 outbuf)), length_bits_msb.
  destruct (Z.testbit (ss_mode ss) 0) eqn:E; [by apply phase1_run|by apply phase0_run].
Qed.

(** The buffer after a transfer that read the pin from the [n]-th reading on. *)
Fixpoint received (receive : bool) (n : nat) (data : list Z) : list Z :=
  match data with
  | [] => []
  | b :: data => (if receive then shift_in 8 0 (miso_readings n 8) else b) :: received receive (n + 8) data
  end.

Lemma bytes_run receive data : forall w t_end, armed w t_end t1 ->
  runs (spi_software_bytes ss receive t1 t2 t_end data) w (flat_map (byte_events ss) data)
    (8 * length data) (fun r _ => r = received receive (pin_reads w) data).
Proof.
  induction data as [|b data IH]; intros w t_end Ha; [by apply runs_ret|].
  cbn [spi_software_bytes flat_map]. replace (8 * length (b :: data))%nat with (8 + 8 * length data)%nat by (cbn; lia).
  eapply runs_bind; [apply (byte_run w b t_end Ha)|]. intros [inbuf t_end'] w1 E1 [Hin Ha1].
  cbn [fst snd] in Hin, Ha1. subst inbuf.
  rewrite <- (app_nil_r (flat_map _ _)), <- (Nat.add_0_r (8 * length data)).
  eapply runs_bind; [by apply IH|]. intros r w2 E2 ->. apply runs_ret.
  by rewrite (emits_reads _ _ _ _ E1).
Qed.

Lemma transfer_run receive data w :
  t1 = Z.shiftr (ss_sck_ticks ss) 1 -> t2 = u32 (ss_sck_ticks ss - t1) ->
  runs (spi_software_transfer ss receive data) w (flat_map (byte_events ss) data)
    (8 * length data) (fun r _ => r = received receive (pin_reads w) data).
Proof.
  intros E1 E2. unfold spi_software_transfer. cbn zeta. rewrite <- E1, <- E2.
  eapply (runs_bind _ _ _ [] 0); [apply runs_read_time|]. intros now w1 Em Ha.
  eapply runs_mono; [apply bytes_run, Ha|]. intros r w2 _ ->.
  by rewrite (emits_reads _ _ _ _ Em), Nat.add_0_r.
Qed.

(** The received bytes consist of the bits that were read. *)
Lemma length_received receive n data : length (received receive n data) = length data.
Proof. revert n. induction data as [|b data IH]; intros n; cbn; [done|by rewrite IH]. Qed.

Lemma received_bits n data : (forall i, is_bit (pin_reading i (ss_miso ss))) ->
  concat (map (bits_msb 8) (received true n data)) =
  map (fun i => nonzero (pin_reading i (ss_miso ss))) (seq n (8 * length data)).
Proof.
  intros Hb. revert n. induction data as [|b data IH]; intros n; [done|].
  cbn [received map concat]. rewrite IH. replace (8 * length (b :: data))%nat with (8 + 8 * length data)%nat by (cbn; lia).
  rewrite seq_app, map_app. f_equal.
  assert (Hu : forall i, u8 (pin_reading i (ss_miso ss)) = pin_reading i (ss_miso ss)).
  { intros i. by destruct (Hb i) as [-> | ->]. }
  rewrite shift_in_byte.
  - unfold miso_readings. rewrite map_map. apply map_ext. intros i. by rewrite Hu.
  - unfold miso_readings. by rewrite length_map, length_seq.
  - unfold miso_readings. apply Forall_map, Forall_forall. intros i _. cbn. rewrite Hu. apply Hb.
Qed.
End Spi.

Section Slave.
Context (s : spidev_s) (ss : spi_software).
Context (Hpins : NoDup [sd_pin s; ss_sclk ss; ss_mosi ss]) (Hmode : 0 <= ss_mode ss <= 3).

Lemma pins_differ :
  (ss_sclk ss =? sd_pin s) = false /\ (ss_mosi ss =? sd_pin s) = false /\
  (ss_mosi ss =? ss_sclk ss) = false.
Proof.
  rewrite !NoDup_cons, !not_elem_of_cons in Hpins. destruct Hpins as ((? & ? & _) & (? & _) & _).
  rewrite !Z.eqb_neq. auto.
Qed.

(** Selected, with the clock at its idle level. *)
Definition ready_slave (mosi : bool) (i : list bool) : spi_slave :=
  mkSlave true (Z.testbit (ss_mode ss) 1) mosi i.

Lemma slave_bit b mosi i :
  foldl (slave_step s ss) (ready_slave mosi i) (bit_events ss b) = ready_slave b (i ++ [b]).
Proof.
  destruct pins_differ as (E1 & E2 & E3). unfold bit_events, ready_slave.
  assert (Hn : nonzero (bit_level b) = b) by by destruct b.
  destruct (Z.testbit (ss_mode ss) 0) eqn:H0; cbn [foldl slave_step]; rewrite ?E1, ?E2, ?E3, ?Z.eqb_refl;
    unfold slave_clock; cbn [sl_selected sl_sclk sl_mosi sl_in]; rewrite H0, Hn;
    by destruct (Z.testbit (ss_mode ss) 1).
Qed.

Lemma slave_bits l : forall mosi i, exists mosi',
  foldl (slave_step s ss) (ready_slave mosi i) (flat_map (bit_events ss) l) = ready_slave mosi' (i ++ l).
Proof.
  induction l as [|b l IH]; intros mosi i; cbn [flat_map].
  - exists mosi. by rewrite app_nil_r.
  - rewrite foldl_app, slave_bit. destruct (IH b (i ++ [b])) as [m E]. exists m. rewrite E.
    by rewrite <- app_assoc.
Qed.

Lemma slave_bytes data : forall mosi i, exists mosi',
  foldl (slave_step s ss) (ready_slave mosi i) (flat_map (byte_events ss) data) =
  ready_slave mosi' (i ++ concat (map (bits_msb 8) data)).
Proof.
  induction data as [|b data IH]; intros mosi i; cbn [flat_map map concat].
  - exists mosi. by rewrite app_nil_r.
  - rewrite foldl_app. destruct (slave_bits (bits_msb 8 b) mosi i) as [m1 E1].
    unfold byte_events at 1. rewrite E1. destruct (IH m1 (i ++ bits_msb 8 b)) as [m2 E2].
    exists m2. by rewrite E2, <- app_assoc.
Qed.

(** A whole transfer, from preparing the clock to releasing the chip select. *)
Definition transfer_events (data : list Z) : list hw_event :=
  let active := flag (sd_flags s) SF_CS_ACTIVE_HIGH in
  [HwOutWrite (ss_sclk ss) (Z.land (ss_mode ss) 0x02)] ++
  [HwOutWrite (sd_pin s) (b2z active)] ++ flat_map (byte_events ss) data ++
  [HwOutWrite (sd_pin s) (b2z (negb active))].

Lemma slave_transfer data sl : sl_selected sl = false ->
  let sl' := foldl (slave_step s ss) sl (transfer_events data) in
  sl_selected sl' = false /\ sl_in sl' = sl_in sl ++ concat (map (bits_msb 8) data).
Proof.
  intros Hsel. cbn zeta. unfold transfer_events. rewrite !foldl_app. cbn [foldl].
  destruct pins_differ as (E1 & E2 & E3).
  assert (Hc : slave_step s ss (slave_step s ss sl (HwOutWrite (ss_sclk ss) (Z.land (ss_mode ss) 0x02)))
                 (HwOutWrite (sd_pin s) (b2z (flag (sd_flags s) SF_CS_ACTIVE_HIGH)))
               = ready_slave (sl_mosi sl) (sl_in sl)).
  { cbn [slave_step]. rewrite E1, !Z.eqb_refl. unfold slave_clock, ready_slave.
    cbn [sl_selected sl_sclk sl_mosi sl_in]. rewrite Hsel, andb_false_r. f_equal.
    - by destruct (flag (sd_flags s) SF_CS_ACTIVE_HIGH).
    - assert (Hm : ss_mode ss = 0 \/ ss_mode ss = 1 \/ ss_mode ss = 2 \/ ss_mode ss = 3) by lia.
      by destruct Hm as [-> | [-> | [-> | ->]]]. }
  rewrite Hc. destruct (slave_bytes data (sl_mosi sl) (sl_in sl)) as [m E]. rewrite E.
  cbn [slave_step]. rewrite Z.eqb_refl. cbn [sl_selected sl_in]. split; [|done].
  by destruct (flag (sd_flags s) SF_CS_ACTIVE_HIGH).
Qed.
End Slave.

Section Transfer.
Context `{Board}.

(** What the theorem needs of the device and of the board: a software bus with
    a chip select pin and pins of its own, an input that reads 0 or 1, and a
    clock that advances. *)
Record software_spi (w : world) (spi : Z) (s : spidev_s) (ss : spi_software) : Prop := {
  sws_dev : obj_at spidev_s w spi = Some s;
  sws_bus : sd_bus s = SU_software ss;
  sws_config : CONFIG_WANT_SOFTWARE_SPI = true;
  sws_flags : flag (sd_flags s) SF_SOFTWARE = true;
  sws_cs : flag (sd_flags s) SF_HAVE_PIN = true;
  sws_mode : 0 <= ss_mode ss <= 3;
  sws_pins : NoDup [sd_pin s; ss_sclk ss; ss_mosi ss];
  sws_miso : forall i, is_bit (pin_reading i (ss_miso ss));
  sws_ticks : clock_live (ss_sck_ticks ss);
  sws_t1 : clock_live (Z.shiftr (ss_sck_ticks ss) 1);
  sws_t2 : clock_live (u32 (ss_sck_ticks ss - Z.shiftr (ss_sck_ticks ss) 1))
}.

Lemma spidev_transfer_run w spi s ss receive data : software_spi w spi s ss ->
  runs (spidev_transfer spi receive data) w (transfer_events s ss data) (8 * length data)
    (fun r _ => r = received ss receive (pin_reads w) data).
Proof.
  intros []. unfold spidev_transfer. unfold runs. rewrite (run_get_obj _ _ _ _ sws_dev0). cbn zeta.
  assert (Hf : flag (sd_flags s) (Z.lor SF_SOFTWARE SF_HARDWARE) = true).
  { unfold flag in *. rewrite Z.land_lor_distr_r, negb_true_iff, Z.eqb_neq, Z.lor_eq_0_iff.
    rewrite negb_true_iff, Z.eqb_neq in sws_flags0. tauto. }
  unfold use_software, software_bus. rewrite Hf, sws_config0, sws_flags0, sws_cs0, sws_bus0. cbn [negb andb].
  unfold transfer_events. cbn zeta.
  apply (runs_bind (mret ss ≫= spi_software_prepare) _ _ _ 0 _ (8 * length data) any).
  { apply (runs_bind _ _ _ [] 0 _ _ (fun a _ => a = ss)); [by apply runs_ret|]. intros _ w1 _ ->.
    unfold spi_software_prepare. apply (runs_bind _ _ _ [_] 0 [] 0 _ _ (runs_hw _ w1)). intros _ w2 _ _.
    apply (runs_bind _ _ _ [] 0 [] 0 _ _ (runs_read_time w2)). intros now w3 _ Ha.
    by apply (runs_spin _ _ (ss_sck_ticks ss)). }
  intros _ w1 E1 _. unfold when at 1.
  apply (runs_bind _ _ _ _ 0 _ (8 * length data) _ _ (runs_hw _ w1)). intros _ w2 E2 _.
  rewrite <- (Nat.add_0_r (8 * length data)).
  apply (runs_bind (mret ss ≫= fun ss => spi_software_transfer ss receive data) _ _ _ _ _ _
    (fun r _ => r = received ss receive (pin_reads w2) data)).
  { apply (runs_bind _ _ _ [] 0 _ _ (fun a w' => a = ss /\ w' = w2)); [by apply runs_ret|].
    intros _ w3 _ [-> ->]. eapply transfer_run; [| |done|done]; done. }
  intros r w3 E3 ->. unfold when. rewrite <- (app_nil_r [HwOutWrite _ _]).
  apply (runs_bind _ _ _ _ 0 [] 0 _ _ (runs_hw _ w3)). intros _ w4 E4 _. apply runs_ret.
  by rewrite (emits_reads _ _ _ _ E2), (emits_reads _ _ _ _ E1), !Nat.add_0_r.
Qed.

(** C15: A transfer on a software SPI bus returns, changes nothing in memory but the trace, and exchanges the bytes
    in each of the four modes: a slave that follows the pins, is selected by the
    chip select pin and samples on the edges of its mode receives exactly the
    bits of the data, most significant first, and is deselected afterwards; the
    buffer holds the bytes made of the bits that were read, or is unchanged if
    nothing is to be received. *)
Theorem spi_software_exchange w spi s ss receive data sl :
  software_spi w spi s ss -> sl_selected sl = false ->
  exists data' evs w', spidev_transfer spi receive data w = Ok data' w' /\
    emits evs (8 * length data) w w' /\
    (let sl' := foldl (slave_step s ss) sl evs in
     sl_selected sl' = false /\ sl_in sl' = sl_in sl ++ concat (map (bits_msb 8) data)) /\
    length data' = length data /\
    (if receive
     then concat (map (bits_msb 8) data') =
          map (fun i => nonzero (pin_reading i (ss_miso ss))) (seq (pin_reads w) (8 * length data))
     else data' = data).
Proof.
  intros Hs Hsel. destruct (spidev_transfer_run w spi s ss receive data Hs) as (data' & w' & E & Em & ->).
  eexists _, _, w'. split; [exact E|]. split; [exact Em|]. split; [|split].
  - apply slave_transfer; [apply Hs..|done].
  - apply length_received.
  - destruct receive; [apply received_bits, Hs|]. clear. generalize (pin_reads w).
    induction data as [|b data IH]; intros n; cbn; [done|by rewrite IH].
Qed.
End Transfer.

(** A device (oid 2, chip select 10) on a bus of pins 11 to 13 in mode 3. *)
Definition spi_world : world :=
  after_all [@alloc_init sample_board;
             @command_allocate_oids sample_board [4];
             @command_config_spi sample_board [2; 10; 0];
             @command_spi_set_sw_bus sample_board [2; 11; 12; 13; 3; 200]].
Definition sample_spidev : spidev_s := default spidev_s_zero (obj_at spidev_s spi_world 2).
Definition sample_spi_bus : spi_software := mkSpiSoftware 11 12 13 200 3.

Lemma sample_software_spi : software_spi (H := sample_board) spi_world 2 sample_spidev sample_spi_bus.
Proof.
  constructor; [vm_compute; reflexivity..| | | |idtac|idtac|idtac].
  - vm_compute. split; discriminate.
  - eval_decide.
  - intros i. by right.
  - by apply sample_clock_live.
  - by apply sample_clock_live.
  - by apply sample_clock_live.
Qed.

Lemma spi_software_exchange_witness : exists data' evs w',
  spidev_transfer (H := sample_board) 2 true [0x9f; 0x00] spi_world = Ok data' w' /\
  sl_in (foldl (slave_step sample_spidev sample_spi_bus) (mkSlave false false false []) evs) =
  concat (map (bits_msb 8) [0x9f; 0x00]).
Proof.
  destruct (spi_software_exchange (H := sample_board) spi_world 2 sample_spidev sample_spi_bus true
    [0x9f; 0x00] (mkSlave false false false []) sample_software_spi eq_refl)
    as (d & evs & w' & E & _ & (_ & Hin) & _).
  exists d, evs, w'. split; [exact E|exact Hin].
Defined.
