(* ===== verification/I2cProps.v ===== *)
(** * Transactions on a software I2C bus

    A reference observer follows the two open-drain lines and recognises start
    and stop conditions and the bits that are valid while the clock is high.
    The functions of src/src/i2c_software.c produce well-formed transactions,
    also when the device does not acknowledge. *)
From S2P Require Import Prelude Devices World Sched Delays Command BaseCmd ObjFacts SpiCmds I2cCmds Firmware Sample BitBang.

(** ** The observer *)

Inductive i2c_sym : Set := I2cStart | I2cBit (b : bool) | I2cStop.

(** The levels the master lets the lines have, the bit sampled in the current
    clock pulse, and what was seen. *)
Record i2c_line : Set := mkLine {
  ln_scl : bool; ln_sda : bool; ln_bit : option bool; ln_seen : list i2c_sym
}.

(** The clock line: a bit is sampled when it rises and complete when it falls. *)
Definition line_scl (v : bool) (l : i2c_line) : i2c_line :=
  match ln_scl l, v with
  | false, true => mkLine true (ln_sda l) (Some (ln_sda l)) (ln_seen l)
  | true, false => mkLine false (ln_sda l) None
                     (match ln_bit l with Some b => ln_seen l ++ [I2cBit b] | None => ln_seen l end)
  | _, _ => l
  end.

(** The data line: a change while the clock is high is a start or a stop
    condition, and the clock pulse carries no bit. *)
Definition line_sda (v : bool) (l : i2c_line) : i2c_line :=
  match ln_scl l, ln_sda l, v with
  | true, true, false => mkLine true false None (ln_seen l ++ [I2cStart])
  | true, false, true => mkLine true true None (ln_seen l ++ [I2cStop])
  | true, _, _ => l
  | false, _, _ => mkLine false v (ln_bit l) (ln_seen l)
  end.

Definition line_step (scl sda : Z) (l : i2c_line) (e : hw_event) : i2c_line :=
  match e with
  | HwOutReset pin v =>
      if pin =? scl then line_scl (nonzero v) l
      else if pin =? sda then line_sda (nonzero v) l else l
  | HwInReset pin _ =>
      if pin =? scl then line_scl true l else if pin =? sda then line_sda true l else l
  | _ => l
  end.

Definition idle_line (seen : list i2c_sym) : i2c_line := mkLine true true None seen.
(** Between two clock pulses. *)
Definition low_line (sda : bool) (seen : list i2c_sym) : i2c_line := mkLine false sda None seen.

(** The bits of a byte and the bit for its acknowledgement. *)
Definition frame (b : Z) (ack : bool) : list i2c_sym := map I2cBit (bits_msb 8 b ++ [ack]).

(** ** What the functions do *)

Section I2c.
Context `{Board}.
Context (bus : i2c_software) (scl sda : Z).

(** The bus as it is configured, on a board whose clock advances. *)
Record software_i2c : Prop := {
  swi_scl_out : is_scl_out bus = scl; swi_scl_in : is_scl_in bus = scl;
  swi_sda_out : is_sda_out bus = sda; swi_sda_in : is_sda_in bus = sda;
  swi_pins : (sda =? scl) = false;
  swi_ticks : clock_live (is_ticks bus);
  swi_bits : forall n, is_bit (pin_reading n sda)
}.
Context (Hbus : software_i2c).

(** [m] takes the line from [l] to [l'] and reads the data pin [k] times. *)
Definition drives {A} (m : M A) (w : world) (k : nat) (l l' : i2c_line) (Q : A -> world -> Prop) : Prop :=
  exists evs, runs m w evs k Q /\ foldl (line_step scl sda) l evs = l'.

Lemma drives_ret {A} (a : A) w l (Q : A -> world -> Prop) : Q a w -> drives (mret a) w 0 l l Q.
Proof. intros HQ. exists []. split; [by apply runs_ret|done]. Qed.

Lemma drives_bind {A B} (m : M A) (f : A -> M B) w k1 k2 l l1 l2 Q1 Q2 :
  drives m w k1 l l1 Q1 ->
  (forall a w1, pin_reads w1 = (pin_reads w + k1)%nat -> Q1 a w1 -> drives (f a) w1 k2 l1 l2 Q2) ->
  drives (m ≫= f) w (k1 + k2) l l2 Q2.
Proof.
  intros (e1 & (a & w1 & E1 & Em1 & HQ1) & <-) Hf.
  destruct (Hf a w1 (emits_reads _ _ _ _ Em1) HQ1) as (e2 & (b & w2 & E2 & Em2 & HQ2) & <-).
  exists (e1 ++ e2). split; [|by rewrite foldl_app].
  exists b, w2. rewrite (bind_ok _ _ _ _ _ E1). eauto using emits_trans.
Qed.

Lemma drives_mono {A} (m : M A) w k l l1 l2 (Q1 Q2 : A -> world -> Prop) :
  l1 = l2 -> drives m w k l l1 Q1 -> (forall a w', Q1 a w' -> Q2 a w') -> drives m w k l l2 Q2.
Proof.
  intros -> (evs & Hr & E) HQ. exists evs. split; [|done]. eapply runs_mono; [done|]. auto.
Qed.

(** The commonest case: a step that reads nothing and returns nothing. *)
Lemma drives_seq {B} (m : M unit) (f : unit -> M B) w k l l1 l2 Q :
  (forall w, drives m w 0 l l1 any) ->
  (forall w1, pin_reads w1 = pin_reads w -> drives (f tt) w1 k l1 l2 Q) ->
  drives (m ≫= f) w k l l2 Q.
Proof.
  intros Hm Hf. apply (drives_bind _ _ _ 0 k _ l1 _ any); [done|]. intros [] w1 E _.
  apply Hf. lia.
Qed.

Lemma drives_delay w l : drives (i2c_delay (is_ticks bus)) w 0 l l any.
Proof.
  exists []. split; [|done]. unfold i2c_delay.
  apply (runs_bind _ _ _ [] 0 [] 0 _ _ (runs_read_time w)). intros now w1 _ Ha.
  apply (runs_spin _ _ (is_ticks bus)); [apply Hbus|apply Ha].
Qed.

Lemma drives_scl_release w l : drives (gpio_in_reset (is_scl_in bus) 1) w 0 l (line_scl true l) any.
Proof.
  eexists. split; [apply runs_hw|]. cbn. by rewrite (swi_scl_in Hbus), Z.eqb_refl.
Qed.
Lemma drives_scl_low w l : drives (gpio_out_reset (is_scl_out bus) 0) w 0 l (line_scl false l) any.
Proof.
  eexists. split; [apply runs_hw|]. cbn. by rewrite (swi_scl_out Hbus), Z.eqb_refl.
Qed.
Lemma drives_sda_release w l : drives (gpio_in_reset (is_sda_in bus) 1) w 0 l (line_sda true l) any.
Proof.
  eexists. split; [apply runs_hw|]. cbn. by rewrite (swi_sda_in Hbus), (swi_pins Hbus), Z.eqb_refl.
Qed.
Lemma drives_sda_low w l : drives (gpio_out_reset (is_sda_out bus) 0) w 0 l (line_sda false l) any.
Proof.
  eexists. split; [apply runs_hw|]. cbn. by rewrite (swi_sda_out Hbus), (swi_pins Hbus), Z.eqb_refl.
Qed.

Lemma drives_read w l :
  drives (gpio_in_read (is_sda_in bus)) w 1 l l (fun v _ => v = pin_reading (pin_reads w) sda).
Proof.
  exists []. split; [|done]. eapply runs_mono; [apply runs_in_read|]. cbn. intros v w1 _ ->.
  rewrite (swi_sda_in Hbus). by destruct (swi_bits Hbus (pin_reads w)) as [-> | ->].
Qed.

Lemma drives_when b m w l l' Q :
  drives m w 0 l l' Q -> (b = false -> l' = l) -> Q tt w -> drives (when b m) w 0 l l' Q.
Proof. intros Hm Hb HQ. destruct b; [done|]. rewrite Hb by done. by apply drives_ret. Qed.

(** One step at the head of a sequence. *)
Ltac line_step :=
  first
  [ apply drives_seq with (1 := fun w => drives_delay w _)
  | apply drives_seq with (1 := fun w => drives_scl_release w _)
  | apply drives_seq with (1 := fun w => drives_scl_low w _)
  | apply drives_seq with (1 := fun w => drives_sda_release w _)
  | apply drives_seq with (1 := fun w => drives_sda_low w _) ];
  intros ? ?; cbn beta.

(** The level of the data line after some bits. *)
Definition last_level (lvl : bool) (l : list bool) : bool := foldl (fun _ b => b) lvl l.

(** [state] tells the level, if it is known. *)
Definition state_ok (state : Z) (lvl : bool) : Prop :=
  state = 2 \/ state = b2z lvl.

Lemma send_bits_drive i : forall w b state seen lvl, (i <= 8)%nat -> state_ok state lvl ->
  drives (send_bits i bus b state) w 0 (low_line lvl seen)
    (low_line (last_level lvl (take i (bits_msb 8 b)))
       (seen ++ map I2cBit (take i (bits_msb 8 b))))
    (fun st _ => st = if i is O then state else b2z (last_level lvl (take i (bits_msb 8 b)))).
Proof.
  induction i as [|i IH]; intros w b state seen lvl Hi Hs.
  { rewrite take_0, app_nil_r. by apply drives_ret. }
  rewrite take_bits_shl by lia. cbn [send_bits]. rewrite flag_0x80. set (b7 := Z.testbit b 7).
  apply (drives_bind _ _ _ 0 0 _ (low_line b7 seen) _ (fun st _ => st = b2z b7)).
  { destruct b7.
    - apply (drives_bind _ _ _ 0 0 _ (low_line true seen) _ any); [|intros; by apply drives_ret].
      apply drives_when; [apply drives_sda_release|intros E|done].
      destruct Hs as [-> | ->]; [done|]. by destruct lvl.
    - apply (drives_bind _ _ _ 0 0 _ (low_line false seen) _ any); [|intros; by apply drives_ret].
      apply drives_when; [apply drives_sda_low|intros E|done].
      destruct Hs as [-> | ->]; [done|]. by destruct lvl. }
  intros st w1 _ ->. do 4 line_step.
  eapply drives_mono; [|apply (IH _ (u8 (Z.shiftl b 1)) (b2z b7) (seen ++ [I2cBit b7]) b7); [lia|by right]|].
  - cbn [map]. by rewrite <- app_assoc.
  - intros st w6 ->. by destruct i.
Qed.

Lemma read_ack_drive w state seen lvl : state = b2z lvl ->
  drives (i2c_software_read_ack bus state) w 1 (low_line lvl seen) (low_line true (seen ++ [I2cBit true]))
    (fun v _ => v = pin_reading (pin_reads w) sda).
Proof.
  intros ->. unfold i2c_software_read_ack.
  apply (drives_bind _ _ _ 0 1 _ (low_line true seen) _ any).
  { apply drives_when; [apply drives_sda_release| |done]. by destruct lvl. }
  intros _ w1 E1 _. line_step. line_step.
  eapply (drives_bind _ _ _ 1 0); [apply drives_read|]. intros v w4 _ ->. do 2 line_step. apply drives_ret.
  f_equal. lia.
Qed.

(** The reading that acknowledges a byte. *)
Definition acked (n : nat) : bool := pin_reading n sda =? 0.

Lemma send_byte_drive w b seen lvl :
  drives (i2c_software_send_byte bus b) w 1 (low_line lvl seen) (low_line true (seen ++ frame b true))
    (fun ret _ => ret = if acked (pin_reads w) then I2C_BUS_SUCCESS else I2C_BUS_NACK).
Proof.
  unfold i2c_software_send_byte.
  apply (drives_bind _ _ _ 0 1 _ _ _ _ _ (send_bits_drive 8 w b 2 seen lvl (le_n 8) (or_introl eq_refl))).
  intros st w1 E1 ->. eapply (drives_bind _ _ _ 1 0).
  { by apply read_ack_drive. }
  intros v w2 _ ->. rewrite <- app_assoc, (take_ge (bits_msb 8 b)) by (by rewrite length_bits_msb).
  unfold frame. rewrite map_app. apply drives_ret. unfold acked. rewrite E1, Nat.add_0_r. by destruct (_ =? _).
Qed.
(** A line from which a transaction can start. *)
Definition startable (l : i2c_line) : Prop := l = idle_line (ln_seen l) \/ l = low_line (ln_sda l) (ln_seen l).

Lemma start_drive w l addr : startable l ->
  drives (i2c_software_start bus addr) w 1 l (low_line true (ln_seen l ++ I2cStart :: frame addr true))
    (fun ret _ => ret = if acked (pin_reads w) then I2C_BUS_SUCCESS else I2C_BUS_START_NACK).
Proof.
  intros Hl. unfold i2c_software_start. do 7 line_step.
  assert (Hlow : line_scl false (line_sda false (line_scl true (line_sda true l)))
                 = low_line false (ln_seen l ++ [I2cStart])) by by destruct Hl as [-> | ->].
  rewrite Hlow. match goal with |- drives _ ?x 1 _ _ _ => assert (E : pin_reads x = pin_reads w) by congruence end.
  rewrite <- E. eapply (drives_bind _ _ _ 1 0); [apply send_byte_drive|].
  intros ret w8 _ ->. rewrite <- app_assoc. apply drives_ret. by destruct (acked _).
Qed.

Lemma stop_drive w lvl seen :
  drives (i2c_software_stop bus) w 0 (low_line lvl seen) (idle_line (seen ++ [I2cStop])) any.
Proof.
  unfold i2c_software_stop. do 4 line_step. apply drives_sda_release.
Qed.

(** The bytes that are sent when the first one is acknowledged by reading [n],
    and whether all are. *)
Fixpoint sent_until_nack (n : nat) (data : list Z) : list Z * bool :=
  match data with
  | [] => ([], true)
  | b :: data =>
      if acked n then let '(l, ok) := sent_until_nack (S n) data in (b :: l, ok) else ([b], false)
  end.

Definition frames (l : list Z) : list i2c_sym := concat (map (fun b => frame b true) l).

Lemma send_bytes_drive data : forall w seen lvl,
  drives (i2c_send_bytes bus data I2C_BUS_SUCCESS) w (length (sent_until_nack (pin_reads w) data).1)
    (low_line lvl seen)
    (low_line (if data is [] then lvl else true) (seen ++ frames (sent_until_nack (pin_reads w) data).1))
    (fun ret _ => ret = if (sent_until_nack (pin_reads w) data).2 then I2C_BUS_SUCCESS else I2C_BUS_NACK).
Proof.
  induction data as [|b data IH]; intros w seen lvl; cbn [sent_until_nack i2c_send_bytes].
  { unfold frames. cbn. rewrite app_nil_r. by apply drives_ret. }
  destruct (acked (pin_reads w)) eqn:Ha.
  - assert (Hk : length ((let '(l, ok) := sent_until_nack (S (pin_reads w)) data in (b :: l, ok)).1)
      = (1 + length (sent_until_nack (S (pin_reads w)) data).1)%nat) by by destruct (sent_until_nack _ _).
    rewrite Hk. eapply drives_bind; [apply send_byte_drive|]. rewrite Ha. intros ret w1 E1 ->. cbn [negb Z.eqb I2C_BUS_SUCCESS].
    rewrite Nat.add_1_r in E1. rewrite <- E1. eapply drives_mono; [|apply IH|].
    + destruct (sent_until_nack (pin_reads w1) data) as [l ok]. cbn [fst].
      change (frames (b :: l)) with (frame b true ++ frames l). rewrite app_assoc. by destruct data.
    + intros r w2 ->. by destruct (sent_until_nack (pin_reads w1) data).
  - cbn [fst snd length]. eapply (drives_bind _ _ _ 1 0); [apply send_byte_drive|]. rewrite Ha.
    intros ret w1 E1 ->. cbn [negb Z.eqb I2C_BUS_NACK I2C_BUS_SUCCESS Pos.eqb].
    change (frames [b]) with (frame b true ++ []). rewrite app_nil_r. by apply drives_ret.
Qed.

(** *** Reading *)

(** The bits of a byte that is read from reading [n] on. *)
Definition read_readings (n k : nat) : list Z := map (fun i => pin_reading i sda) (seq n k).

Lemma read_bits_drive i : forall w b seen,
  drives (read_bits i bus b) w i (low_line true seen) (low_line true (seen ++ replicate i (I2cBit true)))
    (fun r _ => r = shift_in 8 b (read_readings (pin_reads w) i)).
Proof.
  induction i as [|i IH]; intros w b seen; cbn [read_bits].
  { rewrite app_nil_r. by apply drives_ret. }
  do 3 line_step. eapply (drives_bind _ _ _ 1 i); [apply drives_read|]. intros v w4 E4 ->. line_step.
  eapply drives_mono; [|apply IH|].
  - cbn. by rewrite <- app_assoc.
  - intros r w6 ->. unfold read_readings. cbn [seq map shift_in foldl]. unfold u8.
    repeat match goal with E : pin_reads _ = _ |- _ => rewrite E; clear E end.
    by rewrite Nat.add_1_r.
Qed.

Lemma send_ack_drive w ack seen :
  drives (i2c_software_send_ack bus ack) w 0 (low_line true seen) (low_line ack (seen ++ [I2cBit ack])) any.
Proof.
  unfold i2c_software_send_ack.
  apply (drives_seq _ _ _ _ _ (low_line ack seen)).
  { intros w0. destruct ack; [by apply drives_ret|apply drives_sda_low]. }
  intros w1 _. do 3 line_step. apply drives_scl_low.
Qed.

Lemma read_byte_drive w remaining seen lvl :
  drives (i2c_software_read_byte bus remaining) w 8 (low_line lvl seen)
    (low_line (remaining =? 0) (seen ++ frame 0xff (remaining =? 0)))
    (fun r _ => r = shift_in 8 0 (read_readings (pin_reads w) 8)).
Proof.
  unfold i2c_software_read_byte. line_step.
  apply (drives_bind _ _ _ 8 0 _ _ _ _ _ (read_bits_drive 8 _ 0 seen)). intros b w2 E2 ->.
  apply (drives_bind _ _ _ 0 0 _ _ _ _ _ (send_ack_drive w2 _ _)). intros _ w3 _ _.
  rewrite <- app_assoc. apply drives_ret. congruence.
Qed.

(** The bytes of a buffer of length [len] that is read from reading [n] on. *)
Fixpoint read_data (n len : nat) : list Z :=
  match len with O => [] | S len => shift_in 8 0 (read_readings n 8) :: read_data (n + 8) len end.

(** While the master reads it leaves the data line released, and acknowledges
    every byte but the last. *)
Fixpoint read_frames (len : nat) : list i2c_sym :=
  match len with O => [] | S len => frame 0xff (len =? 0)%nat ++ read_frames len end.

Lemma read_bytes_drive len : forall w seen lvl,
  drives (i2c_read_bytes bus len) w (8 * len) (low_line lvl seen)
    (low_line (if len is O then lvl else true) (seen ++ read_frames len))
    (fun r _ => r = read_data (pin_reads w) len).
Proof.
  induction len as [|len IH]; intros w seen lvl; cbn [i2c_read_bytes read_frames read_data].
  { rewrite app_nil_r. by apply drives_ret. }
  replace (8 * S len)%nat with (8 + 8 * len)%nat by lia.
  eapply drives_bind; [apply read_byte_drive|]. intros b w1 E1 ->.
  rewrite <- (Nat.add_0_r (8 * len)). eapply drives_bind; [apply IH|]. intros rest w2 E2 ->.
  replace (if len is O then Z.of_nat len =? 0 else true) with true by by destruct len.
  assert (Hz : (Z.of_nat len =? 0) = (len =? 0)%nat) by by destruct len.
  rewrite <- app_assoc, Hz. apply drives_ret. by rewrite E1.
Qed.

(** ** Whole transactions *)

Definition nack_code (l : list Z) (ok : bool) : Z :=
  if ok then I2C_BUS_SUCCESS
  else match l with [_] => I2C_BUS_START_NACK | _ => I2C_BUS_NACK end.

(** The first phase of a transaction: the address and some bytes, as far as they
    are acknowledged. *)
Lemma phase_drive w l data : startable l ->
  let sent := sent_until_nack (pin_reads w) (is_addr bus :: data) in
  drives (ret ← i2c_software_start bus (is_addr bus);
          if negb (ret =? I2C_BUS_SUCCESS) then mret ret else i2c_send_bytes bus data ret)
    w (length sent.1) l (low_line true (ln_seen l ++ I2cStart :: frames sent.1))
    (fun ret _ => ret = nack_code sent.1 sent.2).
Proof.
  intros Hl. cbn zeta. cbn [sent_until_nack]. destruct (acked (pin_reads w)) eqn:Ha.
  - pose proof (fun w1 => send_bytes_drive data w1 (ln_seen l ++ I2cStart :: frame (is_addr bus) true) true) as Hb.
    destruct (sent_until_nack (S (pin_reads w)) data) as [sent ok] eqn:Es. cbn [fst snd length].
    eapply (drives_bind _ _ _ 1); [by apply start_drive|]. rewrite Ha. intros ret w1 E1 ->.
    cbn [negb Z.eqb I2C_BUS_SUCCESS]. rewrite Nat.add_1_r in E1. specialize (Hb w1).
    rewrite E1, Es in Hb. cbn [fst snd] in Hb. eapply drives_mono; [|exact Hb|].
    + change (frames (is_addr bus :: sent)) with (frame (is_addr bus) true ++ frames sent).
      rewrite <- app_assoc. by destruct data.
    + intros r w2 ->. unfold nack_code. destruct ok; [done|]. destruct sent; [|done].
      destruct data as [|b data]; [done|]. cbn [sent_until_nack] in Es.
      repeat case_match; simplify_eq.
  - cbn [fst snd length]. eapply (drives_bind _ _ _ 1 0); [by apply start_drive|]. rewrite Ha.
    intros ret w1 _ ->. cbn [negb Z.eqb I2C_BUS_START_NACK I2C_BUS_SUCCESS].
    change (frames [is_addr bus]) with (frame (is_addr bus) true ++ []). rewrite app_nil_r.
    by apply drives_ret.
Qed.

Lemma write_drive w seen data :
  let sent := sent_until_nack (pin_reads w) (is_addr bus :: data) in
  drives (i2c_software_write bus data) w (length sent.1) (idle_line seen)
    (idle_line (seen ++ I2cStart :: frames sent.1 ++ [I2cStop])) (fun ret _ => ret = nack_code sent.1 sent.2).
Proof.
  cbn zeta. set (sent := sent_until_nack _ _).
  assert (Hassoc : i2c_software_write bus data w =
    ((ret ← i2c_software_start bus (is_addr bus);
      if negb (ret =? I2C_BUS_SUCCESS) then mret ret else i2c_send_bytes bus data ret) ≫=
     (fun ret => i2c_software_stop bus ;; mret ret)) w).
  { unfold i2c_software_write, mbind, M_bind. destruct (i2c_software_start bus (is_addr bus) w); [|done..].
    by destruct (negb _). }
  unfold drives, runs. rewrite Hassoc. rewrite <- (Nat.add_0_r (length sent.1)).
  eapply drives_bind; [apply phase_drive; by left|]. intros ret w1 _ ->.
  apply (drives_bind _ _ _ 0 0 _ _ _ _ _ (stop_drive w1 _ _)). intros _ w2 _ _.
  cbn [ln_seen idle_line]. rewrite <- app_assoc. by apply drives_ret.
Qed.

(** The part of a read that writes the register, if the readings start at [n]:
    the readings used, the symbols and the result code. *)
Definition reg_phase (n : nat) (reg : list Z) : nat * list i2c_sym * Z :=
  match reg with
  | [] => (0%nat, [], I2C_BUS_SUCCESS)
  | _ => let sent := sent_until_nack n (is_addr bus :: reg) in
         (length sent.1, I2cStart :: frames sent.1, nack_code sent.1 sent.2)
  end.

(** What a read puts on the bus and returns: the symbols, the result code and
    the buffer. *)
Definition read_spec (n : nat) (reg init : list Z) : list i2c_sym * Z * list Z :=
  let '(k, syms, ret) := reg_phase n reg in
  if negb (ret =? I2C_BUS_SUCCESS) then (syms ++ [I2cStop], ret, init)
  else
    let syms := syms ++ I2cStart :: frame (Z.lor (is_addr bus) 0x01) true in
    if acked (n + k)
    then (syms ++ read_frames (length init) ++ [I2cStop], I2C_BUS_SUCCESS,
          read_data (S (n + k)) (length init))
    else (syms ++ [I2cStop], I2C_BUS_START_READ_NACK, init).

Lemma write_reg_drive w seen reg : exists l,
  drives (i2c_write_reg bus reg) w (reg_phase (pin_reads w) reg).1.1 (idle_line seen) l
    (fun ret _ => ret = (reg_phase (pin_reads w) reg).2) /\
  startable l /\ ln_seen l = seen ++ (reg_phase (pin_reads w) reg).1.2 /\
  ((reg_phase (pin_reads w) reg).2 <> I2C_BUS_SUCCESS -> l = low_line true (ln_seen l)).
Proof.
  destruct reg as [|b reg]; cbn [reg_phase i2c_write_reg fst snd].
  - exists (idle_line seen). split; [by apply drives_ret|]. split; [by left|]. rewrite app_nil_r. done.
  - eexists. split; [apply phase_drive; by left|]. split; [by right|]. done.
Qed.

(** The second phase of a read, from a line on which a start is possible. *)
Lemma read_phase_drive w l init : startable l ->
  let start := ln_seen l ++ I2cStart :: frame (Z.lor (is_addr bus) 0x01) true in
  drives (ret ← i2c_software_start bus (Z.lor (is_addr bus) 0x01);
          if negb (ret =? I2C_BUS_SUCCESS) then mret (I2C_BUS_START_READ_NACK, init)
          else data ← i2c_read_bytes bus (length init); mret (ret, data))
    w (if acked (pin_reads w) then 1 + 8 * length init else 1) l
    (low_line true (start ++ if acked (pin_reads w) then read_frames (length init) else []))
    (fun r _ => r = if acked (pin_reads w) then (I2C_BUS_SUCCESS, read_data (S (pin_reads w)) (length init))
                    else (I2C_BUS_START_READ_NACK, init)).
Proof.
  intros Hl. cbn zeta. destruct (acked (pin_reads w)) eqn:Ha.
  - eapply (drives_bind _ _ _ 1); [by apply start_drive|]. rewrite Ha. intros ret w1 E1 ->.
    cbn [negb Z.eqb I2C_BUS_SUCCESS]. rewrite <- (Nat.add_0_r (8 * length init)).
    eapply drives_bind; [apply read_bytes_drive|]. intros data w2 _ ->.
    rewrite E1, Nat.add_1_r. destruct (length init); by apply drives_ret.
  - eapply (drives_bind _ _ _ 1 0); [by apply start_drive|]. rewrite Ha. intros ret w1 E1 ->.
    cbn [negb Z.eqb I2C_BUS_START_NACK I2C_BUS_SUCCESS]. rewrite app_nil_r. by apply drives_ret.
Qed.

(** The end of a read: the stop condition. *)
Lemma finish_drive {A} (m : M A) w k l seen Q :
  drives m w k l (low_line true seen) Q ->
  drives (r ← m; i2c_software_stop bus ;; mret r) w k l (idle_line (seen ++ [I2cStop])) (fun r _ => exists w, Q r w).
Proof.
  intros Hm. rewrite <- (Nat.add_0_r k). eapply drives_bind; [exact Hm|]. intros r w1 _ HQ.
  apply (drives_bind _ _ _ 0 0 _ _ _ _ _ (stop_drive w1 _ _)). intros _ w2 _ _. apply drives_ret. eauto.
Qed.

Lemma read_drive w seen reg init : exists k,
  drives (i2c_software_read bus reg init) w k (idle_line seen)
    (idle_line (seen ++ (read_spec (pin_reads w) reg init).1.1))
    (fun r _ => r = ((read_spec (pin_reads w) reg init).1.2, (read_spec (pin_reads w) reg init).2)).
Proof.
  destruct (write_reg_drive w seen reg) as (l & Hreg & Hl & Hseen & Hlow). unfold read_spec.
  destruct (reg_phase (pin_reads w) reg) as [[k syms] ret]. cbn [fst snd] in *.
  unfold drives, runs, i2c_software_read. setoid_rewrite <- bind_assoc.
  destruct (Z.eqb_spec ret I2C_BUS_SUCCESS) as [->|Hret]; cbn [negb].
  - eexists. eapply drives_mono; [|apply (finish_drive _ w)|].
    2: { eapply drives_bind; [exact Hreg|]. intros r w1 E1 ->. cbn [negb Z.eqb I2C_BUS_SUCCESS].
         pose proof (read_phase_drive w1 l init Hl) as Hp. cbn zeta in Hp. rewrite E1 in Hp. exact Hp. }
    + rewrite Hseen. destruct (acked _); cbn [fst]; by rewrite <- !app_assoc, ?app_nil_l.
    + intros r w1 (w2 & ->). by destruct (acked _).
  - exists k. rewrite <- (Nat.add_0_r k). rewrite (Hlow Hret), Hseen in Hreg.
    eapply drives_mono; [|apply (finish_drive _ w)|].
    2: { eapply drives_bind; [exact Hreg|]. intros r w1 E1 ->. rewrite (proj2 (Z.eqb_neq _ _) Hret).
         cbn [negb]. by apply (drives_ret _ _ _ (fun r _ => r = (ret, init))). }
    + by rewrite <- app_assoc.
    + by intros r w1 (w2 & ->).
Qed.
End I2c.

(** C16: On a software I2C bus whose lines are idle, every transaction is well formed, leaves
    the lines idle and returns.  A write puts a start condition, the address, the bytes up
    to the first one that is not acknowledged, and a stop condition on the bus, and its
    result tells whether the address or a byte was refused.  A read writes the register in the same
    way, starts again with the read bit set, leaves the data line to the device, acknowledges every
    byte but the last, and stores the bits it has read; the buffer is unchanged if the device
    refused. *)
Theorem i2c_transactions `{Board} w i2c d bus scl sda seen data reg init :
  obj_at i2cdev_s w i2c = Some d -> id_bus d = IU_sw bus -> i2c_use_software d = true ->
  software_i2c bus scl sda ->
  (exists ret evs k w', i2c_dev_write i2c data w = Ok ret w' /\ emits evs k w w' /\
     let '(sent, ok) := sent_until_nack sda (pin_reads w) (is_addr bus :: data) in
     foldl (line_step scl sda) (idle_line seen) evs =
       idle_line (seen ++ I2cStart :: frames sent ++ [I2cStop]) /\
     ret = nack_code sent ok) /\
  (exists ret read evs k w', i2c_dev_read i2c reg init w = Ok (ret, read) w' /\ emits evs k w w' /\
     let '(syms, ret', read') := read_spec bus sda (pin_reads w) reg init in
     foldl (line_step scl sda) (idle_line seen) evs = idle_line (seen ++ syms) /\
     ret = ret' /\ read = read').
Proof.
  intros Hd Hb Hu Hsw. unfold i2c_dev_write, i2c_dev_read. rewrite !(run_get_obj _ _ _ _ Hd), Hu, Hb.
  split.
  - destruct (write_drive bus scl sda Hsw w seen data) as (evs & (r & w' & E & Em & ->) & Hl).
    destruct (sent_until_nack _ _ _) as [sent ok]. cbn [fst snd] in *. eauto 10.
  - destruct (read_drive bus scl sda Hsw w seen reg init) as (k & evs & (r & w' & E & Em & ->) & Hl).
    destruct (read_spec _ _ _ _ _) as [[syms ret] read]. cbn [fst snd] in *. eauto 12.
Qed.

(** A device (oid 1) on a bus of pins 20 and 21, which does not answer. *)
Definition i2c_world : world :=
  after_all [@alloc_init sample_board;
             @command_allocate_oids sample_board [4];
             @command_config_i2c sample_board [1];
             @command_i2c_set_sw_bus sample_board [1; 20; 21; 300; 0x68]].
Definition sample_i2cdev : i2cdev_s := default i2cdev_s_zero (obj_at i2cdev_s i2c_world 1).
Definition sample_i2c_bus : i2c_software := mkI2cSoftware 20 21 20 21 0xd0 300.

Lemma sample_software_i2c : software_i2c (H := sample_board) sample_i2c_bus 20 21.
Proof.
  constructor; [reflexivity..| |]; [by apply sample_clock_live|]. intros n. by right.
Qed.

Lemma i2c_transactions_witness : exists ret evs k w',
  i2c_dev_write (H := sample_board) 1 [0x75; 0x01] i2c_world = Ok ret w' /\ emits evs k i2c_world w' /\
  foldl (line_step 20 21) (idle_line []) evs =
    idle_line (I2cStart :: frames [0xd0] ++ [I2cStop]) /\
  ret = I2C_BUS_START_NACK.
Proof.
  destruct (i2c_transactions (H := sample_board) i2c_world 1 sample_i2cdev sample_i2c_bus 20 21 []
    [0x75; 0x01] [] [] (eq_refl _) (eq_refl _) (eq_refl _) sample_software_i2c)
    as [(ret & evs & k & w' & E & Em & Hs & Hr) _].
  exists ret, evs, k, w'. split; [exact E|]. split; [exact Em|]. split; [exact Hs|exact Hr].
Defined.
