(* ===== verification/BulkProps.v ===== *)
(** * Bulk reports keep every sample

    [BulkSensor] is what the sensors that collect single samples have in common:
    a buffer and a function that adds a sample to it.  Through this interface
    one theorem shows for all of them that the reports contain the samples, each
    once and in order. *)
From S2P Require Import Prelude Buffers Devices World Sched Command BaseCmd ObjFacts SpiCmds SensorBulk Accelerometers LoadCellAdc Ldc1612 SpiAngle Firmware Sample.

(** The bytes that wait in a buffer. *)
Definition pending (sb : sensor_bulk) : list Z := take (Z.to_nat (sb_data_count sb)) (sb_data sb).

(** Store a sample of [size] bytes and send the buffer if no other one fits. *)
Definition bulk_add (size : Z) (d : list Z) (sb : sensor_bulk) (oid : Z) : M sensor_bulk :=
  sb ← sb_store d sb;
  sb_flush_if_full size (sb_advance size sb) oid.

(** A buffer of whole samples with room for another one. *)
Record bulk_ok (size : Z) (sb : sensor_bulk) : Prop := {
  bk_data : length (sb_data sb) = 51%nat;
  bk_count : 0 <= sb_data_count sb;
  bk_room : sb_data_count sb + size <= SB_DATA_SIZE
}.

Class BulkSensor (T : Set) `{ObjType T} (sample : Type) := {
  bulk_of : T -> sensor_bulk;
  sample_size : Z;
  sample_bytes : sample -> list Z;
  add_sample : Z -> Z -> sample -> M unit;
  with_bulk : sensor_bulk -> T -> T;
  bulk_of_with : forall sb t, bulk_of (with_bulk sb t) = sb;
  sample_size_range : 0 < sample_size <= SB_DATA_SIZE;
  sample_bytes_length : forall x, Z.of_nat (length (sample_bytes x)) = sample_size;
  add_sample_spec : forall p oid x w t, obj_at T w p = Some t -> bulk_ok sample_size (bulk_of t) ->
    add_sample p oid x w =
      (sb ← bulk_add sample_size (sample_bytes x) (bulk_of t) oid;
       modify (put_obj p (with_bulk sb t))) w
}.

(** ** The reference: what is reported *)

Definition bulk_message (oid : Z) (r : Z * list Z) : message :=
  mkMsg "sensor_bulk_data oid=%c sequence=%hu data=%*s" [AInt oid; AInt r.1; ABytes r.2].

(** The sequence number, the waiting bytes and the reports so far. *)
Definition collect (size : Z) (st : Z * list Z * list (Z * list Z)) (d : list Z)
    : Z * list Z * list (Z * list Z) :=
  let '(seq, wait, out) := st in
  let wait := wait ++ d in
  if SB_DATA_SIZE <? Z.of_nat (length wait) + size then (u16 (seq + 1), [], out ++ [(seq, wait)])
  else (seq, wait, out).

Lemma length_pending size sb : bulk_ok size sb -> 0 < size ->
  Z.of_nat (length (pending sb)) = sb_data_count sb.
Proof.
  intros [Hl Hc Hr] Hs. unfold pending. rewrite length_take, Hl. unfold SB_DATA_SIZE in Hr. lia.
Qed.

Lemma bulk_add_run size d sb oid w : bulk_ok size sb -> Z.of_nat (length d) = size -> 0 < size ->
  in_sendf w = false ->
  let '(seq, wait, out) := collect size (sb_sequence sb, pending sb, []) d in
  exists sb', bulk_add size d sb oid w = Ok sb' (w <| sent := map (bulk_message oid) out ++ sent w |>) /\
    length (sb_data sb') = 51%nat /\ 0 <= sb_data_count sb' /\ pending sb' = wait /\ sb_sequence sb' = seq /\
    (size <= SB_DATA_SIZE -> bulk_ok size sb').
Proof.
  intros Hb Hd Hs Hin. pose proof (length_pending _ _ Hb Hs) as Hp. destruct Hb as [Hl Hc Hr].
  unfold collect, bulk_add, sb_store. rewrite Hd, (proj2 (Z.leb_le _ _) Hr).
  rewrite length_app, Nat2Z.inj_add, Hd, Hp.
  rewrite (bind_ok _ _ _ _ _ eq_refl). unfold sb_flush_if_full.
  unfold SB_DATA_SIZE in *.
  set (sb1 := sb_advance size _).
  assert (Hcount : sb_data_count sb1 = sb_data_count sb + size).
  { cbn. unfold u8. rewrite Z.mod_small; lia. }
  assert (Hdata : length (sb_data sb1) = 51%nat).
  { change (length (copy_to (Z.to_nat (sb_data_count sb)) d (sb_data sb)) = 51%nat).
    rewrite length_copy_to; lia. }
  assert (Hpend : pending sb1 = pending sb ++ d).
  { unfold pending. rewrite Hcount.
    change (sb_data sb1) with (copy_to (Z.to_nat (sb_data_count sb)) d (sb_data sb)).
    replace (Z.to_nat (sb_data_count sb + size)) with (Z.to_nat (sb_data_count sb) + length d)%nat by lia.
    apply take_copy_to. lia. }
  rewrite Hcount. destruct (Z.ltb_spec 51 (sb_data_count sb + size + size)).
  - exists (sb1 <| sb_data_count := 0 |> <| sb_sequence ::= fun s => u16 (s + 1) |>). split.
    + unfold sensor_bulk_report, sendf, command_sendf. fold (pending sb1). rewrite Hpend.
      unfold mbind, M_bind, gets. rewrite Hin. by destruct w; cbn in Hin; subst.
    + split; [done|]. split; [done|]. split; [done|]. split; [done|]. intros. by constructor.
  - exists sb1. split; [by destruct w|]. split; [done|]. split; [lia|]. split; [done|]. split; [done|].
    intros. constructor; unfold SB_DATA_SIZE; [done|lia..].
Qed.

(** ** The sensors *)

Lemma mod_put (T : Set) `{ObjType T} w p t f :
  obj_at T w p = Some t -> mod_obj T p f w = modify (put_obj p (f t)) w.
Proof. intros E. by rewrite (mod_obj_ok _ _ _ _ E). Qed.

Lemma flush_oids size sb oid w sb' w' :
  sb_flush_if_full size sb oid w = Ok sb' w' -> oids w' = oids w.
Proof.
  unfold sb_flush_if_full. case_match; [|by intros [= <- <-]].
  unfold sensor_bulk_report, sendf, command_sendf, mbind, M_bind, gets.
  destruct (in_sendf w); by intros [= <- <-].
Qed.

(** The shape that the sensors share. *)
Lemma add_sample_shape (T : Set) `{ObjType T} size d (get : T -> sensor_bulk)
    (put : sensor_bulk -> T -> T) p oid w t : obj_at T w p = Some t ->
  (t ← get_obj T p;
   sb ← sb_store d (get t);
   sb ← sb_flush_if_full size (sb_advance size sb) oid;
   mod_obj T p (put sb)) w =
  (sb ← bulk_add size d (get t) oid; modify (put_obj p (put sb t))) w.
Proof.
  intros Ht. rewrite (run_get_obj _ _ _ _ Ht). unfold bulk_add.
  rewrite bind_assoc. apply bind_ext. intros sb0 w0 E0.
  apply bind_ext. intros sb w1 E. apply mod_put.
  rewrite (obj_at_oids _ _ _ (flush_oids _ _ _ _ _ _ E)).
  unfold sb_store in E0. case_match; [|done]. by injection E0 as _ <-.
Qed.

#[export] Instance adxl345_bulk : BulkSensor adxl345 { d : list Z | length d = 5%nat }.
Proof.
  refine {| bulk_of := ax_sb; sample_size := 5; sample_bytes := proj1_sig;
            add_sample p oid x := adxl_add p oid (proj1_sig x);
            with_bulk sb ax := ax <| ax_sb := sb |> |}; [done|done| |].
  - intros [d Hd]. cbn. lia.
  - intros p oid x w t Ht _. by apply (add_sample_shape adxl345).
Defined.

#[export] Instance ads1220_bulk : BulkSensor ads1220_adc Z.
Proof.
  refine {| bulk_of := ad_sb; sample_size := 4; sample_bytes := bytes_of_u32;
            add_sample p oid x := ads1220_add_sample p oid x;
            with_bulk sb ad := ad <| ad_sb := sb |> |}; [done|done|done|].
  intros p oid x w t Ht _. by apply (add_sample_shape ads1220_adc).
Defined.

#[export] Instance hx71x_bulk : BulkSensor hx71x_adc Z.
Proof.
  refine {| bulk_of := hx_sb; sample_size := 4; sample_bytes := bytes_of_u32;
            add_sample p oid x := hx71x_add_sample p oid x false;
            with_bulk sb hx := hx <| hx_sb := sb |> |}; [done|done|done|].
  intros p oid x w t Ht _. rewrite <- (add_sample_shape hx71x_adc 4 _ hx_sb (fun sb hx => hx <| hx_sb := sb |>)) by done.
  unfold hx71x_add_sample. apply bind_ext. intros hx w1 _. apply bind_ext. intros sb w2 _.
  cbn zeta. unfold sb_flush_if_full. by rewrite orb_false_r.
Defined.

(** A buffer that is stored before it is checked. *)
Lemma flush_put (T : Set) `{ObjType T} size sb oid p (t : T) w :
  sb_flush_if_full size sb oid (put_obj p t w) =
  (r ← sb_flush_if_full size sb oid; modify (put_obj p t) ;; mret r) w.
Proof.
  unfold sb_flush_if_full. case_match; [|done].
  unfold sensor_bulk_report, sendf, command_sendf, mbind, M_bind, gets.
  change (in_sendf (put_obj p t w)) with (in_sendf w). by destruct (in_sendf w).
Qed.

Lemma stored_shape (T : Set) `{ObjType T} size (get : T -> sensor_bulk) (put : sensor_bulk -> T -> T)
    (g : sensor_bulk -> sensor_bulk) p oid w t sb :
  (forall sb t, get (put sb t) = sb) -> (forall sb sb' t, put sb' (put sb t) = put sb' t) ->
  obj_at T w p = Some t ->
  (t ← get_obj T p; sb ← sb_flush_if_full size (g (get t)) oid; mod_obj T p (put sb)) (put_obj p (put sb t) w) =
  (sb ← sb_flush_if_full size (g sb) oid; modify (put_obj p (put sb t))) w.
Proof.
  intros Hget Hput Ht. rewrite (run_get_obj _ _ _ _ (obj_at_put _ _ _ _ Ht)), Hget.
  unfold mbind at 1, M_bind at 1. rewrite flush_put. unfold mbind, M_bind.
  destruct (sb_flush_if_full size (g sb) oid w) as [sb' w'| |] eqn:E; [|done..]. cbn.
  assert (Ht' : obj_at T w' p = Some t) by (by rewrite (obj_at_oids _ _ _ (flush_oids _ _ _ _ _ _ E))).
  rewrite (mod_obj_ok _ _ _ _ (obj_at_put _ _ _ _ Ht')), Hput, put_put. done.
Qed.

(** The sample of an angle sensor: the time code and the angle. *)
#[export] Instance angle_bulk : BulkSensor spi_angle (Z * Z).
Proof.
  refine {| bulk_of := sa_sb; sample_size := 3;
            sample_bytes x := [u8 x.1; u8 x.2; u8 (Z.shiftr x.2 8)];
            add_sample p oid x := angle_add p x.1 x.2 ;; angle_check_report p oid;
            with_bulk sb sa := sa <| sa_sb := sb |> |}; [done|done|done|].
  intros p oid x w t Ht _. unfold angle_add. rewrite bind_assoc, (run_get_obj _ _ _ _ Ht).
  rewrite bind_assoc. unfold bulk_add. rewrite bind_assoc. apply bind_ext. intros sb w1 E1.
  assert (Ht1 : obj_at spi_angle w1 p = Some t).
  { unfold sb_store in E1. case_match; [|done]. by injection E1 as _ <-. }
  rewrite (run_mod_obj _ _ _ _ _ Ht1). by apply (stored_shape spi_angle _ sa_sb (fun sb sa => sa <| sa_sb := sb |>) (fun sb => sb)).
Defined.

#[export] Instance ldc1612_bulk : BulkSensor ldc1612 { d : list Z | length d = 4%nat }.
Proof.
  refine {| bulk_of := ld_sb; sample_size := 4; sample_bytes := proj1_sig;
            add_sample p oid x := ldc_store p 0 (proj1_sig x) ;; ldc_out p oid;
            with_bulk sb ld := ld <| ld_sb := sb |> |}; [done|done| |].
  - intros [d Hd]. cbn. lia.
  - intros p oid [d Hd] w t Ht Hb. cbn [proj1_sig]. unfold ldc_store, bulk_add, sb_store.
    rewrite bind_assoc, (run_get_obj _ _ _ _ Ht). cbn zeta. rewrite Nat.add_0_l.
    destruct (_ <=? _); [|done]. rewrite (run_mod_obj _ _ _ _ _ Ht). unfold ldc_out.
    exact (stored_shape ldc1612 4 ld_sb (fun sb ld => ld <| ld_sb := sb |>) (sb_advance 4) p oid w t
      ((ld_sb t) <| sb_data ::= copy_to (Z.to_nat (sb_data_count (ld_sb t))) d |>)
      (fun _ _ => eq_refl) (fun _ _ _ => eq_refl) Ht).
Defined.

(** ** Streams of samples *)

Section Stream.
Context {T : Set} {HO : ObjType T} {sample : Type} {HB : BulkSensor T sample}.

Fixpoint add_all (p oid : Z) (xs : list sample) : M unit :=
  match xs with [] => mret tt | x :: xs => add_sample p oid x ;; add_all p oid xs end.

Lemma add_sample_run p oid x w t : obj_at T w p = Some t -> bulk_ok sample_size (bulk_of t) ->
  in_sendf w = false ->
  let '(seq, wait, out) := collect sample_size (sb_sequence (bulk_of t), pending (bulk_of t), []) (sample_bytes x) in
  exists t' w', add_sample p oid x w = Ok tt w' /\ obj_at T w' p = Some t' /\ in_sendf w' = false /\
    sent w' = map (bulk_message oid) out ++ sent w /\ bulk_ok sample_size (bulk_of t') /\
    pending (bulk_of t') = wait /\ sb_sequence (bulk_of t') = seq.
Proof.
  intros Ht Hb Hin. pose proof (sample_bytes_length x) as Hd. pose proof sample_size_range as Hs.
  pose proof (bulk_add_run sample_size (sample_bytes x) (bulk_of t) oid w Hb Hd ltac:(lia) Hin) as Hr.
  destruct (collect _ _ _) as [[seq wait] out]. destruct Hr as (sb' & E & _ & _ & Hw & Hq & Hok).
  exists (with_bulk sb' t). eexists. rewrite (add_sample_spec _ _ _ _ _ Ht Hb), (bind_ok _ _ _ _ _ E).
  split; [done|]. rewrite bulk_of_with. split; [|split; [done|split; [done|split; [apply Hok; lia|done]]]].
  by apply (obj_at_put _ _ _ t).
Qed.

Lemma collect_out size ds : forall seq wait out,
  foldl (collect size) (seq, wait, out) ds =
  (let '(s, w, o) := foldl (collect size) (seq, wait, []) ds in (s, w, out ++ o)).
Proof.
  induction ds as [|d ds IH]; intros seq wait out; cbn [foldl]; [by rewrite app_nil_r|].
  unfold collect at 2 4. case_match.
  - rewrite IH, (IH _ _ ([] ++ _)). destruct (foldl _ _ _) as [[s w] o]. by rewrite <- app_assoc.
  - by rewrite IH.
Qed.

Lemma add_all_run p oid xs : forall w t, obj_at T w p = Some t -> bulk_ok sample_size (bulk_of t) ->
  in_sendf w = false ->
  let '(seq, wait, out) := foldl (collect sample_size) (sb_sequence (bulk_of t), pending (bulk_of t), [])
                             (map sample_bytes xs) in
  exists t' w', add_all p oid xs w = Ok tt w' /\ obj_at T w' p = Some t' /\
    sent w' = rev (map (bulk_message oid) out) ++ sent w /\ bulk_ok sample_size (bulk_of t') /\
    pending (bulk_of t') = wait /\ sb_sequence (bulk_of t') = seq.
Proof.
  induction xs as [|x xs IH]; intros w t Ht Hb Hin; cbn [map foldl add_all].
  { exists t, w. done. }
  pose proof (add_sample_run p oid x w t Ht Hb Hin) as Hx.
  assert (Hrev : forall st, rev (map (bulk_message oid) (collect sample_size (st, []) (sample_bytes x)).2) =
    map (bulk_message oid) (collect sample_size (st, []) (sample_bytes x)).2).
  { intros [s0 w0]. unfold collect. by destruct (_ <? _). }
  specialize (Hrev (sb_sequence (bulk_of t), pending (bulk_of t))).
  destruct (collect sample_size _ (sample_bytes x)) as [[seq wait] out]. cbn [snd] in Hrev.
  destruct Hx as (t1 & w1 & E1 & Ht1 & Hin1 & Hs1 & Hb1 & <- & <-).
  specialize (IH w1 t1 Ht1 Hb1 Hin1). rewrite collect_out.
  destruct (foldl (collect sample_size) _ _) as [[seq wait] out2].
  destruct IH as (t2 & w2 & E2 & Ht2 & Hs2 & Hb2 & Hw2 & Hq2). exists t2, w2.
  rewrite (bind_ok _ _ _ _ _ E1). split; [done|]. split; [done|]. split; [|done].
  by rewrite Hs2, Hs1, map_app, rev_app_distr, Hrev, app_assoc.
Qed.

(** *** What the reference reports *)

(** [out] reports bytes in full buffers under consecutive numbers from [seq] on. *)
Record reports_ok (size seq : Z) (out : list (Z * list Z)) : Prop := {
  ro_numbers : map fst out = map (fun i => u16 (seq + Z.of_nat i)) (List.seq 0 (length out));
  ro_full : Forall (fun r => Z.of_nat (length r.2) <= SB_DATA_SIZE /\
                             SB_DATA_SIZE < Z.of_nat (length r.2) + size /\
                             (size | Z.of_nat (length r.2))) out
}.

Lemma collect_reports size ds : 0 < size <= SB_DATA_SIZE ->
  Forall (fun d => Z.of_nat (length d) = size) ds -> forall seq wait,
  0 <= seq < 2 ^ 16 -> Z.of_nat (length wait) + size <= SB_DATA_SIZE -> (size | Z.of_nat (length wait)) ->
  let '(seq', wait', out) := foldl (collect size) (seq, wait, []) ds in
  reports_ok size seq out /\ concat (map snd out) ++ wait' = wait ++ concat ds /\
  Z.of_nat (length wait') + size <= SB_DATA_SIZE /\ (size | Z.of_nat (length wait')) /\
  seq' = u16 (seq + Z.of_nat (length out)).
Proof.
  intros Hs. induction ds as [|d ds IH]; intros Hds seq wait Hq Hw Hdiv; cbn [foldl concat].
  { rewrite app_nil_r. repeat split; [constructor|done..|]. unfold u16. rewrite Z.mod_small; cbn; lia. }
  apply Forall_cons in Hds as [Hd Hds]. unfold collect at 2.
  assert (Hdiv' : (size | Z.of_nat (length (wait ++ d)))).
  { rewrite length_app, Nat2Z.inj_add, Hd. by apply Z.divide_add_r; [|apply Z.divide_refl]. }
  assert (Hlen : Z.of_nat (length (wait ++ d)) <= SB_DATA_SIZE).
  { rewrite length_app, Nat2Z.inj_add, Hd. done. }
  destruct (Z.ltb_spec SB_DATA_SIZE (Z.of_nat (length (wait ++ d)) + size)) as [Hfull|Hroom].
  - rewrite collect_out. assert (Hq1 : 0 <= u16 (seq + 1) < 2 ^ 16) by (apply Z.mod_pos_bound; lia).
    specialize (IH Hds (u16 (seq + 1)) [] Hq1 ltac:(cbn; lia) ltac:(apply Z.divide_0_r)).
    destruct (foldl _ _ ds) as [[seq' wait'] out]. destruct IH as ([Hn Hf] & Hc & Hl & Hd' & Hseq).
    assert (Hshift : forall i, u16 (u16 (seq + 1) + i) = u16 (seq + (1 + i))).
    { intros i. unfold u16. rewrite Zplus_mod_idemp_l. f_equal. lia. }
    split; [constructor|split; [|split; [done|split; [done|]]]].
    + cbn [app map fst length List.seq]. rewrite Hn, <- seq_shift, map_map. f_equal.
      { unfold u16. rewrite Z.mod_small; cbn; lia. }
      apply map_ext. intros i. rewrite Hshift. f_equal. lia.
    + by constructor.
    + cbn [app map snd concat]. rewrite <- app_assoc, Hc, app_nil_l, app_assoc. done.
    + cbn [app length]. rewrite Hseq, Hshift. f_equal. lia.
  - specialize (IH Hds seq (wait ++ d) Hq Hroom Hdiv'). destruct (foldl _ _ ds) as [[seq' wait'] out].
    destruct IH as (? & Hc & ?). split; [done|]. split; [|done]. by rewrite Hc, app_assoc.
Qed.

(** C17: A sensor that collects single samples never loses, repeats or reorders one.  From an
    empty buffer, adding samples succeeds; the reports sent to the host carry consecutive 16 bit
    sequence numbers and whole samples only, each report is as full as the buffer allows, and
    the reported bytes followed by those still in the buffer are exactly the bytes of the samples in
    order.  This holds for every sensor with the interface [BulkSensor]: the ADXL345,
    ADS1220, HX71x, LDC1612 and the angle sensors. *)
Theorem bulk_stream w p oid t (xs : list sample) :
  obj_at T w p = Some t -> length (sb_data (bulk_of t)) = 51%nat -> sb_data_count (bulk_of t) = 0 ->
  0 <= sb_sequence (bulk_of t) < 2 ^ 16 -> in_sendf w = false ->
  exists out t' w', add_all p oid xs w = Ok tt w' /\ obj_at T w' p = Some t' /\
    sent w' = rev (map (bulk_message oid) out) ++ sent w /\
    reports_ok sample_size (sb_sequence (bulk_of t)) out /\
    concat (map snd out) ++ pending (bulk_of t') = concat (map sample_bytes xs) /\
    sb_data_count (bulk_of t') + sample_size <= SB_DATA_SIZE.
Proof.
  intros Ht Hl Hc Hq Hin. pose proof sample_size_range as Hs.
  assert (Hb : bulk_ok sample_size (bulk_of t)) by (constructor; [done|lia..]).
  pose proof (add_all_run p oid xs w t Ht Hb Hin) as Hr.
  assert (Hp : pending (bulk_of t) = []) by (unfold pending; by rewrite Hc). rewrite Hp in Hr.
  assert (Hds : Forall (fun d => Z.of_nat (length d) = sample_size) (map sample_bytes xs)).
  { apply Forall_map, Forall_forall. intros x _. apply sample_bytes_length. }
  pose proof (collect_reports sample_size _ Hs Hds (sb_sequence (bulk_of t)) [] Hq
    ltac:(cbn; lia) ltac:(apply Z.divide_0_r)) as Hout.
  destruct (foldl _ _ _) as [[seq wait] out]. destruct Hr as (t' & w' & E & Ht' & Hs' & Hb' & <- & _).
  destruct Hout as (Hro & Hcat & _). exists out, t', w'. split; [done|]. split; [done|]. split; [done|].
  split; [done|]. split; [by rewrite Hcat|]. apply Hb'.
Qed.
End Stream.

(** An HX71x converter (oid 3) that has been started. *)
Definition hx71x_world : world :=
  after_all [@alloc_init sample_board;
             @command_allocate_oids sample_board [4];
             @command_config_hx71x sample_board [3; 1; 5; 6];
             @command_query_hx71x sample_board [3; 10000]].
Definition sample_hx71x : hx71x_adc := default hx71x_adc_zero (obj_at hx71x_adc hx71x_world 3).

Lemma bulk_stream_witness : exists (out : list (Z * list Z)) t' w',
  add_all 3 3 (map Z.of_nat (List.seq 0 30)) hx71x_world = Ok tt w' /\
  obj_at hx71x_adc w' 3 = Some t' /\
  concat (map snd out) ++ pending (hx_sb t') = concat (map bytes_of_u32 (map Z.of_nat (List.seq 0 30))).
Proof.
  destruct (bulk_stream (T := hx71x_adc) (sample := Z) hx71x_world 3 3 sample_hx71x
    (map Z.of_nat (List.seq 0 30))) as (out & t' & w' & E & Ht & _ & _ & Hc & _);
    [vm_compute; reflexivity..|split; vm_compute; [discriminate|reflexivity]|vm_compute; reflexivity|].
  exists out, t', w'. split; [exact E|]. split; [exact Ht|exact Hc].
Defined.
