(* ===== verification/Typed.v ===== *)
(** * Typing of the object table

    Every slot of the table of object ids holds a structure of the type that the
    slot was allocated for, every pointer that one component keeps to another
    designates a slot of the right type, and the timers and signals embedded in
    an object have callbacks that expect this type.  [typed_step G] relates two
    states if the step keeps this, under the assumption that the slots in [G]
    have the given types; [typed_solve] establishes it for a handler. *)
From S2P Require Import Prelude Devices World Frames Sched BaseCmd.

(** ** The invariant *)

(** The configuration command whose structure an object is. *)
Definition obj_tag (o : obj) : otype :=
  match o with
  | O_stepper _ => command_config_stepper_t | O_trsync _ => command_config_trsync_t
  | O_endstop _ => command_config_endstop_t | O_digital_out _ => command_config_digital_out_t
  | O_pwm_out _ => command_config_pwm_out_t | O_analog_in _ => command_config_analog_in_t
  | O_buttons _ => command_config_buttons_t | O_counter _ => command_config_counter_t
  | O_tmcuart _ => command_config_tmcuart_t
  | O_spidev _ => command_config_spi_t | O_spidev_shutdown _ => command_config_spi_shutdown_t
  | O_i2cdev _ => command_config_i2c_t | O_adxl345 _ => command_config_adxl345_t
  | O_lis2dw _ => command_config_lis2dw_t | O_mpu9250 _ => command_config_mpu9250_t
  | O_icm20948 _ => command_config_icm20948_t | O_ldc1612 _ => command_config_ldc1612_t
  | O_spi_angle _ => command_config_spi_angle_t | O_ads1220_adc _ => command_config_ads1220_t
  | O_hx71x_adc _ => command_config_hx71x_t | O_thermocouple_spi _ => command_config_thermocouple_t
  | O_sos_filter _ => command_config_sos_filter_t
  | O_load_cell_probe _ => command_config_load_cell_probe_t
  | O_neopixel _ => command_config_neopixel_t | O_hd44780 _ => command_config_hd44780_t
  | O_st7920 _ => command_config_st7920_t | O_sdiodev _ => command_config_sdio_t
  end.

(** The pointers to other components that an object holds, and their types. *)
Definition ref (ty : otype) (p : option Z) : list (Z * otype) :=
  match p with Some q => [(q, ty)] | None => [] end.

Definition obj_refs (o : obj) : list (Z * otype) :=
  match o with
  | O_endstop e => ref command_config_trsync_t (es_ts e)
  | O_spidev_shutdown s => ref command_config_spi_t (sh_spi s)
  | O_adxl345 s => ref command_config_spi_t (ax_spi s)
  | O_lis2dw s =>
      ref (if li_bus_type s =? 0 then command_config_spi_t else command_config_i2c_t) (li_bus s)
  | O_mpu9250 s => ref command_config_i2c_t (mp_i2c s)
  | O_icm20948 s => ref command_config_i2c_t (ic_i2c s)
  | O_ldc1612 s => ref command_config_i2c_t (ld_i2c s) ++ ref command_config_trsync_t (ld_ts s)
  | O_spi_angle s => ref command_config_spi_t (sa_spi s)
  | O_ads1220_adc s =>
      ref command_config_spi_t (ad_spi s) ++ ref command_config_load_cell_probe_t (ad_lce s)
  | O_hx71x_adc s => ref command_config_load_cell_probe_t (hx_lce s)
  | O_thermocouple_spi s => ref command_config_spi_t (th_spi s)
  | O_load_cell_probe s =>
      ref command_config_trsync_t (lce_ts s) ++ ref command_config_sos_filter_t (lce_sf s)
  | _ => []
  end.

(** Slot [q] of a table is of type [ty]. *)
Definition has_type (l : list oid_s) (r : Z * otype) : Prop :=
  exists o, l !! Z.to_nat r.1 = Some o /\ o_type o = Some r.2.

Definition slot_ok (l : list oid_s) (o : oid_s) : Prop :=
  match o_data o with
  | Some d => o_type o = Some (obj_tag d) /\ Forall (has_type l) (obj_refs d)
  | None => True
  end.

(** The structure that a timer callback finds around its timer. *)
Definition callback_type (f : timer_func) : option otype :=
  match f with
  | FN_periodic_event | FN_sentinel_event | FN_deleted_event => None
  | FN_stepper_event_full => Some command_config_stepper_t
  | FN_trsync_report_event | FN_trsync_expire_event => Some command_config_trsync_t
  | FN_endstop_event | FN_endstop_oversample_event => Some command_config_endstop_t
  | FN_digital_toggle_event | FN_digital_load_event => Some command_config_digital_out_t
  | FN_pwm_event | FN_pwm_end_event => Some command_config_pwm_out_t
  | FN_analog_in_event => Some command_config_analog_in_t
  | FN_buttons_event => Some command_config_buttons_t
  | FN_counter_event => Some command_config_counter_t
  | FN_tmcuart_read_event | FN_tmcuart_read_sync_event | FN_tmcuart_send_finish_event
  | FN_tmcuart_send_event | FN_tmcuart_send_sync_event => Some command_config_tmcuart_t
  | FN_adxl345_event => Some command_config_adxl345_t
  | FN_lis2dw_event => Some command_config_lis2dw_t
  | FN_mpu9250_event => Some command_config_mpu9250_t
  | FN_icm20948_event => Some command_config_icm20948_t
  | FN_ldc1612_event => Some command_config_ldc1612_t
  | FN_angle_event => Some command_config_spi_angle_t
  | FN_ads1220_event => Some command_config_ads1220_t
  | FN_hx71x_event => Some command_config_hx71x_t
  | FN_thermocouple_event => Some command_config_thermocouple_t
  | FN_watchdog_event => Some command_config_load_cell_probe_t
  end.

(** The structure that holds a signal with this function. *)
Definition signal_type (f : signal_func) : otype :=
  match f with SIG_stepper_stop => command_config_stepper_t end.

Definition table (w : world) : list oid_s := default [] (oids w).

(** The object in slot [p]. *)
Definition object (w : world) (p : Z) (d : obj) : Prop :=
  0 <= p /\ exists o, table w !! Z.to_nat p = Some o /\ o_data o = Some d.

Record typed (w : world) : Prop := {
  ty_count : Z.of_nat (length (table w)) = oid_count w;
  ty_slots : Forall (slot_ok (table w)) (table w);
  ty_timers : forall p k d f, object w p d -> 0 <= k <= 1 ->
    func (tmr w (TObj p k)) = Some f -> callback_type f = Some (obj_tag d);
  ty_signals : forall p d f, object w p d ->
    sg_func (sgn w p) = Some f -> signal_type f = obj_tag d
}.

(** ** Steps that keep it *)

(** A state change that keeps the types, and one that may also discard all
    objects. *)
Definition typed_step (G : list (Z * otype)) (w w' : world) : Prop :=
  typed w -> Forall (has_type (table w)) G ->
  typed w' /\ forall r, has_type (table w) r -> has_type (table w') r.

Definition typed_keep (w w' : world) : Prop := typed w -> typed w'.

#[export] Instance typed_step_preorder G : PreOrder (typed_step G).
Proof.
  split.
  - intros w Ht _. auto.
  - intros w1 w2 w3 H12 H23 Ht HG. destruct (H12 Ht HG) as [Ht2 Hk2].
    assert (HG2 : Forall (has_type (table w2)) G) by by eapply Forall_impl.
    destruct (H23 Ht2 HG2). auto.
Qed.

#[export] Instance typed_keep_preorder : PreOrder typed_keep.
Proof. split; [by intros w Ht|]. intros w1 w2 w3 H12 H23 Ht. auto. Qed.

Lemma typed_step_keep {A} (m : M A) : Keeps (typed_step []) m -> Keeps typed_keep m.
Proof. intros Hm w w' Ho Ht. by apply (Hm w w' Ho). Qed.

(** A handler that does not use the assumptions. *)
Lemma typed_step_weaken {A} G (m : M A) : Keeps (typed_step []) m -> Keeps (typed_step G) m.
Proof. intros Hm w w' Ho Ht _. by apply (Hm w w' Ho). Qed.

(** Same table; callbacks and signal functions unchanged or of the right type. *)
Lemma typed_step_table G w w' :
  oids w' = oids w -> oid_count w' = oid_count w ->
  (typed w -> Forall (has_type (table w)) G -> forall p k d f, object w p d ->
    func (tmr w' (TObj p k)) = Some f ->
    func (tmr w (TObj p k)) = Some f \/ callback_type f = Some (obj_tag d)) ->
  (typed w -> Forall (has_type (table w)) G -> forall p d f, object w p d ->
    sg_func (sgn w' p) = Some f -> sg_func (sgn w p) = Some f \/ signal_type f = obj_tag d) ->
  typed_step G w w'.
Proof.
  intros E1 E2 Htm Hsg Ht HG. pose proof Ht as [Hc Hs Ht0 Hg0].
  assert (E : table w' = table w) by (unfold table; by rewrite E1).
  assert (Eo : forall p d, object w' p d -> object w p d) by (unfold object; by rewrite E).
  split; [constructor|].
  - rewrite E, E2. done.
  - by rewrite E.
  - intros p k d f Hp%Eo Hk Hf. destruct (Htm Ht HG p k d f Hp Hf) as [Hf'|]; [|done]. eauto.
  - intros p d f Hp%Eo Hf. destruct (Hsg Ht HG p d f Hp Hf) as [Hf'|]; [|done]. eauto.
  - by rewrite E.
Qed.

(** Anything outside the table, the timers and the signals. *)
Lemma typed_step_same G w w' :
  oids w' = oids w -> oid_count w' = oid_count w -> timers w' = timers w -> signals w' = signals w ->
  typed_step G w w'.
Proof.
  intros E1 E2 E3 E4. apply typed_step_table; [done|done| |].
  - intros _ _ p k d f _. unfold tmr. rewrite E3. auto.
  - intros _ _ p d f _. unfold sgn. rewrite E4. auto.
Qed.

(** *** Timers and signals *)

(** The object in a slot of known type. *)
Lemma object_type w p d ty : typed w -> object w p d -> has_type (table w) (p, ty) -> obj_tag d = ty.
Proof.
  intros [_ Hs _ _] (_ & o & Ho & Hd) (o' & Ho' & Hty). cbn in *. simplify_eq.
  rewrite Forall_lookup in Hs. specialize (Hs _ _ Ho). unfold slot_ok in Hs. rewrite Hd in Hs.
  destruct Hs as [Hs _]. congruence.
Qed.

Lemma mod_timer_typed G t f :
  (forall x, func (f x) = func x) -> Keeps (typed_step G) (mod_timer t f).
Proof.
  intros Hf. apply keeps_modify. intros w. apply typed_step_table; [done..| |by auto].
  intros _ _ p k d g _. rewrite tmr_upd. case_decide as E; [|by auto]. rewrite Hf, E. auto.
Qed.

Lemma mod_func_typed G p k f g ty :
  (forall x, func (f x) = Some g) -> callback_type g = Some ty -> In (p, ty) G ->
  Keeps (typed_step G) (mod_timer (TObj p k) f).
Proof.
  intros Hf Hg Hin. apply keeps_modify. intros w. apply typed_step_table; [done..| |by auto].
  intros Ht HG q k' d f' Hq. rewrite tmr_upd. case_decide as E; [|by auto]. simplify_eq.
  rewrite Hf. intros [= <-]. right. rewrite Hg. f_equal. symmetry. eapply object_type; [done..|].
  rewrite Forall_forall in HG. by apply HG, list_elem_of_In.
Qed.

Lemma sgn_upd w p x q :
  sgn (w <| signals := <[p := x]> (signals w) |>) q = if decide (p = q) then x else sgn w q.
Proof. unfold sgn. cbn. rewrite lookup_insert. by case_decide. Qed.

Lemma mod_signal_typed G p f :
  (forall x, sg_func (f x) = sg_func x \/ sg_func (f x) = None) -> Keeps (typed_step G) (mod_signal p f).
Proof.
  intros Hf. apply keeps_modify. intros w. apply typed_step_table; [done..|by auto|].
  intros _ _ q d g _. rewrite sgn_upd. case_decide as E; [|by auto]. subst q.
  destruct (Hf (sgn w p)) as [->| ->]; [auto|done].
Qed.

Lemma mod_signal_func_typed G p f g :
  (forall x, sg_func (f x) = Some g) -> In (p, signal_type g) G -> Keeps (typed_step G) (mod_signal p f).
Proof.
  intros Hf Hin. apply keeps_modify. intros w. apply typed_step_table; [done..|by auto|].
  intros Ht HG q d g' Hq. rewrite sgn_upd. case_decide as E; [|by auto]. subst q.
  rewrite Hf. intros [= <-]. right. symmetry. eapply object_type; [done..|].
  rewrite Forall_forall in HG. by apply HG, list_elem_of_In.
Qed.

(** *** Changing an object *)

Lemma has_type_alter l i f r :
  (forall o, l !! i = Some o -> o_type o = o_type (f o) \/ o_type o = None) ->
  has_type l r -> has_type (alter f i l) r.
Proof.
  intros Hf (o & Ho & Hr). unfold has_type. destruct (decide (i = Z.to_nat r.1)) as [->|Hn].
  - exists (f o). rewrite list_lookup_alter_eq, Ho. split; [done|].
    destruct (Hf o Ho) as [E|E]; congruence.
  - exists o. by rewrite list_lookup_alter_ne.
Qed.

Lemma slot_ok_table l l' o : (forall r, has_type l r -> has_type l' r) -> slot_ok l o -> slot_ok l' o.
Proof.
  intros Hk. unfold slot_ok. destruct (o_data o); [|done]. intros [? Hr]. split; [done|].
  by eapply Forall_impl.
Qed.

Lemma table_set i f w : table (set_oid_slot i f w) = alter f (Z.to_nat i) (table w).
Proof. unfold table, set_oid_slot. cbn. by destruct (oids w). Qed.

Lemma object_set i f w p d :
  object (set_oid_slot i f w) p d ->
  object w p d \/
  Z.to_nat i = Z.to_nat p /\ exists o, table w !! Z.to_nat i = Some o /\ o_data (f o) = Some d.
Proof.
  intros (Hp & o & Ho & Hd). rewrite table_set in Ho. destruct (decide (Z.to_nat i = Z.to_nat p)) as [E|E].
  - rewrite <- E, list_lookup_alter_eq in Ho. apply fmap_Some in Ho as (o0 & H0 & ->). right.
    eauto.
  - rewrite list_lookup_alter_ne in Ho by done. left. split; [done|]. eauto.
Qed.

(** Replacing the contents of a slot; [Hnew] is about an object that was not there
    before, or was of another type. *)
Lemma typed_alter G w i f :
  (forall o, table w !! Z.to_nat i = Some o -> o_type o = o_type (f o) \/ o_type o = None) ->
  (forall o, table w !! Z.to_nat i = Some o -> typed w -> Forall (has_type (table w)) G ->
     slot_ok (table (set_oid_slot i f w)) (f o)) ->
  (forall o d, table w !! Z.to_nat i = Some o -> o_data (f o) = Some d -> typed w ->
     (exists d0, o_data o = Some d0 /\ obj_tag d0 = obj_tag d) \/
     0 <= i /\ sg_func (sgn w i) = None /\ forall k, 0 <= k <= 1 -> func (tmr w (TObj i k)) = None) ->
  typed_step G w (set_oid_slot i f w).
Proof.
  intros Hf Hok Hnew Ht HG. pose proof Ht as [Hc Hs Htm Hsg]. unfold typed_step.
  assert (Hk : forall r, has_type (table w) r -> has_type (table (set_oid_slot i f w)) r).
  { intros r Hr. rewrite table_set. by apply has_type_alter. }
  assert (Hob : forall p d, object (set_oid_slot i f w) p d ->
    (exists d0, object w p d0 /\ obj_tag d0 = obj_tag d) \/
    p = i /\ sg_func (sgn w i) = None /\ forall k, 0 <= k <= 1 -> func (tmr w (TObj i k)) = None).
  { intros p d Hp. pose proof Hp as (Hp0 & _). apply object_set in Hp as [Hp|(Hpi & o & Ho & Hd)]; [eauto|].
    destruct (Hnew o d Ho Hd Ht) as [(d0 & Hd0 & E)|(Hi & ? & ?)].
    - left. exists d0. split; [|done]. split; [done|]. exists o. split; [|done].
      by rewrite <- Hpi.
    - right. split; [lia|done]. }
  split; [|done]. constructor.
  - by rewrite table_set, length_alter.
  - apply Forall_lookup. intros j o Hj. rewrite Forall_lookup in Hs.
    pose proof Hj as Hj'. rewrite table_set in Hj'. destruct (decide (Z.to_nat i = j)) as [<-|Hn].
    + rewrite list_lookup_alter_eq in Hj'. apply fmap_Some in Hj' as (o0 & H0 & ->). by apply Hok.
    + rewrite list_lookup_alter_ne in Hj' by done. eapply slot_ok_table; eauto.
  - intros p k d g Hp Hk0 Hg. change (func (tmr w (TObj p k)) = Some g) in Hg.
    destruct (Hob p d Hp) as [(d0 & Hd0 & <-)|(-> & _ & E)]; [eauto|]. rewrite E in Hg by done. done.
  - intros p d g Hp Hg. change (sg_func (sgn w p) = Some g) in Hg.
    destruct (Hob p d Hp) as [(d0 & Hd0 & <-)|(-> & E & _)]; [eauto|]. by rewrite E in Hg.
Qed.

(** A structure that is told apart by its type. *)
Class TaggedObj (T : Set) `{ObjType T} : Prop :=
  of_obj_inj : forall o t, of_obj o = Some t -> o = to_obj t.

Lemma obj_at_slot (T : Set) `{TaggedObj T} w p t :
  obj_at T w p = Some t -> exists o, table w !! Z.to_nat p = Some o /\ o_data o = Some (to_obj t).
Proof.
  unfold obj_at, oid_slot, table. destruct (oids w) as [l|]; [|done]. cbn.
  destruct (l !! Z.to_nat p) as [o|]; [|done]. destruct (o_data o) as [d|] eqn:Hd; [|done].
  intros ->%of_obj_inj. eauto.
Qed.

Lemma mod_obj_typed G (T : Set) `{TaggedObj T} p f :
  (forall t, obj_tag (to_obj (f t)) = obj_tag (to_obj t)) ->
  (forall t, incl (obj_refs (to_obj (f t))) (obj_refs (to_obj t) ++ G)) ->
  Keeps (typed_step G) (mod_obj T p f).
Proof.
  intros Htag Hrefs w w'. unfold mod_obj. destruct (obj_at T w p) as [t|] eqn:E; [|done]. intros [= <-].
  apply obj_at_slot in E as (o1 & Ho1 & Hd1); [|done].
  apply typed_alter; [by auto|..]; intros o; rewrite Ho1; [intros [= <-]|intros ? [= <-]].
  - intros Ht HG. pose proof (proj1 (Forall_lookup _ _) (ty_slots _ Ht) _ _ Ho1) as Hok.
    unfold slot_ok in *. rewrite Hd1 in Hok. cbn -[table set_oid_slot obj_refs]. destruct Hok as [-> Hr]. split; [by rewrite Htag|].
    apply Forall_forall. intros r Hin. rewrite table_set. apply has_type_alter; [by auto|].
    apply list_elem_of_In, Hrefs, in_app_or in Hin.
    rewrite Forall_forall in Hr. rewrite Forall_forall in HG.
    destruct Hin as [Hin|Hin]; apply list_elem_of_In in Hin; auto.
  - cbn. intros [= <-] _. left. exists (to_obj t). by rewrite Htag.
Qed.

(** Reading an object gives its type and those of its pointers. *)
Lemma get_bind_typed {A} G (T : Set) `{TaggedObj T} p (f : T -> M A) :
  (forall t, Keeps (typed_step ((p, obj_tag (to_obj t)) :: obj_refs (to_obj t) ++ G)) (f t)) ->
  Keeps (typed_step G) (get_obj T p ≫= f).
Proof.
  intros Hf w w'. unfold mbind, M_bind, get_obj. destruct (obj_at T w p) as [t|] eqn:E; [|done].
  intros Ho Ht HG. apply obj_at_slot in E as (o1 & Ho1 & Hd1); [|done].
  pose proof (proj1 (Forall_lookup _ _) (ty_slots _ Ht) _ _ Ho1) as Hok.
  unfold slot_ok in Hok. rewrite Hd1 in Hok. destruct Hok as [Hty Hr].
  apply (Hf t w w' Ho Ht). constructor; [by exists o1|]. by apply Forall_app.
Qed.

(** *** Finding an object *)

Lemma lookup_has_type w oid ty p w' :
  oid_lookup oid ty w = Ok p w' -> w' = w /\ has_type (table w) (p, ty).
Proof.
  unfold oid_lookup, oid_slot. munfold. cbn -[u8]. unfold has_type, table.
  destruct (oids w) as [l|]; cbn -[u8]; [|by case_match].
  destruct (l !! Z.to_nat (u8 oid)) as [o|] eqn:E; [|by case_match].
  destruct (_ || negb (bool_decide (o_type o = Some ty))) eqn:Hb; [done|]. intros [= <- <-].
  apply orb_false_iff in Hb as [_ Hb%negb_false_iff%bool_decide_eq_true]. eauto.
Qed.

Lemma lookup_bind_typed {A} G oid ty (f : Z -> M A) :
  (forall p, Keeps (typed_step ((p, ty) :: G)) (f p)) -> Keeps (typed_step G) (oid_lookup oid ty ≫= f).
Proof.
  intros Hf w w'. unfold mbind, M_bind. destruct (oid_lookup oid ty w) as [p w1|r w1|] eqn:E; [| |done].
  - apply lookup_has_type in E as [-> Hp]. intros Ho Ht HG. apply (Hf p w w' Ho Ht). by constructor.
  - intros [= <-]. assert (w1 = w) as ->; [|by apply typed_step_preorder].
    unfold oid_lookup in E. munfold. revert E. munfold. cbn -[u8].
    repeat case_match; intros; simplify_eq; done.
Qed.

(** *** A new object *)

Lemma typed_set_type w i ty o :
  table w !! Z.to_nat i = Some o -> o_type o = None ->
  typed_step [] w (set_oid_slot i (fun o => o <| o_type := Some ty |>) w) /\
  (typed w -> o_data o = None).
Proof.
  intros Ho Hn.
  assert (Hd : typed w -> o_data o = None).
  { intros Ht. pose proof (proj1 (Forall_lookup _ _) (ty_slots _ Ht) _ _ Ho) as Hok.
    unfold slot_ok in Hok. destruct (o_data o); [|done]. destruct Hok. congruence. }
  split; [|done]. apply typed_alter; intros o'; rewrite Ho; [intros [= <-]; auto..|intros d [= <-]].
  - intros Ht _. unfold slot_ok. cbn. by rewrite (Hd Ht).
  - cbn. intros Hd' Ht. rewrite (Hd Ht) in Hd'. done.
Qed.

Lemma typed_set_data w i zero o :
  0 <= i -> table w !! Z.to_nat i = Some o -> o_type o = Some (obj_tag zero) -> obj_refs zero = [] ->
  typed_step [] w (set_oid_slot i (fun o => o <| o_data := Some zero |>) (clear_embedded i w)).
Proof.
  intros Hi Ho Hty Hr. transitivity (clear_embedded i w).
  { apply typed_step_table; [done|done| |].
    - intros _ _ p k d f _. unfold tmr, clear_embedded. cbn.
      destruct (decide (TObj i 0 = TObj p k)) as [<-|]; [by rewrite lookup_delete_eq|].
      rewrite lookup_delete_ne by done.
      destruct (decide (TObj i 1 = TObj p k)) as [<-|]; [by rewrite lookup_delete_eq|].
      rewrite lookup_delete_ne by done. auto.
    - intros _ _ p d f _. unfold sgn, clear_embedded. cbn.
      destruct (decide (i = p)) as [<-|]; [by rewrite lookup_delete_eq|].
      rewrite lookup_delete_ne by done. auto. }
  apply typed_alter; [by auto|..]; change (table (clear_embedded i w)) with (table w); intros o'; rewrite Ho.
  - intros [= <-] _ _. unfold slot_ok. cbn. by rewrite Hr.
  - intros d [= <-]. cbn. intros [= <-] _. right. split; [done|].
    unfold sgn, tmr, clear_embedded. cbn. rewrite lookup_delete_eq. split; [done|].
    intros k Hk. assert (k = 0 \/ k = 1) as [-> | ->] by lia; [by rewrite lookup_delete_eq|].
    rewrite lookup_delete_ne by done. by rewrite lookup_delete_eq.
Qed.

Lemma alloc_chunk_oids `{Board} size w w' :
  out_world (alloc_chunk size w) = Some w' -> oids w' = oids w.
Proof. unfold alloc_chunk. munfold. case_match; by intros [= <-]. Qed.

Lemma alloc_chunk_typed `{Board} G size : Keeps (typed_step G) (alloc_chunk size).
Proof. unfold alloc_chunk. frame_solve; by apply typed_step_same. Qed.

(** Allocation leaves the slot with its type; a failure leaves it without data. *)
Lemma oid_alloc_typed `{Board} G oid zero size w :
  obj_refs zero = [] ->
  match oid_alloc oid (obj_tag zero) size zero w with
  | Ok p w' => typed_step G w w' /\ has_type (table w') (p, obj_tag zero)
  | Shut _ w' => typed_step G w w'
  | Fault => True
  end.
Proof.
  intros Hr. unfold oid_alloc. unfold mbind, M_bind, gets at 1. cbn zeta. unfold id.
  set (i := u8 oid). assert (Hi : 0 <= i) by apply u8_range.
  destruct (oid_count w <=? i); [cbn; reflexivity|].
  unfold deref at 1, oid_slot. destruct (oids w) as [l|] eqn:El; [|done].
  destruct (l !! Z.to_nat i) as [o|] eqn:Eo; [|done]. unfold mret, M_ret.
  destruct (negb _ || _) eqn:Hb; [cbn; reflexivity|].
  apply orb_false_iff in Hb as [Hb%negb_false_iff%bool_decide_eq_true _].
  assert (Ho : table w !! Z.to_nat i = Some o) by (unfold table; by rewrite El).
  destruct (typed_set_type w i (obj_tag zero) o Ho Hb) as [Hs1 _].
  unfold modify at 1. set (w1 := set_oid_slot i _ w) in *.
  assert (Hs2 : forall w2, out_world (alloc_chunk size w1) = Some w2 -> typed_step [] w w2).
  { intros w2 Ec. transitivity w1; [done|]. by apply (alloc_chunk_typed [] size). }
  pose proof (alloc_chunk_oids size w1) as E2.
  destruct (alloc_chunk size w1) as [a w2|r w2|]; [| |done]; specialize (Hs2 w2 eq_refl).
  2: { intros Ht _. by apply Hs2. }
  specialize (E2 w2 eq_refl).
  assert (Ho2 : table w2 !! Z.to_nat i = Some (o <| o_type := Some (obj_tag zero) |>)).
  { unfold table. rewrite E2. fold (table w1). unfold w1. by rewrite table_set, list_lookup_alter_eq, Ho. }
  unfold modify. split.
  - intros Ht _. destruct (Hs2 Ht (Forall_nil_2 _)) as [Ht2 Hk2].
    destruct (typed_set_data w2 i zero _ Hi Ho2 eq_refl Hr Ht2 (Forall_nil_2 _)). auto.
  - eexists. rewrite table_set. change (table (clear_embedded i w2)) with (table w2). cbn [fst snd].
    by rewrite list_lookup_alter_eq, Ho2.
Qed.

Lemma alloc_bind_typed `{Board} {A} G oid ty zero size (f : Z -> M A) :
  obj_tag zero = ty -> obj_refs zero = [] ->
  (forall p, Keeps (typed_step ((p, ty) :: G)) (f p)) ->
  Keeps (typed_step G) (oid_alloc oid ty size zero ≫= f).
Proof.
  intros <- Hr Hf w w'. pose proof (oid_alloc_typed G oid zero size w Hr) as Ha. unfold mbind, M_bind.
  destruct (oid_alloc oid _ size zero w) as [p w1|r w1|]; [|by intros [= <-]|done].
  destruct Ha as [Hs Hp]. intros Ho Ht HG. destruct (Hs Ht HG) as [Ht1 Hk1].
  destruct (Hf p w1 w' Ho Ht1) as [Ht2 Hk2]; [|by auto].
  constructor; [done|]. by eapply Forall_impl.
Qed.

(** *** The table itself *)

Lemma typed_empty w : table w = [] -> oid_count w = 0 -> typed w.
Proof.
  intros E Hc. constructor; rewrite ?E, ?Hc; [done|done|..]; unfold object; rewrite E; naive_solver.
Qed.

Lemma command_allocate_oids_typed `{Board} G args :
  Keeps (typed_step G) (command_allocate_oids args).
Proof.
  intros w w'. unfold command_allocate_oids. unfold mbind at 1, M_bind at 1, gets at 1.
  destruct (oids w) as [l|] eqn:E; cbn [bool_decide negb]; [by intros [= <-]|]. rewrite bool_decide_eq_true_2 by done.
  cbn [negb]. unfold mbind, M_bind. pose proof (alloc_chunk_typed G (sizeof_oid_s * u8 (arg args 0)) w) as Ha.
  pose proof (alloc_chunk_oids (sizeof_oid_s * u8 (arg args 0)) w) as Eo.
  destruct (alloc_chunk _ w) as [a w1|r w1|]; [|by auto|done]. specialize (Eo w1 eq_refl).
  unfold modify. intros [= <-] _ _. split.
  - constructor; unfold table; cbn -[u8].
    + rewrite length_replicate. pose proof (u8_range (arg args 0)). lia.
    + apply Forall_replicate. unfold slot_ok. done.
    + intros p k d f (_ & o & Ho & Hd). unfold table in Ho. cbn -[u8] in Ho.
      apply lookup_replicate in Ho as [-> _]. done.
    + intros p d f (_ & o & Ho & Hd). unfold table in Ho. cbn -[u8] in Ho.
      apply lookup_replicate in Ho as [-> _]. done.
  - intros r (o & Ho & _). unfold table in Ho. by rewrite E in Ho.
Qed.

(** ** Automation *)

(** [In] and [incl] of assumption lists that are known in part. *)
Ltac in_solve :=
  lazymatch goal with
  | |- In _ (_ :: _) => first [left; reflexivity | right; in_solve]
  | |- In _ (_ ++ _) => apply in_or_app; first [left; in_solve | right; in_solve]
  end.

Ltac incl_skip :=
  first
  [ exact (incl_refl _)
  | apply incl_nil_l
  | lazymatch goal with
    | |- incl _ (_ ++ _) => first [apply incl_appl; exact (incl_refl _) | apply incl_appr; incl_skip]
    | |- incl _ (_ :: _) => apply incl_tl; incl_skip
    end ].

Ltac incl_solve :=
  first
  [ apply incl_appl; exact (incl_refl _)
  | incl_skip
  | cbn [obj_refs to_obj]; cbn; repeat first [apply incl_app | apply incl_cons];
    first
    [ in_solve
    | incl_skip
    | apply incl_appl, incl_appl; exact (incl_refl _)
    | apply incl_appl, incl_appr; exact (incl_refl _) ] ].

Ltac head_of m := lazymatch m with ?f _ => head_of f | _ => m end.

(** One memory access or call of a handler; [auto] finds the lemmas on the
    routines that contain loops. *)
Ltac typed_step_tac :=
  lazymatch goal with
  | |- Keeps _ (mret _) => apply keeps_ret; exact _
  | |- Keeps _ (gets _) => apply keeps_gets; exact _
  | |- Keeps _ (shutdown _) => apply keeps_shutdown; exact _
  | |- Keeps _ fault => apply keeps_fault
  | |- Keeps _ (deref _) => apply keeps_deref; exact _
  | |- Keeps _ (get_obj _ _) => apply keeps_get_obj; exact _
  | |- Keeps _ (when _ _) => apply keeps_when; [exact _|]
  | |- Keeps _ (match ?x with _ => _ end) => destruct x
  | |- Keeps _ (modify _) => apply keeps_modify; intro; apply typed_step_same; first [reflexivity | case_match; reflexivity]
  | |- Keeps _ (mod_obj _ _ _) =>
      first [ solve [auto 1 with typed]
            | apply mod_obj_typed; [exact _|intros; reflexivity|intros; incl_solve] ]
  | |- Keeps _ (mod_timer _ _) =>
      first [ apply mod_timer_typed; intros; reflexivity
            | eapply mod_func_typed; [intros; reflexivity|reflexivity|in_solve] ]
  | |- Keeps _ (mod_signal _ _) =>
      first [ apply mod_signal_typed; intros; first [left; reflexivity|right; reflexivity]
            | eapply mod_signal_func_typed; [intros; reflexivity|in_solve] ]
  | |- Keeps _ (oid_lookup _ _ ≫= _) => apply lookup_bind_typed; intro
  | |- Keeps _ (oid_alloc _ _ _ _ ≫= _) => apply alloc_bind_typed; [reflexivity|reflexivity|intro]
  | |- Keeps _ (get_obj _ _ ≫= _) => apply get_bind_typed; [exact _|intro]
  | |- Keeps ?R (?m ≫= ?f) =>
      let h := head_of m in
      first
      [ let m' := eval cbv beta delta [h] in m in
        lazymatch m' with oid_lookup _ _ => change (Keeps R (m' ≫= f)) end
      | apply keeps_bind; [exact _| |intro] ]
  | |- Keeps _ ?m => first [ solve [auto 2 with typed] | let h := head_of m in unfold h ]
  end.
Ltac typed_solve := intros; cbn beta; repeat (typed_step_tac; cbn beta).

Create HintDb typed.

(** ** The structures *)

Ltac tagged := intros o t; destruct o; cbn; by intros [= ->].

#[export] Instance stepper_tagged : TaggedObj stepper. Proof. tagged. Qed.
#[export] Instance trsync_tagged : TaggedObj trsync. Proof. tagged. Qed.
#[export] Instance endstop_tagged : TaggedObj endstop. Proof. tagged. Qed.
#[export] Instance digital_out_s_tagged : TaggedObj digital_out_s. Proof. tagged. Qed.
#[export] Instance pwm_out_s_tagged : TaggedObj pwm_out_s. Proof. tagged. Qed.
#[export] Instance analog_in_tagged : TaggedObj analog_in. Proof. tagged. Qed.
#[export] Instance buttons_tagged : TaggedObj buttons. Proof. tagged. Qed.
#[export] Instance counter_tagged : TaggedObj counter. Proof. tagged. Qed.
#[export] Instance tmcuart_s_tagged : TaggedObj tmcuart_s. Proof. tagged. Qed.
#[export] Instance spidev_s_tagged : TaggedObj spidev_s. Proof. tagged. Qed.
#[export] Instance spidev_shutdown_s_tagged : TaggedObj spidev_shutdown_s. Proof. tagged. Qed.
#[export] Instance i2cdev_s_tagged : TaggedObj i2cdev_s. Proof. tagged. Qed.
#[export] Instance adxl345_tagged : TaggedObj adxl345. Proof. tagged. Qed.
#[export] Instance lis2dw_tagged : TaggedObj lis2dw. Proof. tagged. Qed.
#[export] Instance mpu9250_tagged : TaggedObj mpu9250. Proof. tagged. Qed.
#[export] Instance icm20948_tagged : TaggedObj icm20948. Proof. tagged. Qed.
#[export] Instance ldc1612_tagged : TaggedObj ldc1612. Proof. tagged. Qed.
#[export] Instance spi_angle_tagged : TaggedObj spi_angle. Proof. tagged. Qed.
#[export] Instance ads1220_adc_tagged : TaggedObj ads1220_adc. Proof. tagged. Qed.
#[export] Instance hx71x_adc_tagged : TaggedObj hx71x_adc. Proof. tagged. Qed.
#[export] Instance thermocouple_spi_tagged : TaggedObj thermocouple_spi. Proof. tagged. Qed.
#[export] Instance sos_filter_tagged : TaggedObj sos_filter. Proof. tagged. Qed.
#[export] Instance load_cell_probe_tagged : TaggedObj load_cell_probe. Proof. tagged. Qed.
#[export] Instance neopixel_s_tagged : TaggedObj neopixel_s. Proof. tagged. Qed.
#[export] Instance hd44780_tagged : TaggedObj hd44780. Proof. tagged. Qed.
#[export] Instance st7920_tagged : TaggedObj st7920. Proof. tagged. Qed.
#[export] Instance sdiodev_s_tagged : TaggedObj sdiodev_s. Proof. tagged. Qed.
