(* ===== verification/TypeSafety.v ===== *)
(** * Type safety of the firmware

    Every command, task, timer callback and shutdown function keeps the typing
    of the object table that Typed.v defines, hence it holds in every state that
    the firmware reaches. *)
From S2P Require Import Prelude Protocol Devices World Frames Sched Delays Command BaseCmd Trsync Stepper Endstop GpioCmds PwmCmds Inputs Tmcuart SpiCmds I2cCmds SensorBulk Accelerometers SosFilter LoadCellProbe LoadCellAdc Thermocouple Ldc1612 SpiAngle Displays MiscCmds Firmware Sample DispatchProps Typed.

Section TypeSafety.
Context `{Board}.

(** ** The board and the scheduler *)

Lemma timer_read_time_typed G : Keeps (typed_step G) timer_read_time.
Proof. intros w w' [= <-]. by apply typed_step_same. Qed.
Lemma gpio_in_read_typed G pin : Keeps (typed_step G) (gpio_in_read pin).
Proof. intros w w' [= <-]. by apply typed_step_same. Qed.
Lemma gpio_adc_sample_typed G pin : Keeps (typed_step G) (gpio_adc_sample pin).
Proof. intros w w' [= <-]. by apply typed_step_same. Qed.
Lemma gpio_adc_read_typed G pin : Keeps (typed_step G) (gpio_adc_read pin).
Proof. intros w w' [= <-]. by apply typed_step_same. Qed.
Lemma next_io_typed G : Keeps (typed_step G) next_io.
Proof. intros w w' [= <-]. by apply typed_step_same. Qed.
#[local] Hint Resolve timer_read_time_typed gpio_in_read_typed gpio_adc_sample_typed
  gpio_adc_read_typed next_io_typed : typed.

Lemma insert_timer_loop_typed G fuel : forall pos t wk, Keeps (typed_step G) (insert_timer_loop fuel pos t wk).
Proof. revert G. induction fuel; cbn; typed_solve. Qed.
Lemma del_timer_loop_typed G fuel : forall pos del, Keeps (typed_step G) (del_timer_loop fuel pos del).
Proof. revert G. induction fuel; cbn; typed_solve. Qed.
Lemma wait_until_typed G fuel : forall nxt diff, Keeps (typed_step G) (wait_until fuel nxt diff).
Proof. revert G. induction fuel; cbn; typed_solve. Qed.
Lemma spin_until_typed G fuel : forall t, Keeps (typed_step G) (spin_until fuel t).
Proof. revert G. induction fuel; cbn; typed_solve. Qed.
#[local] Hint Resolve insert_timer_loop_typed del_timer_loop_typed wait_until_typed spin_until_typed : typed.

(** ** Basic commands *)

Lemma move_reset_loop_typed G n : forall i ml sz, Keeps (typed_step G) (move_reset_loop n i ml sz).
Proof. revert G. induction n; cbn; typed_solve. Qed.
Lemma oid_next_loop_typed G fuel : forall oid ty, Keeps (typed_step G) (oid_next_loop fuel oid ty).
Proof. revert G. induction fuel; cbn; typed_solve. Qed.
#[local] Hint Resolve move_reset_loop_typed oid_next_loop_typed command_allocate_oids_typed
  alloc_chunk_typed : typed.

Lemma foreach_typed G ty body :
  (forall p, Keeps (typed_step G) (body p)) -> Keeps (typed_step G) (foreach_oid ty body).
Proof. intros Hb. unfold foreach_oid. generalize (u8 (-1)). generalize 257%nat.
  intros n. induction n; cbn [foreach_loop]; typed_solve.
Qed.
#[local] Hint Extern 1 (Keeps _ (foreach_oid _ _)) => (apply foreach_typed; typed_solve) : typed.

Lemma config_reset_typed args : Keeps typed_keep (config_reset args).
Proof.
  unfold config_reset. apply keeps_bind; [exact _|apply typed_step_keep; typed_solve|]. intros shut.
  case_match; [apply typed_step_keep; typed_solve|]. apply keeps_bind; [exact _| |].
  - apply keeps_modify. intros w _. by apply typed_empty.
  - intros _. apply typed_step_keep. typed_solve.
Qed.

(** ** Components *)

Lemma clear_signals_loop_typed G fuel : forall tss, Keeps (typed_step G) (clear_signals_loop fuel tss).
Proof. revert G. induction fuel; intros []; cbn; typed_solve. Qed.
#[local] Hint Resolve clear_signals_loop_typed : typed.

Lemma drain_moves_typed G fuel : forall p, Keeps (typed_step G) (drain_moves fuel p).
Proof. revert G. induction fuel; cbn; typed_solve. Qed.
#[local] Hint Resolve drain_moves_typed : typed.

Lemma dispatch_signals_typed G fuel : forall ts reason,
  Keeps (typed_step G) (dispatch_signals run_signal fuel ts reason).
Proof. revert G. induction fuel; cbn; typed_solve. Qed.
#[local] Hint Resolve dispatch_signals_typed : typed.

Lemma read_pins_typed G pins : forall bit status, Keeps (typed_step G) (read_pins pins bit status).
Proof. revert G. induction pins; cbn; typed_solve. Qed.
Lemma send_scan_typed G fuel : forall t line pos next, Keeps (typed_step G) (send_scan fuel t line pos next).
Proof. revert G. induction fuel; cbn; typed_solve. Qed.
Lemma spi_bits_phase1_typed G i : forall ss t1 t2 o b e, Keeps (typed_step G) (spi_bits_phase1 i ss t1 t2 o b e).
Proof. revert G. induction i; cbn; typed_solve. Qed.
Lemma spi_bits_phase0_typed G i : forall ss t1 t2 o b e, Keeps (typed_step G) (spi_bits_phase0 i ss t1 t2 o b e).
Proof. revert G. induction i; cbn; typed_solve. Qed.
#[local] Hint Resolve read_pins_typed send_scan_typed spi_bits_phase1_typed spi_bits_phase0_typed : typed.
Lemma spi_software_bytes_typed G data : forall ss r t1 t2 e,
  Keeps (typed_step G) (spi_software_bytes ss r t1 t2 e data).
Proof. revert G. induction data; cbn [spi_software_bytes]; typed_solve. Qed.
Lemma send_bits_typed G i : forall sw b st, Keeps (typed_step G) (send_bits i sw b st).
Proof. revert G. induction i; cbn; typed_solve. Qed.
Lemma read_bits_typed G i : forall sw b, Keeps (typed_step G) (read_bits i sw b).
Proof. revert G. induction i; cbn; typed_solve. Qed.
#[local] Hint Resolve spi_software_bytes_typed send_bits_typed read_bits_typed : typed.
Lemma i2c_send_bytes_typed G data : forall sw ret, Keeps (typed_step G) (i2c_send_bytes sw data ret).
Proof. revert G. induction data; cbn [i2c_send_bytes]; typed_solve. Qed.
Lemma i2c_read_bytes_typed G n : forall sw, Keeps (typed_step G) (i2c_read_bytes sw n).
Proof. revert G. induction n; cbn [i2c_read_bytes]; typed_solve. Qed.
Lemma sosfilt_loop_typed G n : forall p idx v, Keeps (typed_step G) (sosfilt_loop n p idx v).
Proof. revert G. induction n; cbn [sosfilt_loop]; typed_solve. Qed.
#[local] Hint Resolve i2c_send_bytes_typed i2c_read_bytes_typed sosfilt_loop_typed : typed.

Lemma update_fifo_status_typed G p st : Keeps (typed_step G) (mod_obj lis2dw p (update_fifo_status st)).
Proof.
  apply mod_obj_typed; [exact _|done|]. intros t. apply incl_appl. unfold update_fifo_status.
  destruct (flag st 0x40); apply incl_refl.
Qed.
#[local] Hint Resolve update_fifo_status_typed : typed.

(** ** Timer callbacks *)

Lemma stepper_event_typed G p : Keeps (typed_step G) (stepper_event p).
Proof. typed_solve. Qed.
#[local] Hint Resolve stepper_event_typed : typed.

Lemma call_typed G f t : Keeps (typed_step G) (call f t).
Proof. destruct f, t; typed_solve. Qed.
#[local] Hint Resolve call_typed : typed.

Lemma timer_dispatch_typed G : Keeps (typed_step G) timer_dispatch.
Proof. typed_solve. Qed.
#[local] Hint Resolve timer_dispatch_typed : typed.

Lemma dispatch_many_typed G fuel : Keeps (typed_step G) (timer_dispatch_many call inline_stepper_event fuel).
Proof.
  unfold timer_dispatch_many. typed_solve. revert a. induction fuel; cbn [dispatch_many_loop]; typed_solve.
Qed.
#[local] Hint Resolve dispatch_many_typed : typed.

(** The timer interrupts that run while interrupts are enabled. *)
Fixpoint interrupts (fuels : list nat) : M unit :=
  match fuels with
  | [] => mret tt
  | fuel :: fuels => timer_dispatch_many call inline_stepper_event fuel ;; interrupts fuels
  end.

Lemma interrupts_typed G irqs : Keeps (typed_step G) (interrupts irqs).
Proof. induction irqs; cbn [interrupts]; typed_solve. Qed.

(** ** Tasks and commands *)

Section Poll.
Context (irqs : list nat).
Local Notation irq_poll := (interrupts irqs).
#[local] Hint Resolve interrupts_typed : typed.

Lemma poll_until_typed G fuel : forall t, Keeps (typed_step G) (poll_until irq_poll fuel t).
Proof. revert G. induction fuel; cbn [poll_until]; typed_solve. Qed.
Lemma poll_elapsed_typed G fuel : forall last ticks, Keeps (typed_step G) (poll_elapsed irq_poll fuel last ticks).
Proof. revert G. induction fuel; cbn [poll_elapsed]; typed_solve. Qed.
#[local] Hint Resolve poll_until_typed poll_elapsed_typed : typed.
Lemma raw_read_loop_typed G n : forall d s b, Keeps (typed_step G) (raw_read_loop irq_poll n d s b).
Proof. revert G. induction n; cbn [raw_read_loop]; typed_solve. Qed.
Lemma udelay_loop_typed G fuel : forall t, Keeps (typed_step G) (udelay_loop irq_poll fuel t).
Proof. revert G. induction fuel; cbn [udelay_loop]; typed_solve. Qed.
Lemma report_overflows_typed G n : forall p oid, Keeps (typed_step G) (report_overflows n p oid).
Proof. revert G. induction n; cbn [report_overflows]; typed_solve. Qed.
Lemma neopixel_delay_loop_typed G fuel : forall s t, Keeps (typed_step G) (neopixel_delay_loop fuel s t).
Proof. revert G. induction fuel; cbn [neopixel_delay_loop]; typed_solve. Qed.
#[local] Hint Resolve raw_read_loop_typed udelay_loop_typed report_overflows_typed
  neopixel_delay_loop_typed : typed.
Lemma send_bits_loop_typed G n : forall p b l m, Keeps (typed_step G) (send_bits_loop n p b l m).
Proof. revert G. induction n; cbn [send_bits_loop]; typed_solve. Qed.
#[local] Hint Resolve send_bits_loop_typed : typed.
Lemma send_bytes_loop_typed G data : forall p l m, Keeps (typed_step G) (send_bytes_loop data p l m).
Proof. revert G. induction data; cbn [send_bytes_loop]; typed_solve. Qed.
Lemma hd44780_xmit_loop_typed G data : forall p l c, Keeps (typed_step G) (hd44780_xmit_loop irq_poll p data l c).
Proof. revert G. induction data; cbn [hd44780_xmit_loop]; typed_solve. Qed.
Lemma xmit_bits_typed G n : forall sclk sid data, Keeps (typed_step G) (xmit_bits irq_poll n sclk sid data).
Proof. revert G. induction n; cbn [xmit_bits]; typed_solve. Qed.
#[local] Hint Resolve send_bytes_loop_typed hd44780_xmit_loop_typed xmit_bits_typed : typed.
Lemma st7920_xmit_loop_typed G data : forall p l c, Keeps (typed_step G) (st7920_xmit_loop irq_poll p data l c).
Proof. revert G. induction data; cbn [st7920_xmit_loop]; typed_solve. Qed.
Lemma setup_pins_typed G pins : Keeps (typed_step G) (setup_pins pins).
Proof. revert G. induction pins as [|[]]; cbn [setup_pins]; typed_solve. Qed.
#[local] Hint Resolve st7920_xmit_loop_typed setup_pins_typed : typed.

(** The functions declared with [DECL_TASK] in the modelled files, apart from the
    consoles. *)
Definition firmware_tasks : list (M unit) :=
  [timer_task; analog_in_task; buttons_task; counter_task; tmcuart_task; trsync_task; adxl345_task;
   lis2dw_task; mpu9250_task; icm20948_task; ldc1612_task run_signal; spi_angle_task irq_poll;
   ads1220_capture_task run_signal; hx71x_capture_task irq_poll run_signal; thermocouple_task].

Lemma firmware_tasks_typed : Forall (Keeps (typed_step [])) firmware_tasks.
Proof. unfold firmware_tasks. repeat (apply Forall_cons_2; [typed_solve|]). apply Forall_nil_2. Qed.

(** The commands of the modelled files other than [config_reset]; [buf] is the
    message block that a command with a byte string argument reads from. *)
Definition firmware_commands (buf : list Z) : list (list Z -> M unit) :=
  [command_allocate_oids; command_get_config; command_finalize_config; command_get_clock;
   command_get_uptime; command_emergency_stop; command_clear_shutdown; command_identify;
   command_debug_ping buf; command_debug_nop;
   command_config_stepper; command_queue_step; command_set_next_step_dir; command_reset_step_clock;
   command_stepper_get_position; command_stepper_stop_on_trigger;
   command_config_trsync; command_trsync_start; command_trsync_set_timeout;
   command_trsync_trigger run_signal;
   command_config_endstop; command_endstop_home; command_endstop_query_state;
   command_config_digital_out; command_set_digital_out_pwm_cycle; command_queue_digital_out;
   command_update_digital_out; command_set_digital_out;
   command_config_pwm_out; command_queue_pwm_out; command_set_pwm_out;
   command_config_analog_in; command_query_analog_in;
   command_config_buttons; command_buttons_add; command_buttons_query; command_buttons_ack;
   command_config_counter; command_query_counter;
   command_config_tmcuart; command_tmcuart_send buf;
   command_config_spi; command_config_spi_without_cs; command_spi_set_bus; command_spi_set_sw_bus;
   command_spi_transfer buf; command_spi_send buf; command_config_spi_shutdown buf;
   command_config_i2c; command_i2c_set_bus; command_i2c_set_sw_bus; command_i2c_write buf;
   command_i2c_read buf;
   command_config_adxl345; command_query_adxl345; command_query_adxl345_status;
   command_config_lis2dw; command_query_lis2dw; command_query_lis2dw_status;
   command_config_mpu9250; command_query_mpu9250; command_query_mpu9250_status;
   command_config_icm20948; command_query_icm20948; command_query_icm20948_status;
   command_config_ldc1612; command_config_ldc1612_with_intb; command_ldc1612_setup_home;
   command_query_ldc1612_home_state; command_query_ldc1612; command_query_status_ldc1612;
   command_config_spi_angle; command_query_spi_angle; command_spi_angle_transfer irq_poll buf;
   command_config_ads1220; command_query_ads1220; command_query_ads1220_status;
   ads1220_attach_load_cell_probe;
   command_config_hx71x; command_query_hx71x; command_query_hx71x_status;
   hx71x_attach_load_cell_probe;
   command_config_thermocouple; command_query_thermocouple;
   command_config_sos_filter; command_sos_filter_set_section; command_sos_filter_set_state;
   command_sos_filter_activate;
   command_config_load_cell_probe; command_load_cell_probe_set_range; command_load_cell_probe_home;
   command_load_cell_probe_query_state;
   command_config_neopixel; command_neopixel_update buf; command_neopixel_send irq_poll;
   command_config_hd44780 irq_poll; command_hd44780_send_cmds irq_poll buf;
   command_hd44780_send_data irq_poll buf;
   command_config_st7920 irq_poll; command_st7920_send_cmds irq_poll buf;
   command_st7920_send_data irq_poll buf;
   command_config_sdio; command_sdio_set_bus; command_sdio_set_speed; command_sdio_send_command;
   command_sdio_read_data; command_sdio_write_data; command_sdio_read_data_buffer;
   command_sdio_write_data_buffer buf].

Lemma firmware_commands_typed buf args :
  Forall (fun f => Keeps (typed_step []) (f args)) (firmware_commands buf).
Proof. unfold firmware_commands. repeat (apply Forall_cons_2; [typed_solve|]). apply Forall_nil_2.
Qed.

(** The commands a block can contain. *)
Definition firmware_command (buf : list Z) (cp : command_parser) : Prop :=
  cp_func cp = config_reset \/ In (cp_func cp) (firmware_commands buf).

Lemma firmware_command_typed buf cp args : firmware_command buf cp -> Keeps typed_keep (cp_func cp args).
Proof.
  intros [->|Hin]; [apply config_reset_typed|]. apply typed_step_keep.
  pose proof (firmware_commands_typed buf args) as Hc. rewrite Forall_forall in Hc.
  by apply Hc, list_elem_of_In.
Qed.

Lemma find_block_typed G buf : Keeps (typed_step G) (command_find_block buf).
Proof. typed_solve. Qed.

Lemma find_and_dispatch_typed index buf :
  Forall (firmware_command buf) index ->
  Keeps typed_keep (command_find_and_dispatch index irq_poll buf).
Proof.
  intros Hidx. unfold command_find_and_dispatch. apply keeps_bind; [exact _| |].
  { apply typed_step_keep, find_block_typed. }
  intros [ret n]. apply keeps_bind; [exact _| |intros _; apply keeps_ret; exact _].
  case_match; [|apply keeps_ret; exact _].
  apply keeps_bind; [exact _| |intros _; apply typed_step_keep; typed_solve].
  unfold command_dispatch. generalize (drop (Z.to_nat MESSAGE_HEADER_SIZE) buf).
  generalize (drop (Z.to_nat (n - MESSAGE_TRAILER_SIZE)) buf).
  induction (Z.to_nat n) as [|fuel IH]; intros e p; cbn [dispatch_loop];
    (case_match; [apply keeps_ret; exact _|]); [apply keeps_fault|].
  apply keeps_bind; [exact _|apply keeps_deref; exact _|]. intros [cmdid q].
  intros w w'. unfold mbind at 1, M_bind at 1. unfold command_lookup_parser.
  destruct (_ || _); [by intros [= <-]|]. destruct (index !! Z.to_nat cmdid) as [cp|] eqn:Ecp; [|done].
  cbn [deref]. apply keeps_bind; [exact _|apply typed_step_keep; typed_solve|]. intros [r args].
  apply keeps_bind; [exact _|apply typed_step_keep; typed_solve|]. intros shut.
  case_match; (apply keeps_bind; [exact _| |intros _]); [apply typed_step_keep; typed_solve|apply IH|..].
  - apply typed_step_keep, interrupts_typed.
  - apply keeps_bind; [exact _| |intros _; apply IH]. eapply firmware_command_typed.
    rewrite Forall_lookup in Hidx. by eapply Hidx.
Qed.
End Poll.

(** ** The running firmware *)

(** A task of the modelled files, or a console that hands a block of input to
    the command dispatcher; interrupts may run while it waits. *)
Inductive firmware_task : M unit -> Prop :=
| task_component irqs f : In f (firmware_tasks irqs) -> firmware_task f
| task_console irqs index buf :
    Forall (firmware_command irqs buf) index ->
    firmware_task (command_find_and_dispatch index (interrupts irqs) buf ;; mret tt).

Inductive firmware_step : main_pc * world -> main_pc * world -> Prop :=
| firmware_main irqs waits tasks x y :
    Forall firmware_task tasks -> main_step (interrupts irqs) (interrupts waits) tasks x y ->
    firmware_step x y.

Definition firmware_inits : list (M unit) := [alloc_init; initial_pins_setup].

Lemma firmware_task_typed f : firmware_task f -> Keeps typed_keep f.
Proof.
  intros [irqs g Hin|irqs index buf Hidx].
  - apply typed_step_keep. pose proof (firmware_tasks_typed irqs) as Ht. rewrite Forall_forall in Ht.
    by apply Ht, list_elem_of_In.
  - apply keeps_bind; [exact _| |intros; apply keeps_ret; exact _]. by apply find_and_dispatch_typed.
Qed.

Lemma ctr_run_keeps (R : world -> world -> Prop) `{!PreOrder R} fs : Forall (Keeps R) fs -> Keeps R (ctr_run fs).
Proof.
  induction 1 as [|f fs Hf _ IH]; cbn; [by apply keeps_ret|]. by apply keeps_bind.
Qed.

Lemma shutdown_funcs_typed G : Forall (Keeps (typed_step G)) shutdown_funcs.
Proof. unfold shutdown_funcs. repeat (apply Forall_cons_2; [typed_solve|]). apply Forall_nil_2. Qed.

Lemma run_shutdown_typed fs r :
  fs ≡ₚ shutdown_funcs -> Keeps typed_keep (run_shutdown fs r ;; timer_read_time).
Proof.
  intros Hp. apply typed_step_keep. typed_solve. apply ctr_run_keeps; [exact _|]. rewrite Hp.
  apply shutdown_funcs_typed.
Qed.

Lemma run_tasks_iter_typed irqs waits tasks fuel start :
  Forall firmware_task tasks ->
  Keeps typed_keep (run_tasks_iter (interrupts irqs) (interrupts waits) tasks fuel start).
Proof.
  intros Ht. assert (Hs : forall G, Keeps (typed_step G) (sleep_loop (interrupts waits) fuel)).
  { intros G. induction fuel; cbn [sleep_loop]; typed_solve; apply interrupts_typed. }
  unfold run_tasks_iter. apply keeps_bind; [exact _|apply typed_step_keep, interrupts_typed|intros _].
  apply keeps_bind; [exact _|apply keeps_gets; exact _|intros st].
  apply keeps_bind; [exact _| |intros s2].
  { apply typed_step_keep. typed_solve. }
  apply keeps_bind; [exact _|apply typed_step_keep; typed_solve|intros _].
  apply keeps_bind; [exact _| |intros _; apply typed_step_keep; typed_solve].
  apply ctr_run_keeps; [exact _|]. eapply Forall_impl; [exact Ht|]. apply firmware_task_typed.
Qed.

Lemma firmware_step_typed x y : firmware_step x y -> typed x.2 -> typed y.2.
Proof.
  intros [irqs waits tasks x' y' Ht Hs].
  destruct Hs as [fuel s s' w w' E|fuel s r w w' E|fs r s w w' Hp E|fs r r' w w' Hp E]; cbn [snd].
  - apply (run_tasks_iter_typed irqs waits tasks fuel s Ht w w'). by rewrite E.
  - apply (run_tasks_iter_typed irqs waits tasks fuel s Ht w w'). by rewrite E.
  - apply (run_shutdown_typed fs r Hp w w'). by rewrite E.
  - apply (run_shutdown_typed fs r Hp w w'). by rewrite E.
Qed.

(** C6: The firmware is type safe: in every state that the main loop reaches from
    its start, over any sequence of commands, tasks, timer interrupts and
    shutdowns, an object lies in a slot of its type, a pointer that it keeps to
    another component designates an object of the expected type, and the timers
    and the signal embedded in it only have callbacks that take an object of
    this type. *)
Theorem firmware_type_safe pc0 w0 pc w :
  sched_main_start firmware_inits initial_world = Ok pc0 w0 ->
  rtc firmware_step (pc0, w0) (pc, w) ->
  forall p d, object w p d ->
  has_type (table w) (p, obj_tag d) /\
  (forall q ty d', In (q, ty) (obj_refs d) -> object w q d' -> obj_tag d' = ty) /\
  (forall k f, 0 <= k <= 1 -> func (tmr w (TObj p k)) = Some f -> callback_type f = Some (obj_tag d)) /\
  (forall f, sg_func (sgn w p) = Some f -> signal_type f = obj_tag d).
Proof.
  intros H0 Hr. assert (Ht : typed w).
  { change (typed (pc, w).2).
    assert (Ht0 : typed (pc0, w0).2).
    { assert (Hk : Keeps typed_keep (sched_main_start firmware_inits)).
      { apply typed_step_keep. unfold sched_main_start, firmware_inits. cbn [ctr_run]. typed_solve.
        apply setup_pins_typed. }
      apply (Hk initial_world); [by rewrite H0|]. by apply typed_empty. }
    induction Hr; eauto using firmware_step_typed. }
  intros p d Hp. pose proof Ht as [_ Hs Htm Hsg]. pose proof Hp as (_ & o & Ho & Hd).
  rewrite Forall_lookup in Hs. specialize (Hs _ _ Ho). unfold slot_ok in Hs. rewrite Hd in Hs.
  destruct Hs as [Hty Hrefs]. rewrite Forall_forall in Hrefs. repeat split; [by exists o| |by eauto..].
  intros q ty d' Hq Hd'. eapply object_type; [done..|]. by apply Hrefs, list_elem_of_In.
Qed.
End TypeSafety.

(** An end stop (oid 1) and the trigger it fires (oid 0), configured and armed
    by the commands of a block that the main loop dispatches. *)
Definition sample_commands : list command_parser :=
  [mkParser 0 false [] command_debug_nop;
   mkParser 1 true [PT_byte] (@command_allocate_oids sample_board);
   mkParser 1 true [PT_byte] (@command_config_trsync sample_board);
   mkParser 3 true [PT_byte; PT_byte; PT_byte] (@command_config_endstop sample_board);
   mkParser 8 true [PT_byte; PT_uint32; PT_uint32; PT_byte; PT_uint32; PT_byte; PT_byte; PT_byte]
     (@command_endstop_home sample_board)].
Definition sample_block : list Z :=
  command_add_frame 0x10
    ([(1, [2]); (2, [0]); (3, [1; 5; 1]); (4, [1; 50000; 10; 4; 100; 1; 0; 2])] ≫= enc_cmd).
Definition sample_console : M unit :=
  command_find_and_dispatch sample_commands (@interrupts sample_board []) sample_block ;; mret tt.
Definition sample_start : world := after (@sched_main_start sample_board (@firmware_inits sample_board)) initial_world.
Definition sample_armed : world :=
  after (@run_tasks_iter sample_board (@interrupts sample_board []) (@interrupts sample_board []) [sample_console] 1 0) sample_start.

Lemma firmware_type_safe_witness :
  exists e d, obj_at endstop sample_armed 1 = Some e /\ es_ts e = Some 0 /\ object sample_armed 0 d /\
  obj_tag d = command_config_trsync_t.
Proof.
  assert (Hs : @sched_main_start sample_board (@firmware_inits sample_board) initial_world = Ok (InTasks 0) sample_start)
    by (vm_compute; reflexivity).
  assert (Hr : exists t, @run_tasks_iter sample_board (@interrupts sample_board []) (@interrupts sample_board []) [sample_console] 1 0 sample_start
    = Ok t sample_armed) by (eexists; vm_compute; reflexivity).
  destruct Hr as [t Hr].
  pose (e := default endstop_zero (obj_at endstop sample_armed 1)).
  exists e, (O_trsync (default trsync_zero (obj_at trsync sample_armed 0))).
  assert (H0 : object sample_armed 0 (O_trsync (default trsync_zero (obj_at trsync sample_armed 0)))).
  { split; [lia|]. eexists. split; vm_compute; reflexivity. }
  assert (He : es_ts e = Some 0) by (vm_compute; reflexivity).
  split; [vm_compute; reflexivity|]. split; [exact He|]. split; [exact H0|].
  refine (proj1 (proj2 (@firmware_type_safe sample_board (InTasks 0) sample_start (InTasks t) sample_armed Hs _ 1
    (O_endstop e) _)) 0 command_config_trsync_t _ _ H0).
  - apply rtc_once. apply (@firmware_main sample_board [] [] [sample_console]); [|by apply (@step_tasks sample_board _ _ _ 1)].
    apply Forall_cons_2; [|apply Forall_nil_2]. apply (@task_console sample_board).
    repeat (apply Forall_cons_2; [right; cbn [cp_func]; unfold firmware_commands; repeat (first [left; reflexivity|right])|]).
    apply Forall_nil_2.
  - split; [lia|]. eexists. split; vm_compute; reflexivity.
  - cbn [obj_refs]. rewrite He. left. reflexivity.
Defined.
