(* ===== verification/LoadCellProps.v ===== *)
(** * The trigger and the watchdog of a load cell probe

    While a probe is homing its watchdog reports an error when no sample has
    arrived for [watchdog_max] periods (load_cell_probe.c), and the first
    sample that triggers decides the reported time. *)
From S2P Require Import Prelude Devices World Frames Sched Command BaseCmd ObjFacts Trsync Stepper SosFilter LoadCellProbe Firmware Sample Typed.

(** ** The watchdog *)

Section Watchdog.
Context `{Board}.

(** [n] events of the watchdog timer in a row. *)
Fixpoint watchdog_events (n : nat) (p : Z) : M unit :=
  match n with
  | O => mret tt
  | S n => watchdog_events n p ;; watchdog_event run_signal p ;; mret tt
  end.

(** Only the probe and its timer may differ. *)
Definition probe_only (p : Z) (w w' : world) : Prop :=
  w' = w <| timers := timers w' |> <| oids := oids w' |> /\
  (forall t, t <> lce_time p -> tmr w' t = tmr w t) /\
  (forall q, 0 <= q -> q <> p -> oid_slot w' q = oid_slot w q).

Definition watching (lce : load_cell_probe) : bool :=
  is_flag_set FLAG_IS_HOMING lce && negb (is_flag_set FLAG_IS_HOMING_TRIGGER lce).

(** What an event does after the check. *)
Definition watchdog_rearm (p : Z) : M sf_result :=
  mod_obj load_cell_probe p (fun lce => lce <| lce_watchdog_count ::= fun n => u8 (n + 1) |>) ;;
  lce ← get_obj load_cell_probe p;
  mod_timer (lce_time p) (fun t => t <| waketime := u32 (waketime t + lce_rest_ticks lce) |>) ;;
  mret SF_RESCHEDULE.

Lemma watchdog_event_run w p lce :
  obj_at load_cell_probe w p = Some lce -> watching lce = true ->
  watchdog_event run_signal p w =
    (when (lce_watchdog_max lce <? lce_watchdog_count lce) (trigger_error run_signal p ERROR_WATCHDOG) ;;
     watchdog_rearm p) w.
Proof.
  intros Hl Hw. unfold watchdog_event. rewrite (run_get_obj _ _ _ _ Hl).
  apply andb_true_iff in Hw as [-> Hw]. apply negb_true_iff in Hw as ->. done.
Qed.

Lemma rearm_run w p lce : 0 <= p -> obj_at load_cell_probe w p = Some lce ->
  exists w', watchdog_rearm p w = Ok SF_RESCHEDULE w' /\ probe_only p w w' /\
    obj_at load_cell_probe w' p = Some (lce <| lce_watchdog_count ::= fun n => u8 (n + 1) |>) /\
    waketime (tmr w' (lce_time p)) = u32 (waketime (tmr w (lce_time p)) + lce_rest_ticks lce).
Proof.
  intros Hp Hl. unfold watchdog_rearm. mrun. unfold mod_timer. mrun. eexists. split; [reflexivity|].
  split; [split; [|split]|split].
  - by destruct w.
  - intros t Ht. unfold tmr. cbn. by rewrite lookup_insert_ne.
  - intros q Hq Hn. unfold oid_slot, put_obj, set_oid_slot. cbn. destruct (oids w); [|done]. cbn.
    rewrite list_lookup_alter_ne; [done|lia].
  - by eapply obj_at_put.
  - unfold tmr. cbn. rewrite lookup_insert_eq. cbn. done.
Qed.

Lemma probe_only_trans p w1 w2 w3 : probe_only p w1 w2 -> probe_only p w2 w3 -> probe_only p w1 w3.
Proof.
  intros (E1 & T1 & S1) (E2 & T2 & S2). split; [|split].
  - rewrite E2, E1. by destruct w3.
  - intros t Ht. by rewrite T2, T1.
  - intros q Hq Hn. by rewrite S2, S1.
Qed.

Lemma watchdog_quiet w p lce n :
  0 <= p -> obj_at load_cell_probe w p = Some lce -> watching lce = true -> lce_watchdog_count lce = 0 ->
  lce_watchdog_max lce = 255 \/ Z.of_nat n <= lce_watchdog_max lce + 1 -> lce_watchdog_max lce <= 255 ->
  exists w', watchdog_events n p w = Ok tt w' /\ probe_only p w w' /\
    obj_at load_cell_probe w' p = Some (lce <| lce_watchdog_count := u8 (Z.of_nat n) |>) /\
    u32 (waketime (tmr w' (lce_time p))) = u32 (waketime (tmr w (lce_time p)) + Z.of_nat n * lce_rest_ticks lce).
Proof.
  intros Hp Hl Hw Hc Hn Hm. induction n as [|n IH].
  - exists w. repeat split; [by destruct w| |f_equal; lia]. rewrite Hl. f_equal. destruct lce. cbn in *. by rewrite Hc.
  - destruct IH as (w1 & E1 & O1 & L1 & T1); [lia|].
    destruct (rearm_run w1 p _ Hp L1) as (w2 & E2 & O2 & L2 & T2).
    exists w2. split; [|split; [by eapply probe_only_trans|split]].
    + cbn [watchdog_events]. rewrite (bind_ok _ _ _ _ _ E1).
      rewrite (bind_ok (watchdog_event run_signal p) _ w1 SF_RESCHEDULE w2); [reflexivity|].
      rewrite (watchdog_event_run _ _ _ L1) by done.
      cbn [lce_watchdog_max lce_watchdog_count upd eta eta_load_cell_probe].
      assert (u8 (Z.of_nat n) <= lce_watchdog_max lce).
      { destruct Hn as [->|Hn]; [pose proof (u8_range (Z.of_nat n)); lia|]. rewrite u8_id; lia. }
      replace (lce_watchdog_max lce <? u8 (Z.of_nat n)) with false by lia. exact E2.
    + rewrite L2. f_equal. destruct lce. cbn. unfold upd. cbn. f_equal. unfold u8. rewrite Zplus_mod_idemp_l. f_equal. lia.
    + rewrite T2. cbn [lce_rest_ticks upd eta eta_load_cell_probe]. unfold u32 in *.
      rewrite Z.mod_mod, <- Zplus_mod_idemp_l, T1, Zplus_mod_idemp_l by lia. f_equal. lia.
Qed.

(** C21: The watchdog of a homing probe.  Without samples it stays quiet for [watchdog_max + 1]
    events, each of which moves the timer by one period and changes nothing outside the probe; the
    event after them fires the trigger with the error code of the watchdog added to the error
    reason.  With [watchdog_max = 255] it stays quiet for ever. *)
Theorem watchdog_timeout w p lce ts :
  0 <= p -> obj_at load_cell_probe w p = Some lce -> watching lce = true -> lce_watchdog_count lce = 0 ->
  lce_ts lce = Some ts -> 0 <= lce_watchdog_max lce <= 255 ->
  (forall n, lce_watchdog_max lce = 255 \/ Z.of_nat n <= lce_watchdog_max lce + 1 ->
   exists w', watchdog_events n p w = Ok tt w' /\ probe_only p w w' /\
     u32 (waketime (tmr w' (lce_time p))) =
     u32 (waketime (tmr w (lce_time p)) + Z.of_nat n * lce_rest_ticks lce)) /\
  (lce_watchdog_max lce < 255 ->
   exists w', watchdog_events (Z.to_nat (lce_watchdog_max lce + 1)) p w = Ok tt w' /\
     watchdog_event run_signal p w' =
     (trsync_do_trigger run_signal ts (u8 (lce_error_reason lce + ERROR_WATCHDOG)) ;; watchdog_rearm p) w').
Proof.
  intros Hp Hl Hw Hc Hts Hm. split.
  - intros n Hn. destruct (watchdog_quiet w p lce n) as (w' & E & O & _ & T); [done..|lia|]. eauto.
  - intros Hlt. destruct (watchdog_quiet w p lce (Z.to_nat (lce_watchdog_max lce + 1))) as (w' & E & O & L & _);
      [done..|lia|lia|].
    exists w'. split; [exact E|]. rewrite (watchdog_event_run _ _ _ L) by done.
    cbn [lce_watchdog_max lce_watchdog_count upd eta eta_load_cell_probe].
    rewrite Z2Nat.id, u8_id by lia. replace (_ <? _) with true by lia. cbn [when].
    unfold mbind, M_bind. unfold trigger_error. rewrite (run_get_obj _ _ _ _ L).
    cbn [lce_ts lce_error_reason upd eta eta_load_cell_probe]. rewrite Hts. done.
Qed.
End Watchdog.

(** A probe (oid 2) with an empty filter (oid 1) that homes with the trigger of
    oid 0; three periods may pass without a sample, the error reason is 4. *)
Definition probe_world : world :=
  after_all [@alloc_init sample_board; @command_allocate_oids sample_board [4];
             @command_config_trsync sample_board [0];
             @command_config_sos_filter sample_board [1; 0];
             command_sos_filter_activate [1; 0; 2];
             @command_config_load_cell_probe sample_board [2; 1];
             command_load_cell_probe_set_range [2; -8000000; 8000000; 0; 50; 2 ^ 20];
             @command_trsync_start sample_board [0; 0; 0; 3];
             @command_load_cell_probe_home sample_board [2; 0; 1; 4; 50000; 100; 2]].
Definition sample_probe : load_cell_probe := default load_cell_probe_zero (obj_at load_cell_probe probe_world 2).

Lemma watchdog_timeout_witness : exists w', @watchdog_events sample_board 3 2 probe_world = Ok tt w' /\
  exists r w2 ts, watchdog_event (@run_signal sample_board) 2 w' = Ok r w2 /\
    obj_at trsync w2 0 = Some ts /\ ts_trigger_reason ts = 6.
Proof.
  destruct (watchdog_timeout (H := sample_board) probe_world 2 sample_probe 0) as [_ Hf];
    [lia|vm_compute; reflexivity..|split; vm_compute; discriminate|].
  destruct (Hf ltac:(vm_compute; reflexivity)) as (w' & E & Ev). exists w'. split; [exact E|].
  assert (Ew : Ok tt w' = watchdog_events (H := sample_board) 3 2 probe_world) by (symmetry; exact E).
  vm_compute in Ew. injection Ew as ->. eexists _, _, _. rewrite Ev. split; [vm_compute; reflexivity|].
  split; vm_compute; reflexivity.
Defined.

(** ** The latched trigger *)

(** A probe that has triggered keeps the time of the trigger. *)
Definition latched (p : Z) (w w' : world) : Prop :=
  forall lce, obj_at load_cell_probe w p = Some lce -> is_flag_set FLAG_IS_HOMING_TRIGGER lce = true ->
  exists lce', obj_at load_cell_probe w' p = Some lce' /\
    is_flag_set FLAG_IS_HOMING_TRIGGER lce' = true /\ lce_trigger_ticks lce' = lce_trigger_ticks lce.

#[export] Instance latched_preorder p : PreOrder (latched p).
Proof.
  split.
  - intros w lce. eauto.
  - intros w1 w2 w3 H12 H23 lce Hl Hf. destruct (H12 lce Hl Hf) as (l2 & Hl2 & Hf2 & E2).
    destruct (H23 l2 Hl2 Hf2) as (l3 & Hl3 & Hf3 & E3). exists l3. repeat split; congruence.
Qed.

Lemma latched_same p w w' : oids w' = oids w -> latched p w w'.
Proof. intros E lce Hl Hf. exists lce. by rewrite (obj_at_oids _ _ _ E). Qed.

(** Another slot, or the slot of the probe itself. *)
Lemma obj_at_set_oid {T : Set} `{ObjType T} w p q f :
  obj_at T (set_oid_slot q f w) p =
  if decide (Z.to_nat q = Z.to_nat p)
  then match oid_slot w p with Some o => match o_data (f o) with Some d => of_obj d | None => None end | None => None end
  else obj_at T w p.
Proof.
  unfold obj_at, oid_slot, set_oid_slot. cbn. destruct (oids w) as [l|]; cbn; [|by case_match].
  case_decide as E; [rewrite E, list_lookup_alter_eq|rewrite list_lookup_alter_ne by done]; [|done].
  by destruct (l !! Z.to_nat p).
Qed.

(** Changing a structure of another type. *)
Lemma latched_other (T : Set) `{TaggedObj T} p q (f : T -> T) :
  (forall t, of_obj (T := load_cell_probe) (to_obj t) = None) -> Keeps (latched p) (mod_obj T q f).
Proof.
  intros Hn w w'. unfold mod_obj. destruct (obj_at T w q) as [t|] eqn:E; [|done]. intros [= <-] lce Hl Hf.
  exists lce. split; [|done]. rewrite obj_at_set_oid. case_decide as Eq; [|done]. exfalso.
  unfold obj_at, oid_slot in E, Hl. destruct (oids w) as [l|]; [|done]. rewrite Eq in E.
  destruct (l !! Z.to_nat p) as [o|]; [|done]. destruct (o_data o) as [d|]; [|done].
  apply of_obj_inj in E as ->. congruence.
Qed.

(** Changing the probe without its trigger, or another probe. *)
Lemma latched_probe p q f :
  (forall lce, is_flag_set FLAG_IS_HOMING_TRIGGER lce = true ->
     is_flag_set FLAG_IS_HOMING_TRIGGER (f lce) = true /\ lce_trigger_ticks (f lce) = lce_trigger_ticks lce) ->
  Keeps (latched p) (mod_obj load_cell_probe q f).
Proof.
  intros Hf w w'. unfold mod_obj. destruct (obj_at load_cell_probe w q) as [t|] eqn:E; [|done].
  intros [= <-] lce Hl Ht. unfold latched. setoid_rewrite obj_at_set_oid. case_decide as Eq; [|by exists lce].
  unfold obj_at, oid_slot in E, Hl |- *. destruct (oids w) as [l|]; [|done]. rewrite Eq in E.
  destruct (l !! Z.to_nat p) as [o|]; [|done]. cbn. rewrite E in Hl. injection Hl as ->.
  destruct (Hf lce Ht). eauto.
Qed.

Section Latch.
Context `{Board} (p : Z).

#[local] Hint Extern 2 (latched _ _ _) => (apply latched_same; reflexivity) : frame.
#[local] Hint Extern 1 (Keeps (latched _) (mod_obj load_cell_probe _ _)) =>
  (apply latched_probe; by intros []) : frame.
#[local] Hint Extern 2 (Keeps (latched _) (mod_obj _ _ _)) => (apply latched_other; [exact _|done]) : frame.
#[local] Hint Extern 1 (Keeps _ timer_read_time) => (apply keeps_read_time) : frame.

Ltac latch_solve :=
  repeat first [ frame_step
               | progress cbn zeta
               | match goal with |- Keeps _ ?m => let h := head_of m in unfold h end ].

Lemma del_timer_loop_latched fuel : forall pos del, Keeps (latched p) (del_timer_loop fuel pos del).
Proof. induction fuel; cbn; intros; latch_solve. Qed.
Lemma drain_moves_latched fuel : forall q, Keeps (latched p) (drain_moves fuel q).
Proof. induction fuel; cbn; intros; latch_solve. Qed.
#[local] Hint Resolve del_timer_loop_latched drain_moves_latched : frame.
Lemma dispatch_signals_latched fuel : forall ts reason, Keeps (latched p) (dispatch_signals run_signal fuel ts reason).
Proof. induction fuel; cbn; intros; latch_solve. Qed.
Lemma sosfilt_loop_latched n : forall q idx v, Keeps (latched p) (sosfilt_loop n q idx v).
Proof. induction n; cbn [sosfilt_loop]; intros; latch_solve. Qed.
#[local] Hint Resolve dispatch_signals_latched sosfilt_loop_latched : frame.

Lemma try_trigger_latched q ticks : Keeps (latched p) (try_trigger run_signal q ticks).
Proof.
  intros w w' Ho lce Hl Hf. unfold try_trigger, mbind at 1, M_bind at 1, get_obj in Ho.
  destruct (obj_at load_cell_probe w q) as [l2|] eqn:E; [|done].
  destruct (is_flag_set FLAG_IS_HOMING_TRIGGER l2) eqn:Ef; cbn [negb when] in Ho.
  { injection Ho as <-. eauto. }
  assert (Hq : Z.to_nat q <> Z.to_nat p).
  { intros Eq. unfold obj_at, oid_slot in E, Hl. rewrite Eq in E. congruence. }
  rewrite (run_mod_obj _ _ _ _ _ E) in Ho.
  assert (Hk : Keeps (latched p) (ts ← deref (lce_ts l2); trsync_do_trigger run_signal ts (lce_trigger_reason l2)))
    by latch_solve.
  apply (Hk _ _ Ho); [|done]. unfold put_obj. by rewrite obj_at_set_oid, decide_False.
Qed.
#[local] Hint Resolve try_trigger_latched : frame.

Lemma await_latched q : Keeps (latched p) (mod_obj load_cell_probe q (clear_flag FLAG_AWAIT_HOMING)).
Proof.
  apply latched_probe. intros lce Hf. split; [|done]. rewrite <- Hf. unfold is_flag_set, clear_flag, flag.
  cbn [lce_flags upd eta eta_load_cell_probe]. rewrite (Z.land_comm (lce_flags lce)), Z.land_assoc.
  by replace (Z.land FLAG_IS_HOMING_TRIGGER (not8 FLAG_AWAIT_HOMING)) with FLAG_IS_HOMING_TRIGGER.
Qed.
#[local] Hint Extern 0 (Keeps _ (mod_obj load_cell_probe _ (clear_flag FLAG_AWAIT_HOMING))) =>
  (apply await_latched) : frame.

(** The calls of the sensors and of the timer while homing. *)
Inductive probe_event : Set := ProbeSample (q sample : Z) | ProbeWatchdog (q : Z).

Definition probe_call (e : probe_event) : M unit :=
  match e with
  | ProbeSample q sample => load_cell_probe_report_sample run_signal q sample
  | ProbeWatchdog q => watchdog_event run_signal q ;; mret tt
  end.

Fixpoint probe_calls (es : list probe_event) : M unit :=
  match es with [] => mret tt | e :: es => probe_call e ;; probe_calls es end.

Lemma probe_call_latched e : Keeps (latched p) (probe_call e).
Proof. destruct e; cbn [probe_call]; latch_solve. Qed.
#[local] Hint Resolve probe_call_latched : frame.

(** C20: The first trigger of a homing move wins: once a probe has triggered, no further sample, of
    this or of another probe, and no event of a watchdog changes the time it reports or makes it
    forget the trigger, whatever the steppers and the filter do and even if a call shuts down. *)
Theorem first_trigger_wins w lce es w' :
  obj_at load_cell_probe w p = Some lce -> is_flag_set FLAG_IS_HOMING_TRIGGER lce = true ->
  out_world (probe_calls es w) = Some w' ->
  exists lce', obj_at load_cell_probe w' p = Some lce' /\
    is_flag_set FLAG_IS_HOMING_TRIGGER lce' = true /\ lce_trigger_ticks lce' = lce_trigger_ticks lce.
Proof.
  intros Hl Hf Ho. assert (Hk : Keeps (latched p) (probe_calls es)); [|by apply (Hk w w' Ho)].
  clear Ho. induction es; cbn [probe_calls]; latch_solve.
Qed.
End Latch.

(** A sample of 60 g at tick 100000, after homing has begun. *)
Definition triggered_world : world :=
  after (@probe_call sample_board (ProbeSample 2 ((60 * 2 ^ 29) / 2 ^ 20)))
    (probe_world <| clock_reads := 1000%nat |>).
Definition triggered_probe : load_cell_probe :=
  default load_cell_probe_zero (obj_at load_cell_probe triggered_world 2).

Lemma first_trigger_wins_witness : exists w' lce',
  out_world (@probe_calls sample_board [ProbeSample 2 10; ProbeSample 2 (-50000); ProbeWatchdog 2] triggered_world)
    = Some w' /\
  obj_at load_cell_probe w' 2 = Some lce' /\ lce_trigger_ticks lce' = 100000.
Proof.
  assert (Ho : exists w', out_world (@probe_calls sample_board
    [ProbeSample 2 10; ProbeSample 2 (-50000); ProbeWatchdog 2] triggered_world) = Some w')
    by (eexists; vm_compute; reflexivity).
  destruct Ho as [w' Ho].
  destruct (first_trigger_wins (H := sample_board) 2 triggered_world triggered_probe
    [ProbeSample 2 10; ProbeSample 2 (-50000); ProbeWatchdog 2] w') as (lce' & Hl & _ & E);
    [vm_compute; reflexivity..|exact Ho|].
  exists w', lce'. split; [exact Ho|]. split; [exact Hl|]. rewrite E. vm_compute. reflexivity.
Defined.
