(* ===== verification/LcdProps.v ===== *)
(** * What the displays receive

    Reference displays follow the pins of the drivers in lcd_st7920.c and
    lcd_hd44780.c, which only toggle the lines that have to change.  They
    receive exactly the bytes of the command. *)
From S2P Require Import Prelude Devices World Sched Delays Command BaseCmd ObjFacts SpiCmds Displays Firmware Sample BitBang.

(** ** Waits *)

Section Waits.
Context `{Board}.

Lemma ndelay_run ticks w : CONFIG_MACH_AVR = true \/ clock_live ticks ->
  runs (ndelay (mret tt) ticks) w [] 0 any.
Proof.
  intros Hclock. unfold ndelay. destruct CONFIG_MACH_AVR eqn:E; [by apply runs_ret|].
  destruct Hclock as [?|Hl]; [done|]. apply (runs_bind _ _ _ [] 0 [] 0 _ _ (runs_read_time w)).
  intros now w1 _ Ha. unfold runs. rewrite poll_is_spin. by apply (runs_spin _ _ ticks).
Qed.

(** The clock is [ticks] away from any time within [spin_limit] readings. *)
Definition clock_leaves (ticks : Z) : Prop := forall n last, exists k, (k < spin_limit)%nat /\
  ticks <= u32 (u32 (clock_reading (n + k)) - last).

Lemma poll_elapsed_ends last ticks fuel : forall w k, (k < fuel)%nat ->
  ticks <= u32 (u32 (clock_reading (clock_reads w + k)) - last) ->
  runs (poll_elapsed (mret tt) fuel last ticks) w [] 0 any.
Proof.
  induction fuel as [|fuel IH]; intros w k Hk Hb; [lia|]. cbn [poll_elapsed].
  apply (runs_bind _ _ _ [] 0 [] 0 (fun now w' =>
    now = u32 (clock_reading (clock_reads w)) /\ clock_reads w' = S (clock_reads w))).
  { eexists _, _. split; [done|]. split; [|done]. constructor. rewrite Nat.add_0_r. by destruct w. }
  intros now w1 _ [-> Hw1].
  destruct (Z.ltb_spec (u32 (u32 (clock_reading (clock_reads w)) - last)) ticks) as [E|E]; [|by apply runs_ret].
  destruct k as [|k]; [rewrite Nat.add_0_r in Hb; lia|].
  apply (IH w1 k); [lia|]. rewrite Hw1. by replace (S (clock_reads w) + k)%nat with (clock_reads w + S k)%nat by lia.
Qed.

Lemma poll_elapsed_run last ticks w : clock_leaves ticks ->
  runs (poll_elapsed (mret tt) spin_limit last ticks) w [] 0 any.
Proof. intros Hl. destruct (Hl (clock_reads w) last) as (k & Hk & Hb). by apply (poll_elapsed_ends _ _ _ w k). Qed.
End Waits.

(** Writes to the display's structure commute with the pins. *)
Lemma emits_put {T : Set} `{ObjType T} evs k p (t : T) w w' :
  emits evs k (put_obj p t w) w' -> exists w1, w' = put_obj p t w1 /\ emits evs k w w1.
Proof.
  intros [E]. exists (w <| clock_reads := clock_reads w' |> <| pin_reads := (pin_reads w + k)%nat |>
                        <| hw_trace := rev evs ++ hw_trace w |>).
  split; [rewrite E; by destruct w|]. constructor. by destruct w.
Qed.

(** ** The ST7920: a serial line *)

(** The display samples the data line on the rising edge of the clock. *)
Record st_display : Set := mkStDisplay { dp_sclk : bool; dp_sid : bool; dp_bits : list bool }.

Definition st_step (sclk sid : Z) (d : st_display) (e : hw_event) : st_display :=
  match e with
  | HwOutToggle pin =>
      if pin =? sclk
      then mkStDisplay (negb (dp_sclk d)) (dp_sid d)
             (if dp_sclk d then dp_bits d else dp_bits d ++ [dp_sid d])
      else if pin =? sid then mkStDisplay (dp_sclk d) (negb (dp_sid d)) (dp_bits d)
      else d
  | _ => d
  end.

(** The bits of a transmission: a synchronisation byte, then for each byte its
    two halves, each followed by four zeros. *)
Definition half (c : Z) : list bool := bits_msb 4 c ++ replicate 4 false.
Definition st_frame (sync : Z) (cmds : list Z) : list bool :=
  bits_msb 8 sync ++ flat_map (fun c => half (Z.shiftr c 4) ++ half c) cmds.

(** The events for the top [n] bits of [data]. *)
Fixpoint xmit_evs (n : nat) (sclk sid data : Z) : list hw_event :=
  match n with
  | O => []
  | S n =>
      (if flag data 0x80 then [HwOutToggle sid] else []) ++ [HwOutToggle sclk; HwOutToggle sclk] ++
      xmit_evs n sclk sid (u8 (Z.shiftl (if flag data 0x80 then not8 data else data) 1))
  end.

Lemma xmit_bits_run `{Board} sclk sid n :
  CONFIG_MACH_AVR = true \/ clock_live (nsecs_to_ticks 200) ->
  forall w data, runs (xmit_bits (mret tt) n sclk sid data) w (xmit_evs n sclk sid data) 0 any.
Proof.
  intros Hc. induction n as [|n IH]; intros w data; cbn [xmit_bits xmit_evs]; [by apply runs_ret|].
  apply (runs_bind _ _ _ _ 0 _ 0 (fun d _ => d = if flag data 0x80 then not8 data else data)).
  { destruct (flag data 0x80); [|by apply runs_ret].
    apply (runs_bind _ _ _ [_] 0 [] 0 any (fun d _ => d = not8 data) (runs_hw _ w)).
    intros _ w1 _ _. by apply runs_ret. }
  intros d w1 _ ->.
  apply (runs_bind _ _ _ [] 0 (_ :: _ :: _) 0 _ _ (ndelay_run _ w1 Hc)). intros _ w2 _ _.
  apply (runs_bind _ _ _ [_] 0 (_ :: _) 0 _ _ (runs_hw _ w2)). intros _ w3 _ _.
  apply (runs_bind _ _ _ [] 0 (_ :: _) 0 _ _ (ndelay_run _ w3 Hc)). intros _ w4 _ _.
  apply (runs_bind _ _ _ [_] 0 _ 0 _ _ (runs_hw _ w4)). intros _ w5 _ _. apply IH.
Qed.

(** A property of all bytes, by evaluation. *)
Lemma byte_forall (P : Z -> bool) : forallb P (map Z.of_nat (seq 0 256)) = true ->
  forall c, 0 <= c < 256 -> P c = true.
Proof.
  intros Hall c Hc. rewrite forallb_forall in Hall. apply Hall, in_map_iff.
  exists (Z.to_nat c). split; [lia|]. apply in_seq. lia.
Qed.

(** Inverting a byte inverts the bits that follow. *)
Lemma not8_bits d n : 0 <= d < 256 -> (n <= 7)%nat ->
  take n (bits_msb 8 (u8 (Z.shiftl (not8 d) 1))) = map negb (take n (bits_msb 8 (u8 (Z.shiftl d 1)))).
Proof.
  intros Hd Hn.
  assert (E : take 7 (bits_msb 8 (u8 (Z.shiftl (not8 d) 1))) = map negb (take 7 (bits_msb 8 (u8 (Z.shiftl d 1))))).
  { assert (Hall : forallb (fun d => bool_decide (take 7 (bits_msb 8 (u8 (Z.shiftl (not8 d) 1)))
      = map negb (take 7 (bits_msb 8 (u8 (Z.shiftl d 1)))))) (map Z.of_nat (seq 0 256)) = true) by (vm_compute; reflexivity).
    pose proof (byte_forall _ Hall d Hd) as E.
    cbn beta in E. by rewrite bool_decide_eq_true in E. }
  apply (f_equal (take n)) in E. rewrite <- firstn_map, !take_take, Nat.min_l, firstn_map in E by lia. exact E.
Qed.

Lemma last_cons_head {A} (l : list A) : forall a d, List.last (a :: l) d = List.last l a.
Proof. induction l as [|b l IH]; intros a d; [done|]. rewrite (IH b a). exact (IH b d). Qed.

Lemma st_bits sclk sid : sclk <> sid -> forall n data l bits, 0 <= data < 256 -> (n <= 8)%nat ->
  let sent := map (xorb l) (take n (bits_msb 8 data)) in
  foldl (st_step sclk sid) (mkStDisplay false l bits) (xmit_evs n sclk sid data)
  = mkStDisplay false (List.last sent l) (bits ++ sent).
Proof.
  intros Hp. induction n as [|n IH]; intros data l bits Hd Hn; cbn zeta.
  { cbn. by rewrite app_nil_r. }
  cbn [xmit_evs]. rewrite take_bits_shl by lia. rewrite flag_0x80. set (t := Z.testbit data 7).
  rewrite !foldl_app.
  assert (E1 : foldl (st_step sclk sid) (mkStDisplay false l bits) (if t then [HwOutToggle sid] else [])
               = mkStDisplay false (xorb l t) bits).
  { destruct t; cbn [foldl st_step]; [|by rewrite xorb_false_r].
    rewrite (proj2 (Z.eqb_neq sid sclk)), Z.eqb_refl by congruence. by rewrite xorb_true_r. }
  rewrite E1. cbn [foldl st_step]. rewrite Z.eqb_refl. cbn [dp_sclk dp_sid dp_bits negb].
  rewrite IH; [|apply u8_range|lia]. clear E1 IH.
  assert (E2 : map (xorb (xorb l t)) (take n (bits_msb 8 (u8 (Z.shiftl (if t then not8 data else data) 1))))
               = map (xorb l) (take n (bits_msb 8 (u8 (Z.shiftl data 1))))).
  { destruct t; [|by rewrite xorb_false_r]. rewrite not8_bits by lia. rewrite map_map. apply map_ext.
    intros b. by destruct l, b. }
  rewrite E2, <- app_assoc. cbn [map app]. f_equal. by rewrite last_cons_head.
Qed.

(** A byte whose lowest bit is zero leaves the data line low. *)
Lemma st_byte sclk sid data bits : sclk <> sid -> 0 <= data < 256 -> Z.even data = true ->
  foldl (st_step sclk sid) (mkStDisplay false false bits) (xmit_evs 8 sclk sid data)
  = mkStDisplay false false (bits ++ bits_msb 8 data).
Proof.
  intros Hp Hd He. rewrite (st_bits sclk sid Hp 8 data false bits Hd) by lia.
  rewrite firstn_all2 by (by rewrite length_bits_msb).
  assert (Em : map (xorb false) (bits_msb 8 data) = bits_msb 8 data) by (erewrite map_ext; [apply map_id|by intros []]).
  rewrite Em. f_equal. cbn [bits_msb List.last]. change (Z.of_nat 0) with 0. rewrite Z.bit0_odd, <- Z.negb_even, He. done.
Qed.

Lemma high_half c : 0 <= c < 256 ->
  bits_msb 8 (Z.land c 0xf0) = half (Z.shiftr c 4) /\ 0 <= Z.land c 0xf0 < 256 /\ Z.even (Z.land c 0xf0) = true.
Proof.
  intros Hc.
  assert (Hall : forallb (fun c => bool_decide (bits_msb 8 (Z.land c 0xf0) = half (Z.shiftr c 4)) &&
    (0 <=? Z.land c 0xf0) && (Z.land c 0xf0 <? 256) && Z.even (Z.land c 0xf0)) (map Z.of_nat (seq 0 256)) = true) by (vm_compute; reflexivity).
  pose proof (byte_forall _ Hall c Hc) as E.
  cbn beta in E. rewrite !andb_true_iff, bool_decide_eq_true in E. destruct E as [[[E1 E2] E3] E4].
  split; [done|]. split; [lia|done].
Qed.

Lemma low_half c : 0 <= c < 256 ->
  bits_msb 8 (u8 (Z.shiftl c 4)) = half c /\ Z.even (u8 (Z.shiftl c 4)) = true.
Proof.
  intros Hc.
  assert (Hall : forallb (fun c => bool_decide (bits_msb 8 (u8 (Z.shiftl c 4)) = half c) &&
    Z.even (u8 (Z.shiftl c 4))) (map Z.of_nat (seq 0 256)) = true) by (vm_compute; reflexivity).
  pose proof (byte_forall _ Hall c Hc) as E.
  cbn beta in E. by rewrite !andb_true_iff, bool_decide_eq_true in E.
Qed.

Section St7920.
Context `{Board} (p : Z) (s : st7920).
Context (Hpins : lc_sclk s <> lc_sid s).
Context (Hdelay : CONFIG_MACH_AVR = true \/ clock_live (nsecs_to_ticks 200)).
Context (Hsync : clock_leaves (lc_sync_wait_ticks s)) (Hcmd : clock_leaves (lc_cmd_wait_ticks s)).

Local Notation byte_evs := (xmit_evs 8 (lc_sclk s) (lc_sid s)).
Local Notation cmd_evs c := (byte_evs (Z.land c 0xf0) ++ byte_evs (u8 (Z.shiftl c 4))).
Local Notation shows := (foldl (st_step (lc_sclk s) (lc_sid s))).

Lemma xmit_byte_run w data : obj_at st7920 w p = Some s ->
  runs (st7920_xmit_byte (mret tt) p data) w (byte_evs data) 0 any.
Proof.
  intros Hs. unfold st7920_xmit_byte, runs. rewrite (run_get_obj _ _ _ _ Hs). by apply xmit_bits_run.
Qed.

Lemma xmit_cmd_run w c last wait : obj_at st7920 w p = Some s -> clock_leaves wait ->
  runs (st7920_xmit_cmd (mret tt) p c last wait) w (cmd_evs c) 0 any.
Proof.
  intros Hs Hw. unfold st7920_xmit_cmd. set (hi := byte_evs (Z.land c 0xf0)). set (lo := byte_evs (u8 (Z.shiftl c 4))).
  apply (runs_bind _ _ _ hi 0 lo 0 _ _ (xmit_byte_run w _ Hs)). intros _ w1 E1 _.
  apply (runs_bind _ _ _ [] 0 lo 0 _ _ (poll_elapsed_run last wait w1 Hw)). intros _ w2 E2 _.
  rewrite <- (app_nil_r lo).
  assert (Hs2 : obj_at st7920 w2 p = Some s).
  { rewrite <- Hs. apply obj_at_oids. by rewrite (emits_oids _ _ _ _ E2), (emits_oids _ _ _ _ E1). }
  apply (runs_bind _ _ _ lo 0 [] 0 _ _ (xmit_byte_run w2 _ Hs2)). intros _ w3 E3 _.
  eapply runs_mono; [apply runs_read_time|done].
Qed.

Lemma xmit_loop_run cmds : forall w last, obj_at st7920 w p = Some s ->
  runs (st7920_xmit_loop (mret tt) p cmds last (lc_cmd_wait_ticks s)) w (flat_map (fun c => cmd_evs c) cmds) 0 any.
Proof.
  induction cmds as [|c cmds IH]; intros w last Hs; cbn [st7920_xmit_loop flat_map]; [by apply runs_ret|].
  apply (runs_bind _ _ _ (cmd_evs c) 0 _ 0 _ _ (xmit_cmd_run w c last _ Hs Hcmd)). intros t w1 E1 _. apply IH.
  rewrite <- Hs. apply obj_at_oids, (emits_oids _ _ _ _ E1).
Qed.

Lemma shows_cmds cmds : Forall (fun c => 0 <= c < 256) cmds -> forall bits,
  shows (mkStDisplay false false bits) (flat_map (fun c => cmd_evs c) cmds)
  = mkStDisplay false false (bits ++ flat_map (fun c => half (Z.shiftr c 4) ++ half c) cmds).
Proof.
  induction 1 as [|c cmds Hc _ IH]; intros bits; cbn [flat_map]; [by rewrite app_nil_r|].
  destruct (high_half c Hc) as (Eh & Hh & Ev), (low_half c Hc) as [El Ev'].
  rewrite !foldl_app, st_byte, st_byte, IH by (done || apply u8_range). by rewrite Eh, El, !app_assoc.
Qed.

(** The whole transmission: the display's memory and the time apart, only the
    trace changes. *)
Lemma xmit_run w sync cmds : obj_at st7920 w p = Some s ->
  exists w' s', (st7920_xmit_byte (mret tt) p sync ;; st7920_xmit (mret tt) p cmds) w = Ok tt w' /\
    obj_at st7920 w' p = Some s' /\ s' = s <| lc_last_cmd_time := lc_last_cmd_time s' |> /\
    hw_trace w' = rev (byte_evs sync ++ flat_map (fun c => cmd_evs c) cmds) ++ hw_trace w.
Proof.
  intros Hs. destruct (xmit_byte_run w sync Hs) as ([] & w1 & E1 & M1 & _).
  rewrite (bind_ok _ _ _ _ _ E1).
  assert (Hs1 : obj_at st7920 w1 p = Some s) by (rewrite <- Hs; apply obj_at_oids, (emits_oids _ _ _ _ M1)).
  pose proof (emits_trace _ _ _ _ M1) as T1. destruct cmds as [|c cmds]; cbn [st7920_xmit flat_map].
  { exists w1, s. rewrite app_nil_r. repeat split; [done| |done]. by destruct s. }
  rewrite (run_get_obj _ _ _ _ Hs1).
  destruct (xmit_cmd_run w1 c (lc_last_cmd_time s) _ Hs1 Hsync) as (t & w2 & E2 & M2 & _).
  rewrite (bind_ok _ _ _ _ _ E2).
  assert (Hs2 : obj_at st7920 w2 p = Some s) by (rewrite <- Hs1; apply obj_at_oids, (emits_oids _ _ _ _ M2)).
  rewrite (run_get_obj _ _ _ _ Hs2).
  destruct (xmit_loop_run cmds w2 t Hs2) as (t2 & w3 & E3 & M3 & _). rewrite (bind_ok _ _ _ _ _ E3).
  assert (Hs3 : obj_at st7920 w3 p = Some s) by (rewrite <- Hs2; apply obj_at_oids, (emits_oids _ _ _ _ M3)).
  rewrite (mod_obj_ok _ _ _ _ Hs3). eexists _, _. split; [done|].
  split; [by apply (obj_at_put _ _ _ _ Hs3)|]. split; [by destruct s|].
  change (hw_trace (put_obj p _ w3)) with (hw_trace w3).
  rewrite (emits_trace _ _ _ _ M3), (emits_trace _ _ _ _ M2), T1, !rev_app_distr, <- !app_assoc. done.
Qed.
End St7920.

(** C22: An ST7920 display receives the bytes that the host sends.  Although the driver only toggles the
    data line where a bit differs from the one before, a display that samples
    the line on the rising edges of the clock receives the synchronisation byte for
    commands or data followed by both halves of every byte of the request,
    and both lines are low again at the end; the transmission ends if the clock advances. *)
Theorem st7920_receives `{Board} w p s buf args (is_data : bool) bits :
  let cmds := buffer_arg buf (u8 (arg args 1)) (arg args 2) in
  oid_lookup (arg args 0) command_config_st7920_t w = Ok p w -> obj_at st7920 w p = Some s ->
  lc_sclk s <> lc_sid s -> Forall (fun c => 0 <= c < 256) cmds ->
  CONFIG_MACH_AVR = true \/ clock_live (nsecs_to_ticks 200) ->
  clock_leaves (lc_sync_wait_ticks s) -> clock_leaves (lc_cmd_wait_ticks s) ->
  exists w' s' evs,
    (if is_data then command_st7920_send_data (mret tt) buf args
     else command_st7920_send_cmds (mret tt) buf args) w = Ok tt w' /\
    obj_at st7920 w' p = Some s' /\ s' = s <| lc_last_cmd_time := lc_last_cmd_time s' |> /\
    hw_trace w' = rev evs ++ hw_trace w /\
    foldl (st_step (lc_sclk s) (lc_sid s)) (mkStDisplay false false bits) evs =
    mkStDisplay false false (bits ++ st_frame (if is_data then SYNC_DATA else SYNC_CMD) cmds).
Proof.
  intros cmds Hl Hs Hp Hc Hd Hw1 Hw2. set (sync := if is_data then SYNC_DATA else SYNC_CMD).
  destruct (xmit_run p s Hp Hd Hw1 Hw2 w sync cmds Hs) as (w' & s' & E & Hs' & Es & Et).
  exists w', s'. eexists. split; [|split; [exact Hs'|split; [exact Es|split; [exact Et|]]]].
  - unfold command_st7920_send_data, command_st7920_send_cmds. rewrite <- E. unfold sync.
    destruct is_data; by rewrite (bind_ok _ _ _ _ _ Hl).
  - rewrite foldl_app, st_byte, shows_cmds; try done; try (by destruct is_data).
    by rewrite <- app_assoc.
Qed.

(** A display on pins 5 (clock) and 6 (data) of the sample board. *)
Definition st7920_world : world :=
  after_all [@alloc_init sample_board; @command_allocate_oids sample_board [4];
             @command_config_st7920 sample_board (mret tt) [1; 4; 5; 6; 300; 200]].
Definition sample_st7920 : st7920 := default st7920_zero (obj_at st7920 st7920_world 1).

Lemma sample_clock_leaves t : 0 <= t <= 500 -> clock_leaves (H := sample_board) t.
Proof.
  intros Ht n last. cbn [clock_reading sample_board].
  destruct (decide (t <= u32 (u32 (100 * Z.of_nat n) - last))) as [Hl|Hl].
  { exists 0%nat. rewrite Nat.add_0_r. split; [cbn; lia|done]. }
  exists 5%nat. split; [cbn; lia|]. unfold u32 in *. rewrite Zminus_mod_idemp_l in *.
  replace (100 * Z.of_nat (n + 5) - last) with (100 * Z.of_nat n - last + 500) by lia.
  pose proof (Z.mod_pos_bound (100 * Z.of_nat n - last) (2 ^ 32) ltac:(lia)) as Hb.
  rewrite <- Zplus_mod_idemp_l, (Z.mod_small (_ + 500)); lia.
Qed.

Lemma st7920_receives_witness : exists w' evs,
  command_st7920_send_data (H := sample_board) (mret tt) [0; 0x41; 0xff] [1; 2; 1] st7920_world = Ok tt w' /\
  hw_trace w' = rev evs ++ hw_trace st7920_world /\
  dp_bits (foldl (st_step 5 6) (mkStDisplay false false []) evs)
  = bits_msb 8 0xfa ++ bits_msb 8 0x40 ++ bits_msb 8 0x10 ++ bits_msb 8 0xf0 ++ bits_msb 8 0xf0.
Proof.
  destruct (st7920_receives (H := sample_board) st7920_world 1 sample_st7920 [0; 0x41; 0xff] [1; 2; 1] true [])
    as (w' & s' & evs & E & _ & _ & Et & Ed).
  - vm_compute; reflexivity.
  - vm_compute; reflexivity.
  - vm_compute; discriminate.
  - vm_compute. repeat (apply Forall_cons_2; [split; [discriminate|reflexivity]|]). apply Forall_nil_2.
  - right. apply sample_clock_live. vm_compute. split; discriminate.
  - apply sample_clock_leaves. vm_compute. split; discriminate.
  - apply sample_clock_leaves. vm_compute. split; discriminate.
  - exists w', evs. split; [exact E|]. split; [exact Et|].
    change (lc_sclk sample_st7920) with 5 in Ed. change (lc_sid sample_st7920) with 6 in Ed.
    rewrite Ed. vm_compute. reflexivity.
Defined.

(** ** The HD44780: four data lines *)

(** The display takes the data lines and the register select line on the falling
    edge of the enable line. *)
Record hd_display : Set := mkHdDisplay {
  dh_e : bool; dh_rs : bool; dh_d7 : bool; dh_d6 : bool; dh_d5 : bool; dh_d4 : bool;
  dh_in : list (bool * list bool)
}.

Definition hd_step (h : hd44780) (d : hd_display) (ev : hw_event) : hd_display :=
  let '(mkHdDisplay e rs d7 d6 d5 d4 l) := d in
  match ev with
  | HwOutWrite pin v => if pin =? hd_rs h then mkHdDisplay e (nonzero v) d7 d6 d5 d4 l else d
  | HwOutToggle pin =>
      if pin =? hd_e h
      then mkHdDisplay (negb e) rs d7 d6 d5 d4 (if e then l ++ [(rs, [d7; d6; d5; d4])] else l)
      else if pin =? hd_d4 h then mkHdDisplay e rs d7 d6 d5 (negb d4) l
      else if pin =? hd_d5 h then mkHdDisplay e rs d7 d6 (negb d5) d4 l
      else if pin =? hd_d6 h then mkHdDisplay e rs d7 (negb d6) d5 d4 l
      else if pin =? hd_d7 h then mkHdDisplay e rs (negb d7) d6 d5 d4 l
      else d
  | _ => d
  end.

(** The lines show the upper half of [v]. *)
Definition hd_shows (rs : bool) (v : Z) (l : list (bool * list bool)) : hd_display :=
  mkHdDisplay false rs (Z.testbit v 7) (Z.testbit v 6) (Z.testbit v 5) (Z.testbit v 4) l.

Definition toggles (h : hd44780) (t : Z) : list hw_event :=
  (if flag t 0x10 then [HwOutToggle (hd_d4 h)] else []) ++
  (if flag t 0x20 then [HwOutToggle (hd_d5 h)] else []) ++
  (if flag t 0x40 then [HwOutToggle (hd_d6 h)] else []) ++
  (if flag t 0x80 then [HwOutToggle (hd_d7 h)] else []).
Definition nibble_evs (h : hd44780) (t : Z) : list hw_event :=
  [HwOutToggle (hd_e h)] ++ toggles h t ++ [HwOutToggle (hd_e h)].
Definition hd_byte_evs (h : hd44780) (last data : Z) : list hw_event :=
  nibble_evs h (Z.lxor last data) ++ nibble_evs h (Z.lxor data (u8 (Z.shiftl data 4))).

Lemma flag_bit t i : 0 <= i -> flag t (2 ^ i) = Z.testbit t i.
Proof.
  intros Hi. unfold flag. assert (E : Z.land t (2 ^ i) = if Z.testbit t i then 2 ^ i else 0).
  { apply Z.bits_inj'. intros j Hj. rewrite Z.land_spec, Z.pow2_bits_eqb by lia.
    destruct (Z.eqb_spec i j) as [<-|Hn].
    - rewrite andb_true_r. destruct (Z.testbit t i); [by rewrite Z.pow2_bits_true|by rewrite Z.bits_0].
    - rewrite andb_false_r. destruct (Z.testbit t i); [by rewrite Z.pow2_bits_false by lia|by rewrite Z.bits_0]. }
  rewrite E. destruct (Z.testbit t i); [|done]. apply negb_true_iff, Z.eqb_neq.
  pose proof (Z.pow_pos_nonneg 2 i). lia.
Qed.

(** A line is flipped, or not; the pins are told apart by evaluation. *)
Ltac hd_line :=
  intros; match goal with t : bool |- context [if ?t then _ else _] => destruct t end;
  cbn [foldl hd_step];
  repeat match goal with H : ?a <> ?b |- context [?a =? ?b] => rewrite (proj2 (Z.eqb_neq a b) H) end;
  rewrite ?Z.eqb_refl, ?xorb_true_r, ?xorb_false_r; reflexivity.

Lemma line4 h e rs d7 d6 d5 d4 l (t : bool) : hd_d4 h <> hd_e h ->
  foldl (hd_step h) (mkHdDisplay e rs d7 d6 d5 d4 l) (if t then [HwOutToggle (hd_d4 h)] else [])
  = mkHdDisplay e rs d7 d6 d5 (xorb d4 t) l.
Proof. hd_line. Qed.
Lemma line5 h e rs d7 d6 d5 d4 l (t : bool) : hd_d5 h <> hd_e h -> hd_d5 h <> hd_d4 h ->
  foldl (hd_step h) (mkHdDisplay e rs d7 d6 d5 d4 l) (if t then [HwOutToggle (hd_d5 h)] else [])
  = mkHdDisplay e rs d7 d6 (xorb d5 t) d4 l.
Proof. hd_line. Qed.
Lemma line6 h e rs d7 d6 d5 d4 l (t : bool) : hd_d6 h <> hd_e h -> hd_d6 h <> hd_d4 h -> hd_d6 h <> hd_d5 h ->
  foldl (hd_step h) (mkHdDisplay e rs d7 d6 d5 d4 l) (if t then [HwOutToggle (hd_d6 h)] else [])
  = mkHdDisplay e rs d7 (xorb d6 t) d5 d4 l.
Proof. hd_line. Qed.
Lemma line7 h e rs d7 d6 d5 d4 l (t : bool) :
  hd_d7 h <> hd_e h -> hd_d7 h <> hd_d4 h -> hd_d7 h <> hd_d5 h -> hd_d7 h <> hd_d6 h ->
  foldl (hd_step h) (mkHdDisplay e rs d7 d6 d5 d4 l) (if t then [HwOutToggle (hd_d7 h)] else [])
  = mkHdDisplay e rs (xorb d7 t) d6 d5 d4 l.
Proof. hd_line. Qed.

Lemma xorb_shown a b : xorb a (xorb a b) = b.
Proof. by destruct a, b. Qed.

Lemma nibble_shown h v v' rs l : NoDup [hd_e h; hd_d4 h; hd_d5 h; hd_d6 h; hd_d7 h] ->
  foldl (hd_step h) (hd_shows rs v l) (nibble_evs h (Z.lxor v v'))
  = hd_shows rs v' (l ++ [(rs, take 4 (bits_msb 8 v'))]).
Proof.
  intros Hnd. repeat match goal with H : NoDup (_ :: _) |- _ => apply NoDup_cons in H as [? H] end.
  rewrite ?not_elem_of_cons in *. destruct_and?.
  unfold nibble_evs, toggles, hd_shows. rewrite !foldl_app. cbn [foldl hd_step]. rewrite Z.eqb_refl. cbn [negb].
  rewrite line4, line5, line6, line7 by congruence. cbn [foldl hd_step]. rewrite Z.eqb_refl.
  change 0x10 with (2 ^ 4). change 0x20 with (2 ^ 5). change 0x40 with (2 ^ 6). change 0x80 with (2 ^ 7).
  rewrite !flag_bit, !Z.lxor_spec, !xorb_shown by lia. reflexivity.
Qed.

(** Both halves of a byte; the lines are left with the lower one. *)
Lemma hd_byte_shown h last data rs l : NoDup [hd_e h; hd_d4 h; hd_d5 h; hd_d6 h; hd_d7 h] -> 0 <= data < 256 ->
  foldl (hd_step h) (hd_shows rs last l) (hd_byte_evs h last data)
  = hd_shows rs (u8 (Z.shiftl data 4))
      (l ++ [(rs, take 4 (bits_msb 8 data)); (rs, drop 4 (bits_msb 8 data))]).
Proof.
  intros Hnd Hd. unfold hd_byte_evs. rewrite foldl_app, !nibble_shown by done. rewrite <- app_assoc.
  do 3 f_equal. cbn [app]. do 2 f_equal. f_equal.
  assert (Hall : forallb (fun d => bool_decide (take 4 (bits_msb 8 (u8 (Z.shiftl d 4))) = drop 4 (bits_msb 8 d)))
    (map Z.of_nat (seq 0 256)) = true) by (vm_compute; reflexivity).
  pose proof (byte_forall _ Hall data Hd) as E. cbn beta in E. by rewrite bool_decide_eq_true in E.
Qed.

Fixpoint hd_evs (h : hd44780) (last : Z) (data : list Z) : list hw_event :=
  match data with
  | [] => []
  | b :: data => hd_byte_evs h last b ++ hd_evs h (u8 (Z.shiftl b 4)) data
  end.

(** What the lines show after some bytes. *)
Definition hd_last_after (last : Z) (data : list Z) : Z := foldl (fun _ b => u8 (Z.shiftl b 4)) last data.

Lemma hd_evs_shown h rs data : NoDup [hd_e h; hd_d4 h; hd_d5 h; hd_d6 h; hd_d7 h] ->
  Forall (fun c => 0 <= c < 256) data -> forall last l,
  foldl (hd_step h) (hd_shows rs last l) (hd_evs h last data)
  = hd_shows rs (hd_last_after last data)
      (l ++ flat_map (fun b => [(rs, take 4 (bits_msb 8 b)); (rs, drop 4 (bits_msb 8 b))]) data).
Proof.
  intros Hnd. induction 1 as [|b data Hb _ IH]; intros last l; cbn [hd_evs flat_map].
  - by rewrite app_nil_r.
  - rewrite foldl_app, hd_byte_shown, IH by done. unfold hd_last_after. cbn [foldl]. by rewrite <- app_assoc.
Qed.

Section Hd44780.
Context `{Board} (p : Z).
Context (Hd1 : CONFIG_MACH_AVR = true \/ clock_live (nsecs_to_ticks 230)).
Context (Hd2 : CONFIG_MACH_AVR = true \/ clock_live (nsecs_to_ticks (500 - 230))).

Lemma when_toggle_run w (t : bool) pin :
  runs (when t (gpio_out_toggle pin)) w (if t then [HwOutToggle pin] else []) 0 any.
Proof. destruct t; [apply runs_hw|by apply runs_ret]. Qed.

Lemma hd_bits_run w h t :
  runs (hd44780_xmit_bits (mret tt) t (hd_e h) (hd_d4 h) (hd_d5 h) (hd_d6 h) (hd_d7 h)) w (nibble_evs h t) 0 any.
Proof.
  unfold hd44780_xmit_bits, nibble_evs, toggles. rewrite <- !app_assoc.
  apply (runs_bind _ _ _ _ 0 _ 0 _ _ (runs_hw _ w)). intros _ w1 _ _.
  apply (runs_bind _ _ _ _ 0 _ 0 _ _ (when_toggle_run w1 _ _)). intros _ w2 _ _.
  apply (runs_bind _ _ _ _ 0 _ 0 _ _ (when_toggle_run w2 _ _)). intros _ w3 _ _.
  apply (runs_bind _ _ _ _ 0 _ 0 _ _ (when_toggle_run w3 _ _)). intros _ w4 _ _.
  apply (runs_bind _ _ _ _ 0 _ 0 _ _ (when_toggle_run w4 _ _)). intros _ w5 _ _.
  apply (runs_bind _ _ _ [] 0 _ 0 _ _ (ndelay_run _ w5 Hd1)). intros _ w6 _ _. apply runs_hw.
Qed.

Lemma hd_byte_run w h data : obj_at hd44780 w p = Some h ->
  exists w1, hd44780_xmit_byte (mret tt) p data w
    = Ok tt (put_obj p (h <| hd_last := u8 (Z.shiftl data 4) |>) w1) /\
    emits (hd_byte_evs h (hd_last h) data) 0 w w1.
Proof.
  intros Hh. unfold hd44780_xmit_byte. rewrite (run_get_obj _ _ _ _ Hh). cbn zeta.
  destruct (hd_bits_run w h (Z.lxor (hd_last h) data)) as ([] & w1 & E1 & M1 & _). rewrite (bind_ok _ _ _ _ _ E1).
  assert (Hh1 : obj_at hd44780 w1 p = Some h) by (rewrite <- Hh; apply obj_at_oids, (emits_oids _ _ _ _ M1)).
  rewrite (run_mod_obj _ _ _ _ _ Hh1). set (h' := h <| hd_last := _ |>).
  destruct (ndelay_run (nsecs_to_ticks (500 - 230)) (put_obj p h' w1) Hd2) as ([] & w2 & E2 & M2 & _).
  rewrite (bind_ok _ _ _ _ _ E2).
  destruct (hd_bits_run w2 h (Z.lxor data (u8 (Z.shiftl data 4)))) as ([] & w3 & E3 & M3 & _). rewrite E3.
  destruct (emits_put _ _ _ _ _ _ (emits_trans _ _ _ _ _ _ _ M2 M3)) as (w4 & -> & M4).
  exists w4. split; [done|]. apply (emits_trans _ _ _ _ _ _ _ M1 M4).
Qed.

Lemma hd_loop_run h wait data : clock_leaves wait -> forall w last_time last,
  obj_at hd44780 w p = Some (h <| hd_last := last |>) ->
  exists t w', hd44780_xmit_loop (mret tt) p data last_time wait w = Ok t w' /\
    obj_at hd44780 w' p = Some (h <| hd_last := hd_last_after last data |>) /\
    hw_trace w' = rev (hd_evs h last data) ++ hw_trace w.
Proof.
  intros Hw. induction data as [|b data IH]; intros w last_time last Hh; cbn [hd44780_xmit_loop hd_evs].
  { by exists last_time, w. }
  destruct (poll_elapsed_run last_time wait w Hw) as ([] & w1 & E1 & M1 & _). rewrite (bind_ok _ _ _ _ _ E1).
  assert (Hh1 : obj_at hd44780 w1 p = Some (h <| hd_last := last |>))
    by (rewrite <- Hh; apply obj_at_oids, (emits_oids _ _ _ _ M1)).
  destruct (hd_byte_run w1 _ b Hh1) as (w2 & E2 & M2). rewrite (bind_ok _ _ _ _ _ E2).
  set (w3 := put_obj p _ w2).
  assert (Hh2 : obj_at hd44780 w2 p = Some (h <| hd_last := last |>))
    by (rewrite <- Hh1; apply obj_at_oids, (emits_oids _ _ _ _ M2)).
  assert (Hh3 : obj_at hd44780 w3 p = Some (h <| hd_last := u8 (Z.shiftl b 4) |>))
    by (apply (obj_at_put _ _ _ _ Hh2)).
  destruct (runs_read_time w3) as (now & w4 & E4 & M4 & _). rewrite (bind_ok _ _ _ _ _ E4).
  destruct (IH w4 now (u8 (Z.shiftl b 4))) as (t & w' & E & Hh' & Et).
  { rewrite <- Hh3. apply obj_at_oids, (emits_oids _ _ _ _ M4). }
  exists t, w'. split; [exact E|]. split; [exact Hh'|]. rewrite Et, (emits_trace _ _ _ _ M4).
  change (hw_trace w3) with (hw_trace w2). rewrite (emits_trace _ _ _ _ M2), (emits_trace _ _ _ _ M1).
  rewrite rev_app_distr, <- app_assoc. done.
Qed.
End Hd44780.

(** An HD44780 display receives the bytes that the host sends.  The driver only toggles the
    data lines that differ from the half byte before; a display that takes the lines
    on the falling edges of the enable line receives, for every byte of the
    request, its upper and then its lower half, with the register select line as
    the command says, and [last] agrees with the lines again afterwards. *)
Theorem hd44780_receives `{Board} w p h buf args (is_data : bool) rs l :
  let data := buffer_arg buf (u8 (arg args 1)) (arg args 2) in
  oid_lookup (arg args 0) command_config_hd44780_t w = Ok p w -> obj_at hd44780 w p = Some h ->
  NoDup [hd_e h; hd_d4 h; hd_d5 h; hd_d6 h; hd_d7 h] -> Forall (fun c => 0 <= c < 256) data ->
  CONFIG_MACH_AVR = true \/ clock_live (nsecs_to_ticks 230) ->
  CONFIG_MACH_AVR = true \/ clock_live (nsecs_to_ticks (500 - 230)) ->
  clock_leaves (hd_cmd_wait_ticks h) ->
  exists w' h' evs,
    (if is_data then command_hd44780_send_data (mret tt) buf args
     else command_hd44780_send_cmds (mret tt) buf args) w = Ok tt w' /\
    obj_at hd44780 w' p = Some h' /\ hw_trace w' = rev evs ++ hw_trace w /\
    h' = h <| hd_last := hd_last h' |> <| hd_last_cmd_time := hd_last_cmd_time h' |> /\
    foldl (hd_step h) (hd_shows rs (hd_last h) l) evs =
    hd_shows is_data (hd_last h')
      (l ++ flat_map (fun b => [(is_data, take 4 (bits_msb 8 b)); (is_data, drop 4 (bits_msb 8 b))]) data).
Proof.
  intros data Hl Hh Hnd Hb Hd1 Hd2 Hw.
  set (w1 := w <| hw_trace ::= cons (HwOutWrite (hd_rs h) (if is_data then 1 else 0)) |>).
  assert (Hh1 : obj_at hd44780 w1 p = Some (h <| hd_last := hd_last h |>)) by (transitivity (Some h); [exact Hh|by destruct h]).
  destruct (hd_loop_run p Hd1 Hd2 h (hd_cmd_wait_ticks h) data Hw w1 (hd_last_cmd_time h) (hd_last h) Hh1)
    as (t & w2 & E & Hh2 & Et).
  eexists _, _, (HwOutWrite (hd_rs h) (if is_data then 1 else 0) :: hd_evs h (hd_last h) data).
  split; [|split; [by apply (obj_at_put _ _ _ _ Hh2)|split; [|split]]].
  - assert (Er : hd44780_xmit (mret tt) p data w1 = Ok tt (put_obj p
      ((h <| hd_last := hd_last_after (hd_last h) data |>) <| hd_last_cmd_time := t |>) w2)).
    { unfold hd44780_xmit. rewrite (run_get_obj _ _ _ _ Hh1). unfold mbind, M_bind. cbn [hd_cmd_wait_ticks hd_last_cmd_time upd eta eta_hd44780].
      rewrite E. by rewrite (mod_obj_ok _ _ _ _ Hh2). }
    unfold command_hd44780_send_data, command_hd44780_send_cmds.
    destruct is_data; rewrite (bind_ok _ _ _ _ _ Hl), (run_get_obj _ _ _ _ Hh); exact Er.
  - change (hw_trace (put_obj p _ w2)) with (hw_trace w2). rewrite Et. cbn [rev]. by rewrite <- app_assoc.
  - by destruct h.
  - cbn [foldl]. unfold hd_shows at 1. cbn [hd_step]. rewrite Z.eqb_refl.
    replace (nonzero (if is_data then 1 else 0)) with is_data by by destruct is_data.
    apply (hd_evs_shown h is_data data Hnd Hb).
Qed.

(** A display on pins 10 to 15 of the sample board. *)
Definition hd44780_world : world :=
  after_all [@alloc_init sample_board; @command_allocate_oids sample_board [4];
             @command_config_hd44780 sample_board (mret tt) [2; 10; 11; 12; 13; 14; 15; 300];
             @command_hd44780_send_cmds sample_board (mret tt) [0x33; 0x2c] [2; 2; 0]].
Definition sample_hd44780 : hd44780 := default hd44780_zero (obj_at hd44780 hd44780_world 2).

Lemma hd44780_receives_witness : exists w' evs,
  command_hd44780_send_data (H := sample_board) (mret tt) [0x4b; 0x21] [2; 2; 0] hd44780_world = Ok tt w' /\
  hw_trace w' = rev evs ++ hw_trace hd44780_world /\
  concat (map snd (dh_in (foldl (hd_step sample_hd44780) (hd_shows false 0xc0 []) evs)))
  = bits_msb 8 0x4b ++ bits_msb 8 0x21.
Proof.
  destruct (hd44780_receives (H := sample_board) hd44780_world 2 sample_hd44780 [0x4b; 0x21] [2; 2; 0] true
    false []) as (w' & h' & evs & E & _ & Et & _ & Ed).
  - vm_compute; reflexivity.
  - vm_compute; reflexivity.
  - apply (bool_decide_unpack _). vm_compute. exact I.
  - vm_compute. repeat (apply Forall_cons_2; [split; [discriminate|reflexivity]|]). apply Forall_nil_2.
  - right. apply sample_clock_live. vm_compute. split; discriminate.
  - right. apply sample_clock_live. vm_compute. split; discriminate.
  - apply sample_clock_leaves. vm_compute. split; discriminate.
  - exists w', evs. split; [exact E|]. split; [exact Et|].
    change (hd_last sample_hd44780) with 0xc0 in Ed. rewrite Ed. vm_compute. reflexivity.
Defined.
