(* ===== verification/Stepcompress.v ===== *)
(** * Step compression on the host: src/klippy/chelper/stepcompress.c

    The host turns the absolute times of the individual steps of a stepper
    into [queue_step] commands that each describe an arithmetic progression of
    intervals.  [double] arithmetic is the Standard Library's executable
    specification of IEEE 754 binary64; the result of a signed 32 bit
    operation is written with its wrap-around, and a theorem of
    StepcompressProps shows that none of them wraps while compressing.

    The step buffer is the storage [queue .. queue_end] with the indices
    [queue_pos] and [queue_next] into it; a store behind its end, and a
    conversion of a [double] that does not fit the integer type, are undefined
    behaviour and are outcomes of their own. *)
From S2P Require Import Prelude Double Protocol Msgblock.
Import Msgblock.

(** ** Data *)

Definition QUEUE_START_SIZE : nat := 1024.
Definition ERROR_RET : Z := -989898989.
Definition UINT64_MAX : Z := 2 ^ 64 - 1.
Definition INT32_MIN : Z := - 2 ^ 31.

(** [struct history_steps] *)
Record history_steps : Set := mkHistory {
  hs_first_clock : Z; hs_last_clock : Z; hs_start_position : Z;
  hs_step_count : Z; hs_interval : Z; hs_add : Z }.

(** [struct stepcompress]; [sc_queue] is the storage up to [queue_end]. *)
Record stepcompress : Set := mkSC {
  sc_queue : list Z; sc_queue_pos : nat; sc_queue_next : nat;
  sc_max_error : Z;
  sc_mcu_time_offset : double; sc_mcu_freq : double; sc_last_step_print_time : double;
  sc_last_step_clock : Z;
  sc_msg_queue : list queue_message;
  sc_oid : Z;
  sc_queue_step_msgtag : Z; sc_set_next_step_dir_msgtag : Z;
  sc_sdir : Z; sc_invert_sdir : Z;
  sc_next_step_clock : Z; sc_next_step_dir : Z;
  sc_last_position : Z;
  sc_history_list : list history_steps }.
#[export] Instance eta_stepcompress : Eta stepcompress := fun r =>
  mkSC (sc_queue r) (sc_queue_pos r) (sc_queue_next r) (sc_max_error r)
    (sc_mcu_time_offset r) (sc_mcu_freq r) (sc_last_step_print_time r)
    (sc_last_step_clock r) (sc_msg_queue r) (sc_oid r) (sc_queue_step_msgtag r)
    (sc_set_next_step_dir_msgtag r) (sc_sdir r) (sc_invert_sdir r)
    (sc_next_step_clock r) (sc_next_step_dir r) (sc_last_position r) (sc_history_list r).

(** [struct step_move] *)
Record step_move : Set := mkMove { mv_interval : Z; mv_count : Z; mv_add : Z }.

(** [struct points] *)
Record points : Set := mkPoints { minp : Z; maxp : Z }.

(** The return value with the object after the call, or what stopped it. *)
Inductive undefined : Set := Overrun | BadCast.
Inductive outcome : Set :=
| Returns (ret : Z) (sc : stepcompress)
| Undefined (u : undefined)
| OutOfFuel.

(** [int ret = r; if (ret) return ret; k] *)
Definition and_then (r : outcome) (k : stepcompress -> outcome) : outcome :=
  match r with
  | Returns ret sc => if ret =? 0 then k sc else Returns ret sc
  | _ => r
  end.
Notation "'try' sc := r 'in' k" := (and_then r (fun sc => k))
  (at level 10, sc name, r at level 100, k at level 200).

(** The number of steps between [queue_pos] and [queue_next]. *)
Definition in_use (sc : stepcompress) : nat := (sc_queue_next sc - sc_queue_pos sc)%nat.

(** [sc->queue_pos[i]] *)
Definition queue_at (sc : stepcompress) (i : Z) : Z :=
  nth (sc_queue_pos sc + Z.to_nat i) (sc_queue sc) 0.

(** [*sc->queue_next++ = v] *)
Definition queue_store (v : Z) (sc : stepcompress) (k : stepcompress -> outcome) : outcome :=
  if (sc_queue_next sc <? length (sc_queue sc))%nat then
    k (sc <| sc_queue ::= <[sc_queue_next sc := u32 v]> |> <| sc_queue_next ::= S |>)
  else Undefined Overrun.

(** ** Step compression *)

Definition idiv_up (n d : Z) : Z :=
  if 0 <=? n then Z.quot (s32 (s32 (n + d) - 1)) d else Z.quot n d.

Definition idiv_down (n d : Z) : Z :=
  if 0 <=? n then Z.quot n d else Z.quot (s32 (s32 (n - d) + 1)) d.

(** [minmax_point(sc, sc->queue_pos + i)] *)
Definition minmax_point (sc : stepcompress) (i : Z) : points :=
  let lsc := u32 (sc_last_step_clock sc) in
  let point := u32 (queue_at sc i - lsc) in
  let prevpoint := if 0 <? i then u32 (queue_at sc (i - 1) - lsc) else 0 in
  let max_error := u32 (point - prevpoint) / 2 in
  let max_error := if sc_max_error sc <? max_error then sc_max_error sc else max_error in
  mkPoints (s32 (u32 (point - max_error))) (s32 point).

Definition QUADRATIC_DEV : Z := 11.

(** What the inner loop of [compress_bisect_add] leaves when it breaks out. *)
Record extension : Set := mkExt {
  x_nextcount : Z; x_nextpoint : points;
  x_nextmininterval : Z; x_nextmaxinterval : Z; x_interval : Z }.

(** [n*(n-1)/2] in [int] arithmetic *)
Definition addfactor_of (n : Z) : Z := Z.quot (s32 (n * (n - 1))) 2.

(** "Find longest valid sequence with the given 'add'": the inner loop, either
    returning a move that reaches [qlast] ([qlen] steps) or breaking out. *)
Fixpoint extend_sequence (fuel : nat) (sc : stepcompress) (qlen add nextcount
    nextmininterval nextmaxinterval interval : Z) : option (step_move + extension) :=
  match fuel with
  | O => None
  | S fuel =>
      let nextcount := nextcount + 1 in
      if qlen <=? nextcount - 1 then
        Some (inl (mkMove (u32 interval) (u16 (nextcount - 1)) (s16 add)))
      else
        let nextpoint := minmax_point sc (nextcount - 1) in
        let nextaddfactor := addfactor_of nextcount in
        let c := s32 (add * nextaddfactor) in
        let nextmininterval :=
          if s32 (nextmininterval * nextcount) <? s32 (minp nextpoint - c)
          then idiv_up (s32 (minp nextpoint - c)) nextcount else nextmininterval in
        let nextmaxinterval :=
          if s32 (maxp nextpoint - c) <? s32 (nextmaxinterval * nextcount)
          then idiv_down (s32 (maxp nextpoint - c)) nextcount else nextmaxinterval in
        if nextmaxinterval <? nextmininterval then
          Some (inr (mkExt nextcount nextpoint nextmininterval nextmaxinterval interval))
        else
          extend_sequence fuel sc qlen add nextcount nextmininterval nextmaxinterval
            nextmaxinterval
  end.

(** The variables that live across iterations of the outer loop. *)
Record bisect : Set := mkBisect {
  b_outer_mininterval : Z; b_outer_maxinterval : Z;
  b_add : Z; b_minadd : Z; b_maxadd : Z;
  b_bestinterval : Z; b_bestcount : Z; b_bestadd : Z; b_bestreach : Z;
  b_zerointerval : Z; b_zerocount : Z }.
#[export] Instance eta_bisect : Eta bisect := fun r =>
  mkBisect (b_outer_mininterval r) (b_outer_maxinterval r) (b_add r) (b_minadd r) (b_maxadd r)
    (b_bestinterval r) (b_bestcount r) (b_bestadd r) (b_bestreach r) (b_zerointerval r)
    (b_zerocount r).

(** "Check if this is the best sequence found so far": the updated variables
    and whether the outer loop is left. *)
Definition check_best (b : bisect) (x : extension) : bisect * bool :=
  let add := b_add b in
  let interval := x_interval x in
  let count := x_nextcount x - 1 in
  let addfactor := addfactor_of count in
  let reach := s32 (s32 (add * addfactor) + s32 (interval * count)) in
  if (b_bestreach b <? reach)
     || ((reach =? b_bestreach b) && (b_bestinterval b <? interval)) then
    let b := b <| b_bestinterval := interval |> <| b_bestcount := count |>
               <| b_bestadd := add |> <| b_bestreach := reach |> in
    let b := if add =? 0 then b <| b_zerointerval := interval |> <| b_zerocount := count |>
             else b in
    (b, 0x200 <? count)
  else (b, false).

(** "Check if a greater or lesser add could extend the sequence" *)
Definition limit_by_reach (b : bisect) (x : extension) : bisect :=
  let nextaddfactor := addfactor_of (x_nextcount x) in
  let nextreach := s32 (s32 (b_add b * nextaddfactor) + s32 (x_interval x * x_nextcount x)) in
  if nextreach <? minp (x_nextpoint x)
  then b <| b_minadd := s32 (b_add b + 1) |> <| b_outer_maxinterval := x_nextmaxinterval x |>
  else b <| b_maxadd := s32 (b_add b - 1) |> <| b_outer_mininterval := x_nextmininterval x |>.

(** "The maximum valid deviation between two quadratic sequences can be
    calculated and used to further limit the add range." *)
Definition limit_by_deviation (sc : stepcompress) (b : bisect) (x : extension) : bisect :=
  let count := x_nextcount x - 1 in
  if 1 <? count then
    let errdelta := s32 (u32 (sc_max_error sc * QUADRATIC_DEV) / u32 (s32 (count * count))) in
    let b := if b_minadd b <? s32 (b_add b - errdelta)
             then b <| b_minadd := s32 (b_add b - errdelta) |> else b in
    if s32 (b_add b + errdelta) <? b_maxadd b
    then b <| b_maxadd := s32 (b_add b + errdelta) |> else b
  else b.

(** "See if next point would further limit the add range" *)
Definition limit_by_point (b : bisect) (x : extension) : bisect :=
  let nextcount := x_nextcount x in
  let nextpoint := x_nextpoint x in
  let nextaddfactor := addfactor_of nextcount in
  let c := s32 (b_outer_maxinterval b * nextcount) in
  let b := if s32 (b_minadd b * nextaddfactor) <? s32 (minp nextpoint - c)
           then b <| b_minadd := idiv_up (s32 (minp nextpoint - c)) nextaddfactor |> else b in
  let c := s32 (b_outer_mininterval b * nextcount) in
  if s32 (maxp nextpoint - c) <? s32 (b_maxadd b * nextaddfactor)
  then b <| b_maxadd := idiv_down (s32 (maxp nextpoint - c)) nextaddfactor |> else b.

(** The rest of an iteration: narrow the range of 'add' values. *)
Definition limit_add (sc : stepcompress) (b : bisect) (x : extension) : bisect :=
  limit_by_point (limit_by_deviation sc (limit_by_reach b x) x) x.

(** The code behind the outer loop. *)
Definition best_move (b : bisect) : step_move :=
  if b_bestcount b <=? b_zerocount b + Z.quot (b_zerocount b) 16
  then mkMove (u32 (b_zerointerval b)) (u16 (b_zerocount b)) 0
  else mkMove (u32 (b_bestinterval b)) (u16 (b_bestcount b)) (s16 (b_bestadd b)).

(** The outer loop. *)
Fixpoint bisect_loop (fuel : nat) (sc : stepcompress) (qlen : Z) (b : bisect)
    : option step_move :=
  match fuel with
  | O => None
  | S fuel =>
      match extend_sequence (S (Z.to_nat qlen)) sc qlen (b_add b) 1
              (b_outer_mininterval b) (b_outer_maxinterval b) (b_outer_maxinterval b) with
      | None => None
      | Some (inl move) => Some move
      | Some (inr x) =>
          match check_best b x with
          | (b, true) => Some (best_move b)
          | (b, false) =>
              let b := limit_add sc b x in
              if b_maxadd b <? b_minadd b then Some (best_move b)
              else bisect_loop fuel sc qlen
                     (b <| b_add := s32 (b_maxadd b
                              - Z.quot (s32 (b_maxadd b - b_minadd b)) 4) |>)
          end
      end
  end.

Definition bisect_init (point : points) : bisect :=
  mkBisect (minp point) (maxp point) 0 (- 0x8000) 0x7fff 0 1 1 INT32_MIN 0 0.

(** [compress_bisect_add]; the range of 'add' values has 65536 elements and
    shrinks in every iteration. *)
Definition bisect_fuel : nat := Z.to_nat 65537.
Definition compress_bisect_add (sc : stepcompress) : option step_move :=
  let qlen := Z.min (Z.of_nat (in_use sc)) 65535 in
  bisect_loop bisect_fuel sc qlen (bisect_init (minmax_point sc 0)).

(** ** Step compress checking *)

(** The loop of [check_line] from step [i] on, [n] steps left. *)
Fixpoint check_points (n : nat) (sc : stepcompress) (add i interval p : Z) : bool :=
  match n with
  | O => true
  | S n =>
      let point := minmax_point sc i in
      let p := u32 (p + interval) in
      if (p <? u32 (minp point)) || (u32 (maxp point) <? p) then false
      else if 0x80000000 <=? interval then false
      else check_points n sc add (i + 1) (u32 (interval + add)) p
  end.

Definition check_line (sc : stepcompress) (move : step_move) : Z :=
  if (mv_count move =? 0)
     || ((mv_interval move =? 0) && (mv_add move =? 0) && (1 <? mv_count move))
     || (0x80000000 <=? mv_interval move) then ERROR_RET
  else if check_points (Z.to_nat (mv_count move)) sc (mv_add move) 0 (mv_interval move) 0
  then 0 else ERROR_RET.

(** ** Interface *)

Definition stepcompress_alloc (msg_queue : list queue_message) : stepcompress :=
  mkSC [] 0 0 0 (f64 0) (f64 0) (f64 0) 0 msg_queue 0 0 0 (-1) 0 0 0 0 [].

Definition stepcompress_fill (sc : stepcompress) (oid max_error queue_step_msgtag
    set_next_step_dir_msgtag : Z) : stepcompress :=
  sc <| sc_oid := oid |> <| sc_max_error := max_error |>
     <| sc_queue_step_msgtag := queue_step_msgtag |>
     <| sc_set_next_step_dir_msgtag := set_next_step_dir_msgtag |>.

Definition stepcompress_set_invert_sdir (sc : stepcompress) (invert_sdir : Z) : stepcompress :=
  let invert_sdir := b2z (negb (invert_sdir =? 0)) in
  if invert_sdir =? sc_invert_sdir sc then sc
  else
    let sc := sc <| sc_invert_sdir := invert_sdir |> in
    if 0 <=? sc_sdir sc then sc <| sc_sdir ::= fun d => Z.lxor d 1 |> else sc.

(** The loop of [stepcompress_history_expire] on the list from its last entry. *)
Fixpoint expire_oldest (end_clock : Z) (l : list history_steps) : list history_steps :=
  match l with
  | [] => []
  | hs :: l' => if end_clock <? hs_last_clock hs then l else expire_oldest end_clock l'
  end.

Definition stepcompress_history_expire (sc : stepcompress) (end_clock : Z) : stepcompress :=
  sc <| sc_history_list ::= fun l => rev (expire_oldest end_clock (rev l)) |>.

Definition stepcompress_get_oid (sc : stepcompress) : Z := sc_oid sc.
Definition stepcompress_get_step_dir (sc : stepcompress) : Z := sc_next_step_dir sc.

Definition calc_last_step_print_time (sc : stepcompress) : stepcompress :=
  let lsc := f64 (sc_last_step_clock sc) in
  sc <| sc_last_step_print_time :=
          fadd (sc_mcu_time_offset sc) (fdiv (fsub lsc f_half) (sc_mcu_freq sc)) |>.

Definition stepcompress_set_time (sc : stepcompress) (time_offset mcu_freq : double)
    : stepcompress :=
  calc_last_step_print_time
    (sc <| sc_mcu_time_offset := time_offset |> <| sc_mcu_freq := mcu_freq |>).

Definition CLOCK_DIFF_MAX : Z := Z.shiftl 3 28.

(** The arguments of the [queue_step] command of a move. *)
Definition queue_step_args (sc : stepcompress) (move : step_move) : list Z :=
  [u32 (sc_queue_step_msgtag sc); sc_oid sc; mv_interval move; mv_count move;
   u32 (mv_add move)].

(** The message [add_move] queues. *)
Definition queue_step_message (sc : stepcompress) (first_clock : Z) (move : step_move)
    : queue_message :=
  let qm := message_alloc_and_encode (queue_step_args sc move) in
  let req_clock :=
    if (mv_count move =? 1) && (u64 (sc_last_step_clock sc + CLOCK_DIFF_MAX) <=? first_clock)
    then first_clock else sc_last_step_clock sc in
  mkQM (qm_msg qm) (sc_last_step_clock sc) req_clock (qm_notify_id qm).

Definition add_move (sc : stepcompress) (first_clock : Z) (move : step_move) : stepcompress :=
  let addfactor := addfactor_of (mv_count move) in
  let ticks := u32 (s32 (mv_add move * addfactor) + mv_interval move * (mv_count move - 1)) in
  let last_clock := u64 (first_clock + ticks) in
  let qm := queue_step_message sc first_clock move in
  let step_count := if negb (sc_sdir sc =? 0) then mv_count move else - mv_count move in
  let hs := mkHistory first_clock last_clock (sc_last_position sc) step_count
              (s32 (mv_interval move)) (mv_add move) in
  sc <| sc_msg_queue ::= fun l => l ++ [qm] |>
     <| sc_last_step_clock := last_clock |>
     <| sc_last_position ::= fun p => s64 (p + step_count) |>
     <| sc_history_list ::= fun l => hs :: l |>.

(** The [while] loop of [queue_flush]. *)
Fixpoint flush_loop (fuel : nat) (sc : stepcompress) (move_clock : Z) : outcome :=
  if sc_last_step_clock sc <? move_clock then
    match fuel with
    | O => OutOfFuel
    | S fuel =>
        match compress_bisect_add sc with
        | None => OutOfFuel
        | Some move =>
            let ret := check_line sc move in
            if negb (ret =? 0) then Returns ret sc
            else
              let sc := add_move sc (u64 (sc_last_step_clock sc + mv_interval move)) move in
              let count := Z.to_nat (mv_count move) in
              if (sc_queue_next sc <=? sc_queue_pos sc + count)%nat then
                Returns 0 (calc_last_step_print_time
                             (sc <| sc_queue_pos := 0%nat |> <| sc_queue_next := 0%nat |>))
              else flush_loop fuel (sc <| sc_queue_pos ::= Nat.add count |>) move_clock
        end
    end
  else Returns 0 (calc_last_step_print_time sc).

Definition queue_flush (sc : stepcompress) (move_clock : Z) : outcome :=
  if (sc_queue_next sc <=? sc_queue_pos sc)%nat then Returns 0 sc
  else flush_loop (S (in_use sc)) sc move_clock.

Definition stepcompress_flush_far (sc : stepcompress) (abs_step_clock : Z) : outcome :=
  let move := mkMove (u32 (abs_step_clock - sc_last_step_clock sc)) 1 0 in
  Returns 0 (calc_last_step_print_time (add_move sc abs_step_clock move)).

Definition set_next_step_dir (sc : stepcompress) (sdir : Z) : outcome :=
  if sc_sdir sc =? sdir then Returns 0 sc
  else
    try sc := queue_flush sc UINT64_MAX in
    let sc := sc <| sc_sdir := sdir |> in
    let qm := message_alloc_and_encode
      [u32 (sc_set_next_step_dir_msgtag sc); sc_oid sc; u32 (Z.lxor sdir (sc_invert_sdir sc))] in
    let qm := mkQM (qm_msg qm) (qm_min_clock qm) (sc_last_step_clock sc) (qm_notify_id qm) in
    Returns 0 (sc <| sc_msg_queue ::= fun l => l ++ [qm] |>).

Definition queue_append_far (sc : stepcompress) : outcome :=
  let step_clock := sc_next_step_clock sc in
  let sc := sc <| sc_next_step_clock := 0 |> in
  try sc := queue_flush sc (u64 (step_clock - CLOCK_DIFF_MAX + 1)) in
  if u64 (sc_last_step_clock sc + CLOCK_DIFF_MAX) <=? step_clock
  then stepcompress_flush_far sc step_clock
  else queue_store step_clock sc (fun sc => Returns 0 sc).

(** [while (in_use >= alloc) alloc *= 2;] *)
Fixpoint grow_alloc (fuel used alloc : nat) : nat :=
  match fuel with
  | O => alloc
  | S fuel => if (alloc <=? used)%nat then grow_alloc fuel used (2 * alloc) else alloc
  end.

(** "Make room in the queue"; fresh storage is filled with zeros. *)
Definition queue_make_room (sc : stepcompress) : stepcompress :=
  let used := in_use sc in
  let sc :=
    if (0 <? sc_queue_pos sc)%nat then
      sc <| sc_queue ::= fun q => take used (drop (sc_queue_pos sc) q) ++ drop used q |>
    else
      let alloc := length (sc_queue sc) in
      let alloc := if (alloc =? 0)%nat then QUEUE_START_SIZE else alloc in
      let alloc := grow_alloc (S used) used alloc in
      sc <| sc_queue ::= fun q => q ++ replicate (alloc - length q) 0 |> in
  sc <| sc_queue_pos := 0%nat |> <| sc_queue_next := used |>.

(** "No point in keeping more than 64K steps in memory" *)
Definition flush_excess (sc : stepcompress) : outcome :=
  if 65535 + 2000 <? Z.of_nat (in_use sc) then
    let flush := u32 (nth (sc_queue_next sc - Z.to_nat 65535) (sc_queue sc) 0
                      - u32 (sc_last_step_clock sc)) in
    queue_flush sc (u64 (sc_last_step_clock sc + flush))
  else Returns 0 sc.

Definition queue_append_extend (sc : stepcompress) : outcome :=
  try sc := flush_excess sc in
  let sc := if (length (sc_queue sc) <=? sc_queue_next sc)%nat then queue_make_room sc else sc in
  queue_store (sc_next_step_clock sc) sc (fun sc => Returns 0 (sc <| sc_next_step_clock := 0 |>)).

Definition queue_append (sc : stepcompress) : outcome :=
  let r := if negb (sc_next_step_dir sc =? sc_sdir sc)
           then set_next_step_dir sc (sc_next_step_dir sc) else Returns 0 sc in
  try sc := r in
  if u64 (sc_last_step_clock sc + CLOCK_DIFF_MAX) <=? sc_next_step_clock sc
  then queue_append_far sc
  else if (length (sc_queue sc) <=? sc_queue_next sc)%nat then queue_append_extend sc
  else
    queue_store (sc_next_step_clock sc) sc
      (fun sc => Returns 0 (sc <| sc_next_step_clock := 0 |>)).

Definition SDS_FILTER_TIME : double := fdiv (f64 750) (f64 1000000).

(** The clock of a step given in seconds, at the top of [stepcompress_append]. *)
Definition calc_step_clock (sc : stepcompress) (print_time step_time : double) : option Z :=
  let offset := fsub print_time (sc_last_step_print_time sc) in
  let rel_sc := fmul (fadd step_time offset) (sc_mcu_freq sc) in
  ticks ← f_to_u64 rel_sc; Some (u64 (sc_last_step_clock sc + ticks)).

(** The rollback condition of [stepcompress_append]. *)
Definition is_rapid_reversal (sc : stepcompress) (sdir step_clock : Z) : bool :=
  negb (sdir =? sc_next_step_dir sc)
  && let diff := f64 (s64 (step_clock - sc_next_step_clock sc)) in
     flt diff (fmul SDS_FILTER_TIME (sc_mcu_freq sc)).

Definition stepcompress_append (sc : stepcompress) (sdir : Z) (print_time step_time : double)
    : outcome :=
  match calc_step_clock sc print_time step_time with
  | None => Undefined BadCast
  | Some step_clock =>
      let store sc :=
        Returns 0 (sc <| sc_next_step_clock := step_clock |> <| sc_next_step_dir := sdir |>) in
      if negb (sc_next_step_clock sc =? 0) then
        if is_rapid_reversal sc sdir step_clock then
          Returns 0 (sc <| sc_next_step_clock := 0 |> <| sc_next_step_dir := sdir |>)
        else try sc := queue_append sc in store sc
      else store sc
  end.

Definition stepcompress_commit (sc : stepcompress) : outcome :=
  if negb (sc_next_step_clock sc =? 0) then queue_append sc else Returns 0 sc.

Definition stepcompress_flush (sc : stepcompress) (move_clock : Z) : outcome :=
  let r := if negb (sc_next_step_clock sc =? 0) && (sc_next_step_clock sc <=? move_clock)
           then queue_append sc else Returns 0 sc in
  try sc := r in queue_flush sc move_clock.

Definition stepcompress_reset (sc : stepcompress) (last_step_clock : Z) : outcome :=
  try sc := stepcompress_flush sc UINT64_MAX in
  Returns 0 (calc_last_step_print_time
               (sc <| sc_last_step_clock := last_step_clock |> <| sc_sdir := -1 |>)).

Definition stepcompress_set_last_position (sc : stepcompress) (clock last_position : Z)
    : outcome :=
  try sc := stepcompress_flush sc UINT64_MAX in
  let hs := mkHistory clock clock last_position 0 0 0 in
  Returns 0 (sc <| sc_last_position := last_position |>
                <| sc_history_list ::= fun l => hs :: l |>).

(** The number of steps of a quadratic move within [ticks], by the quadratic
    formula. *)
Definition quadratic_offset (interval add ticks : Z) : option Z :=
  let a := fmul f_half (f64 add) in
  let b := fsub (f64 interval) (fmul f_half (f64 add)) in
  let c := f64 (s32 (- ticks)) in
  let det := fsub (fmul b b) (fmul (fmul (f64 4) a) c) in
  f_to_s32 (fdiv (fsub (fsqrt det) b) (fmul (f64 2) a)).

(** The loop of [stepcompress_find_past_position]. *)
Fixpoint find_past (clock last_position : Z) (l : list history_steps) : option Z :=
  match l with
  | [] => Some last_position
  | hs :: l =>
      if clock <? hs_first_clock hs then find_past clock (hs_start_position hs) l
      else if hs_last_clock hs <=? clock then Some (s64 (hs_start_position hs + hs_step_count hs))
      else
        let interval := hs_interval hs in
        let add := hs_add hs in
        let ticks := s32 (s32 (u64 (clock - hs_first_clock hs)) + interval) in
        offset ← if add =? 0 then Some (Z.quot ticks interval)
                 else quadratic_offset interval add ticks;
        Some (if hs_step_count hs <? 0 then s64 (hs_start_position hs - offset)
              else s64 (hs_start_position hs + offset))
  end.

Definition stepcompress_find_past_position (sc : stepcompress) (clock : Z) : option Z :=
  find_past clock (sc_last_position sc) (sc_history_list sc).

(** [stepcompress_extract_old]: the entries copied to [p], at most [max] of
    them; the return value is their number. *)
Fixpoint extract_old (max start_clock end_clock : Z) (l : list history_steps)
    : list history_steps :=
  match l with
  | [] => []
  | hs :: l =>
      if (hs_last_clock hs <=? start_clock) || (max <=? 0) then []
      else if end_clock <=? hs_first_clock hs then extract_old max start_clock end_clock l
      else hs :: extract_old (max - 1) start_clock end_clock l
  end.

Definition stepcompress_extract_old (sc : stepcompress) (max start_clock end_clock : Z)
    : list history_steps :=
  extract_old max start_clock end_clock (sc_history_list sc).
