(* ===== verification/Trapq.v ===== *)
(** * The motion queue of the host: src/klippy/chelper/trapq.c

    A queue of moves with constant acceleration, between a head and a tail
    sentinel.  The kinematics of the steppers (Itersolve) walk through it in
    both directions; moves that are over are kept in a history list, the
    latest first. *)
From S2P Require Import Prelude Double.

(** [struct coord] *)
Record coord : Set := mkCoord { c_x : double; c_y : double; c_z : double }.

(** [struct move] *)
Record move : Set := mkTMove {
  m_print_time : double; m_move_t : double;
  m_start_v : double; m_half_accel : double;
  m_start_pos : coord; m_axes_r : coord }.
#[export] Instance eta_move : Eta move := fun m =>
  mkTMove (m_print_time m) (m_move_t m) (m_start_v m) (m_half_accel m) (m_start_pos m) (m_axes_r m).

(** [struct trapq]; [list_first_entry(&tq->moves)] is [tq_head] and
    [list_last_entry(&tq->moves)] is [tq_tail]. *)
Record trapq : Set := mkTQ {
  tq_head : move; tq_body : list move; tq_tail : move; tq_history : list move }.
#[export] Instance eta_trapq : Eta trapq := fun t =>
  mkTQ (tq_head t) (tq_body t) (tq_tail t) (tq_history t).

Definition NEVER_TIME : double := f_lit 99999999999999999 10.
Definition MAX_NULL_MOVE : double := f64 1.

Definition zero_coord : coord := mkCoord (f64 0) (f64 0) (f64 0).
Definition move_alloc : move := mkTMove (f64 0) (f64 0) (f64 0) (f64 0) zero_coord zero_coord.

Definition move_get_distance (m : move) (move_time : double) : double :=
  fmul (fadd (m_start_v m) (fmul (m_half_accel m) move_time)) move_time.

Definition move_get_coord (m : move) (move_time : double) : coord :=
  let move_dist := move_get_distance m move_time in
  mkCoord (fadd (c_x (m_start_pos m)) (fmul (c_x (m_axes_r m)) move_dist))
          (fadd (c_y (m_start_pos m)) (fmul (c_y (m_axes_r m)) move_dist))
          (fadd (c_z (m_start_pos m)) (fmul (c_z (m_axes_r m)) move_dist)).

(** [m->print_time + m->move_t] *)
Definition move_end (m : move) : double := fadd (m_print_time m) (m_move_t m).

Definition trapq_alloc : trapq :=
  mkTQ (move_alloc <| m_print_time := f_neg (f64 1) |>) []
       (move_alloc <| m_print_time := NEVER_TIME |> <| m_move_t := NEVER_TIME |>) [].

(** [list_prev_entry(tail_sentinel, node)] *)
Definition last_move (tq : trapq) : move := List.last (tq_body tq) (tq_head tq).

Definition trapq_check_sentinels (tq : trapq) : trapq :=
  if f_true (m_print_time (tq_tail tq)) then tq
  else
    match tq_body tq with
    | [] => tq <| tq_tail ::= fun t => t <| m_print_time := NEVER_TIME |> |>
    | _ =>
        let m := last_move tq in
        tq <| tq_tail ::= fun t => t <| m_print_time := move_end m |>
                                     <| m_start_pos := move_get_coord m (m_move_t m) |> |>
    end.

(** "Add a null move to fill time gap" *)
Definition null_move (prev m : move) : move :=
  let print_time :=
    if fle (m_print_time prev) (f64 0) && flt MAX_NULL_MOVE (m_print_time m)
    then fsub (m_print_time m) MAX_NULL_MOVE else move_end prev in
  move_alloc <| m_start_pos := m_start_pos m |> <| m_print_time := print_time |>
             <| m_move_t := fsub (m_print_time m) print_time |>.

Definition trapq_add_move (m : move) (tq : trapq) : trapq :=
  let prev := last_move tq in
  let gap := if flt (move_end prev) (m_print_time m) then [null_move prev m] else [] in
  tq <| tq_body ::= fun l => l ++ gap ++ [m] |>
     <| tq_tail ::= fun t => t <| m_print_time := f64 0 |> |>.

Definition trapq_append (print_time accel_t cruise_t decel_t : double) (start_pos axes_r : coord)
    (start_v cruise_v accel : double) (tq : trapq) : trapq :=
  let add_phase t v ha '(print_time, start_pos, tq) :=
    if f_true t then
      let m := mkTMove print_time t v ha start_pos axes_r in
      (fadd print_time t, move_get_coord m t, trapq_add_move m tq)
    else (print_time, start_pos, tq) in
  let st := (print_time, start_pos, tq) in
  let st := add_phase accel_t start_v (fmul f_half accel) st in
  let st := add_phase cruise_t cruise_v (f64 0) st in
  let st := add_phase decel_t cruise_v (fmul (f_neg f_half) accel) st in
  st.2.

(** "Move expired moves from main list to history list": the moves that stay
    and the history. *)
Fixpoint expire_moves (print_time : double) (moves history : list move) : list move * list move :=
  match moves with
  | [] => ([], history)
  | m :: moves' =>
      if flt print_time (move_end m) then (moves, history)
      else expire_moves print_time moves'
             (if f_true (m_start_v m) || f_true (m_half_accel m) then m :: history else history)
  end.

(** "Free old moves from history list", from its end; the latest move stays. *)
Fixpoint free_history (clear_history_time : double) (oldest_first : list move) : list move :=
  match oldest_first with
  | m :: ((_ :: _) as l) =>
      if flt clear_history_time (move_end m) then oldest_first
      else free_history clear_history_time l
  | _ => oldest_first
  end.

Definition trapq_finalize_moves (print_time clear_history_time : double) (tq : trapq) : trapq :=
  let '(body, history) := expire_moves print_time (tq_body tq) (tq_history tq) in
  let tq := tq <| tq_body := body |> in
  let tq := match body with
            | [] => tq <| tq_tail ::= fun t => t <| m_print_time := NEVER_TIME |> |>
            | _ => tq
            end in
  tq <| tq_history := rev (free_history clear_history_time (rev history)) |>.

(** "Prune any moves in the trapq history that were interrupted" *)
Fixpoint prune_history (print_time : double) (history : list move) : list move :=
  match history with
  | [] => []
  | m :: history' =>
      if flt (m_print_time m) print_time then
        (if flt print_time (move_end m)
         then m <| m_move_t := fsub print_time (m_print_time m) |> else m) :: history'
      else prune_history print_time history'
  end.

Definition trapq_set_position (print_time : double) (pos : coord) (tq : trapq) : trapq :=
  let tq := trapq_finalize_moves NEVER_TIME (f64 0) tq in
  let marker := move_alloc <| m_print_time := print_time |> <| m_start_pos := pos |> in
  tq <| tq_history ::= fun h => marker :: prune_history print_time h |>.

(** [struct pull_move] *)
Record pull_move : Set := mkPull {
  p_print_time : double; p_move_t : double; p_start_v : double; p_accel : double;
  p_start : coord; p_axes_r : coord }.

Definition copy_pull_move (m : move) : pull_move :=
  mkPull (m_print_time m) (m_move_t m) (m_start_v m) (fmul (f64 2) (m_half_accel m))
         (m_start_pos m) (m_axes_r m).

(** A loop of [trapq_extract_old] over moves in reverse order of time;
    [only_moving] is the extra test of the first loop. *)
Fixpoint extract_moves (only_moving : bool) (start_time end_time : double) (room : nat)
    (l : list move) : list pull_move :=
  match l with
  | [] => []
  | m :: l =>
      match room with
      | O => []
      | S room' =>
          if fle (move_end m) start_time then []
          else if fle end_time (m_print_time m)
                  || (only_moving && negb (f_true (m_start_v m)) && negb (f_true (m_half_accel m)))
          then extract_moves only_moving start_time end_time room l
          else copy_pull_move m :: extract_moves only_moving start_time end_time room' l
      end
  end.

Definition trapq_extract_old (max : nat) (start_time end_time : double) (tq : trapq)
    : list pull_move :=
  let moves := tq_tail tq :: rev (tq_body tq) ++ [tq_head tq] in
  let first := extract_moves true start_time end_time max moves in
  first ++ extract_moves false start_time end_time (max - length first) (tq_history tq).
