(* ===== verification/Kinematics.v ===== *)
(** * Stepper kinematics: src/klippy/chelper/kin_*.c

    The position of a stepper at a time within a move.  The callback pointers
    of a [struct stepper_kinematics] are the constructors of [kin], with the
    fields of the structure that embeds it; a wrapping kinematics (dual
    carriage, input shaper) contains the one it wraps.

    A [struct move *] is a [cursor]: the move with the moves before it, the
    nearest first, and the moves after it.  Walking off the list is undefined
    behaviour, [None].  The trigonometric functions of the C library are
    parameters. *)
From Stdlib Require Import Ascii.
From S2P Require Import Prelude Double Trapq.

Class Libm := { atan2 : double -> double -> double; cos : double -> double; sin : double -> double }.

Record cursor : Set := mkCur { cu_prev : list move; cu_move : move; cu_next : list move }.

(** A move on no list, such as the [m] field of a wrapper. *)
Definition alone (m : move) : cursor := mkCur [] m [].

(** ** Data *)

Definition AF_X : Z := 1.
Definition AF_Y : Z := 2.
Definition AF_Z : Z := 4.

(** [struct pa_params] *)
Record pa_params : Set := mkPA { pa_pressure_advance : double; pa_active_print_time : double }.

(** [struct shaper_pulses]: the pulses as pairs of [t] and [a]. *)
Definition shaper_pulses : Set := list (double * double).

(** The callback [input_shaper_set_sk] or [input_shaper_update_sk] selected. *)
Inductive shaper_cb : Set := SHAPER_NULL | SHAPER_X | SHAPER_Y | SHAPER_Z | SHAPER_XYZ.

(** The fields of [struct stepper_kinematics] other than the callbacks; a
    [struct trapq *] is the number of the queue. *)
Record sk_fields : Set := mkSKF {
  sk_step_dist : double; sk_commanded_pos : double;
  sk_last_flush_time : double; sk_last_move_time : double;
  sk_tq : option Z; sk_active_flags : Z;
  sk_gen_steps_pre_active : double; sk_gen_steps_post_active : double }.
#[export] Instance eta_sk_fields : Eta sk_fields := fun f =>
  mkSKF (sk_step_dist f) (sk_commanded_pos f) (sk_last_flush_time f) (sk_last_move_time f)
    (sk_tq f) (sk_active_flags f) (sk_gen_steps_pre_active f) (sk_gen_steps_post_active f).

Inductive stepper_kinematics : Set := mkSK (f : sk_fields) (k : kin)
with kin : Set :=
| KIN_NULL
| KIN_cart_x | KIN_cart_y | KIN_cart_z
| KIN_corexy_plus | KIN_corexy_minus | KIN_corexz_plus | KIN_corexz_minus
| KIN_delta (arm2 tower_x tower_y : double)
| KIN_deltesian (arm2 arm_x : double)
| KIN_generic (a : coord)
| KIN_winch (anchor : coord)
| KIN_polar_radius | KIN_polar_angle
| KIN_rotary (cos sin shoulder_radius shoulder_height upper_arm2 lower_arm2 : double)
| KIN_extruder (pa_list : list pa_params) (half_smooth_time inv_half_smooth_time2 : double)
| KIN_dual_carriage (orig_sk : option stepper_kinematics) (m : move)
    (x_scale x_offs y_scale y_offs : double)
| KIN_shaper (cb : shaper_cb) (orig_sk : option stepper_kinematics) (m : move)
    (sp_x sp_y sp_z : shaper_pulses) (forward_post : bool).

Definition sk_f (sk : stepper_kinematics) : sk_fields := let 'mkSK f _ := sk in f.
Definition sk_k (sk : stepper_kinematics) : kin := let 'mkSK _ k := sk in k.
Definition sk_map (g : sk_fields -> sk_fields) (sk : stepper_kinematics) : stepper_kinematics :=
  let 'mkSK f k := sk in mkSK (g f) k.

(** A zeroed structure with the given callback and flags. *)
Definition sk_zero (active_flags : Z) (k : kin) : stepper_kinematics :=
  mkSK (mkSKF (f64 0) (f64 0) (f64 0) (f64 0) None active_flags (f64 0) (f64 0)) k.

(** ** Extruder with pressure advance (kin_extruder.c) *)

Definition extruder_integrate (base start_v half_accel start end_ : double) : double :=
  let half_v := fmul f_half start_v in
  let sixth_a := fmul (fdiv (f64 1) (f64 3)) half_accel in
  let at_ t := fmul t (fadd base (fmul t (fadd half_v (fmul t sixth_a)))) in
  fsub (at_ end_) (at_ start).

Definition extruder_integrate_time (base start_v half_accel start end_ : double) : double :=
  let half_b := fmul f_half base in
  let third_v := fmul (fdiv (f64 1) (f64 3)) start_v in
  let eighth_a := fmul (f_lit 1 4) half_accel in
  let at_ t := fmul (fmul t t) (fadd half_b (fmul t (fadd third_v (fmul t eighth_a)))) in
  fsub (at_ end_) (at_ start).

(** "Determine pressure_advance value" from the latest parameters on. *)
Fixpoint find_pressure_advance (print_time : double) (latest_first : list pa_params)
    : option double :=
  match latest_first with
  | [] => None
  | [pa] => Some (pa_pressure_advance pa)
  | pa :: l =>
      if flt print_time (pa_active_print_time pa) then find_pressure_advance print_time l
      else Some (pa_pressure_advance pa)
  end.

Definition pa_move_integrate (m : move) (pa_list : list pa_params)
    (base start end_ time_offset : double) : option double :=
  let start := if flt start (f64 0) then f64 0 else start in
  let end_ := if flt (m_move_t m) end_ then m_move_t m else end_ in
  pressure_advance ←
    (if fne (c_y (m_axes_r m)) (f64 0) then find_pressure_advance (m_print_time m) (rev pa_list)
     else Some (f64 0));
  let base := fadd base (fmul pressure_advance (m_start_v m)) in
  let start_v := fadd (m_start_v m) (fmul (fmul pressure_advance (f64 2)) (m_half_accel m)) in
  let ha := m_half_accel m in
  let iext := extruder_integrate base start_v ha start end_ in
  let wgt_ext := extruder_integrate_time base start_v ha start end_ in
  Some (fsub wgt_ext (fmul time_offset iext)).

(** "Integrate over previous moves" *)
Fixpoint pa_integrate_prev (pa_list : list pa_params) (start_base start res : double)
    (prev : list move) : option double :=
  if flt start (f64 0) then
    match prev with
    | [] => None
    | p :: prev =>
        let start := fadd start (m_move_t p) in
        let base := fsub (c_x (m_start_pos p)) start_base in
        v ← pa_move_integrate p pa_list base start (m_move_t p) start;
        pa_integrate_prev pa_list start_base start (fadd res v) prev
    end
  else Some res.

(** "Integrate over future moves", from the move [m] on. *)
Fixpoint pa_integrate_next (pa_list : list pa_params) (start_base end_ res : double)
    (m : move) (next : list move) : option double :=
  if flt (m_move_t m) end_ then
    match next with
    | [] => None
    | n :: next =>
        let end_ := fsub end_ (m_move_t m) in
        let base := fsub (c_x (m_start_pos n)) start_base in
        v ← pa_move_integrate n pa_list base (f64 0) end_ end_;
        pa_integrate_next pa_list start_base end_ (fsub res v) n next
    end
  else Some res.

Definition pa_range_integrate (cur : cursor) (move_time : double) (pa_list : list pa_params)
    (hst : double) : option double :=
  let m := cu_move cur in
  let start := fsub move_time hst in
  let end_ := fadd move_time hst in
  let start_base := c_x (m_start_pos m) in
  a ← pa_move_integrate m pa_list (f64 0) start move_time start;
  b ← pa_move_integrate m pa_list (f64 0) move_time end_ end_;
  let res := fsub (fadd (f64 0) a) b in
  res ← pa_integrate_prev pa_list start_base start res (cu_prev cur);
  pa_integrate_next pa_list start_base end_ res m (cu_next cur).

Definition extruder_calc_position (pa_list : list pa_params) (hst inv_hst2 : double)
    (cur : cursor) (move_time : double) : option double :=
  let m := cu_move cur in
  if negb (f_true hst) then Some (fadd (c_x (m_start_pos m)) (move_get_distance m move_time))
  else
    area ← pa_range_integrate cur move_time pa_list hst;
    Some (fadd (c_x (m_start_pos m)) (fmul area inv_hst2)).

(** ** Input shaper (kin_shaper.c) *)

Definition shift_pulses (sp : shaper_pulses) : shaper_pulses :=
  let ts := foldl (fun ts '(t, a) => fadd ts (fmul a t)) (f64 0) sp in
  map (fun '(t, a) => (fsub t ts, a)) sp.

(** [init_shaper] with the arrays [a] and [t] as a list of pairs. *)
Definition init_shaper (at_ : list (double * double)) : Z * shaper_pulses :=
  if (5 <? Z.of_nat (length at_)) then (-1, [])
  else
    let sum_a := foldl (fun s '(a, _) => fadd s a) (f64 0) at_ in
    let inv_a := fdiv (f64 1) sum_a in
    (0, shift_pulses (rev (map (fun '(a, t) => (f_neg t, fmul a inv_a)) at_))).

Inductive axis : Set := X | Y | Z'.
Definition on_axis (a : axis) (c : coord) : double :=
  match a with X => c_x c | Y => c_y c | Z' => c_z c end.

Definition get_axis_position (m : move) (a : axis) (move_time : double) : double :=
  fadd (on_axis a (m_start_pos m)) (fmul (on_axis a (m_axes_r m)) (move_get_distance m move_time)).

(** The second loop of [get_axis_position_across_moves]. *)
Fixpoint seek_next (m : move) (next : list move) (time : double) : option (move * double) :=
  if flt (m_move_t m) time then
    match next with
    | [] => None
    | n :: next => seek_next n next (fsub time (m_move_t m))
    end
  else Some (m, time).

(** Its first loop, then the second. *)
Fixpoint seek_prev (prev : list move) (m : move) (next : list move) (time : double)
    : option (move * double) :=
  if flt time (f64 0) then
    match prev with
    | [] => None
    | p :: prev => seek_prev prev p (m :: next) (fadd time (m_move_t p))
    end
  else seek_next m next time.

Definition get_axis_position_across_moves (cur : cursor) (a : axis) (time : double)
    : option double :=
  '(m, time) ← seek_prev (cu_prev cur) (cu_move cur) (cu_next cur) time;
  Some (get_axis_position m a time).

Definition calc_position (cur : cursor) (ax : axis) (move_time : double) (sp : shaper_pulses)
    : option double :=
  foldl (fun res '(t, a) =>
           res ← res;
           p ← get_axis_position_across_moves cur ax (fadd move_time t);
           Some (fadd res (fmul a p))) (Some (f64 0)) sp.

Definition DUMMY_T : double := f64 500.

Definition set_x (v : double) (c : coord) : coord := mkCoord v (c_y c) (c_z c).
Definition set_y (v : double) (c : coord) : coord := mkCoord (c_x c) v (c_z c).
Definition set_z (v : double) (c : coord) : coord := mkCoord (c_x c) (c_y c) v.

(** ** Rotary delta (kin_rotary_delta.c) and polar (kin_polar.c) *)

(** The [double] nearest to pi. *)
Definition M_PI : double := fdiv (f64 7074237752028440) (f64 (2 ^ 51)).

Section Kinematics.
Context `{Libm}.

Definition rotary_two_arm_calc (dx dy upper_arm2 lower_arm2 : double) : double :=
  let inv_dy := fdiv (f64 1) dy in
  let c1 := fmul (fmul f_half inv_dy)
              (fsub (fadd (fadd (fmul dx dx) (fmul dy dy)) upper_arm2) lower_arm2) in
  let c2 := fmul dx inv_dy in
  let scale := fadd (fmul c2 c2) (f64 1) in
  let scaled_elbow_x := fadd (fmul c1 c2) (fsqrt (fsub (fmul scale upper_arm2) (fmul c1 c1))) in
  let scaled_elbow_y := fsub (fmul c1 scale) (fmul c2 scaled_elbow_x) in
  atan2 scaled_elbow_y scaled_elbow_x.

Definition rotary_stepper_calc_position (cos sin shoulder_radius shoulder_height upper_arm2
    lower_arm2 : double) (c : coord) : double :=
  let sjz := fsub (fmul (c_y c) cos) (fmul (c_x c) sin) in
  let sjx := fsub (fadd (fmul (c_x c) cos) (fmul (c_y c) sin)) shoulder_radius in
  let sjy := fsub (c_z c) shoulder_height in
  rotary_two_arm_calc sjx sjy upper_arm2 (fsub lower_arm2 (fmul sjz sjz)).

Definition polar_stepper_angle_calc_position (commanded_pos : double) (c : coord) : double :=
  let angle := atan2 (c_y c) (c_x c) in
  if flt M_PI (fsub angle commanded_pos) then fsub angle (fmul (f64 2) M_PI)
  else if flt (fsub angle commanded_pos) (f_neg M_PI) then fadd angle (fmul (f64 2) M_PI)
  else angle.

Definition polar_stepper_angle_post_fixup (f : sk_fields) : sk_fields :=
  if flt (sk_commanded_pos f) (f_neg M_PI) then
    f <| sk_commanded_pos ::= fun p => fadd p (fmul (f64 2) M_PI) |>
  else if flt M_PI (sk_commanded_pos f) then
    f <| sk_commanded_pos ::= fun p => fsub p (fmul (f64 2) M_PI) |>
  else f.

(** ** The callbacks *)

(** The kinematics whose position depends on the coordinate only. *)
Definition cart_stepper_x_calc_position (c : coord) : double := c_x c.
Definition cart_stepper_y_calc_position (c : coord) : double := c_y c.
Definition cart_stepper_z_calc_position (c : coord) : double := c_z c.
Definition corexy_stepper_plus_calc_position (c : coord) : double := fadd (c_x c) (c_y c).
Definition corexy_stepper_minus_calc_position (c : coord) : double := fsub (c_x c) (c_y c).
Definition corexz_stepper_plus_calc_position (c : coord) : double := fadd (c_x c) (c_z c).
Definition corexz_stepper_minus_calc_position (c : coord) : double := fsub (c_x c) (c_z c).

Definition delta_stepper_calc_position (arm2 tower_x tower_y : double) (c : coord) : double :=
  let dx := fsub tower_x (c_x c) in
  let dy := fsub tower_y (c_y c) in
  fadd (fsqrt (fsub (fsub arm2 (fmul dx dx)) (fmul dy dy))) (c_z c).

Definition deltesian_stepper_calc_position (arm2 arm_x : double) (c : coord) : double :=
  let dx := fsub (c_x c) arm_x in
  fadd (fsqrt (fsub arm2 (fmul dx dx))) (c_z c).

Definition generic_cartesian_stepper_calc_position (a c : coord) : double :=
  fadd (fadd (fmul (c_x a) (c_x c)) (fmul (c_y a) (c_y c))) (fmul (c_z a) (c_z c)).

Definition winch_stepper_calc_position (anchor c : coord) : double :=
  let dx := fsub (c_x anchor) (c_x c) in
  let dy := fsub (c_y anchor) (c_y c) in
  let dz := fsub (c_z anchor) (c_z c) in
  fsqrt (fadd (fadd (fmul dx dx) (fmul dy dy)) (fmul dz dz)).

Definition polar_stepper_radius_calc_position (c : coord) : double :=
  fsqrt (fadd (fmul (c_x c) (c_x c)) (fmul (c_y c) (c_y c))).

Definition coord_position (f : sk_fields) (k : kin) (c : coord) : option double :=
  match k with
  | KIN_cart_x => Some (cart_stepper_x_calc_position c)
  | KIN_cart_y => Some (cart_stepper_y_calc_position c)
  | KIN_cart_z => Some (cart_stepper_z_calc_position c)
  | KIN_corexy_plus => Some (corexy_stepper_plus_calc_position c)
  | KIN_corexy_minus => Some (corexy_stepper_minus_calc_position c)
  | KIN_corexz_plus => Some (corexz_stepper_plus_calc_position c)
  | KIN_corexz_minus => Some (corexz_stepper_minus_calc_position c)
  | KIN_delta arm2 tower_x tower_y => Some (delta_stepper_calc_position arm2 tower_x tower_y c)
  | KIN_deltesian arm2 arm_x => Some (deltesian_stepper_calc_position arm2 arm_x c)
  | KIN_generic a => Some (generic_cartesian_stepper_calc_position a c)
  | KIN_winch anchor => Some (winch_stepper_calc_position anchor c)
  | KIN_polar_radius => Some (polar_stepper_radius_calc_position c)
  | KIN_polar_angle => Some (polar_stepper_angle_calc_position (sk_commanded_pos f) c)
  | KIN_rotary cos sin sr sh ua2 la2 => Some (rotary_stepper_calc_position cos sin sr sh ua2 la2 c)
  | _ => None
  end.

(** The coordinate the input shaper computes ([shaper_*_calc_position]);
    [None]: the original kinematics is used directly. *)
Definition shaper_coord (cb : shaper_cb) (m : move) (sp_x sp_y sp_z : shaper_pulses)
    (cur : cursor) (move_time : double) : option (option coord) :=
  let shaped ax sp set c :=
    match sp with [] => Some c | _ => v ← calc_position cur ax move_time sp; Some (set v c) end in
  let only ax sp set :=
    match sp with
    | [] => Some None
    | _ => v ← calc_position cur ax move_time sp; Some (Some (set v (m_start_pos m)))
    end in
  match cb with
  | SHAPER_NULL => None
  | SHAPER_X => only X sp_x set_x
  | SHAPER_Y => only Y sp_y set_y
  | SHAPER_Z => only Z' sp_z set_z
  | SHAPER_XYZ =>
      match sp_x, sp_y, sp_z with
      | [], [], [] => Some None
      | _, _, _ =>
          let c := move_get_coord (cu_move cur) move_time in
          c ← shaped X sp_x set_x c;
          c ← shaped Y sp_y set_y c;
          c ← shaped Z' sp_z set_z c;
          Some (Some c)
      end
  end.

(** [sk->calc_position_cb(sk, m, move_time)]; the wrappers also store the
    coordinate in their own [m]. *)
Fixpoint calc_position_cb (sk : stepper_kinematics) (cur : cursor) (move_time : double)
    : option (double * stepper_kinematics) :=
  match sk with
  | mkSK f (KIN_extruder pa_list hst inv_hst2) =>
      p ← extruder_calc_position pa_list hst inv_hst2 cur move_time; Some (p, sk)
  | mkSK f (KIN_dual_carriage (Some orig) m xs xo ys yo) =>
      let pos := move_get_coord (cu_move cur) move_time in
      let m := m <| m_start_pos := mkCoord (fadd (fmul (c_x pos) xs) xo)
                                           (fadd (fmul (c_y pos) ys) yo) (c_z pos) |> in
      '(p, orig) ← calc_position_cb orig (alone m) DUMMY_T;
      Some (p, mkSK f (KIN_dual_carriage (Some orig) m xs xo ys yo))
  | mkSK f (KIN_shaper cb (Some orig) m sp_x sp_y sp_z post) =>
      r ← shaper_coord cb m sp_x sp_y sp_z cur move_time;
      match r with
      | None =>
          '(p, orig) ← calc_position_cb orig cur move_time;
          Some (p, mkSK f (KIN_shaper cb (Some orig) m sp_x sp_y sp_z post))
      | Some c =>
          let m := m <| m_start_pos := c |> in
          '(p, orig) ← calc_position_cb orig (alone m) DUMMY_T;
          Some (p, mkSK f (KIN_shaper cb (Some orig) m sp_x sp_y sp_z post))
      end
  | mkSK f k =>
      p ← coord_position f k (move_get_coord (cu_move cur) move_time); Some (p, sk)
  end.

(** [sk->post_cb], if there is one ([shaper_commanded_pos_post_fixup] forwards
    to the original kinematics). *)
Fixpoint post_kin (f : sk_fields) (k : kin) : sk_fields * kin :=
  match k with
  | KIN_polar_angle => (polar_stepper_angle_post_fixup f, k)
  | KIN_shaper cb (Some (mkSK g k)) m sp_x sp_y sp_z true =>
      let '(g, k) := post_kin (g <| sk_commanded_pos := sk_commanded_pos f |>) k in
      (f <| sk_commanded_pos := sk_commanded_pos g |>,
       KIN_shaper cb (Some (mkSK g k)) m sp_x sp_y sp_z true)
  | _ => (f, k)
  end.

Definition post_cb (sk : stepper_kinematics) : stepper_kinematics :=
  let 'mkSK f k := sk in let '(f, k) := post_kin f k in mkSK f k.

(** Does the structure have a [post_cb]? *)
Definition has_post_cb (sk : stepper_kinematics) : bool :=
  match sk_k sk with KIN_polar_angle => true | KIN_shaper _ _ _ _ _ _ post => post | _ => false end.

(** ** Allocation and settings *)

(** [cartesian_stepper_alloc], [corexy_stepper_alloc], ...: the [char]
    arguments are given as characters. *)
Definition cartesian_stepper_alloc (axis : Ascii.ascii) : stepper_kinematics :=
  if Ascii.eqb axis "x"%char then sk_zero AF_X KIN_cart_x
  else if Ascii.eqb axis "y"%char then sk_zero AF_Y KIN_cart_y
  else if Ascii.eqb axis "z"%char then sk_zero AF_Z KIN_cart_z
  else sk_zero 0 KIN_NULL.

Definition corexy_stepper_alloc (type : Ascii.ascii) : stepper_kinematics :=
  sk_zero (Z.lor AF_X AF_Y)
    (if Ascii.eqb type "+"%char then KIN_corexy_plus
     else if Ascii.eqb type "-"%char then KIN_corexy_minus else KIN_NULL).

Definition corexz_stepper_alloc (type : Ascii.ascii) : stepper_kinematics :=
  sk_zero (Z.lor AF_X AF_Z)
    (if Ascii.eqb type "+"%char then KIN_corexz_plus
     else if Ascii.eqb type "-"%char then KIN_corexz_minus else KIN_NULL).

Definition delta_stepper_alloc (arm2 tower_x tower_y : double) : stepper_kinematics :=
  sk_zero (Z.lor (Z.lor AF_X AF_Y) AF_Z) (KIN_delta arm2 tower_x tower_y).

Definition deltesian_stepper_alloc (arm2 arm_x : double) : stepper_kinematics :=
  sk_zero (Z.lor AF_X AF_Z) (KIN_deltesian arm2 arm_x).

Definition generic_flags (a : coord) : Z :=
  Z.lor (Z.lor (if f_true (c_x a) then AF_X else 0) (if f_true (c_y a) then AF_Y else 0))
        (if f_true (c_z a) then AF_Z else 0).

Definition generic_cartesian_stepper_set_coeffs (a : coord) (sk : stepper_kinematics)
    : stepper_kinematics :=
  mkSK ((sk_f sk) <| sk_active_flags := generic_flags a |>) (KIN_generic a).

Definition generic_cartesian_stepper_alloc (a : coord) : stepper_kinematics :=
  generic_cartesian_stepper_set_coeffs a (sk_zero 0 (KIN_generic zero_coord)).

Definition winch_stepper_alloc (anchor : coord) : stepper_kinematics :=
  sk_zero (Z.lor (Z.lor AF_X AF_Y) AF_Z) (KIN_winch anchor).

Definition polar_stepper_alloc (type : Ascii.ascii) : stepper_kinematics :=
  sk_zero (Z.lor AF_X AF_Y)
    (if Ascii.eqb type "r"%char then KIN_polar_radius
     else if Ascii.eqb type "a"%char then KIN_polar_angle else KIN_NULL).

Definition rotary_delta_stepper_alloc (shoulder_radius shoulder_height angle upper_arm lower_arm
    : double) : stepper_kinematics :=
  sk_zero (Z.lor (Z.lor AF_X AF_Y) AF_Z)
    (KIN_rotary (cos angle) (sin angle) shoulder_radius shoulder_height
       (fmul upper_arm upper_arm) (fmul lower_arm lower_arm)).
End Kinematics.

Definition extruder_stepper_alloc : stepper_kinematics :=
  sk_zero AF_X (KIN_extruder [mkPA (f64 0) (f64 0)] (f64 0) (f64 0)).

(** "Cleanup old pressure advance parameters" *)
Fixpoint cleanup_pa (cleanup_time : double) (l : list pa_params) : list pa_params :=
  match l with
  | _ :: ((next_pa :: _) as l') =>
      if fle cleanup_time (pa_active_print_time next_pa) then l else cleanup_pa cleanup_time l'
  | _ => l
  end.

Definition extruder_set_pressure_advance (print_time pressure_advance smooth_time : double)
    (sk : stepper_kinematics) : option stepper_kinematics :=
  match sk with
  | mkSK f (KIN_extruder pa_list old_hst inv_hst2) =>
      let hst := fmul smooth_time f_half in
      let f' := f <| sk_gen_steps_pre_active := hst |> <| sk_gen_steps_post_active := hst |> in
      let cleanup_time := fsub (sk_last_flush_time f) (if flt hst old_hst then old_hst else hst) in
      let pa_list := cleanup_pa cleanup_time pa_list in
      if negb (f_true hst) then Some (mkSK f' (KIN_extruder pa_list hst inv_hst2))
      else
        let inv_hst2 := fdiv (f64 1) (fmul hst hst) in
        last_pa ← last pa_list;
        Some (mkSK f' (KIN_extruder
          (if feq (pa_pressure_advance last_pa) pressure_advance then pa_list
           else pa_list ++ [mkPA pressure_advance print_time]) hst inv_hst2))
  | _ => None
  end.

(** The move a wrapper passes on. *)
Definition dummy_move : move := move_alloc <| m_move_t := fmul (f64 2) DUMMY_T |>.

Definition dual_carriage_alloc : stepper_kinematics :=
  sk_zero 0 (KIN_dual_carriage None dummy_move (f64 1) (f64 0) (f64 1) (f64 0)).

Definition dual_carriage_set_sk (orig : stepper_kinematics) (sk : stepper_kinematics)
    : option stepper_kinematics :=
  match sk with
  | mkSK f (KIN_dual_carriage _ m xs xo ys yo) =>
      Some (mkSK (f <| sk_active_flags := sk_active_flags (sk_f orig) |>)
              (KIN_dual_carriage (Some orig) m xs xo ys yo))
  | _ => None
  end.

(** The flags after a new scale for an axis of the original kinematics. *)
Definition scaled_flags (scale : double) (af orig_flags flags : Z) : Z :=
  if negb (f_true scale) then Z.land flags (Z.lnot af)
  else if flag orig_flags af then Z.lor flags af else flags.

Definition dual_carriage_set_transform (axis : Ascii.ascii) (scale offs : double)
    (sk : stepper_kinematics) : option (Z * stepper_kinematics) :=
  match sk with
  | mkSK f (KIN_dual_carriage (Some orig) m xs xo ys yo) =>
      let set af := f <| sk_active_flags ::= scaled_flags scale af (sk_active_flags (sk_f orig)) |> in
      Some (if Ascii.eqb axis "x"%char then
              (0, mkSK (set AF_X) (KIN_dual_carriage (Some orig) m scale offs ys yo))
            else if Ascii.eqb axis "y"%char then
              (0, mkSK (set AF_Y) (KIN_dual_carriage (Some orig) m xs xo scale offs))
            else (-1, sk))
  | _ => None
  end.

Definition input_shaper_alloc : stepper_kinematics :=
  sk_zero 0 (KIN_shaper SHAPER_NULL None dummy_move [] [] [] false).

(** The generation times one axis asks for. *)
Definition note_axis (af : Z) (flags : Z) (sp : shaper_pulses) (times : double * double)
    : double * double :=
  match head sp, last sp with
  | Some (t0, _), Some (tn, _) =>
      if flag flags af then
        (if flt times.1 tn then tn else times.1,
         if flt times.2 (f_neg t0) then f_neg t0 else times.2)
      else times
  | _, _ => times
  end.

Definition shaper_note_generation_time (f : sk_fields) (sp_x sp_y sp_z : shaper_pulses)
    : sk_fields :=
  let flags := sk_active_flags f in
  let times := match head sp_x, last sp_x with
               | Some (t0, _), Some (tn, _) =>
                   if flag flags AF_X then (tn, f_neg t0) else (f64 0, f64 0)
               | _, _ => (f64 0, f64 0)
               end in
  let times := note_axis AF_Y flags sp_y times in
  let times := note_axis AF_Z flags sp_z times in
  f <| sk_gen_steps_pre_active := times.1 |> <| sk_gen_steps_post_active := times.2 |>.

Definition shaper_cb_for (flags : Z) : shaper_cb :=
  if flags =? AF_X then SHAPER_X else if flags =? AF_Y then SHAPER_Y
  else if flags =? AF_Z then SHAPER_Z else SHAPER_XYZ.

Definition AF_XYZ : Z := Z.lor (Z.lor AF_X AF_Y) AF_Z.

Definition input_shaper_update_sk (sk : stepper_kinematics) : option stepper_kinematics :=
  match sk with
  | mkSK f (KIN_shaper _ (Some orig) m sp_x sp_y sp_z post) =>
      let flags := sk_active_flags (sk_f orig) in
      let f := f <| sk_active_flags := flags |> in
      Some (mkSK (shaper_note_generation_time f sp_x sp_y sp_z)
              (KIN_shaper (shaper_cb_for (Z.land flags AF_XYZ)) (Some orig) m sp_x sp_y sp_z post))
  | _ => None
  end.

Definition input_shaper_set_sk (orig : stepper_kinematics) (sk : stepper_kinematics)
    : option (Z * stepper_kinematics) :=
  match sk with
  | mkSK f (KIN_shaper _ _ m sp_x sp_y sp_z post) =>
      let g := sk_f orig in
      let flags := sk_active_flags g in
      if negb (flag flags AF_XYZ) then Some (-1, sk)
      else
        Some (0, mkSK (f <| sk_active_flags := flags |>
                         <| sk_commanded_pos := sk_commanded_pos g |>
                         <| sk_last_flush_time := sk_last_flush_time g |>
                         <| sk_last_move_time := sk_last_move_time g |>)
                   (KIN_shaper (shaper_cb_for flags) (Some orig) m sp_x sp_y sp_z
                      (post || has_post_cb orig)))
  | _ => None
  end.

Definition input_shaper_set_shaper_params (ax : axis) (at_ : list (double * double))
    (sk : stepper_kinematics) : option (Z * stepper_kinematics) :=
  match sk with
  | mkSK f (KIN_shaper cb (Some orig) m sp_x sp_y sp_z post) =>
      let af := match ax with X => AF_X | Y => AF_Y | Z' => AF_Z end in
      if flag (sk_active_flags (sk_f orig)) af then
        let '(status, sp) := init_shaper at_ in
        let sp_x := match ax with X => sp | _ => sp_x end in
        let sp_y := match ax with Y => sp | _ => sp_y end in
        let sp_z := match ax with Z' => sp | _ => sp_z end in
        Some (status, mkSK (shaper_note_generation_time f sp_x sp_y sp_z)
                        (KIN_shaper cb (Some orig) m sp_x sp_y sp_z post))
      else Some (0, sk)
  | _ => None
  end.
