(* ===== verification/Itersolve.v ===== *)
(** * Step generation of the host: src/klippy/chelper/itersolve.c

    For every step of a stepper the solver searches the time at which the
    stepper's position passes the next half step, with the secant method
    guarded by a bracket, and hands the time to step compression.  The search
    has no bound of its own, so that the loop carries fuel: running out of it
    is an outcome of its own and not a result. *)
From Stdlib Require Import Ascii.
From S2P Require Import Prelude Double Protocol Msgblock Stepcompress Trapq Kinematics.

(** Undefined behaviour: the walk leaves the motion queue, the position callback
    has no result, or step compression fails. *)
Inductive gen_error : Set := OffList | NoPosition | Compression (u : undefined).

(** The return value with the kinematics and the compressor after the call;
    undefined behaviour; or out of fuel. *)
Inductive gen_outcome : Set :=
| Gen (ret : Z) (sk : stepper_kinematics) (sc : stepcompress)
| GenUndefined (e : gen_error)
| GenOutOfFuel.

(** [ret = r; if (ret) return ret; k] *)
Definition gen_then (r : gen_outcome) (k : stepper_kinematics -> stepcompress -> gen_outcome)
    : gen_outcome :=
  match r with
  | Gen ret sk sc => if negb (ret =? 0) then r else k sk sc
  | _ => r
  end.

Definition SEEK_TIME_RESET : double := f_lit 1 10000.
Definition EPSILON : double := f_lit 1 1000000000.

(** The local variables of [itersolve_gen_steps_range]. *)
Record search : Set := mkSearch {
  s_old_time : double; s_old_pos : double; s_time : double; s_pos : double;
  s_sdir : Z; s_is_dir_change : bool; s_have_bracket : bool; s_check_oscillate : bool;
  s_target : double; s_last_time : double; s_low_time : double; s_high_time : double }.
#[export] Instance eta_search : Eta search := fun s =>
  mkSearch (s_old_time s) (s_old_pos s) (s_time s) (s_pos s) (s_sdir s) (s_is_dir_change s)
    (s_have_bracket s) (s_check_oscillate s) (s_target s) (s_last_time s) (s_low_time s)
    (s_high_time s).

(** [sdir ? x : -x] *)
Definition signed_by (sdir : Z) (x : double) : double := if sdir =? 0 then f_neg x else x.

(** [sdir ? target + half_step + half_step : target - half_step - half_step] *)
Definition next_target (sdir : Z) (half_step target : double) : double :=
  if sdir =? 0 then fsub (fsub target half_step) half_step
  else fadd (fadd target half_step) half_step.

Definition at_most (x bound : double) : double := if flt bound x then bound else x.

(** "Use the secant method to guess a new time"; [None]: there are no more
    steps in the range. *)
Definition guess_time (end_ : double) (s : search) : option (double * search) :=
  let guess_dist := fsub (s_pos s) (s_target s) in
  let og_dist := fsub (s_old_pos s) (s_target s) in
  let next_time := fdiv (fsub (fmul (s_old_time s) guess_dist) (fmul (s_time s) og_dist))
                     (fsub guess_dist og_dist) in
  if flt (s_low_time s) next_time && flt next_time (s_high_time s) then Some (next_time, s)
  else if s_have_bracket s then
    (* A poor guess - fall back to bisection *)
    Some (fmul (fadd (s_low_time s) (s_high_time s)) f_half, s <| s_check_oscillate := false |>)
  else if fle end_ (s_time s) then None
  else
    (* Might be a poor guess - limit to exponential search *)
    let high_time := fsub (fmul (f64 2) (s_high_time s)) (s_last_time s) in
    Some (s_high_time s, s <| s_high_time := at_most high_time end_ |>).

(** "Guess does not look close enough - update bounds" *)
Definition update_bounds (half_step rel_dist : double) (s : search) : search :=
  if flt (f64 0) rel_dist then
    (* Found position past target, so step is definitely present *)
    let s :=
      if s_have_bracket s && fle (s_old_time s) (s_low_time s) then
        let s := if s_check_oscillate s
                 then s <| s_old_time := s_time s |> <| s_old_pos := s_pos s |> else s in
        s <| s_check_oscillate := true |>
      else s in
    s <| s_high_time := s_time s |> <| s_have_bracket := true |>
  else if flt rel_dist (f_neg (fadd (fadd half_step half_step) (f_lit 1 100000000))) then
    (* Found direction change *)
    let sdir := if s_sdir s =? 0 then 1 else 0 in
    s <| s_sdir := sdir |> <| s_target := next_target sdir half_step (s_target s) |>
      <| s_low_time := s_last_time s |> <| s_high_time := s_time s |>
      <| s_is_dir_change := true |> <| s_have_bracket := true |> <| s_check_oscillate := false |>
  else s <| s_low_time := s_time s |>.

(** After a step: the next target and "Reset bounds checking". *)
Definition after_step (half_step end_ : double) (s : search) : search :=
  let seek_time_delta := fmul (f_lit 3 2) (fsub (s_time s) (s_last_time s)) in
  let seek_time_delta := if flt seek_time_delta EPSILON then EPSILON else seek_time_delta in
  let seek_time_delta := if s_is_dir_change s && flt SEEK_TIME_RESET seek_time_delta
                         then SEEK_TIME_RESET else seek_time_delta in
  s <| s_target ::= next_target (s_sdir s) half_step |>
    <| s_last_time := s_time s |> <| s_low_time := s_time s |>
    <| s_high_time := at_most (fadd (s_time s) seek_time_delta) end_ |>
    <| s_is_dir_change := false |> <| s_have_bracket := false |> <| s_check_oscillate := false |>.

Section Itersolve.
Context `{Libm}.

(** The loop of [itersolve_gen_steps_range]. *)
Fixpoint search_loop (fuel : nat) (cur : cursor) (half_step end_ : double)
    (sk : stepper_kinematics) (sc : stepcompress) (s : search) : gen_outcome :=
  match fuel with
  | O => GenOutOfFuel
  | S fuel =>
      match guess_time end_ s with
      | None =>
          let commanded_pos := fsub (s_target s) (signed_by (s_sdir s) half_step) in
          Gen 0 (post_cb (sk_map (fun f => f <| sk_commanded_pos := commanded_pos |>) sk)) sc
      | Some (next_time, s) =>
          match calc_position_cb sk cur next_time with
          | None => GenUndefined NoPosition
          | Some (pos, sk) =>
              let s := s <| s_old_time := s_time s |> <| s_old_pos := s_pos s |>
                         <| s_time := next_time |> <| s_pos := pos |> in
              let guess_dist := fsub pos (s_target s) in
              let far := flt EPSILON (f_abs guess_dist) in
              let rel_dist := signed_by (s_sdir s) guess_dist in
              let s := if far then update_bounds half_step rel_dist s else s in
              if far && (negb (s_have_bracket s)
                         || flt EPSILON (fsub (s_high_time s) (s_low_time s))) then
                if negb (s_is_dir_change s) && fle (f_neg half_step) rel_dist then
                  (* Avoid rollback if stepper fully reaches step position *)
                  match stepcompress_commit sc with
                  | Returns _ sc => search_loop fuel cur half_step end_ sk sc s
                  | Undefined u => GenUndefined (Compression u)
                  | OutOfFuel => GenOutOfFuel
                  end
                else search_loop fuel cur half_step end_ sk sc s
              else
                (* Found next step - submit it *)
                match stepcompress_append sc (s_sdir s) (m_print_time (cu_move cur)) (s_time s) with
                | Returns ret sc =>
                    if negb (ret =? 0) then Gen ret sk sc
                    else search_loop fuel cur half_step end_ sk sc (after_step half_step end_ s)
                | Undefined u => GenUndefined (Compression u)
                | OutOfFuel => GenOutOfFuel
                end
          end
      end
  end.

(** The end of the range within the move, and the search at its start. *)
Definition range_end (m : move) (abs_end : double) : double :=
  at_most (fsub abs_end (m_print_time m)) (m_move_t m).
Definition range_start (m : move) (abs_start : double) : double :=
  let start := fsub abs_start (m_print_time m) in if flt start (f64 0) then f64 0 else start.

Definition itersolve_gen_steps_range (fuel : nat) (cur : cursor) (abs_start abs_end : double)
    (sk : stepper_kinematics) (sc : stepcompress) : gen_outcome :=
  let m := cu_move cur in
  let half_step := fmul f_half (sk_step_dist (sk_f sk)) in
  let start := range_start m abs_start in
  let end_ := range_end m abs_end in
  let commanded_pos := sk_commanded_pos (sk_f sk) in
  let sdir := stepcompress_get_step_dir sc in
  let target := fadd commanded_pos (signed_by sdir half_step) in
  search_loop fuel cur half_step end_ sk sc
    (mkSearch start commanded_pos start commanded_pos sdir false false false target start start
       (at_most (fadd start SEEK_TIME_RESET) end_)).

(** ** Walking the motion queue *)

Definition check_active (sk : stepper_kinematics) (m : move) : bool :=
  let af := sk_active_flags (sk_f sk) in
  (flag af AF_X && fne (c_x (m_axes_r m)) (f64 0))
  || (flag af AF_Y && fne (c_y (m_axes_r m)) (f64 0))
  || (flag af AF_Z && fne (c_z (m_axes_r m)) (f64 0)).

(** [while (last_flush_time >= m->print_time + m->move_t) m = next] *)
Fixpoint skip_done (last_flush_time : double) (prev : list move) (m : move) (next : list move)
    : option cursor :=
  if fle (move_end m) last_flush_time then
    match next with
    | [] => None
    | n :: next => skip_done last_flush_time (m :: prev) n next
    end
  else Some (mkCur prev m next).

(** How many moves before the current one the steps leading up to it start;
    [prev] are the moves before it and [skip_count] of them were skipped. *)
Fixpoint back_count (skip_count : nat) (abs_start : double) (prev : list move) : nat :=
  match skip_count, prev with
  | S ((S _) as k), pm :: prev =>
      if flt abs_start (m_print_time pm) then S (back_count k abs_start prev) else 1%nat
  | _, _ => 1%nat
  end.

(** [n] moves back. *)
Fixpoint cursor_back (n : nat) (cur : cursor) : option cursor :=
  match n with
  | O => Some cur
  | S n =>
      match cur with
      | mkCur (p :: prev) m next => cursor_back n (mkCur prev p (m :: next))
      | _ => None
      end
  end.

Definition cursor_next (cur : cursor) : option cursor :=
  match cur with
  | mkCur prev m (n :: next) => Some (mkCur (m :: prev) n next)
  | _ => None
  end.

(** The ranges of [n] moves from [cur] on. *)
Fixpoint gen_ranges (fuel n : nat) (cur : cursor) (abs_start flush_time : double)
    (sk : stepper_kinematics) (sc : stepcompress) : gen_outcome :=
  match n with
  | O => Gen 0 sk sc
  | S n =>
      gen_then (itersolve_gen_steps_range fuel cur abs_start flush_time sk sc) (fun sk sc =>
        match n, cursor_next cur with
        | O, _ => Gen 0 sk sc
        | _, Some cur => gen_ranges fuel n cur abs_start flush_time sk sc
        | _, None => GenUndefined OffList
        end)
  end.

(** "Must generate steps leading up to stepper activity" *)
Definition gen_pre_active (fuel : nat) (skip_count : nat) (last_flush_time force_steps_time
    flush_time : double) (cur : cursor) (sk : stepper_kinematics) (sc : stepcompress)
    : gen_outcome :=
  let pre := sk_gen_steps_pre_active (sk_f sk) in
  if negb (skip_count =? 0)%nat && f_true pre then
    let abs_start := fsub (m_print_time (cu_move cur)) pre in
    let abs_start := if flt abs_start last_flush_time then last_flush_time else abs_start in
    let abs_start := if flt abs_start force_steps_time then force_steps_time else abs_start in
    let n := back_count skip_count abs_start (cu_prev cur) in
    match cursor_back n cur with
    | Some pm => gen_ranges fuel n pm abs_start flush_time sk sc
    | None => GenUndefined OffList
    end
  else Gen 0 sk sc.

(** The main loop of [itersolve_generate_steps] from the move [m] on. *)
Fixpoint gen_moves (fuel : nat) (last_flush_time flush_time force_steps_time : double)
    (skip_count : nat) (prev : list move) (m : move) (next : list move)
    (sk : stepper_kinematics) (sc : stepcompress) : gen_outcome :=
  let cur := mkCur prev m next in
  let continue skip_count force_steps_time sk sc :=
    match next with
    | [] => GenUndefined OffList
    | n :: next => gen_moves fuel last_flush_time flush_time force_steps_time skip_count
                     (m :: prev) n next sk sc
    end in
  if check_active sk m then
    gen_then (gen_pre_active fuel skip_count last_flush_time force_steps_time flush_time cur sk sc)
      (fun sk sc =>
    gen_then (itersolve_gen_steps_range fuel cur last_flush_time flush_time sk sc) (fun sk sc =>
    if fle flush_time (move_end m) then
      Gen 0 (sk_map (fun f => f <| sk_last_move_time := flush_time |>) sk) sc
    else
      let sk := sk_map (fun f => f <| sk_last_move_time := move_end m |>) sk in
      continue 0%nat (fadd (move_end m) (sk_gen_steps_post_active (sk_f sk))) sk sc))
  else
    let post := flt (m_print_time m) force_steps_time in
    gen_then
      (if post then
         (* Must generates steps just past stepper activity *)
         itersolve_gen_steps_range fuel cur last_flush_time (at_most force_steps_time flush_time)
           sk sc
       else Gen 0 sk sc) (fun sk sc =>
    if fle (fadd flush_time (sk_gen_steps_pre_active (sk_f sk))) (move_end m) then Gen 0 sk sc
    else continue (if post then 1%nat else S skip_count) force_steps_time sk sc).

(** [itersolve_generate_steps] with the queue [sk->tq] points to. *)
Definition itersolve_generate_steps (fuel : nat) (tq : option trapq) (flush_time : double)
    (sk : stepper_kinematics) (sc : stepcompress) : gen_outcome :=
  let last_flush_time := sk_last_flush_time (sk_f sk) in
  let sk := sk_map (fun f => f <| sk_last_flush_time := flush_time |>) sk in
  match tq with
  | None => Gen 0 sk sc
  | Some tq =>
      match skip_done last_flush_time [] (tq_head tq) (tq_body tq ++ [tq_tail tq]) with
      | None => GenUndefined OffList
      | Some (mkCur prev m next) =>
          let force_steps_time := fadd (sk_last_move_time (sk_f sk))
                                    (sk_gen_steps_post_active (sk_f sk)) in
          gen_moves fuel last_flush_time flush_time force_steps_time 0 prev m next sk sc
      end
  end.

(** ** Interface functions *)

(** The loop of [itersolve_check_active]. *)
Fixpoint find_active (flush_time : double) (sk : stepper_kinematics) (m : move) (next : list move)
    : option double :=
  if check_active sk m then Some (m_print_time m)
  else if fle flush_time (move_end m) then Some (f64 0)
  else match next with [] => None | n :: next => find_active flush_time sk n next end.

(** [itersolve_check_active]: the result and the queue with its sentinels
    updated. *)
Definition itersolve_check_active (tq : option trapq) (flush_time : double)
    (sk : stepper_kinematics) : option (double * option trapq) :=
  match tq with
  | None => Some (f64 0, None)
  | Some tq =>
      let tq := trapq_check_sentinels tq in
      '(mkCur _ m next) ← skip_done (sk_last_flush_time (sk_f sk)) [] (tq_head tq)
                            (tq_body tq ++ [tq_tail tq]);
      r ← find_active flush_time sk m next;
      Some (r, Some tq)
  end.

Definition itersolve_is_active_axis (sk : stepper_kinematics) (axis : ascii) : bool :=
  let n := Z.of_nat (nat_of_ascii axis) - Z.of_nat (nat_of_ascii "x") in
  (0 <=? n) && (n <=? 2) && flag (sk_active_flags (sk_f sk)) (Z.shiftl AF_X n).

Definition itersolve_set_trapq (tq : option Z) (step_dist : double) (sk : stepper_kinematics)
    : stepper_kinematics :=
  sk_map (fun f => f <| sk_tq := tq |> <| sk_step_dist := step_dist |>) sk.

Definition itersolve_get_trapq (sk : stepper_kinematics) : option Z := sk_tq (sk_f sk).

Definition itersolve_calc_position_from_coord (c : coord) (sk : stepper_kinematics)
    : option (double * stepper_kinematics) :=
  calc_position_cb sk (alone (move_alloc <| m_start_pos := c |> <| m_move_t := f64 1000 |>))
    (f64 500).

Definition itersolve_set_position (c : coord) (sk : stepper_kinematics)
    : option stepper_kinematics :=
  '(p, sk) ← itersolve_calc_position_from_coord c sk;
  Some (sk_map (fun f => f <| sk_commanded_pos := p |>) sk).

Definition itersolve_get_commanded_pos (sk : stepper_kinematics) : double :=
  sk_commanded_pos (sk_f sk).
Definition itersolve_get_gen_steps_pre_active (sk : stepper_kinematics) : double :=
  sk_gen_steps_pre_active (sk_f sk).
Definition itersolve_get_gen_steps_post_active (sk : stepper_kinematics) : double :=
  sk_gen_steps_post_active (sk_f sk).
End Itersolve.
