(* ===== verification/ItersolveProps.v ===== *)
(** * Step generation stays on the motion queue

    The sentinel at the end of a [struct trapq] (src/klippy/chelper/trapq.c)
    lasts for all time and moves no axis.  Every operation on the queue keeps
    it that way, and therefore the loops of itersolve.c that follow the list
    end before they run past it. *)
From S2P Require Import Prelude Double Protocol Msgblock Stepcompress Trapq Kinematics Itersolve.

(** ** The queue *)

Definition trapq_ok (tq : trapq) : Prop :=
  m_move_t (tq_tail tq) = NEVER_TIME /\ m_axes_r (tq_tail tq) = zero_coord.

(** The operations of trapq.c. *)
Inductive trapq_op : trapq -> trapq -> Prop :=
| op_check_sentinels tq : trapq_op tq (trapq_check_sentinels tq)
| op_add_move m tq : trapq_op tq (trapq_add_move m tq)
| op_append pt at_ ct dt pos r sv cv a tq : trapq_op tq (trapq_append pt at_ ct dt pos r sv cv a tq)
| op_finalize pt ct tq : trapq_op tq (trapq_finalize_moves pt ct tq)
| op_set_position pt pos tq : trapq_op tq (trapq_set_position pt pos tq).

Lemma finalize_ok pt ct tq : trapq_ok tq -> trapq_ok (trapq_finalize_moves pt ct tq).
Proof.
  unfold trapq_finalize_moves. destruct (expire_moves _ _ _) as [b h]. by destruct b.
Qed.

Lemma trapq_op_ok tq tq' : trapq_op tq tq' -> trapq_ok tq -> trapq_ok tq'.
Proof.
  destruct 1; intros Hok; try done.
  - unfold trapq_check_sentinels. case_match; [done|]. by destruct (tq_body tq).
  - unfold trapq_append. by destruct (f_true at_), (f_true ct), (f_true dt).
  - by apply finalize_ok.
  - unfold trapq_set_position. by apply (finalize_ok NEVER_TIME (f64 0)) in Hok.
Qed.

Lemma trapq_reachable_ok tq : rtc trapq_op trapq_alloc tq -> trapq_ok tq.
Proof.
  intros Hr. assert (trapq_ok trapq_alloc) as H0 by done. revert H0.
  induction Hr as [|tq1 tq2 tq3 H12 _ IH]; [done|]. intros Hok. apply IH. by eapply trapq_op_ok.
Qed.

(** ** What a range leaves alone *)

(** The settings that steer the walk. *)
Definition settings (sk : stepper_kinematics) : Z * double * double :=
  (sk_active_flags (sk_f sk), sk_gen_steps_pre_active (sk_f sk), sk_gen_steps_post_active (sk_f sk)).

Section Walk.
Context `{Libm}.

Lemma calc_position_settings sk cur t p sk' :
  calc_position_cb sk cur t = Some (p, sk') -> settings sk' = settings sk.
Proof.
  destruct sk as [f k]. destruct k; cbn [calc_position_cb coord_position mbind option_bind];
    try (intros [= _ <-]; done); try done.
  - destruct (extruder_calc_position _ _ _ _ _); [|done]. by intros [= _ <-].
  - destruct orig_sk as [orig|]; [|done].
    destruct (calc_position_cb orig _ _) as [[p' orig']|]; [|done]. by intros [= _ <-].
  - destruct orig_sk as [orig|]; [|done]. destruct (shaper_coord _ _ _ _ _ _ _) as [[c|]|]; [| |done].
    all: cbn [mbind option_bind]; destruct (calc_position_cb orig _ _) as [[p' orig']|]; [|done].
    all: by intros [= _ <-].
Qed.

Lemma post_kin_settings f k :
  settings (mkSK (post_kin f k).1 (post_kin f k).2) = settings (mkSK f k).
Proof.
  destruct k; try done; cbn [post_kin].
  - unfold polar_stepper_angle_post_fixup. by repeat case_match.
  - destruct orig_sk as [[g k]|]; [|done]. destruct forward_post; [|done].
    by destruct (post_kin (g <| sk_commanded_pos := sk_commanded_pos f |>) k).
Qed.

Lemma post_cb_settings sk : settings (post_cb sk) = settings sk.
Proof.
  destruct sk as [f k]. unfold post_cb. pose proof (post_kin_settings f k) as E.
  by destruct (post_kin f k).
Qed.

(** A result that is not off the list, with the settings unchanged. *)
Definition on_list (set : Z * double * double) (r : gen_outcome) : Prop :=
  match r with
  | Gen _ sk _ => settings sk = set
  | GenUndefined OffList => False
  | _ => True
  end.

Lemma search_loop_on_list fuel cur hs e set : forall sk sc s, settings sk = set ->
  on_list set (search_loop fuel cur hs e sk sc s).
Proof.
  induction fuel as [|fuel IH]; intros sk sc s Hs; [done|]. cbn [search_loop].
  destruct (guess_time e s) as [[nt s1]|].
  2: { cbn [on_list]. rewrite post_cb_settings. by destruct sk. }
  destruct (calc_position_cb sk cur nt) as [[p sk1]|] eqn:Ec; [|done].
  apply calc_position_settings in Ec. rewrite Hs in Ec. cbv zeta.
  destruct (_ && (_ || _)).
  - destruct (_ && _); [|by apply IH]. destruct (stepcompress_commit sc); [by apply IH|done..].
  - destruct (stepcompress_append _ _ _ _) as [ret sc'| |]; [|done..]. case_match; [done|by apply IH].
Qed.

Lemma range_on_list fuel cur a b sk sc set : settings sk = set ->
  on_list set (itersolve_gen_steps_range fuel cur a b sk sc).
Proof. intros Hs. by apply search_loop_on_list. Qed.

Lemma gen_then_on_list r k set : on_list set r ->
  (forall sk sc, settings sk = set -> on_list set (k sk sc)) -> on_list set (gen_then r k).
Proof. intros Hr Hk. destruct r as [ret sk sc| |]; try done. cbn. case_match; [done|by apply Hk]. Qed.

(** ** Walking back *)

Lemma back_count_bound k a prev : (k <> 0)%nat -> (k <= length prev)%nat ->
  (1 <= back_count k a prev <= length prev)%nat.
Proof.
  revert prev. induction k as [|k IH]; intros prev; [done|]. intros _ Hl.
  destruct prev as [|pm prev]; [simpl in Hl; lia|]. cbn [back_count]. destruct k as [|k]; [simpl; lia|].
  case_match; [|simpl; lia]. specialize (IH prev). simpl in *. lia.
Qed.

(** [n] moves back, there are at least [n] moves ahead. *)
Lemma cursor_back_ok n : forall cur, (n <= length (cu_prev cur))%nat ->
  exists c, cursor_back n cur = Some c /\ (length (cu_next c) = length (cu_next cur) + n)%nat.
Proof.
  induction n as [|n IH]; intros [prev m next] Hl; cbn [cursor_back].
  - eexists. split; [done|]. simpl. lia.
  - destruct prev as [|p prev]; [simpl in Hl; lia|].
    destruct (IH (mkCur prev p (m :: next))) as (c & E & Hn); [simpl in *; lia|].
    exists c. split; [done|]. rewrite Hn. simpl. lia.
Qed.

Lemma gen_ranges_on_list fuel n set : forall cur a b sk sc, settings sk = set ->
  (n <= length (cu_next cur))%nat -> on_list set (gen_ranges fuel n cur a b sk sc).
Proof.
  induction n as [|n IH]; intros cur a b sk sc Hs Hn; [done|]. cbn [gen_ranges].
  apply gen_then_on_list; [by apply range_on_list|]. intros sk' sc' Hs'.
  destruct n as [|n]; [done|]. destruct cur as [prev m [|x next]]; [simpl in Hn; lia|].
  cbn [cursor_next]. apply IH; [done|]. simpl in *. lia.
Qed.

Lemma pre_active_on_list fuel k lf fs ft cur sk sc set : settings sk = set ->
  (k <= length (cu_prev cur))%nat -> on_list set (gen_pre_active fuel k lf fs ft cur sk sc).
Proof.
  intros Hs Hk. unfold gen_pre_active. destruct (_ && _) eqn:Hb; [|done].
  apply andb_true_iff in Hb as [Hb%negb_true_iff%Nat.eqb_neq _]. cbv zeta.
  match goal with |- context [back_count k ?x _] => set (a := x) end.
  pose proof (back_count_bound k a (cu_prev cur) Hb Hk) as Hc.
  destruct (cursor_back_ok (back_count k a (cu_prev cur)) cur) as (c & -> & Hn); [lia|].
  apply gen_ranges_on_list; [done|lia].
Qed.

(** ** Walking forward *)

Lemma tail_inactive sk m : m_axes_r m = zero_coord -> check_active sk m = false.
Proof. unfold check_active. intros ->. cbn. by rewrite !andb_false_r. Qed.

(** Before the end of time: the sentinel is not over at [last_flush_time], and
    lasts until after [flush_time]. *)
Definition ends_after (tail : move) (set : Z * double * double) (last_flush_time flush_time : double)
    : Prop :=
  fle (move_end tail) last_flush_time = false /\
  fle (fadd flush_time set.1.2) (move_end tail) = true.

Lemma gen_moves_on_list fuel lf ft tail set : m_axes_r tail = zero_coord ->
  ends_after tail set lf ft -> forall next m prev fs k sk sc, settings sk = set ->
  last (m :: next) = Some tail -> (k <= length prev)%nat ->
  on_list set (gen_moves fuel lf ft fs k prev m next sk sc).
Proof.
  intros Ht [_ He]. induction next as [|n next IH]; intros m prev fs k sk sc Hs Hl Hk.
  - injection Hl as ->. cbn [gen_moves]. rewrite tail_inactive by done.
    apply gen_then_on_list; [case_match; [by apply range_on_list|done]|].
    intros sk' sc' Hs'. assert (sk_gen_steps_pre_active (sk_f sk') = set.1.2) as ->
      by (rewrite <- Hs'; done). by rewrite He.
  - assert (last (n :: next) = Some tail) as Hl' by done. cbn [gen_moves].
    destruct (check_active sk m).
    + apply gen_then_on_list; [by apply pre_active_on_list|]. intros sk1 sc1 Hs1.
      apply gen_then_on_list; [by apply range_on_list|]. intros sk2 sc2 Hs2.
      case_match; [by destruct sk2|]. apply IH; [by destruct sk2|done|simpl; lia].
    + apply gen_then_on_list; [case_match; [by apply range_on_list|done]|]. intros sk1 sc1 Hs1.
      case_match; [done|]. apply IH; [done|done|]. simpl. case_match; lia.
Qed.

Lemma skip_done_ok lf tail : fle (move_end tail) lf = false -> forall next m prev,
  last (m :: next) = Some tail ->
  exists prev' m' next', skip_done lf prev m next = Some (mkCur prev' m' next') /\
    last (m' :: next') = Some tail.
Proof.
  intros He. induction next as [|n next IH]; intros m prev Hl; cbn [skip_done].
  - injection Hl as ->. rewrite He. by exists prev, tail, [].
  - case_match; [|by exists prev, m, (n :: next)]. by apply IH.
Qed.

Lemma last_body_tail tq : last (tq_head tq :: tq_body tq ++ [tq_tail tq]) = Some (tq_tail tq).
Proof. by rewrite app_comm_cons, last_snoc. Qed.

End Walk.

(** ** A move of one stepper

    One millimetre at 10 mm/s along the x axis, with ten steps. *)
Definition sample_libm : Libm := {| atan2 y _ := y; cos x := x; sin x := x |}.

Definition sample_trapq : trapq :=
  trapq_append (f64 1) (f64 0) (f_lit 1 10) (f64 0) zero_coord (mkCoord (f64 1) (f64 0) (f64 0))
    (f64 10) (f64 10) (f64 0) trapq_alloc.

Definition sample_sk : stepper_kinematics :=
  itersolve_set_trapq (Some 0) (f_lit 1 10) (cartesian_stepper_alloc (Ascii.ascii_of_nat 120)).

Definition sample_sc : stepcompress :=
  stepcompress_set_time (stepcompress_fill (stepcompress_alloc []) 0 25 1 1) (f64 0) (f64 16000000).

Example sample_steps :
  match itersolve_generate_steps (H := sample_libm) 1000 (Some (trapq_check_sentinels sample_trapq))
          (f64 2) sample_sk sample_sc with
  | Gen ret _ sc => ret = 0 /\ sc_next_step_clock sc = 17520000 /\
      take (sc_queue_next sc) (sc_queue sc) =
        [16080000; 16240000; 16400000; 16560000; 16720000; 16880000; 17040000; 17200000; 17360000]
  | _ => False
  end.
Proof. vm_compute. repeat split; reflexivity. Qed.

