(* ===== verification/Steppersync.v ===== *)
(** * Step transmission of the host: src/klippy/chelper/steppersync.c

    Each stepper of a micro-controller has an emitter with a queue of commands
    ordered by time.  [steppersync_flush] merges the queues by [req_clock] and
    uses a heap with one entry per node of the micro-controller's move queue to
    compute when a node is free for the next command.

    The motion queues that the kinematics of several steppers share are a map;
    step generation only reads it.  In [steppersyncmgr_gen_steps] the background
    thread of an emitter runs between the request and the wait for its
    completion; the hand-over between the two threads, with the mutex and the
    condition variable, is modelled on its own and shown to have this effect
    under every schedule. *)
From S2P Require Import Prelude Double Protocol Msgblock Serialqueue Stepcompress Trapq Kinematics Itersolve.
Import Msgblock.

(** The [struct trapq] objects. *)
Notation trapqs := (gmap Z trapq).

(** ** SyncEmitter *)

(** [struct syncemitter]; [se_msgs] is the message queue of an emitter without
    a compressor, otherwise the queue is the compressor's. *)
Record syncemitter : Set := mkSE {
  se_msgs : list queue_message;
  se_sc : option stepcompress;
  se_sk : option stepper_kinematics;
  se_have_work : Z;
  se_bg_gen_steps_time : double;
  se_bg_flush_clock : Z; se_bg_clear_history_clock : Z;
  se_bg_result : Z }.
#[export] Instance eta_syncemitter : Eta syncemitter := fun r =>
  mkSE (se_msgs r) (se_sc r) (se_sk r) (se_have_work r) (se_bg_gen_steps_time r)
    (se_bg_flush_clock r) (se_bg_clear_history_clock r) (se_bg_result r).

(** [se->msg_queue] *)
Definition msg_queue (se : syncemitter) : list queue_message :=
  match se_sc se with Some sc => sc_msg_queue sc | None => se_msgs se end.

Definition set_msg_queue (q : list queue_message) (se : syncemitter) : syncemitter :=
  match se_sc se with
  | Some sc => se <| se_sc := Some (sc <| sc_msg_queue := q |>) |>
  | None => se <| se_msgs := q |>
  end.

Definition syncemitter_get_stepcompress (se : syncemitter) : option stepcompress := se_sc se.
Definition syncemitter_set_stepper_kinematics (sk : stepper_kinematics) (se : syncemitter)
    : syncemitter := se <| se_sk := Some sk |>.
Definition syncemitter_get_stepper_kinematics (se : syncemitter) : option stepper_kinematics := se_sk se.

Definition syncemitter_queue_msg (req_clock : Z) (data : list Z) (se : syncemitter)
    : syncemitter :=
  let qm := message_alloc_and_encode data in
  let qm := mkQM (qm_msg qm) req_clock req_clock (qm_notify_id qm) in
  set_msg_queue (msg_queue se ++ [qm]) se.

Section Generation.
Context `{Libm}.

(** [sk->tq], which may be [NULL] but not dangling. *)
Definition sk_trapq (tqs : trapqs) (sk : stepper_kinematics) : option (option trapq) :=
  match itersolve_get_trapq sk with
  | None => Some None
  | Some i => tq ← tqs !! i; Some (Some tq)
  end.

(** [se_generate_steps]: the return value, or [None] when the outcome is
    undefined or the fuel is used up. *)
Definition se_generate_steps (fuel : nat) (tqs : trapqs) (se : syncemitter)
    : option (Z * syncemitter) :=
  match se_sc se, se_sk se with
  | Some sc, Some sk =>
      tq ← sk_trapq tqs sk;
      match itersolve_generate_steps fuel tq (se_bg_gen_steps_time se) sk sc with
      | Gen ret sk sc =>
          if negb (ret =? 0) then Some (ret, se <| se_sc := Some sc |> <| se_sk := Some sk |>)
          else
            match stepcompress_flush sc (se_bg_flush_clock se) with
            | Returns ret sc =>
                if negb (ret =? 0) then
                  Some (ret, se <| se_sc := Some sc |> <| se_sk := Some sk |>)
                else
                  let sc := stepcompress_history_expire sc (se_bg_clear_history_clock se) in
                  Some (0, se <| se_sc := Some sc |> <| se_sk := Some sk |>)
            | _ => None
            end
      | _ => None
      end
  | _, _ => Some (0, se)
  end.

(** One turn of the loop of [se_background_thread]; without work, or after an
    exit request, the thread does nothing. *)
Definition se_background_iter (fuel : nat) (tqs : trapqs) (se : syncemitter)
    : option syncemitter :=
  if se_have_work se <=? 0 then Some se
  else
    '(ret, se) ← se_generate_steps fuel tqs se;
    Some (se <| se_bg_result := ret |> <| se_have_work := 0 |>).
End Generation.

(** [se_start_gen_steps]; [None]: the caller waits for the background thread. *)
Definition se_start_gen_steps (gen_steps_time : double) (flush_clock clear_history_clock : Z)
    (se : syncemitter) : option syncemitter :=
  match se_sc se, se_sk se with
  | Some _, Some _ =>
      if negb (se_have_work se =? 0) then None
      else Some (se <| se_bg_gen_steps_time := gen_steps_time |>
                    <| se_bg_flush_clock := flush_clock |>
                    <| se_bg_clear_history_clock := clear_history_clock |>
                    <| se_have_work := 1 |>)
  | _, _ => Some se
  end.

(** [se_finalize_gen_steps]; [None]: the caller waits. *)
Definition se_finalize_gen_steps (se : syncemitter) : option Z :=
  match se_sc se, se_sk se with
  | Some _, Some _ => if negb (se_have_work se =? 0) then None else Some (se_bg_result se)
  | _, _ => Some 0
  end.

Definition syncemitter_alloc (alloc_stepcompress : bool) : syncemitter :=
  mkSE [] (if alloc_stepcompress then Some (stepcompress_alloc []) else None) None 0
    (f64 0) 0 0 0.

(** ** The threads of an emitter

    The caller (main thread) and [se_background_thread] share the emitter, a
    mutex and one condition variable.  A thread that waits for the condition is
    woken by a signal or for no reason, and has to take the mutex again. *)

(** The calls of the main thread: the operations of steppersync.c, and accesses
    to the emitter and the motion queues without the mutex. *)
Inductive se_call : Set :=
| StartGen (gen_steps_time : double) (flush_clock clear_history_clock : Z)
| FinalizeGen
| FreeEmitter
| Access (f : syncemitter * trapqs -> syncemitter * trapqs).

(** Where the main thread is: between calls, at [pthread_mutex_lock], at the
    test of [have_work] with the mutex, waiting, woken, before the signal of
    [se_start_gen_steps], before the unlock and at [pthread_join] of
    [syncemitter_free], or done with it. *)
Inductive caller_pc : Set :=
| M_idle | M_lock (c : se_call) | M_test (c : se_call) | M_wait (c : se_call) | M_woken (c : se_call)
| M_signal | M_unlock | M_join | M_freed.

(** Where the background thread is. *)
Inductive bg_pc : Set := B_lock | B_test | B_wait | B_woken | B_work | B_exit.

Inductive thread : Set := MainThread | BgThread.

Record handshake : Set := mkHS {
  hs_se : syncemitter; hs_tqs : trapqs;
  hs_owner : option thread; hs_main : caller_pc; hs_bg : bg_pc;
  hs_calls : list se_call; hs_results : list Z }.
#[export] Instance eta_handshake : Eta handshake := fun r =>
  mkHS (hs_se r) (hs_tqs r) (hs_owner r) (hs_main r) (hs_bg r) (hs_calls r) (hs_results r).

(** [!se->sc || !se->sk] does not hold. *)
Definition generating (se : syncemitter) : bool :=
  match se_sc se, se_sk se with Some _, Some _ => true | _, _ => false end.

(** [pthread_cond_signal] of either thread. *)
Definition signal_bg (b : bg_pc) : bg_pc := match b with B_wait => B_woken | b => b end.
Definition signal_main (m : caller_pc) : caller_pc := match m with M_wait c => M_woken c | m => m end.

Definition main_call (c : se_call) (s : handshake) : handshake :=
  match c with
  | StartGen _ _ _ => if generating (hs_se s) then s <| hs_main := M_lock c |> else s
  | FinalizeGen => if generating (hs_se s) then s <| hs_main := M_lock c |>
                   else s <| hs_results ::= fun l => l ++ [0] |>
  | FreeEmitter => match se_sc (hs_se s) with
                   | Some _ => s <| hs_main := M_lock c |>
                   | None => s <| hs_main := M_freed |>
                   end
  | Access f => let '(se, tqs) := f (hs_se s, hs_tqs s) in s <| hs_se := se |> <| hs_tqs := tqs |>
  end.

(** The end of a call, with the mutex and [have_work] zero. *)
Definition main_body (c : se_call) (s : handshake) : option handshake :=
  match c with
  | StartGen t fc cc =>
      se ← se_start_gen_steps t fc cc (hs_se s);
      Some (s <| hs_se := se |> <| hs_owner := None |> <| hs_main := M_signal |>)
  | FinalizeGen =>
      res ← se_finalize_gen_steps (hs_se s);
      Some (s <| hs_results ::= fun l => l ++ [res] |> <| hs_owner := None |> <| hs_main := M_idle |>)
  | FreeEmitter =>
      Some (s <| hs_se ::= fun se => se <| se_have_work := -1 |> |> <| hs_bg ::= signal_bg |>
              <| hs_main := M_unlock |>)
  | Access _ => None
  end.

(** A step of the main thread; [None]: it cannot run. *)
Definition main_next (s : handshake) : option handshake :=
  match hs_main s, hs_owner s with
  | M_idle, _ =>
      match hs_calls s with
      | [] => None
      | c :: cs => Some (main_call c (s <| hs_calls := cs |>))
      end
  | (M_lock c | M_woken c), None => Some (s <| hs_main := M_test c |> <| hs_owner := Some MainThread |>)
  | M_test c, _ =>
      if negb (se_have_work (hs_se s) =? 0) then Some (s <| hs_main := M_wait c |> <| hs_owner := None |>)
      else main_body c s
  | M_signal, _ => Some (s <| hs_bg ::= signal_bg |> <| hs_main := M_idle |>)
  | M_unlock, _ => Some (s <| hs_main := M_join |> <| hs_owner := None |>)
  | M_join, _ => match hs_bg s with B_exit => Some (s <| hs_main := M_freed |>) | _ => None end
  | _, _ => None
  end.

Section Threads.
Context `{Libm}.
Variable fuel : nat.

(** A step of [se_background_thread]. *)
Definition bg_next (s : handshake) : option handshake :=
  match hs_bg s, hs_owner s with
  | (B_lock | B_woken), None => Some (s <| hs_bg := B_test |> <| hs_owner := Some BgThread |>)
  | B_test, _ =>
      let have_work := se_have_work (hs_se s) in
      if have_work =? 0 then Some (s <| hs_bg := B_wait |> <| hs_owner := None |>)
      else if have_work <? 0 then Some (s <| hs_bg := B_exit |> <| hs_owner := None |>)
      else Some (s <| hs_bg := B_work |>)
  | B_work, _ =>
      se ← se_background_iter fuel (hs_tqs s) (hs_se s);
      Some (s <| hs_se := se |> <| hs_main ::= signal_main |> <| hs_bg := B_test |>)
  | _, _ => None
  end.

(** What the scheduler chooses: a thread runs, or it is woken for no reason. *)
Inductive choice : Set := Run (t : thread) | Spurious (t : thread).

Definition hs_next (c : choice) (s : handshake) : option handshake :=
  match c with
  | Run MainThread => main_next s
  | Run BgThread => bg_next s
  | Spurious MainThread => match hs_main s with M_wait c => Some (s <| hs_main := M_woken c |>) | _ => None end
  | Spurious BgThread => match hs_bg s with B_wait => Some (s <| hs_bg := B_woken |>) | _ => None end
  end.

Fixpoint hs_run (sched : list choice) (s : handshake) : option handshake :=
  match sched with
  | [] => Some s
  | c :: sched => s ← hs_next c s; hs_run sched s
  end.

(** After [syncemitter_alloc]: the thread has been created. *)
Definition hs_init (cs : list se_call) (se : syncemitter) (tqs : trapqs) : handshake :=
  mkHS se tqs None M_idle B_lock cs [].
End Threads.

(** ** StepperSync *)

(** [struct steppersync]; [ss_cq] is the command queue of its serial queue. *)
Record steppersync : Set := mkSS {
  ss_cq : option Z;
  ss_se_list : list syncemitter;
  ss_ce : clock_estimate;
  ss_move_clocks : list Z }.
#[export] Instance eta_steppersync : Eta steppersync := fun r =>
  mkSS (ss_cq r) (ss_se_list r) (ss_ce r) (ss_move_clocks r).

Definition steppersync_alloc_syncemitter (alloc_stepcompress : bool) (ss : steppersync)
    : steppersync := ss <| ss_se_list ::= fun l => l ++ [syncemitter_alloc alloc_stepcompress] |>.

(** [steppersync_setup_movequeue]; [cq] is the number of the new command queue. *)
Definition steppersync_setup_movequeue (cq : Z) (move_num : nat) (ss : steppersync)
    (sq : serialqueue) : steppersync * serialqueue :=
  let sq := match ss_cq ss with Some old => serialqueue_free_commandqueue old sq | None => sq end in
  (ss <| ss_cq := Some cq |> <| ss_move_clocks := replicate move_num 0 |>,
   serialqueue_alloc_commandqueue cq sq).

Definition steppersync_set_time (time_offset mcu_freq : double) (ss : steppersync)
    : steppersync :=
  let ss := ss <| ss_ce := clock_fill mcu_freq time_offset 0 0 |> in
  ss <| ss_se_list ::= map (fun se =>
          se <| se_sc ::= fun sc => (fun sc => stepcompress_set_time sc time_offset mcu_freq) <$> sc |>) |>.

(** [i < nmc ? mc[i] : UINT64_MAX] *)
Definition child_clock (mc : list Z) (i : nat) : Z := nth i mc UINT64_MAX.

(** The loop of [heap_replace] from [pos]. *)
Fixpoint heap_sift (fuel : nat) (mc : list Z) (pos : nat) (req_clock : Z) : list Z :=
  match fuel with
  | O => mc
  | S fuel =>
      let child1_pos := (2 * pos + 1)%nat in
      let child2_pos := (2 * pos + 2)%nat in
      let child2_clock := child_clock mc child2_pos in
      let child1_clock := child_clock mc child1_pos in
      if (req_clock <=? child1_clock) && (req_clock <=? child2_clock) then
        <[pos := req_clock]> mc
      else if child1_clock <? child2_clock then
        heap_sift fuel (<[pos := child1_clock]> mc) child1_pos req_clock
      else heap_sift fuel (<[pos := child2_clock]> mc) child2_pos req_clock
  end.

(** [heap_replace]: every round goes one level down. *)
Definition heap_replace (mc : list Z) (req_clock : Z) : list Z :=
  heap_sift (length mc) mc 0 req_clock.

(** "Find message with lowest reqclock": the number of its emitter. *)
Fixpoint find_lowest (ses : list syncemitter) (i : nat) (req_clock : Z)
    (best : option (nat * queue_message)) : option (nat * queue_message) :=
  match ses with
  | [] => best
  | se :: ses =>
      match msg_queue se with
      | m :: _ =>
          if qm_req_clock m <? req_clock then find_lowest ses (S i) (qm_req_clock m) (Some (i, m))
          else find_lowest ses (S i) req_clock best
      | [] => find_lowest ses (S i) req_clock best
      end
  end.

(** The loop of [steppersync_flush]: the emitters, the heap and the batch. *)
Fixpoint flush_msgs (fuel : nat) (move_clock : Z) (ses : list syncemitter) (mc : list Z)
    (msgs : list queue_message) : option (list syncemitter * list Z * list queue_message) :=
  match fuel with
  | O => None
  | S fuel =>
      match find_lowest ses 0 MAX_CLOCK None with
      | None => Some (ses, mc, msgs)
      | Some (i, qm) =>
          if negb (qm_min_clock qm =? 0) && (move_clock <? qm_req_clock qm) then
            Some (ses, mc, msgs)
          else
            next_avail ← head mc;
            let mc := if negb (qm_min_clock qm =? 0) then heap_replace mc (qm_min_clock qm)
                      else mc in
            let qm := mkQM (qm_msg qm) next_avail (qm_req_clock qm) (qm_notify_id qm) in
            flush_msgs fuel move_clock (alter (fun se => set_msg_queue (tail (msg_queue se)) se) i ses)
              mc (msgs ++ [qm])
      end
  end.

(** The number of messages queued by the emitters. *)
Definition pending_msgs (ses : list syncemitter) : nat :=
  list_sum (map (fun se => length (msg_queue se)) ses).

Definition steppersync_flush (move_clock : Z) (ss : steppersync) (sq : serialqueue)
    : option (steppersync * serialqueue) :=
  '(ses, mc, msgs) ← flush_msgs (S (pending_msgs (ss_se_list ss))) move_clock (ss_se_list ss)
                       (ss_move_clocks ss) [];
  let ss := ss <| ss_se_list := ses |> <| ss_move_clocks := mc |> in
  match msgs, ss_cq ss with
  | [], _ => Some (ss, sq)
  | _, Some cq => Some (ss, serialqueue_send_batch cq msgs sq)
  | _, None => None
  end.

(** ** StepperSyncMgr *)

(** [struct steppersyncmgr]: its [steppersync] objects, each with the serial
    queue of its micro-controller. *)
Definition steppersyncmgr : Set := list (steppersync * serialqueue).

Definition steppersyncmgr_alloc : steppersyncmgr := [].

Definition steppersyncmgr_alloc_steppersync (sq : serialqueue) (ssm : steppersyncmgr)
    : steppersyncmgr := ssm ++ [(mkSS None [] (mkCE 0 0 (f64 0) (f64 0)) [], sq)].

(** "Prepare trapqs for step generation" for one emitter *)
Definition prepare_trapq (tqs : trapqs) (se : syncemitter) : trapqs :=
  match se_sc se, se_sk se with
  | Some _, Some sk =>
      match itersolve_get_trapq sk with
      | Some i => alter trapq_check_sentinels i tqs
      | None => tqs
      end
  | _, _ => tqs
  end.

Section Manager.
Context `{Libm}.

(** "Start step generation threads" for one micro-controller, and the work the
    threads do until they are waited for. *)
Definition run_emitters (fuel : nat) (tqs : trapqs)
    (flush_time gen_steps_time clear_history_time : double)
    (ss : steppersync) : option steppersync :=
  flush_clock ← clock_from_time (ss_ce ss) flush_time;
  clear_clock ← clock_from_time (ss_ce ss) clear_history_time;
  ses ← mapM (fun se => se ← se_start_gen_steps gen_steps_time flush_clock clear_clock se;
                        se_background_iter fuel tqs se) (ss_se_list ss);
  Some (ss <| ss_se_list := ses |>).

(** The last non-zero result of the emitters, if any. *)
Fixpoint finalize_emitters (ses : list syncemitter) (res : Z) : option Z :=
  match ses with
  | [] => Some res
  | se :: ses =>
      ret ← se_finalize_gen_steps se;
      finalize_emitters ses (if negb (ret =? 0) then ret else res)
  end.

(** "Wait for step generation threads to complete", then flush while no error
    occurred. *)
Fixpoint finish_all (flush_time : double) (ssm : steppersyncmgr) (res : Z)
    : option (Z * steppersyncmgr) :=
  match ssm with
  | [] => Some (res, [])
  | (ss, sq) :: ssm =>
      res ← finalize_emitters (ss_se_list ss) res;
      '(ss, sq) ←
        (if negb (res =? 0) then Some (ss, sq)
         else flush_clock ← clock_from_time (ss_ce ss) flush_time; steppersync_flush flush_clock ss sq);
      '(res, ssm) ← finish_all flush_time ssm res;
      Some (res, (ss, sq) :: ssm)
  end.

Definition steppersyncmgr_gen_steps (fuel : nat)
    (flush_time gen_steps_time clear_history_time : double) (tqs : trapqs)
    (ssm : steppersyncmgr) : option (Z * trapqs * steppersyncmgr) :=
  let tqs := foldl (fun tqs '(ss, _) => foldl prepare_trapq tqs (ss_se_list ss)) tqs ssm in
  ssm ← mapM (fun '(ss, sq) =>
                ss ← run_emitters fuel tqs flush_time gen_steps_time clear_history_time ss;
                Some (ss, sq)) ssm;
  '(res, ssm) ← finish_all flush_time ssm 0;
  Some (res, tqs, ssm).
End Manager.
