(* ===== verification/CompressFacts.v ===== *)
(** * The step compressor's arithmetic

    Exactness of the 32 bit arithmetic of [compress_bisect_add]
    (src/klippy/chelper/stepcompress.c), on the abstract view of its input: the
    acceptable windows [lo k .. hi k] of the pending steps [k = 1 .. n], all
    less than [CLOCK_DIFF_MAX] = 805306368 behind the last step sent.  A
    candidate is an interval [I] and an add [a] whose [k]-th step is at
    [k*I + a*tri k]. *)
From S2P Require Import Prelude Double Protocol Msgblock Stepcompress.

Definition tri (n : Z) : Z := n * (n - 1) / 2.

Lemma tri_double n : 2 * tri n = n * (n - 1).
Proof.
  unfold tri. assert ((n * (n - 1)) mod 2 = 0) as E; [|apply Z.div_exact in E; lia].
  rewrite Zmult_mod, Zminus_mod. pose proof (Z.mod_pos_bound n 2).
  assert (n mod 2 = 0 \/ n mod 2 = 1) as [-> | ->] by lia; done.
Qed.

Lemma tri_succ n : tri (n + 1) = tri n + n.
Proof. pose proof (tri_double n). pose proof (tri_double (n + 1)). lia. Qed.

Lemma tri_nonneg n : 0 <= n -> 0 <= tri n.
Proof. intros. pose proof (tri_double n). nia. Qed.

Lemma tri_mono k m : 0 <= k <= m -> tri k <= tri m.
Proof.
  intros. pose proof (tri_double k). pose proof (tri_double m).
  destruct (decide (m = 0)); [lia|]. assert (0 <= (m - k) * (m + k - 1)) by nia. lia.
Qed.

Lemma addfactor_exact n : 0 <= n -> n * (n - 1) < 2 ^ 31 -> addfactor_of n = tri n.
Proof.
  intros Hn Hb. unfold addfactor_of. pose proof (tri_double n) as E.
  rewrite s32_id by nia. rewrite <- E, Z.mul_comm. apply Z.quot_mul. lia.
Qed.

(** Rounded division decides the integer inequalities it stands for. *)
Lemma idiv_up_spec n d i : 0 < d -> - 2 ^ 31 <= n -> n + d < 2 ^ 31 ->
  (idiv_up n d <= i <-> n <= i * d).
Proof.
  intros Hd Hn Hs. unfold idiv_up. destruct (Z.leb_spec 0 n).
  - rewrite !s32_id by (rewrite ?s32_id; lia). rewrite Z.quot_div_nonneg by lia.
    pose proof (Z.div_mod (n + d - 1) d). pose proof (Z.mod_pos_bound (n + d - 1) d).
    split; intros; nia.
  - rewrite <- (Z.opp_involutive n), Z.quot_opp_l, Z.quot_div_nonneg by lia.
    pose proof (Z.div_mod (- n) d). pose proof (Z.mod_pos_bound (- n) d). split; intros; nia.
Qed.

Lemma idiv_down_spec n d i : 0 < d -> n < 2 ^ 31 -> - 2 ^ 31 <= n - d ->
  (i <= idiv_down n d <-> i * d <= n).
Proof.
  intros Hd Hn Hs. unfold idiv_down. destruct (Z.leb_spec 0 n).
  - rewrite Z.quot_div_nonneg by lia.
    pose proof (Z.div_mod n d). pose proof (Z.mod_pos_bound n d). split; intros; nia.
  - rewrite !s32_id by (rewrite ?s32_id; lia).
    rewrite <- (Z.opp_involutive (n - d + 1)), Z.quot_opp_l, Z.quot_div_nonneg by lia.
    pose proof (Z.div_mod (- (n - d + 1)) d). pose proof (Z.mod_pos_bound (- (n - d + 1)) d).
    split; intros; nia.
Qed.

(** The largest [max_error] covered: 25us at 400MHz. *)
Definition max_error_bound : Z := 10000.

Section Windows.
Variables (n : Z) (lo hi : Z -> Z).

(** Every window lies behind the previous one and within reach. *)
Record windows : Prop := {
  w_order : forall k, 1 < k <= n -> hi (k - 1) < lo k;
  w_pos : forall k, 1 <= k <= n -> 1 <= lo k;
  w_window : forall k, 1 <= k <= n -> lo k <= hi k < 805306368;
  w_error : hi 1 - lo 1 <= max_error_bound
}.

(** The first [k] steps of a candidate are in their windows. *)
Definition valid (a I k : Z) : Prop :=
  forall j, 1 <= j <= k -> lo j <= j * I + a * tri j <= hi j.

Context (W : windows).

(** The intervals between the steps of a valid candidate are positive. *)
Lemma valid_gap a I k : 1 <= k <= n -> valid a I k -> 1 <= I + a * (k - 1).
Proof.
  intros Hk V. destruct (decide (k = 1)) as [-> |].
  - specialize (V 1 ltac:(lia)). pose proof (w_pos W 1 ltac:(lia)).
    change (tri 1) with 0 in V. lia.
  - pose proof (V k ltac:(lia)). pose proof (V (k - 1) ltac:(lia)).
    pose proof (w_order W k ltac:(lia)). pose proof (tri_succ (k - 1)) as E.
    replace (k - 1 + 1) with k in E by lia. rewrite E in *. lia.
Qed.

Lemma valid_interval a I k : 1 <= k <= n -> valid a I k -> 1 <= I < 805306368.
Proof.
  intros Hk V. specialize (V 1 ltac:(lia)). change (tri 1) with 0 in V.
  pose proof (w_pos W 1 ltac:(lia)). pose proof (w_window W 1 ltac:(lia)). lia.
Qed.

Lemma valid_last a I k : 1 <= k <= n -> valid a I k ->
  1 <= k * I + a * tri k < 805306368.
Proof.
  intros Hk V. pose proof (V k ltac:(lia)). pose proof (w_pos W k Hk).
  pose proof (w_window W k Hk). lia.
Qed.

(** The quadratic part is bounded by the distance of the last step. *)
Lemma valid_quadratic a I k : 1 <= k <= n -> valid a I k ->
  Z.abs a * tri k + k < 805306369.
Proof.
  intros Hk V. pose proof (valid_last a I k Hk V). pose proof (valid_gap a I k Hk V).
  pose proof (valid_interval a I k Hk V). pose proof (tri_double k).
  destruct (Z.abs_spec a) as [[Ha ->]|[Ha ->]]; nia.
Qed.

Lemma valid_count a I k : 1 <= k <= n -> valid a I k -> a <> 0 ->
  k <= 40134 /\ tri k < 805306368.
Proof.
  intros Hk V Ha. pose proof (valid_quadratic a I k Hk V) as Q. pose proof (tri_double k).
  pose proof (tri_nonneg k ltac:(lia)).
  assert (tri k <= Z.abs a * tri k) by nia. split; [|lia].
  destruct (Z.le_gt_cases k 40134); [done|]. nia.
Qed.

(** [add] values stay within 16 bits. *)
Definition is_add (a : Z) : Prop := - 32768 <= a <= 32767.

(** One step further, the quadratic part grows by at most 2%. *)
Lemma next_quadratic a I k : 1 <= k <= n -> valid a I k -> is_add a ->
  Z.abs (a * tri (k + 1)) <= 821412495.
Proof.
  intros Hk V Ha. unfold is_add in Ha. rewrite Z.abs_mul, tri_succ.
  pose proof (valid_quadratic a I k Hk V) as Q. pose proof (tri_double k) as D.
  pose proof (tri_nonneg k ltac:(lia)). rewrite (Z.abs_eq (tri k + k)) by lia.
  destruct (Z.le_gt_cases k 100).
  - assert (tri k <= 4950) by nia. nia.
  - assert (100 * (Z.abs a * k) <= 2 * (Z.abs a * tri k)) by nia. lia.
Qed.

(** [interval*nextcount] *)
Lemma next_linear a I k : 1 <= k <= n -> valid a I k -> is_add a ->
  I * (k + 1) <= 1626718864.
Proof.
  intros Hk V Ha. unfold is_add in Ha. pose proof (valid_last a I k Hk V).
  pose proof (valid_interval a I k Hk V). pose proof (valid_quadratic a I k Hk V) as Q.
  pose proof (tri_double k) as D. pose proof (tri_nonneg k ltac:(lia)).
  assert (- (a * tri k) <= Z.abs a * tri k) by nia.
  destruct (decide (k = 1)) as [-> |]; [lia|]. destruct (Z.le_gt_cases k 100).
  - assert (tri k <= 4950) by nia. assert (Z.abs a * tri k <= 32768 * 4950) by nia. nia.
  - assert (101 * I <= k * I) by nia. lia.
Qed.

(** *** The inner loop *)

Lemma next_add_exact a I k : 1 <= k <= n -> valid a I k -> is_add a ->
  s32 (a * addfactor_of (k + 1)) = a * tri (k + 1).
Proof.
  intros Hk V Ha. destruct (decide (a = 0)) as [-> |Hne]; [done|].
  destruct (valid_count a I k Hk V Hne) as [Hc Ht]. pose proof (tri_double k) as D.
  pose proof (next_quadratic a I k Hk V Ha).
  rewrite addfactor_exact by nia. apply s32_id. lia.
Qed.

(** Raising the lower and lowering the upper interval bound keeps exactly the
    intervals whose next step is in its window. *)
Lemma raise_exact a I k l i : 1 <= k -> k + 1 <= n -> valid a I k -> is_add a ->
  1 <= l <= I -> n <= 65535 ->
  let c := s32 (a * addfactor_of (k + 1)) in
  (if s32 (l * (k + 1)) <? s32 (lo (k + 1) - c) then idiv_up (s32 (lo (k + 1) - c)) (k + 1) else l)
    <= i <-> l <= i /\ lo (k + 1) <= (k + 1) * i + a * tri (k + 1).
Proof.
  intros Hk Hn V Ha Hl Hn' c. subst c. rewrite (next_add_exact a I) by (done || lia).
  pose proof (next_quadratic a I k ltac:(lia) V Ha). pose proof (next_linear a I k ltac:(lia) V Ha).
  pose proof (w_window W (k + 1) ltac:(lia)). pose proof (w_pos W (k + 1) ltac:(lia)).
  rewrite (s32_id (lo _ - _)), (s32_id (l * _)) by nia.
  destruct (Z.ltb_spec (l * (k + 1)) (lo (k + 1) - a * tri (k + 1))).
  - rewrite idiv_up_spec by lia. split; [intros; split; nia|nia].
  - split; [intros; split; nia|lia].
Qed.

Lemma lower_exact a I k i : 1 <= k -> k + 1 <= n -> valid a I k -> is_add a -> n <= 65535 ->
  let c := s32 (a * addfactor_of (k + 1)) in
  i <= (if s32 (hi (k + 1) - c) <? s32 (I * (k + 1)) then idiv_down (s32 (hi (k + 1) - c)) (k + 1)
        else I)
    <-> i <= I /\ (k + 1) * i + a * tri (k + 1) <= hi (k + 1).
Proof.
  intros Hk Hn V Ha Hn' c. subst c. rewrite (next_add_exact a I) by (done || lia).
  pose proof (next_quadratic a I k ltac:(lia) V Ha). pose proof (next_linear a I k ltac:(lia) V Ha).
  pose proof (w_window W (k + 1) ltac:(lia)). pose proof (w_pos W (k + 1) ltac:(lia)).
  pose proof (valid_interval a I k ltac:(lia) V).
  rewrite (s32_id (hi _ - _)), (s32_id (I * _)) by nia.
  destruct (Z.ltb_spec (hi (k + 1) - a * tri (k + 1)) (I * (k + 1))).
  - rewrite idiv_down_spec by lia. split; [intros; split; nia|nia].
  - split; [intros; split; nia|lia].
Qed.

(** What a candidate move has to satisfy. *)
Definition good_move (m : step_move) : Prop :=
  exists a I k, m = mkMove I k a /\ 1 <= k <= n /\ is_add a /\ valid a I k.

(** What is known when the inner loop breaks out at [nextcount]. *)
Record broken (a l0 h0 : Z) (x : extension) : Prop := {
  br_count : 2 <= x_nextcount x <= n;
  br_point : x_nextpoint x = mkPoints (lo (x_nextcount x)) (hi (x_nextcount x));
  br_valid : valid a (x_interval x) (x_nextcount x - 1);
  br_interval : l0 <= x_interval x <= h0;
  br_short : x_nextcount x * x_interval x + a * tri (x_nextcount x) < lo (x_nextcount x) ->
    x_nextmaxinterval x = x_interval x;
  br_long : lo (x_nextcount x) <= x_nextcount x * x_interval x + a * tri (x_nextcount x) ->
    l0 <= x_nextmininterval x <= x_interval x
}.

Variable sc : stepcompress.
Context (Hpoint : forall k, 1 <= k <= n -> minmax_point sc (k - 1) = mkPoints (lo k) (hi k)).
Context (Hn : 1 <= n <= 65535).

Lemma extend_sequence_ok a : is_add a -> forall fuel k l h l0 h0,
  1 <= k <= n -> n - k < Z.of_nat fuel -> l0 <= l <= h -> h <= h0 ->
  (forall I, l <= I <= h -> valid a I k) ->
  (exists m, extend_sequence fuel sc n a k l h h = Some (inl m) /\ good_move m) \/
  (exists x, extend_sequence fuel sc n a k l h h = Some (inr x) /\ broken a l0 h0 x).
Proof.
  intros Ha. induction fuel as [|fuel IH]; intros k l h l0 h0 Hk Hf Hl Hh V; [lia|].
  assert (valid a h k) as Vh by (apply V; lia).
  assert (valid a l k) as Vl by (apply V; lia).
  pose proof (valid_interval a h k Hk Vh). pose proof (valid_interval a l k Hk Vl).
  cbn [extend_sequence]. replace (k + 1 - 1) with k by lia.
  destruct (Z.leb_spec n k).
  - left. eexists. split; [done|].
    exists a, h, k. rewrite u32_id, u16_id by lia. split_and!; [|lia|lia|done|done].
    f_equal. clear -Ha. unfold is_add in Ha. word_lia.
  - pose proof (Hpoint (k + 1) ltac:(lia)) as Hp. replace (k + 1 - 1) with k in Hp by lia.
    rewrite Hp. cbn [minp maxp].
    pose proof (fun i => raise_exact a h k l i ltac:(lia) ltac:(lia) Vh Ha ltac:(lia) ltac:(lia)) as R.
    pose proof (fun i => lower_exact a h k i ltac:(lia) ltac:(lia) Vh Ha ltac:(lia)) as L.
    cbv zeta in R, L.
    set (l' := if _ <? s32 (lo _ - _) then _ else l) in *.
    set (h' := if s32 (hi _ - _) <? _ then _ else h) in *.
    pose proof (proj1 (R l') ltac:(lia)). pose proof (proj1 (L h') ltac:(lia)).
    destruct (Z.ltb_spec h' l').
    + right. eexists. split; [done|]. constructor; cbn [x_nextcount x_nextpoint x_interval
        x_nextmininterval x_nextmaxinterval]; [lia|done| |lia| |].
      * by replace (k + 1 - 1) with k by lia.
      * intros Hs. pose proof (proj2 (L h)). pose proof (w_window W (k + 1)). lia.
      * intros Hs. pose proof (proj2 (R h)). lia.
    + apply IH; [lia..|]. intros I HI j Hj. destruct (decide (j = k + 1)) as [-> |].
      * pose proof (proj1 (R I)). pose proof (proj1 (L I)). lia.
      * apply V; [|lia]. pose proof (proj1 (R I)). pose proof (proj1 (L I)). lia.
Qed.

(** *** The outer loop *)

(** The ranges the outer loop searches. *)
Record range_ok (b : bisect) : Prop := {
  r_min : lo 1 <= b_outer_mininterval b <= b_outer_maxinterval b;
  r_max : b_outer_maxinterval b <= hi 1;
  r_add : - 32768 <= b_minadd b <= b_add b /\ b_add b <= b_maxadd b <= 32767
}.

(** The best and the best linear sequence are candidates. *)
Definition found (b : bisect) : Prop :=
  good_move (mkMove (b_bestinterval b) (b_bestcount b) (b_bestadd b)) /\
  good_move (mkMove (b_zerointerval b) (b_zerocount b) 0).

(** Before the first iteration, and after it. *)
Definition phase (b : bisect) : Prop :=
  (b_add b = 0 /\ b_bestreach b = INT32_MIN) \/
  (found b /\ (0 < b_minadd b \/ b_maxadd b < 0)).

Lemma good_move_words I k a : good_move (mkMove I k a) ->
  mkMove (u32 I) (u16 k) (s16 a) = mkMove I k a.
Proof.
  intros (a' & I' & k' & [= -> -> ->] & Hk & Ha & V). unfold is_add in Ha.
  pose proof (valid_interval _ _ _ Hk V). rewrite u32_id, u16_id by lia.
  f_equal. clear -Ha. word_lia.
Qed.

Lemma best_move_ok b : found b -> good_move (best_move b).
Proof.
  intros [Hb Hz]. unfold best_move. case_match; [|by rewrite good_move_words].
  pose proof (good_move_words _ _ _ Hz) as E. change (s16 0) with 0 in E. by rewrite E.
Qed.

Lemma reach_exact a I k : 1 <= k -> k + 1 <= n -> valid a I k -> is_add a ->
  s32 (s32 (a * addfactor_of k) + s32 (I * k)) = k * I + a * tri k.
Proof.
  intros Hk Hk' V Ha. pose proof (valid_last a I k ltac:(lia) V).
  pose proof (next_linear a I k ltac:(lia) V Ha). pose proof (valid_interval a I k ltac:(lia) V).
  pose proof (valid_quadratic a I k ltac:(lia) V). pose proof (tri_nonneg k ltac:(lia)).
  assert (s32 (a * addfactor_of k) = a * tri k) as ->.
  { destruct (decide (a = 0)) as [-> |Hne]; [done|].
    destruct (valid_count a I k ltac:(lia) V Hne). pose proof (tri_double k).
    rewrite addfactor_exact by lia. apply s32_id. nia. }
  rewrite (s32_id (I * k)) by nia. rewrite s32_id; lia.
Qed.

Lemma next_reach_exact a I k : 1 <= k -> k + 1 <= n -> valid a I k -> is_add a ->
  s32 (s32 (a * addfactor_of (k + 1)) + s32 (I * (k + 1))) = (k + 1) * I + a * tri (k + 1).
Proof.
  intros Hk Hk' V Ha. pose proof (valid_last a I k ltac:(lia) V) as HL.
  pose proof (next_linear a I k ltac:(lia) V Ha). pose proof (valid_interval a I k ltac:(lia) V).
  rewrite (next_add_exact a I) by (done || lia). rewrite (s32_id (I * (k + 1))) by nia.
  pose proof (valid_gap a I k ltac:(lia) V). rewrite tri_succ in *. unfold is_add in Ha.
  pose proof (next_quadratic a I k ltac:(lia) V Ha). rewrite tri_succ in *.
  apply Z.eq_trans with (s32 ((k * I + a * tri k) + (I + a * (k - 1)) + a)); [f_equal; ring|].
  assert (I + a * (k - 1) <= 805306368).
  { destruct (decide (k = 1)) as [-> |]; [lia|].
    pose proof (V (k - 1) ltac:(lia)). pose proof (w_pos W (k - 1) ltac:(lia)).
    pose proof (tri_succ (k - 1)) as E. replace (k - 1 + 1) with k in E by lia.
    rewrite E in HL. lia. }
  rewrite s32_id; lia.
Qed.

Lemma check_best_ok b x b' stop : range_ok b -> phase b ->
  broken (b_add b) (b_outer_mininterval b) (b_outer_maxinterval b) x ->
  check_best b x = (b', stop) ->
  found b' /\ range_ok b' /\ b_add b' = b_add b /\
  b_outer_mininterval b' = b_outer_mininterval b /\
  b_outer_maxinterval b' = b_outer_maxinterval b /\
  b_minadd b' = b_minadd b /\ b_maxadd b' = b_maxadd b /\
  (stop = false -> b_add b <> 0 \/ x_nextcount x <= 513).
Proof.
  intros R Ph B E. destruct R as [R1 R2 R3]. destruct B as [B1 _ BV _ _ _].
  set (k := x_nextcount x - 1) in *. assert (is_add (b_add b)) as Ha by (unfold is_add; lia).
  unfold check_best in E. fold k in E. rewrite reach_exact in E by (done || lia).
  pose proof (valid_last _ _ k ltac:(lia) BV).
  assert (good_move (mkMove (x_interval x) k (b_add b))) as G
    by (exists (b_add b), (x_interval x), k; split_and!; done || lia).
  destruct Ph as [[P1 P2]|[[F1 F2] P2]].
  - rewrite P2 in E. unfold INT32_MIN in E.
    destruct (Z.ltb_spec (- 2 ^ 31) (k * x_interval x + b_add b * tri k)); [|lia].
    rewrite P1 in E, G |- *. cbn in E. simplify_eq. cbn. split_and!; try done.
    intros Hs. right. apply Z.ltb_ge in Hs. lia.
  - assert (b_add b <> 0) as Hne by lia. apply Z.eqb_neq in Hne as Hne'. rewrite Hne' in E.
    destruct (_ || _) in E; simplify_eq; cbn; split_and!; try done; by left.
Qed.

Lemma next_tri a I k : 1 <= k -> k + 1 <= n -> valid a I k -> is_add a ->
  a <> 0 \/ k + 1 <= 513 ->
  k <= 40134 /\ 1 <= tri (k + 1) <= 805346502 /\ addfactor_of (k + 1) = tri (k + 1).
Proof.
  intros Hk Hk' V Ha Hc. pose proof (tri_double k) as D. pose proof (tri_succ k) as S.
  pose proof (tri_nonneg k ltac:(lia)).
  assert (k <= 40134 /\ tri k < 805306368) as [H1 H2].
  { destruct Hc as [Hne|Hc]; [by apply (valid_count a I); [lia|..]|].
    split; [lia|]. pose proof (tri_mono k 512 ltac:(lia)). change (tri 512) with 130816 in *. lia. }
  split_and!; [done|lia..|]. apply addfactor_exact; [lia|]. pose proof (tri_double (k + 1)). lia.
Qed.

(** What holds of the ranges while an iteration narrows them: [b] is the state
    at the start of the iteration, [c] the narrowed one. *)
Record narrowed (b c : bisect) (x : extension) : Prop := {
  n_add : b_add c = b_add b;
  n_best : found b -> found c;
  n_min : lo 1 <= b_outer_mininterval c <= x_interval x;
  n_max : x_interval x <= b_outer_maxinterval c <= hi 1;
  n_minadd : b_minadd b <= b_minadd c;
  n_maxadd : b_maxadd c <= b_maxadd b;
  n_split : (b_minadd c = b_add b + 1 /\ b_add b <= b_maxadd c) \/
            (b_maxadd c = b_add b - 1 /\ b_minadd c <= b_add b)
}.

Lemma limit_by_reach_ok b x : range_ok b ->
  broken (b_add b) (b_outer_mininterval b) (b_outer_maxinterval b) x ->
  narrowed b (limit_by_reach b x) x.
Proof.
  intros [R1 R2 R3] [B1 B2 BV BI BS BL]. set (k := x_nextcount x - 1) in *.
  assert (x_nextcount x = k + 1) as Ek by (subst k; lia).
  assert (is_add (b_add b)) as Ha by (unfold is_add; lia).
  unfold limit_by_reach. rewrite B2, Ek in *. cbn [minp].
  rewrite next_reach_exact by (done || lia).
  rewrite !s32_id by lia.
  destruct (Z.ltb_spec ((k + 1) * x_interval x + b_add b * tri (k + 1)) (lo (k + 1))) as [Hs|Hs].
  - specialize (BS Hs). constructor; cbn; try done; lia.
  - specialize (BL Hs). constructor; cbn; try done; lia.
Qed.

Lemma errdelta_ok k : 0 <= sc_max_error sc <= max_error_bound -> 1 < k <= 40134 ->
  let e := s32 (u32 (sc_max_error sc * QUADRATIC_DEV) / u32 (s32 (k * k))) in
  0 <= e /\ e * (k * k) <= 110000.
Proof.
  unfold max_error_bound, QUADRATIC_DEV. cbv zeta. intros Hm Hk.
  rewrite (s32_id (k * k)) by nia. rewrite !u32_id by nia.
  pose proof (Z.div_mod (sc_max_error sc * 11) (k * k) ltac:(nia)) as E.
  pose proof (Z.mod_pos_bound (sc_max_error sc * 11) (k * k) ltac:(nia)).
  pose proof (Z.div_pos (sc_max_error sc * 11) (k * k) ltac:(lia) ltac:(nia)).
  rewrite s32_id by (split; [lia|]; nia). split; lia.
Qed.

(** The narrowed range times the next add factor fits 32 bits. *)
Definition fits (c : bisect) (x : extension) : Prop :=
  Z.abs (b_minadd c * tri (x_nextcount x)) <= 1700000000 /\
  Z.abs (b_maxadd c * tri (x_nextcount x)) <= 1700000000.

Lemma limit_by_deviation_ok b c x : range_ok b ->
  broken (b_add b) (b_outer_mininterval b) (b_outer_maxinterval b) x ->
  0 <= sc_max_error sc <= max_error_bound -> b_add b <> 0 \/ x_nextcount x <= 513 ->
  narrowed b c x -> let d := limit_by_deviation sc c x in narrowed b d x /\ fits d x.
Proof.
  intros [R1 R2 R3] [B1 B2 BV BI BS BL] Hm Hc [N1 N2 N3 N4 N5 N6 N7] d. subst d.
  set (k := x_nextcount x - 1) in *.
  assert (x_nextcount x = k + 1) as Ek by (subst k; lia).
  assert (is_add (b_add b)) as Ha by (unfold is_add; lia). rewrite Ek in *.
  destruct (next_tri (b_add b) (x_interval x) k) as (K1 & K2 & _); [lia|lia|done..|].
  pose proof (next_quadratic (b_add b) (x_interval x) k ltac:(lia) BV Ha) as Q.
  unfold limit_by_deviation, fits. rewrite Ek. replace (k + 1 - 1) with k by lia.
  destruct (Z.ltb_spec 1 k) as [Hk|Hk]; cbv zeta.
  - destruct (errdelta_ok k Hm ltac:(lia)) as [E1 E2]. cbv zeta in E1, E2.
    set (e := s32 (_ / _)) in *. assert (e <= 110000) by nia.
    pose proof (tri_double (k + 1)). assert (e * tri (k + 1) <= 110000) by nia.
    assert (forall v, b_add b - e <= v <= b_add b + e \/ v = b_add b + 1 \/ v = b_add b - 1 ->
      Z.abs (v * tri (k + 1)) <= 1700000000) as Hfit by (intros v [?|[-> | ->]]; nia).
    rewrite N1, (s32_id (b_add b - e)) by lia.
    destruct (Z.ltb_spec (b_minadd c) (b_add b - e)); cbn [b_add]; cbn; rewrite N1;
      rewrite (s32_id (b_add b + e)) by lia;
      destruct (Z.ltb_spec (b_add b + e) (b_maxadd c)); cbn.
    all: split; [constructor; cbn; try done; lia|split; apply Hfit; lia].
  - assert (k = 1) as -> by lia. change (tri (1 + 1)) with 1 in *.
    split; [by constructor|]. lia.
Qed.

Lemma raise_add t m v : 1 <= t <= 805346502 -> Z.abs (m * t) <= 1700000000 ->
  - 2100000000 <= v <= 805306368 ->
  m <= (if s32 (m * t) <? s32 v then idiv_up (s32 v) t else m).
Proof.
  intros Ht Hm Hv. rewrite (s32_id v), (s32_id (m * t)) by lia.
  destruct (Z.ltb_spec (m * t) v); [|lia].
  pose proof (proj1 (idiv_up_spec v t (idiv_up v t) ltac:(lia) ltac:(lia) ltac:(lia))). nia.
Qed.

Lemma lower_add t m v : 1 <= t -> Z.abs (m * t) <= 1700000000 ->
  - 2100000000 <= v - t -> v <= 805306368 ->
  (if s32 v <? s32 (m * t) then idiv_down (s32 v) t else m) <= m.
Proof.
  intros Ht Hm Hv Hv'. rewrite (s32_id v), (s32_id (m * t)) by lia.
  destruct (Z.ltb_spec v (m * t)); [|lia].
  pose proof (proj1 (idiv_down_spec v t (idiv_down v t) ltac:(lia) ltac:(lia) ltac:(lia))). nia.
Qed.

(** The products of the outer interval bounds with [nextcount]. *)
Lemma outer_products a I k omin omax : 1 <= k -> k + 1 <= n -> valid a I k -> is_add a ->
  a <> 0 \/ k + 1 <= 513 -> lo 1 <= omin <= I -> I <= omax <= hi 1 ->
  0 <= omax * (k + 1) <= 2100000000 /\ 0 <= omin * (k + 1) <= 1626718864 /\
  - 2100000000 <= hi (k + 1) - omin * (k + 1) - tri (k + 1).
Proof.
  intros Hk Hk' V Ha Hc Hmin Hmax.
  destruct (next_tri a I k Hk Hk' V Ha Hc) as (K1 & K2 & _).
  pose proof (next_linear a I k ltac:(lia) V Ha) as L.
  pose proof (valid_interval a I k ltac:(lia) V) as VI.
  pose proof (valid_quadratic a I k ltac:(lia) V) as VQ.
  pose proof (w_pos W 1 ltac:(lia)) as Wp. pose proof (w_error W) as We.
  pose proof (w_order W (k + 1) ltac:(lia)) as Wo. replace (k + 1 - 1) with k in Wo by lia.
  pose proof (w_window W (k + 1) ltac:(lia)). pose proof (V k ltac:(lia)) as Vk.
  unfold max_error_bound in We.
  pose proof (Z.mul_le_mono_nonneg_r omax (I + 10000) (k + 1)).
  pose proof (Z.mul_le_mono_nonneg_r omin I (k + 1)).
  pose proof (Z.mul_nonneg_nonneg omax (k + 1)). pose proof (Z.mul_nonneg_nonneg omin (k + 1)).
  split_and!; [lia..|]. pose proof (tri_nonneg k ltac:(lia)).
  assert (- 805306368 <= a * tri k) by (destruct (Z.abs_spec a) as [[? E]|[? E]]; rewrite E in VQ; nia).
  enough (I + tri (k + 1) <= 830000000) by lia.
  destruct (Z.le_gt_cases k 100).
  - pose proof (tri_mono (k + 1) 101 ltac:(lia)). change (tri 101) with 5050 in *. lia.
  - pose proof (Z.mul_le_mono_nonneg_l 102 (k + 1) I). lia.
Qed.

Lemma limit_by_point_ok b c x : range_ok b ->
  broken (b_add b) (b_outer_mininterval b) (b_outer_maxinterval b) x ->
  b_add b <> 0 \/ x_nextcount x <= 513 -> narrowed b c x -> fits c x ->
  let d := limit_by_point c x in
  b_outer_mininterval d = b_outer_mininterval c /\ b_outer_maxinterval d = b_outer_maxinterval c /\
  b_minadd c <= b_minadd d /\ b_maxadd d <= b_maxadd c /\ (found c -> found d).
Proof.
  intros [R1 R2 R3] [B1 B2 BV _ _ _] Hc [_ _ N3 N4 _ _ _] [F1 F2] d. subst d.
  set (k := x_nextcount x - 1) in *.
  assert (x_nextcount x = k + 1) as Ek by (subst k; lia).
  assert (is_add (b_add b)) as Ha by (unfold is_add; lia). rewrite Ek in *.
  destruct (next_tri (b_add b) (x_interval x) k) as (K1 & K2 & K3); [lia|lia|done..|].
  destruct (outer_products (b_add b) (x_interval x) k _ _ ltac:(lia) ltac:(lia) BV Ha Hc N3 N4)
    as (O1 & O2 & O3).
  pose proof (w_window W (k + 1) ltac:(lia)). pose proof (w_pos W (k + 1) ltac:(lia)).
  unfold limit_by_point. rewrite B2, Ek, K3. cbn [minp maxp]. cbv zeta.
  rewrite (s32_id (b_outer_maxinterval c * _)), (s32_id (b_outer_mininterval _ * _)).
  2: { case_match; cbn; lia. }
  2: lia.
  pose proof (raise_add (tri (k + 1)) (b_minadd c) (lo (k + 1) - b_outer_maxinterval c * (k + 1))
    ltac:(lia) F1 ltac:(lia)) as Hr.
  pose proof (lower_add (tri (k + 1)) (b_maxadd c) (hi (k + 1) - b_outer_mininterval c * (k + 1))
    ltac:(lia) F2 ltac:(lia) ltac:(lia)) as Hl.
  destruct (s32 (b_minadd c * tri (k + 1)) <? _); cbn;
    destruct (_ <? s32 (b_maxadd c * tri (k + 1))); cbn; done.
Qed.

Lemma limit_add_ok b x : range_ok b ->
  broken (b_add b) (b_outer_mininterval b) (b_outer_maxinterval b) x ->
  0 <= sc_max_error sc <= max_error_bound -> b_add b <> 0 \/ x_nextcount x <= 513 ->
  let d := limit_add sc b x in
  lo 1 <= b_outer_mininterval d <= b_outer_maxinterval d /\ b_outer_maxinterval d <= hi 1 /\
  b_minadd b <= b_minadd d /\ b_maxadd d <= b_maxadd b /\
  (b_add b < b_minadd d \/ b_maxadd d < b_add b) /\ (found b -> found d).
Proof.
  intros R B Hm Hc. pose proof (limit_by_reach_ok b x R B) as N1.
  destruct (limit_by_deviation_ok b _ x R B Hm Hc N1) as [N2 F2].
  destruct (limit_by_point_ok b _ x R B Hc N2 F2) as (P1 & P2 & P3 & P4 & P5).
  destruct N2. unfold limit_add. cbv zeta. split_and!; [lia..|auto].
Qed.

Lemma bisect_loop_ok : 0 <= sc_max_error sc <= max_error_bound -> forall fuel b,
  range_ok b -> phase b -> b_maxadd b - b_minadd b < Z.of_nat fuel ->
  exists m, bisect_loop fuel sc n b = Some m /\ good_move m.
Proof.
  intros Hm. induction fuel as [|fuel IH]; intros b R Ph Hf; [destruct R; lia|].
  assert (is_add (b_add b)) as Ha by (destruct R; unfold is_add; lia).
  cbn -[extend_sequence check_best limit_add].
  destruct (extend_sequence_ok (b_add b) Ha (S (Z.to_nat n)) 1 (b_outer_mininterval b)
    (b_outer_maxinterval b) (b_outer_mininterval b) (b_outer_maxinterval b))
    as [(m & -> & G)|(x & -> & B)]; [lia|lia|destruct R; lia|lia| |by eauto|].
  { intros I HI j Hj. assert (j = 1) as -> by lia. change (tri 1) with 0. destruct R. lia. }
  destruct (check_best b x) as [b' stop] eqn:E.
  destruct (check_best_ok b x b' stop R Ph B E) as (F & R' & E1 & E2 & E3 & E4 & E5 & Hs).
  destruct stop; [by eauto using best_move_ok|].
  rewrite <- E1, <- E2, <- E3 in *. specialize (Hs eq_refl).
  destruct (limit_add_ok b' x R' B Hm Hs) as (L1 & L2 & L3 & L4 & L5 & L6).
  destruct (Z.ltb_spec (b_maxadd (limit_add sc b' x)) (b_minadd (limit_add sc b' x))) as [|Hr].
  - eauto using best_move_ok.
  - set (d := limit_add sc b' x) in *. clearbody d.
    assert (s32 (b_maxadd d - Z.quot (s32 (b_maxadd d - b_minadd d)) 4)
            = b_maxadd d - (b_maxadd d - b_minadd d) / 4) as Eadd.
    { destruct R' as [_ _ ?]. rewrite (s32_id (b_maxadd d - b_minadd d)) by lia.
      rewrite Z.quot_div_nonneg by lia. apply s32_id. Z.to_euclidean_division_equations. lia. }
    rewrite Eadd. apply IH.
    + destruct R'. constructor; cbn; [lia..|]. Z.to_euclidean_division_equations. lia.
    + right. split; [by apply L6|]. cbn. destruct Ph as [[P1 _]|[_ P1]]; lia.
    + cbn. destruct R'. lia.
Qed.
End Windows.
