(* ===== verification/StepcompressFacts.v ===== *)
(** * The step queue of the host's compressor

    The queue of a [struct stepcompress] (src/klippy/chelper/stepcompress.c)
    seen as the list of the 64 bit clocks of its pending steps, the moves the
    compressor finds for it, and what flushing and appending do to it. *)
From S2P Require Import Prelude Double Protocol Msgblock Stepcompress CompressFacts.
Import Msgblock.

(** Clocks that strictly increase, starting behind [prev]. *)
Fixpoint increasing (prev : Z) (cs : list Z) : Prop :=
  match cs with
  | [] => True
  | c :: cs => prev < c /\ increasing c cs
  end.

Lemma increasing_lookup prev cs i c : increasing prev cs -> cs !! i = Some c ->
  nth i (prev :: cs) 0 < c /\ prev < c.
Proof.
  revert prev i. induction cs as [|d cs IH]; intros prev i Hi Hc; [done|].
  destruct Hi as [H1 H2]. destruct i as [|i]; simpl in *; [by simplify_eq|].
  destruct (IH _ _ H2 Hc). destruct i; lia.
Qed.

(** The last clock of a list of clocks behind [prev]. *)
Fixpoint end_of (prev : Z) (cs : list Z) : Z :=
  match cs with [] => prev | c :: cs => end_of c cs end.

Lemma end_of_app prev l1 l2 : end_of prev (l1 ++ l2) = end_of (end_of prev l1) l2.
Proof. revert prev. induction l1; intros; simpl; auto. Qed.

Lemma increasing_app prev l1 l2 :
  increasing prev (l1 ++ l2) <-> increasing prev l1 /\ increasing (end_of prev l1) l2.
Proof. revert prev. induction l1 as [|c l1 IH]; intros; simpl; [tauto|]. rewrite IH. tauto. Qed.

Lemma increasing_weaken p q cs : increasing q cs -> p <= q -> increasing p cs.
Proof. destruct cs; simpl; [done|]. intros [? ?] ?. split; [lia|done]. Qed.

Lemma end_of_lookup prev l k c : l !! k = Some c -> length l = S k -> end_of prev l = c.
Proof.
  revert prev k. induction l as [|d l IH]; intros prev k Hc Hl; [done|].
  destruct k as [|k]; simpl in *; [by destruct l; simplify_eq|]. apply (IH _ k); [done|lia].
Qed.

(** ** The pending steps *)

(** [sc] holds exactly the steps [cs]: the buffer contains their clocks' low
    32 bits, they follow the last step sent and are less than
    [CLOCK_DIFF_MAX] away from it. *)
Record queue_ok (sc : stepcompress) (cs : list Z) : Prop := {
  q_bounds : (sc_queue_pos sc <= sc_queue_next sc <= length (sc_queue sc))%nat;
  q_buf : take (in_use sc) (drop (sc_queue_pos sc) (sc_queue sc)) = map u32 cs;
  q_inc : increasing (sc_last_step_clock sc) cs;
  q_far : Forall (fun c => c < sc_last_step_clock sc + 805306368) cs;
  q_clock : 0 <= sc_last_step_clock sc < 2 ^ 63;
  q_clocks : Forall (fun c => c < 2 ^ 63) cs
}.

Lemma queue_ok_length sc cs : queue_ok sc cs -> in_use sc = length cs.
Proof.
  intros [B E _ _ _ _]. apply (f_equal length) in E.
  rewrite length_take, length_drop, length_map in E. unfold in_use in *. lia.
Qed.

Lemma queue_at_ok sc cs i c : queue_ok sc cs -> cs !! i = Some c ->
  queue_at sc (Z.of_nat i) = u32 c.
Proof.
  intros Q Hc. pose proof (queue_ok_length sc cs Q) as Hl. destruct Q as [B E _ _ _ _].
  apply (f_equal (fun l => l !! i)) in E. rewrite list_lookup_fmap, Hc in E.
  apply lookup_lt_Some in Hc. rewrite lookup_take_lt, lookup_drop in E by lia.
  unfold queue_at. rewrite Nat2Z.id. apply nth_lookup_Some with (d := 0) in E. exact E.
Qed.

(** The requested clock of the [k]-th pending step, counted from 1; step 0 is
    the last one sent. *)
Definition request (last : Z) (cs : list Z) (k : Z) : Z := nth (Z.to_nat k) (last :: cs) 0.

Definition window_hi (last : Z) (cs : list Z) (k : Z) : Z := request last cs k - last.
Definition window_lo (max_error last : Z) (cs : list Z) (k : Z) : Z :=
  window_hi last cs k - Z.min max_error ((request last cs k - request last cs (k - 1)) / 2).

Lemma request_step sc cs k : queue_ok sc cs -> 1 <= k <= Z.of_nat (length cs) ->
  let last := sc_last_step_clock sc in
  cs !! Z.to_nat (k - 1) = Some (request last cs k) /\
  last <= request last cs (k - 1) < request last cs k /\
  request last cs k < last + 805306368 /\
  queue_at sc (k - 1) = u32 (request last cs k).
Proof.
  intros Q Hk last. destruct (lookup_lt_is_Some_2 cs (Z.to_nat (k - 1))) as [c Hc]; [lia|].
  assert (request last cs k = c) as E.
  { unfold request. replace (Z.to_nat k) with (S (Z.to_nat (k - 1))) by lia.
    simpl. by apply nth_lookup_Some. }
  pose proof (queue_at_ok sc cs _ c Q Hc) as Ha. rewrite Z2Nat.id in Ha by lia.
  destruct Q as [_ _ Qi Qf _ _]. destruct (increasing_lookup _ _ _ _ Qi Hc) as [H1 H2].
  rewrite Forall_lookup in Qf. specialize (Qf _ _ Hc). rewrite E. fold last in H1, H2, Qf.
  split_and!; try done. unfold request. destruct (Z.to_nat (k - 1)) as [|i] eqn:Ei; [simpl; lia|].
  destruct (lookup_lt_is_Some_2 cs i) as [d Hd]; [apply lookup_lt_Some in Hc; lia|].
  destruct (increasing_lookup _ _ _ _ Qi Hd) as [_ H3]. simpl.
  apply nth_lookup_Some with (d := 0) in Hd. fold last in H3. lia.
Qed.

Lemma minmax_point_ok sc cs k : queue_ok sc cs -> 1 <= k <= Z.of_nat (length cs) ->
  0 <= sc_max_error sc <= max_error_bound ->
  let last := sc_last_step_clock sc in
  minmax_point sc (k - 1)
  = mkPoints (window_lo (sc_max_error sc) last cs k) (window_hi last cs k).
Proof.
  intros Q Hk Hm last. destruct (request_step sc cs k Q Hk) as (_ & R1 & R2 & R3).
  fold last in R1, R2, R3. unfold minmax_point, window_lo, window_hi. fold last. rewrite R3.
  set (r := request last cs k) in *. unfold max_error_bound in Hm.
  assert (u32 (u32 r - u32 last) = r - last) as E1 by (rewrite u32_sub_l, u32_sub_r, u32_id; lia).
  assert ((if 0 <? k - 1 then u32 (queue_at sc (k - 1 - 1) - u32 last) else 0)
          = request last cs (k - 1) - last) as E2.
  { destruct (Z.ltb_spec 0 (k - 1)).
    - destruct (request_step sc cs (k - 1) Q ltac:(lia)) as (_ & P1 & P2 & P3).
      fold last in P1, P2, P3. rewrite P3, u32_sub_l, u32_sub_r, u32_id; lia.
    - assert (k = 1) as -> by lia. unfold request. simpl. lia. }
  cbv zeta. rewrite E1, E2.
  replace (r - last - (request last cs (k - 1) - last)) with (r - request last cs (k - 1)) by lia.
  rewrite (u32_id (r - request _ _ _)) by lia.
  assert ((if sc_max_error sc <? (r - request last cs (k - 1)) / 2 then sc_max_error sc
           else (r - request last cs (k - 1)) / 2)
          = Z.min (sc_max_error sc) ((r - request last cs (k - 1)) / 2)) as ->
    by (destruct (Z.ltb_spec (sc_max_error sc) ((r - request last cs (k - 1)) / 2)); lia).
  pose proof (Z.div_pos (r - request last cs (k - 1)) 2).
  pose proof (Z.div_le_upper_bound (r - request last cs (k - 1)) 2 (r - last)).
  rewrite u32_id, !s32_id by lia. done.
Qed.

Lemma windows_ok sc cs n : queue_ok sc cs -> 0 <= sc_max_error sc <= max_error_bound ->
  n <= Z.of_nat (length cs) -> 1 <= n ->
  let last := sc_last_step_clock sc in
  windows n (window_lo (sc_max_error sc) last cs) (window_hi last cs).
Proof.
  intros Q Hm Hn H1 last.
  assert (forall k, 1 <= k <= n ->
    window_hi last cs (k - 1) < window_lo (sc_max_error sc) last cs k <= window_hi last cs k /\
    0 <= window_hi last cs (k - 1) /\ window_hi last cs k < 805306368 /\
    window_hi last cs k - window_lo (sc_max_error sc) last cs k <= max_error_bound) as HW.
  { intros k Hk. destruct (request_step sc cs k Q ltac:(lia)) as (_ & R1 & R2 & _).
    fold last in R1, R2. unfold window_lo, window_hi, max_error_bound in *.
    set (d := request last cs k - request last cs (k - 1)) in *.
    assert (0 <= d / 2 /\ d / 2 < d) by (subst d; split; [apply Z.div_pos; lia|apply Z.div_lt; lia]).
    lia. }
  constructor; intros; try specialize (HW k ltac:(lia)); try specialize (HW 1 ltac:(lia)); lia.
Qed.

(** ** One move *)

(** The clocks at which the micro-controller steps for a move that starts
    from [clk]: "next_wake_time = last_wake_time + interval; interval += add". *)
Fixpoint move_clocks (n : nat) (clk interval add : Z) : list Z :=
  match n with
  | O => []
  | S n => clk + interval :: move_clocks n (clk + interval) (interval + add) add
  end.

Lemma length_move_clocks n clk i a : length (move_clocks n clk i a) = n.
Proof. revert clk i. induction n; intros; simpl; auto. Qed.

Lemma move_clocks_lookup n clk i a j : (j < n)%nat ->
  move_clocks n clk i a !! j = Some (clk + Z.of_nat (S j) * i + a * tri (Z.of_nat (S j))).
Proof.
  revert clk i j. induction n as [|n IH]; intros clk i j Hj; [lia|].
  destruct j as [|j]; cbn [move_clocks lookup list_lookup].
  - f_equal. change (tri (Z.of_nat 1)) with 0. lia.
  - rewrite IH by lia. f_equal. rewrite !Nat2Z.inj_succ.
    pose proof (tri_succ (Z.of_nat j + 1)). unfold Z.succ in *.
    pose proof (tri_double (Z.of_nat j + 1)). nia.
Qed.

Lemma move_clocks_increasing n clk i a :
  (forall j, 0 <= j < Z.of_nat n -> 1 <= i + a * j) -> increasing clk (move_clocks n clk i a).
Proof.
  revert clk i. induction n as [|n IH]; intros clk i Hg; [done|]. split.
  - specialize (Hg 0 ltac:(lia)). lia.
  - apply IH. intros j Hj. specialize (Hg (j + 1) ltac:(lia)). lia.
Qed.

Definition move_schedule (clk : Z) (m : step_move) : list Z :=
  move_clocks (Z.to_nat (mv_count m)) clk (mv_interval m) (mv_add m).

(** A scheduled step is never late and at most [max_error] early. *)
Definition close (max_error c t : Z) : Prop := c - max_error <= t <= c.

(** A move that fits the pending steps. *)
Record fitting (sc : stepcompress) (cs : list Z) (m : step_move) : Prop := {
  ft_count : 1 <= mv_count m <= Z.of_nat (length cs) /\ mv_count m <= 65535;
  ft_add : is_add (mv_add m);
  ft_interval : 1 <= mv_interval m < 805306368;
  ft_check : check_line sc m = 0;
  ft_close : Forall2 (close (sc_max_error sc)) (take (Z.to_nat (mv_count m)) cs)
               (move_schedule (sc_last_step_clock sc) m);
  ft_increasing : increasing (sc_last_step_clock sc) (move_schedule (sc_last_step_clock sc) m);
  ft_ticks : u32 (s32 (mv_add m * addfactor_of (mv_count m)) + mv_interval m * (mv_count m - 1))
             = end_of (sc_last_step_clock sc) (move_schedule (sc_last_step_clock sc) m)
               - (sc_last_step_clock sc + mv_interval m)
}.

Section Move.
Context (sc : stepcompress) (cs : list Z) (Q : queue_ok sc cs).
Context (Hm : 0 <= sc_max_error sc <= max_error_bound).
Let last := sc_last_step_clock sc.
Let lo := window_lo (sc_max_error sc) last cs.
Let hi := window_hi last cs.

Lemma check_points_ok n (W : windows n lo hi) a I k : n <= Z.of_nat (length cs) ->
  1 <= k <= n -> is_add a -> valid lo hi a I k -> forall r i,
  0 <= i -> i + Z.of_nat r <= k ->
  check_points r sc a i (u32 (I + a * i)) (i * I + a * tri i) = true.
Proof.
  intros Hn Hk Ha V. unfold is_add in Ha. induction r as [|r IH]; intros i Hi Hr; [done|].
  cbn [check_points]. pose proof (minmax_point_ok sc cs (i + 1) Q ltac:(lia) Hm) as Hp.
  replace (i + 1 - 1) with i in Hp by lia. rewrite Hp. cbn [minp maxp].
  fold last lo hi. pose proof (w_window _ _ _ W (i + 1) ltac:(lia)).
  pose proof (w_pos _ _ _ W (i + 1) ltac:(lia)). pose proof (V (i + 1) ltac:(lia)) as Vi.
  assert (valid lo hi a I (i + 1)) as Vv by (intros j Hj; apply V; lia).
  pose proof (valid_gap _ _ _ W a I (i + 1) ltac:(lia) Vv) as Hg.
  replace (i + 1 - 1) with i in Hg by lia. pose proof (tri_succ i) as Et.
  assert (0 <= i * I + a * tri i) as Hp0.
  { destruct (decide (i = 0)) as [-> |]; [change (tri 0) with 0; lia|].
    pose proof (V i ltac:(lia)). pose proof (w_pos _ _ _ W i ltac:(lia)). lia. }
  assert (u32 (i * I + a * tri i + u32 (I + a * i)) = (i + 1) * I + a * tri (i + 1)) as ->.
  { rewrite u32_add_r, u32_id; rewrite Et in *; lia. }
  rewrite (u32_id (lo _)), (u32_id (hi _)) by lia.
  assert (u32 (I + a * i) = I + a * i) as -> by (apply u32_id; rewrite Et in *; lia).
  destruct (Z.ltb_spec ((i + 1) * I + a * tri (i + 1)) (lo (i + 1))); [lia|].
  destruct (Z.ltb_spec (hi (i + 1)) ((i + 1) * I + a * tri (i + 1))); [lia|]. cbn [orb].
  destruct (Z.leb_spec 0x80000000 (I + a * i)); [rewrite Et in *; lia|].
  rewrite <- (IH (i + 1)) by lia. f_equal. f_equal. lia.
Qed.

Lemma good_move_fitting n m : 1 <= n <= Z.of_nat (length cs) -> n <= 65535 ->
  good_move n lo hi m -> fitting sc cs m.
Proof.
  intros Hn Hn' (a & I & k & -> & Hk & Ha & V).
  pose proof (windows_ok sc cs n Q Hm ltac:(lia) ltac:(lia)) as W. cbv zeta in W. fold last lo hi in W.
  pose proof (valid_interval _ _ _ W a I k Hk V). pose proof (valid_last _ _ _ W a I k Hk V).
  constructor; cbn [mv_count mv_add mv_interval]; try done; try lia.
  - unfold check_line. cbn [mv_count mv_add mv_interval].
    destruct (Z.eqb_spec k 0); [lia|]. destruct (Z.eqb_spec I 0); [lia|].
    destruct (Z.leb_spec 0x80000000 I); [lia|]. cbn [andb orb].
    pose proof (check_points_ok n W a I k ltac:(lia) Hk Ha V (Z.to_nat k) 0 ltac:(lia) ltac:(lia)) as C.
    rewrite Z.mul_0_r, Z.add_0_r, u32_id in C by lia. change (tri 0) with 0 in C.
    rewrite Z.mul_0_l, Z.mul_0_r in C. change (0 + 0) with 0 in C. by rewrite C.
  - apply Forall2_same_length_lookup. unfold move_schedule. cbn [mv_count mv_add mv_interval].
    split; [rewrite length_move_clocks, length_take; lia|].
    intros j c t Hc Ht. apply lookup_take_Some in Hc as [Hc Hj].
    rewrite move_clocks_lookup in Ht by done. injection Ht as <-.
    destruct (request_step sc cs (Z.of_nat (S j)) Q ltac:(lia)) as (Hc' & R1 & _ & _).
    replace (Z.to_nat (Z.of_nat (S j) - 1)) with j in Hc' by lia. rewrite Hc in Hc'.
    injection Hc' as ->. specialize (V (Z.of_nat (S j)) ltac:(lia)).
    unfold lo, hi, window_lo, window_hi in V. unfold close. fold last in R1, V |- *. lia.
  - apply move_clocks_increasing. cbn [mv_count mv_add mv_interval]. intros j Hj.
    assert (valid lo hi a I (j + 1)) as Vv by (intros i Hi; apply V; lia).
    pose proof (valid_gap _ _ _ W a I (j + 1) ltac:(lia) Vv). replace j with (j + 1 - 1) by lia. lia.
  - assert (end_of (sc_last_step_clock sc) (move_schedule (sc_last_step_clock sc) (mkMove I k a))
            = last + k * I + a * tri k) as ->.
    { eapply end_of_lookup; unfold move_schedule; cbn [mv_count mv_add mv_interval].
      - rewrite (move_clocks_lookup _ _ _ _ (Z.to_nat (k - 1))) by lia.
        rewrite Nat2Z.inj_succ, Z2Nat.id by lia. by replace (Z.succ (k - 1)) with k by lia.
      - rewrite length_move_clocks. lia. }
    assert (s32 (a * addfactor_of k) = a * tri k) as ->.
    { destruct (decide (a = 0)) as [-> |Hne]; [done|].
      destruct (valid_count _ _ _ W a I k Hk V Hne). pose proof (tri_double k).
      pose proof (valid_quadratic _ _ _ W a I k Hk V). pose proof (tri_nonneg k ltac:(lia)).
      rewrite addfactor_exact by lia. apply s32_id. nia. }
    fold last. rewrite u32_id; [lia|]. assert (0 <= (k - 1) * I + a * tri k) as Hp0; [|lia].
    destruct (decide (k = 1)) as [-> |]; [change (tri 1) with 0; lia|].
    assert (valid lo hi a I 2) as V2 by (intros i Hi; apply V; lia).
    pose proof (valid_gap _ _ _ W a I 2 ltac:(lia) V2).
    pose proof (valid_gap _ _ _ W a I k Hk V). pose proof (tri_double k).
    assert (0 <= (k - 1) * ((I + a * (2 - 1)) + (I + a * (k - 1)))) by nia. nia.
Qed.

(** The search for the next move terminates and its result fits. *)
Lemma compress_fitting : cs <> [] ->
  exists m, compress_bisect_add sc = Some m /\ fitting sc cs m.
Proof.
  intros Hne. assert (1 <= Z.of_nat (length cs)) by (destruct cs; [done|simpl; lia]).
  unfold compress_bisect_add. rewrite (queue_ok_length sc cs Q).
  set (n := Z.min (Z.of_nat (length cs)) 65535).
  pose proof (windows_ok sc cs n Q Hm ltac:(lia) ltac:(lia)) as W. cbv zeta in W. fold last lo hi in W.
  pose proof (minmax_point_ok sc cs 1 Q ltac:(lia) Hm) as Hp. change (1 - 1) with 0 in Hp.
  cbv zeta in Hp. fold last lo hi in Hp. rewrite Hp.
  destruct (bisect_loop_ok n lo hi W sc) with (fuel := bisect_fuel)
    (b := bisect_init (mkPoints (lo 1) (hi 1))) as (m & E & G); try done.
  - intros k Hk. apply minmax_point_ok; done || lia.
  - lia.
  - pose proof (w_window _ _ _ W 1 ltac:(lia)). constructor; cbn; lia.
  - left. done.
  - exists m. split; [exact E|]. apply (good_move_fitting n); done || lia.
Qed.
End Move.

(** ** Flushing *)

(** The steps of a sequence of moves that starts from [clk]. *)
Fixpoint schedule (clk : Z) (moves : list step_move) : list Z :=
  match moves with
  | [] => []
  | m :: moves =>
      move_schedule clk m ++ schedule (end_of clk (move_schedule clk m)) moves
  end.

(** The fields that sending steps leaves alone. *)
Definition settings (sc : stepcompress) :=
  (sc_max_error sc, sc_oid sc, sc_queue_step_msgtag sc, sc_set_next_step_dir_msgtag sc,
   (sc_sdir sc, sc_invert_sdir sc, sc_next_step_clock sc, sc_next_step_dir sc),
   length (sc_queue sc)).

(** The change of the position by [n] steps in direction [sdir]. *)
Definition signed (sdir n : Z) : Z := if negb (sdir =? 0) then n else - n.

(** [sc'] is [sc] after the steps [done] were sent as [moves]. *)
Record flushed (sc sc' : stepcompress) (done : list Z) (moves : list step_move) : Prop := {
  f_messages : map qm_msg (sc_msg_queue sc') = map qm_msg (sc_msg_queue sc)
    ++ map (fun m => qm_msg (message_alloc_and_encode (queue_step_args sc m))) moves;
  f_moves : Forall (fun m => 1 <= mv_interval m < 2 ^ 31 /\ 1 <= mv_count m < 2 ^ 16 /\
                             - 2 ^ 15 <= mv_add m < 2 ^ 15) moves;
  f_close : Forall2 (close (sc_max_error sc)) done (schedule (sc_last_step_clock sc) moves);
  f_increasing : increasing (sc_last_step_clock sc) (schedule (sc_last_step_clock sc) moves);
  f_last : sc_last_step_clock sc' = end_of (sc_last_step_clock sc)
                                      (schedule (sc_last_step_clock sc) moves);
  f_position : s64 (sc_last_position sc')
    = s64 (sc_last_position sc + signed (sc_sdir sc) (Z.of_nat (length done)));
  f_settings : settings sc' = settings sc
}.

Lemma s64_add_l a b : s64 (s64 a + b) = s64 (a + b).
Proof. word_lia. Qed.

Lemma s64_idem a : s64 (s64 a) = s64 a.
Proof. word_lia. Qed.

Lemma u64_id x : 0 <= x < 2 ^ 64 -> u64 x = x.
Proof. word_lia. Qed.

Lemma schedule_one clk m : schedule clk [m] = move_schedule clk m.
Proof. simpl. apply app_nil_r. Qed.

Lemma signed_add d a b : signed d (a + b) = signed d a + signed d b.
Proof. unfold signed. case_match; lia. Qed.

(** Sending one batch after another. *)
Lemma flushed_trans sc1 sc2 sc3 d1 d2 m1 m2 :
  flushed sc1 sc2 d1 m1 -> flushed sc2 sc3 d2 m2 -> flushed sc1 sc3 (d1 ++ d2) (m1 ++ m2).
Proof.
  intros [A1 A2 A3 A4 A5 A6 A7] [B1 B2 B3 B4 B5 B6 B7].
  assert (forall clk, schedule clk (m1 ++ m2)
    = schedule clk m1 ++ schedule (end_of clk (schedule clk m1)) m2) as Es.
  { clear. induction m1 as [|m m1 IH]; intros clk; [done|].
    simpl. rewrite IH, end_of_app. by rewrite app_assoc. }
  unfold settings in *. simplify_eq.
  constructor; rewrite ?Es, <- ?A5.
  - rewrite B1, A1, map_app, <- app_assoc. f_equal. f_equal. unfold queue_step_args.
    apply map_ext. intros m. congruence.
  - by apply Forall_app.
  - apply Forall2_app; [done|]. congruence.
  - apply increasing_app. by rewrite <- A5.
  - by rewrite end_of_app, <- A5.
  - rewrite B6, <- s64_add_l, A6, s64_add_l, length_app, Nat2Z.inj_add, signed_add. f_equal.
    replace (sc_sdir sc2) with (sc_sdir sc1) by congruence. lia.
  - unfold settings. congruence.
Qed.

Lemma close_end e p q l1 l2 : Forall2 (close e) l1 l2 -> p <= q -> end_of p l2 <= end_of q l1.
Proof.
  intros F. revert p q. induction F as [|c t l1 l2 Hc F IH]; intros p q Hp; [done|].
  apply IH. unfold close in Hc. lia.
Qed.

Lemma increasing_end prev l : increasing prev l -> prev <= end_of prev l.
Proof.
  revert prev. induction l as [|c l IH]; intros prev; simpl; [lia|].
  intros [H1 H2]. specialize (IH c H2). lia.
Qed.

Lemma Forall_end (P : Z -> Prop) prev l : P prev -> Forall P l -> P (end_of prev l).
Proof. intros Hp F. revert prev Hp. induction F; intros; simpl; auto. Qed.

Lemma add_move_ok sc cs m : queue_ok sc cs -> fitting sc cs m ->
  let sc' := add_move sc (u64 (sc_last_step_clock sc + mv_interval m)) m in
  let k := Z.to_nat (mv_count m) in
  flushed sc sc' (take k cs) [m] /\ sc_queue sc' = sc_queue sc /\
  sc_queue_pos sc' = sc_queue_pos sc /\ sc_queue_next sc' = sc_queue_next sc /\
  sc_last_step_clock sc' <= end_of (sc_last_step_clock sc) (take k cs) /\
  sc_last_step_clock sc <= sc_last_step_clock sc' < 2 ^ 63.
Proof.
  intros Q F sc' k. destruct Q as [_ _ _ _ Qc Qcs]. destruct F as [F1 F2 F3 _ F5 F6 F7].
  pose proof (close_end _ _ _ _ _ F5 (Z.le_refl (sc_last_step_clock sc))) as He.
  pose proof (increasing_end _ _ F6) as Hi. fold k in He, F5.
  pose proof (Forall_end (fun c => c < 2 ^ 63) (sc_last_step_clock sc) (take k cs)
    (proj2 Qc) (Forall_take _ k _ Qcs)) as Hb. cbv beta in Hb.
  assert (sc_last_step_clock sc' = end_of (sc_last_step_clock sc)
            (move_schedule (sc_last_step_clock sc) m)) as El.
  { unfold sc', add_move. cbv zeta. rewrite F7. cbn.
    rewrite (u64_id (_ + mv_interval m)) by lia. rewrite u64_id; lia. }
  split_and!; try done; [|lia..]. constructor; rewrite ?schedule_one; try done.
  - unfold sc', add_move. cbn. by rewrite map_app.
  - constructor; [|done]. unfold is_add in F2. lia.
  - unfold sc', add_move. cbn. unfold signed. rewrite length_take.
    replace (Z.of_nat (k `min` length cs)) with (mv_count m) by (unfold k; lia).
    apply s64_idem.
Qed.

(** The state after the steps of a move left the queue. *)
Lemma queue_ok_advance sc cs sc' k : queue_ok sc cs -> (k < length cs)%nat ->
  sc_queue sc' = sc_queue sc -> sc_queue_pos sc' = (k + sc_queue_pos sc)%nat ->
  sc_queue_next sc' = sc_queue_next sc ->
  sc_last_step_clock sc' <= end_of (sc_last_step_clock sc) (take k cs) ->
  sc_last_step_clock sc <= sc_last_step_clock sc' < 2 ^ 63 -> queue_ok sc' (drop k cs).
Proof.
  intros Q Hk E1 E2 E3 H1 H2. pose proof (queue_ok_length sc cs Q) as Hl.
  destruct Q as [Q1 Q2 Q3 Q4 Q5 Q6]. unfold in_use in *.
  rewrite <- (take_drop k cs), increasing_app in Q3. destruct Q3 as [_ Q3].
  constructor; unfold in_use; rewrite ?E1, ?E2, ?E3; [lia| | |  |lia|].
  - rewrite <- skipn_map, <- Q2, skipn_firstn_comm, drop_drop. f_equal; [lia|]. f_equal. lia.
  - eapply increasing_weaken; [exact Q3|done].
  - apply Forall_drop. eapply Forall_impl; [exact Q4|]. simpl. lia.
  - by apply Forall_drop.
Qed.

Lemma flushed_refl sc sc' : sc_msg_queue sc' = sc_msg_queue sc ->
  sc_last_step_clock sc' = sc_last_step_clock sc -> sc_last_position sc' = sc_last_position sc ->
  settings sc' = settings sc -> flushed sc sc' [] [].
Proof.
  intros E1 E2 E3 E4. constructor; simpl; rewrite ?app_nil_r, ?E1, ?E2, ?E3; try done.
  f_equal. unfold signed. case_match; lia.
Qed.

(** [calc_last_step_print_time] and resetting the buffer change nothing that
    the schedule depends on. *)
Lemma flushed_r sc sc1 sc2 d m : flushed sc sc1 d m ->
  sc_msg_queue sc2 = sc_msg_queue sc1 -> sc_last_step_clock sc2 = sc_last_step_clock sc1 ->
  sc_last_position sc2 = sc_last_position sc1 -> settings sc2 = settings sc1 ->
  flushed sc sc2 d m.
Proof.
  intros F E1 E2 E3 E4. rewrite <- (app_nil_r d), <- (app_nil_r m).
  eapply flushed_trans; [exact F|]. by apply flushed_refl.
Qed.

Lemma queue_ok_empty sc sc' : queue_ok sc [] -> sc_queue_pos sc' = sc_queue_next sc' ->
  (sc_queue_next sc' <= length (sc_queue sc'))%nat ->
  sc_last_step_clock sc' = sc_last_step_clock sc -> queue_ok sc' [].
Proof.
  intros [_ _ _ _ Qc _] E1 E2 E3. constructor; unfold in_use; rewrite ?E1, ?E3; try done.
  by rewrite Nat.sub_diag.
Qed.

Lemma flush_loop_ok move_clock : forall fuel sc cs, queue_ok sc cs ->
  0 <= sc_max_error sc <= max_error_bound -> cs <> [] -> (length cs <= fuel)%nat ->
  exists sc' moves done rest, flush_loop fuel sc move_clock = Returns 0 sc' /\
    cs = done ++ rest /\ queue_ok sc' rest /\ flushed sc sc' done moves /\
    (rest = [] \/ move_clock <= sc_last_step_clock sc') /\
    (sc_queue_next sc' <= sc_queue_next sc)%nat.
Proof.
  induction fuel as [|fuel IH]; intros sc cs Q Hm Hne Hf; [destruct cs; simpl in *; [done|lia]|].
  cbn -[add_move compress_bisect_add].
  destruct (Z.ltb_spec (sc_last_step_clock sc) move_clock) as [Hlt|Hge].
  2: { eexists _, [], [], cs. split; [done|]. split; [done|]. split_and!; [by destruct Q| |by right|done].
       by apply flushed_refl. }
  destruct (compress_fitting sc cs Q Hm Hne) as (m & -> & F). rewrite (ft_check _ _ _ F).
  destruct (add_move_ok sc cs m Q F) as (A1 & A2 & A3 & A4 & A5 & A6). cbv zeta in *.
  set (sc1 := add_move _ _ m) in *. clearbody sc1. pose proof (q_clock _ _ Q). set (k := Z.to_nat (mv_count m)) in *.
  pose proof (queue_ok_length sc cs Q) as Hl. pose proof (ft_count _ _ _ F) as Hk.
  cbn [negb Z.eqb]. rewrite A3, A4. unfold in_use in Hl.
  pose proof (q_bounds _ _ Q) as Hb.
  destruct (Nat.leb_spec (sc_queue_next sc) (sc_queue_pos sc + k)) as [Hall|Hsome].
  - assert (k = length cs) as Ek by lia. rewrite take_ge in A1, A5 by lia.
    eexists _, [m], cs, []. split; [done|]. split; [by rewrite app_nil_r|].
    split_and!; [|by eapply flushed_r; [exact A1|..]|by left|cbn; lia].
    constructor; unfold in_use; cbn; try done; try lia.
  - assert (queue_ok (sc1 <| sc_queue_pos ::= Nat.add k |>) (drop k cs)) as Q1.
    { apply (queue_ok_advance sc cs _ k Q); cbn; rewrite ?A2, ?A3, ?A4; done || lia. }
    destruct (IH _ _ Q1) as (sc' & ms & d & rest & E & Ed & Q' & F' & Hr & Hx).
    { pose proof (f_settings _ _ _ _ A1) as Es. unfold settings in Es. cbn. by injection Es as ->. }
    { intros E. apply (f_equal length) in E. rewrite length_drop in E. simpl in E. lia. }
    { rewrite length_drop. lia. }
    exists sc', (m :: ms), (take k cs ++ d), rest. split; [exact E|].
    split; [by rewrite <- app_assoc, <- Ed, take_drop|]. split_and!; [done| |done|cbn in Hx; lia].
    change (m :: ms) with ([m] ++ ms).
    eapply flushed_trans; [|exact F']. by eapply flushed_r; [exact A1|..].
Qed.

Lemma queue_flush_ok sc cs move_clock : queue_ok sc cs ->
  0 <= sc_max_error sc <= max_error_bound ->
  exists sc' moves done rest, queue_flush sc move_clock = Returns 0 sc' /\
    cs = done ++ rest /\ queue_ok sc' rest /\ flushed sc sc' done moves /\
    (rest = [] \/ move_clock <= sc_last_step_clock sc') /\
    (sc_queue_next sc' <= sc_queue_next sc)%nat.
Proof.
  intros Q Hm. pose proof (queue_ok_length sc cs Q) as Hl. unfold queue_flush.
  destruct (Nat.leb_spec (sc_queue_next sc) (sc_queue_pos sc)) as [He|Hne].
  - assert (cs = []) as -> by (apply nil_length_inv; unfold in_use in Hl; lia).
    exists sc, [], [], []. split_and!; try done; [by apply flushed_refl|by left].
  - apply flush_loop_ok; [done..| |lia]. intros ->. unfold in_use in Hl. simpl in Hl. lia.
Qed.

(** ** Appending a step *)

(** What flushing and making room leave for the caller: the steps [cs'] are
    still pending and no step was lost or counted twice. *)
Record carries (sc sc' : stepcompress) (cs cs' : list Z) : Prop := {
  c_ok : queue_ok sc' cs';
  c_position : s64 (sc_last_position sc' + signed (sc_sdir sc') (Z.of_nat (length cs')))
    = s64 (sc_last_position sc + signed (sc_sdir sc) (Z.of_nat (length cs)));
  c_error : sc_max_error sc' = sc_max_error sc;
  c_next : sc_next_step_clock sc' = sc_next_step_clock sc;
  c_dir : sc_next_step_dir sc' = sc_next_step_dir sc;
  c_last : sc_last_step_clock sc <= sc_last_step_clock sc';
  c_end : end_of (sc_last_step_clock sc') cs' <= end_of (sc_last_step_clock sc) cs
}.

Lemma carries_refl sc cs : queue_ok sc cs -> carries sc sc cs cs.
Proof. intros Q. by constructor. Qed.

Lemma carries_trans sc1 sc2 sc3 cs1 cs2 cs3 :
  carries sc1 sc2 cs1 cs2 -> carries sc2 sc3 cs2 cs3 -> carries sc1 sc3 cs1 cs3.
Proof. intros [] []. constructor; congruence || lia || done. Qed.

Lemma flush_carries sc cs move_clock : queue_ok sc cs ->
  0 <= sc_max_error sc <= max_error_bound ->
  exists sc' rest, queue_flush sc move_clock = Returns 0 sc' /\ carries sc sc' cs rest /\
    sc_sdir sc' = sc_sdir sc /\ length (sc_queue sc') = length (sc_queue sc) /\
    (sc_queue_next sc' <= sc_queue_next sc)%nat /\
    (rest = [] \/ move_clock <= sc_last_step_clock sc').
Proof.
  intros Q Hm. destruct (queue_flush_ok sc cs move_clock Q Hm)
    as (sc' & moves & d & rest & E & -> & Q' & F & Hr & Hx).
  exists sc', rest. destruct F as [_ _ F3 F4 F5 F6 F7]. unfold settings in F7.
  pose proof (close_end _ _ _ _ _ F3 (Z.le_refl (sc_last_step_clock sc))) as He.
  pose proof (increasing_end _ _ F4). rewrite <- F5 in *.
  injection F7 as E1 E2 E3 E4 E5 E6 E7 E8 E9.
  split_and!; try done. constructor; try done.
  - rewrite <- s64_add_l, F6, s64_add_l, E5, length_app, Nat2Z.inj_add, signed_add. f_equal. lia.
  - rewrite end_of_app. destruct rest; simpl; [lia|done].
Qed.

Lemma set_next_step_dir_ok sc cs d : queue_ok sc cs ->
  0 <= sc_max_error sc <= max_error_bound ->
  exists sc' rest, set_next_step_dir sc d = Returns 0 sc' /\ carries sc sc' cs rest /\
    sc_sdir sc' = d /\ (sc_sdir sc = d \/ rest = []).
Proof.
  intros Q Hm. unfold set_next_step_dir. destruct (Z.eqb_spec (sc_sdir sc) d) as [E|Hne].
  - exists sc, cs. split_and!; try done. by left.
  - destruct (flush_carries sc cs UINT64_MAX Q Hm) as (sc1 & rest & -> & C & E1 & E2 & Hx & Hr).
    assert (rest = []) as ->.
    { destruct Hr as [|Hr]; [done|]. pose proof (q_clock _ _ (c_ok _ _ _ _ C)).
      unfold UINT64_MAX in Hr. lia. }
    cbn [and_then]. rewrite Z.eqb_refl. eexists _, []. split; [done|].
    destruct C as [C1 C2 C3 C4 C5 C6 C7]. split_and!; [|done|by right].
    constructor; cbn; try done; [by destruct C1|].
    rewrite <- C2. f_equal. f_equal. unfold signed. simpl. by repeat case_match.
Qed.

Lemma queue_store_ok sc cs c : queue_ok sc cs ->
  (sc_queue_next sc < length (sc_queue sc))%nat ->
  end_of (sc_last_step_clock sc) cs < c < sc_last_step_clock sc + 805306368 -> c < 2 ^ 63 ->
  let sc' := sc <| sc_queue ::= <[sc_queue_next sc := u32 c]> |> <| sc_queue_next ::= S |> in
  (forall k, queue_store c sc k = k sc') /\ queue_ok sc' (cs ++ [c]).
Proof.
  intros Q Hx Hc Hc' sc'. pose proof (queue_ok_length sc cs Q) as Hl. unfold in_use in Hl.
  destruct Q as [Q1 Q2 Q3 Q4 Q5 Q6]. split.
  { intros k. unfold queue_store. by destruct (Nat.ltb_spec (sc_queue_next sc) (length (sc_queue sc))); [|lia]. }
  subst sc'. constructor; unfold in_use in *; cbn; try done.
  - rewrite length_insert. lia.
  - rewrite map_app, <- Q2. replace (S (sc_queue_next sc) - sc_queue_pos sc)%nat
      with (S (sc_queue_next sc - sc_queue_pos sc)) by lia.
    rewrite drop_insert_ge by lia. erewrite take_S_r.
    + rewrite take_insert_ge by lia. done.
    + rewrite list_lookup_insert_eq; [done|]. rewrite length_drop. lia.
  - apply increasing_app. simpl. split_and!; done || lia.
  - apply Forall_app. split; [done|]. constructor; [lia|done].
  - apply Forall_app. split; [done|]. by constructor.
Qed.

Lemma grow_alloc_gt fuel used alloc : (1 <= alloc)%nat -> (used < alloc + fuel)%nat ->
  (used < grow_alloc fuel used alloc)%nat.
Proof.
  revert alloc. induction fuel as [|fuel IH]; intros alloc H1 H2; cbn [grow_alloc]; [lia|].
  destruct (Nat.leb_spec alloc used); [apply IH; lia|done].
Qed.

Lemma queue_ok_rebase sc sc' cs : queue_ok sc cs -> sc_queue_pos sc' = 0%nat ->
  sc_queue_next sc' = in_use sc -> sc_last_step_clock sc' = sc_last_step_clock sc ->
  (in_use sc <= length (sc_queue sc'))%nat ->
  take (in_use sc) (sc_queue sc') = take (in_use sc) (drop (sc_queue_pos sc) (sc_queue sc)) ->
  queue_ok sc' cs.
Proof.
  intros [Q1 Q2 Q3 Q4 Q5 Q6] E1 E2 E3 Hl E4. constructor; rewrite ?E3; try done; [lia|].
  unfold in_use at 1. by rewrite E1, E2, Nat.sub_0_r, drop_0, E4.
Qed.

Lemma queue_make_room_ok sc cs : queue_ok sc cs ->
  (length (sc_queue sc) <= sc_queue_next sc)%nat ->
  let sc' := queue_make_room sc in
  carries sc sc' cs cs /\ (sc_queue_next sc' < length (sc_queue sc'))%nat /\
  sc_sdir sc' = sc_sdir sc.
Proof.
  intros Q Hfull. pose proof (q_bounds _ _ Q) as Hb. unfold queue_make_room.
  assert (length (take (in_use sc) (drop (sc_queue_pos sc) (sc_queue sc))) = in_use sc) as Ht
    by (rewrite length_take, length_drop; unfold in_use; lia).
  destruct (Nat.ltb_spec 0 (sc_queue_pos sc)) as [Hp|Hp].
  - cbv zeta. split_and!; try done.
    + constructor; try done. apply (queue_ok_rebase sc); try done; cbn.
      * rewrite length_app, Ht. lia.
      * rewrite take_app_le by lia. by rewrite take_ge by lia.
    + cbn. rewrite length_app, Ht, length_drop. unfold in_use in *. lia.
  - cbv zeta. set (g := grow_alloc _ _ _).
    assert (in_use sc < g)%nat as Hg.
    { apply grow_alloc_gt; [|lia].
      destruct (Nat.eqb_spec (length (sc_queue sc)) 0); [unfold QUEUE_START_SIZE|]; lia. }
    clearbody g. assert (sc_queue_pos sc = 0%nat) as Ep by lia. unfold in_use in *.
    split_and!; try done.
    + constructor; try done. apply (queue_ok_rebase sc); try done; unfold in_use; cbn.
      * rewrite length_app. lia.
      * rewrite Ep, drop_0, take_app_le by lia. done.
    + cbn. rewrite length_app, length_replicate. lia.
Qed.

(** The state after a step joined the pending ones. *)
Record joined (sc sc' : stepcompress) (cs cs' : list Z) (c : Z) : Prop := {
  j_ok : queue_ok sc' cs';
  j_position : s64 (sc_last_position sc' + signed (sc_sdir sc') (Z.of_nat (length cs')))
    = s64 (sc_last_position sc + signed (sc_sdir sc) (Z.of_nat (length cs))
           + signed (sc_next_step_dir sc) 1);
  j_error : sc_max_error sc' = sc_max_error sc;
  j_next : sc_next_step_clock sc' = 0;
  j_end : end_of (sc_last_step_clock sc') cs' = c
}.

Lemma store_joined sc sc1 sc2 cs cs1 c : carries sc sc1 cs cs1 ->
  sc_sdir sc1 = sc_next_step_dir sc -> queue_ok sc2 (cs1 ++ [c]) ->
  sc_last_position sc2 = sc_last_position sc1 -> sc_sdir sc2 = sc_sdir sc1 ->
  sc_max_error sc2 = sc_max_error sc1 -> sc_next_step_clock sc2 = 0 -> joined sc sc2 cs (cs1 ++ [c]) c.
Proof.
  intros [C1 C2 C3 C4 C5 C6 C7] E1 Q E2 E3 E4 E5. constructor; try done; try congruence.
  - rewrite E2, E3, length_app, Nat2Z.inj_add, signed_add, Z.add_assoc, <- s64_add_l, C2, s64_add_l.
    by rewrite E1.
  - rewrite end_of_app. done.
Qed.

Lemma flush_far_joined sc sc1 cs c : carries sc sc1 cs [] -> sc_sdir sc1 = sc_next_step_dir sc ->
  sc_next_step_clock sc1 = 0 -> 0 <= c < 2 ^ 63 ->
  exists sc', stepcompress_flush_far sc1 c = Returns 0 sc' /\ joined sc sc' cs [] c.
Proof.
  intros [C1 C2 C3 C4 C5 C6 C7] E1 E2 Hc. eexists. split; [done|].
  assert (forall m, mv_count m = 1 -> mv_add m = 0 ->
    sc_last_step_clock (add_move sc1 c m) = c) as El.
  { intros m E3 E4. unfold add_move. rewrite E3, E4.
    transitivity (u64 (c + u32 (s32 0 + mv_interval m * 0))); [done|].
    rewrite Z.mul_0_r. change (u32 (s32 0 + 0)) with 0. rewrite Z.add_0_r. apply u64_id. lia. }
  constructor; try done.
  - destruct C1. constructor; try done; cbn -[add_move]; rewrite El; done || lia.
  - rewrite <- (s64_add_l (sc_last_position sc + _)), <- C2, s64_add_l. cbn. rewrite E1. unfold signed. simpl.
    rewrite s64_add_l. f_equal. case_match; lia.
  - cbn -[add_move]. by rewrite El.
Qed.

Lemma queue_append_far_ok sc cs : queue_ok sc cs -> 0 <= sc_max_error sc <= max_error_bound ->
  sc_sdir sc = sc_next_step_dir sc -> (sc_queue_next sc < length (sc_queue sc))%nat \/ cs = [] ->
  end_of (sc_last_step_clock sc) cs < sc_next_step_clock sc < 2 ^ 63 ->
  sc_last_step_clock sc + 805306368 <= sc_next_step_clock sc ->
  exists sc' cs', queue_append_far sc = Returns 0 sc' /\
    joined sc sc' cs cs' (sc_next_step_clock sc).
Proof.
  intros Q Hm Hd Hx Hc Hfar. set (c := sc_next_step_clock sc) in *.
  pose proof (q_clock _ _ Q) as Hl. unfold queue_append_far. fold c. cbv zeta.
  change CLOCK_DIFF_MAX with 805306368. rewrite (u64_id (c - _ + 1)) by lia.
  set (sc0 := sc <| sc_next_step_clock := 0 |>).
  destruct (flush_carries sc0 cs (c - 805306368 + 1)) as (sc1 & rest & -> & C & E1 & E2 & E3 & Hr);
    [by destruct Q|done|]. cbn [and_then]. rewrite Z.eqb_refl.
  pose proof (q_clock _ _ (c_ok _ _ _ _ C)) as Hl1. rewrite (u64_id (_ + 805306368)) by lia.
  pose proof (c_end _ _ _ _ C) as Hce. change (sc_last_step_clock sc0) with (sc_last_step_clock sc) in Hce.
  destruct (Z.leb_spec (sc_last_step_clock sc1 + 805306368) c) as [Hf|Hn].
  - assert (rest = []) as -> by (destruct Hr; [done|lia]).
    destruct (flush_far_joined sc0 sc1 cs c C) as (sc' & E & J);
      [by rewrite E1|apply (c_next _ _ _ _ C)|lia|].
    exists sc', []. split; [exact E|]. by destruct J.
  - assert (cs <> []) as Hne.
    { intros ->. destruct C as [Q1 _ _ _ _ _ Ce]. pose proof (queue_ok_length _ _ Q1) as L. simpl in Hce.
      pose proof (increasing_end _ _ (q_inc _ _ Q1)). lia. }
    destruct (queue_store_ok sc1 rest c (c_ok _ _ _ _ C)) as [-> Qs];
      [change (length (sc_queue sc0)) with (length (sc_queue sc)) in E2;
       cbn in E3; destruct Hx; [lia|done]|lia|lia|].
    eexists _, _. split; [done|].
    assert (joined sc0 (sc1 <| sc_queue ::= <[sc_queue_next sc1 := u32 c]> |> <| sc_queue_next ::= S |>)
              cs (rest ++ [c]) c) as [] by (apply (store_joined sc0 sc1); try done;
      [by rewrite E1|apply (c_next _ _ _ _ C)]).
    by constructor.
Qed.

(** Storing the pending step into a buffer that has room. *)
Lemma append_store_ok sc sc1 cs rest : carries sc sc1 cs rest ->
  sc_sdir sc1 = sc_next_step_dir sc -> (sc_queue_next sc1 < length (sc_queue sc1))%nat ->
  end_of (sc_last_step_clock sc) cs < sc_next_step_clock sc < 2 ^ 63 ->
  sc_next_step_clock sc < sc_last_step_clock sc + 805306368 ->
  exists sc' cs', queue_store (sc_next_step_clock sc1) sc1
      (fun sc => Returns 0 (sc <| sc_next_step_clock := 0 |>)) = Returns 0 sc' /\
    joined sc sc' cs cs' (sc_next_step_clock sc).
Proof.
  intros C Hd Hx Hc Hn. rewrite (c_next _ _ _ _ C).
  destruct (queue_store_ok sc1 rest (sc_next_step_clock sc) (c_ok _ _ _ _ C) Hx) as [-> Qs];
    [destruct C; lia|lia|].
  eexists _, _. split; [done|]. apply (store_joined sc sc1); try done. by destruct Qs.
Qed.

Lemma queue_append_extend_ok sc cs : queue_ok sc cs ->
  0 <= sc_max_error sc <= max_error_bound -> sc_sdir sc = sc_next_step_dir sc ->
  end_of (sc_last_step_clock sc) cs < sc_next_step_clock sc < 2 ^ 63 ->
  sc_next_step_clock sc < sc_last_step_clock sc + 805306368 ->
  exists sc' cs', queue_append_extend sc = Returns 0 sc' /\
    joined sc sc' cs cs' (sc_next_step_clock sc).
Proof.
  intros Q Hm Hd Hc Hn. unfold queue_append_extend.
  assert (exists sc1 rest, flush_excess sc = Returns 0 sc1 /\ carries sc sc1 cs rest /\
    sc_sdir sc1 = sc_sdir sc) as (sc1 & rest & -> & C & Hd1).
  { unfold flush_excess. case_match; [|exists sc, cs; split_and!; auto using carries_refl].
    edestruct (flush_carries sc cs) as (sc1 & rest & E & C & E1 & _); [done..|].
    exists sc1, rest. split_and!; [exact E|done..]. }
  cbn [and_then]. rewrite Z.eqb_refl. cbv zeta.
  destruct (Nat.leb_spec (length (sc_queue sc1)) (sc_queue_next sc1)) as [Hfull|Hroom].
  - destruct (queue_make_room_ok sc1 rest (c_ok _ _ _ _ C) Hfull) as (C2 & Hx & Hd2). cbv zeta in *.
    eapply append_store_ok; [eapply carries_trans; [exact C|exact C2]|congruence|done..].
  - eapply append_store_ok; [exact C|congruence|done..].
Qed.

(** There is room for one more step, or the next step is near. *)
Definition has_room (sc : stepcompress) (cs : list Z) : Prop :=
  (sc_queue_next sc < length (sc_queue sc))%nat \/ cs = [] \/
  sc_next_step_clock sc < sc_last_step_clock sc + 805306368.

Lemma carries_joined sc sc1 sc' cs rest cs' c : carries sc sc1 cs rest ->
  joined sc1 sc' rest cs' c -> joined sc sc' cs cs' c.
Proof.
  intros [C1 C2 C3 C4 C5 C6 C7] [J1 J2 J3 J4 J5]. constructor; try done; try congruence.
  rewrite J2, <- s64_add_l, C2, s64_add_l. by rewrite C5.
Qed.

Lemma queue_append_ok sc cs : queue_ok sc cs -> 0 <= sc_max_error sc <= max_error_bound ->
  has_room sc cs -> end_of (sc_last_step_clock sc) cs < sc_next_step_clock sc < 2 ^ 63 ->
  exists sc' cs', queue_append sc = Returns 0 sc' /\
    joined sc sc' cs cs' (sc_next_step_clock sc).
Proof.
  intros Q Hm Hroom Hc. unfold queue_append.
  assert (exists sc1 rest, (if negb (sc_next_step_dir sc =? sc_sdir sc)
      then set_next_step_dir sc (sc_next_step_dir sc) else Returns 0 sc) = Returns 0 sc1 /\
    carries sc sc1 cs rest /\ sc_sdir sc1 = sc_next_step_dir sc /\ has_room sc1 rest)
    as (sc1 & rest & -> & C & Hd & Hroom1).
  { destruct (Z.eqb_spec (sc_next_step_dir sc) (sc_sdir sc)) as [E|E].
    - exists sc, cs. split_and!; auto using carries_refl.
    - destruct (set_next_step_dir_ok sc cs (sc_next_step_dir sc) Q Hm)
        as (sc1 & rest & E1 & C & E2 & [E3|E3]); [congruence|].
      exists sc1, rest. split_and!; try done. unfold has_room. auto. }
  cbn [and_then]. rewrite Z.eqb_refl. change CLOCK_DIFF_MAX with 805306368.
  pose proof (q_clock _ _ (c_ok _ _ _ _ C)) as Hl. rewrite u64_id by lia.
  pose proof C as [C1 C2 C3 C4 C5 C6 C7].
  enough (exists sc' cs', (if sc_last_step_clock sc1 + 805306368 <=? sc_next_step_clock sc1
      then queue_append_far sc1
      else if (length (sc_queue sc1) <=? sc_queue_next sc1)%nat then queue_append_extend sc1
      else queue_store (sc_next_step_clock sc1) sc1
             (fun sc => Returns 0 (sc <| sc_next_step_clock := 0 |>))) = Returns 0 sc' /\
    joined sc1 sc' rest cs' (sc_next_step_clock sc1)) as (sc' & cs' & E & J).
  { exists sc', cs'. split; [exact E|]. rewrite C4 in J. by eapply carries_joined. }
  rewrite <- C4 in Hc. rewrite <- C3 in Hm. rewrite <- C5 in Hd.
  destruct (Z.leb_spec (sc_last_step_clock sc1 + 805306368) (sc_next_step_clock sc1)) as [Hf|Hn].
  - apply queue_append_far_ok; try done; [|lia]. destruct Hroom1 as [?|[?|?]]; [by left|by right|lia].
  - destruct (Nat.leb_spec (length (sc_queue sc1)) (sc_queue_next sc1)).
    + apply queue_append_extend_ok; try done; lia.
    + eapply append_store_ok; [by apply carries_refl|done..|lia|lia].
Qed.
