(* ===== verification/StepcompressProps.v ===== *)
(** * What the host's step compressor promises

    The compressor terminates, every move it finds passes the code's own
    check, and the commands that are queued make the micro-controller step once
    for each requested step, in order, never late and at most [max_error]
    early (src/klippy/chelper/stepcompress.c, src/src/stepper.c). *)
From S2P Require Import Prelude Double Protocol Msgblock World Sched Command BaseCmd ObjFacts Stepper Sample BaseProps StepperProps Stepcompress CompressFacts StepcompressFacts.
Import Msgblock.

(** ** Compression *)



(** ** Counting steps *)

(** The position the stepper will have once every queued and pending step is
    executed. *)
Definition pending_position (sc : stepcompress) : Z :=
  s64 (sc_last_position sc + signed (sc_sdir sc) (Z.of_nat (in_use sc))
       + (if sc_next_step_clock sc =? 0 then 0 else signed (sc_next_step_dir sc) 1)).


(** ** History *)

(** The number of the step times [ts] that are not after [clock]. *)
Definition steps_until (clock : Z) (ts : list Z) : Z :=
  Z.of_nat (length (List.filter (fun t => t <=? clock) ts)).

Lemma steps_until_linear clock n : forall clk i, 1 <= i ->
  steps_until clock (move_clocks n clk i 0)
  = Z.min (Z.of_nat n) (Z.max 0 ((clock - clk) / i)).
Proof.
  unfold steps_until. induction n as [|n IH]; intros clk i Hi; [simpl; lia|].
  cbn [move_clocks List.filter]. rewrite Z.add_0_r.
  assert ((clock - (clk + i)) / i = (clock - clk) / i - 1) as Ed.
  { replace (clock - (clk + i)) with (clock - clk + (-1) * i) by lia. rewrite Z.div_add; lia. }
  specialize (IH (clk + i) i Hi). rewrite Ed in IH.
  destruct (Z.leb_spec (clk + i) clock) as [Hle|Hgt]; cbn [length].
  - assert (1 <= (clock - clk) / i) by (apply Z.div_le_lower_bound; lia). lia.
  - assert ((clock - clk) / i < 1) by (apply Z.div_lt_upper_bound; lia). lia.
Qed.

(** The past position at a clock is found by counting steps.  If [clock]
    falls into a move with constant interval, behind newer moves that all start
    later, [stepcompress_find_past_position] returns the move's start position
    plus (or minus, by its direction) the number of its steps that are due by
    [clock]. *)
Theorem find_past_position_linear sc clock newer hs older n :
  sc_history_list sc = newer ++ hs :: older ->
  Forall (fun h => clock < hs_first_clock h) newer ->
  hs_add hs = 0 -> 1 <= hs_interval hs -> Z.of_nat n * hs_interval hs < 2 ^ 31 ->
  (1 <= n)%nat -> Z.abs (hs_step_count hs) = Z.of_nat n ->
  hs_last_clock hs = hs_first_clock hs + (Z.of_nat n - 1) * hs_interval hs ->
  0 <= hs_first_clock hs <= clock -> clock < 2 ^ 63 ->
  Z.abs (hs_start_position hs) < 2 ^ 62 ->
  stepcompress_find_past_position sc clock
  = Some (hs_start_position hs + Z.sgn (hs_step_count hs)
      * steps_until clock (move_clocks n (hs_first_clock hs - hs_interval hs) (hs_interval hs) 0)).
Proof.
  intros Eh Hnew Ea Hi Hspan Hn Hcnt Elast Hf Hc Hp.
  unfold stepcompress_find_past_position. rewrite Eh. generalize (sc_last_position sc). clear Eh.
  assert (forall x, Z.abs x < 2 ^ 63 -> s64 x = x) as Hs64 by (intros; word_lia).
  assert (Z.of_nat n < 2 ^ 31) by nia.
  induction Hnew as [|h newer Hh _ IH]; intros lp; cbn [find_past app].
  2: { destruct (Z.ltb_spec clock (hs_first_clock h)); [apply IH|lia]. }
  rewrite steps_until_linear by done.
  replace (clock - (hs_first_clock hs - hs_interval hs))
    with (clock - hs_first_clock hs + 1 * hs_interval hs) by lia. rewrite Z.div_add by lia.
  set (d := clock - hs_first_clock hs). set (i := hs_interval hs) in *.
  pose proof (Z.div_pos d i ltac:(lia) ltac:(lia)).
  destruct (Z.ltb_spec clock (hs_first_clock hs)); [lia|].
  destruct (Z.leb_spec (hs_last_clock hs) clock) as [Hge|Hlt].
  - assert (Z.of_nat n - 1 <= d / i) by (apply Z.div_le_lower_bound; lia).
    rewrite Hs64 by lia. f_equal. lia.
  - assert (d / i < Z.of_nat n - 1) by (apply Z.div_lt_upper_bound; lia).
    assert (d < 2 ^ 31 - i) by nia. rewrite Ea. cbn [Z.eqb]. cbn [mbind option_bind].
    assert (u64 d = d) as -> by (apply u64_id; lia).
    rewrite (s32_id d), (s32_id (d + i)) by lia. rewrite Z.quot_div_nonneg by lia.
    replace (d + i) with (d + 1 * i) by lia. rewrite Z.div_add by lia.
    destruct (Z.ltb_spec (hs_step_count hs) 0); rewrite Hs64 by lia; f_equal; lia.
Qed.

(** ** Host and firmware agree *)

Lemma move_clocks_sum n m clk i a : (n < m)%nat ->
  move_clocks m clk i a !! n = Some (clk + i + sum_intervals n (i + a) a).
Proof.
  revert m clk i. induction n as [|n IH]; intros [|m] clk i Hn; try lia;
    cbn [move_clocks lookup list_lookup sum_intervals]; [f_equal; lia|].
  rewrite IH by lia. f_equal. lia.
Qed.

Section Execution.
Context `{Board}.
Context (Hedge : HAVE_EDGE_OPTIMIZATION = true).

End Execution.

(** ** The buffer overrun in [queue_append_far] *)

(** A compressor for a 16.777216 MHz micro-controller. *)
Definition fresh_sc : stepcompress :=
  stepcompress_set_time (stepcompress_fill (stepcompress_alloc []) 3 400 7 8)
    (f64 0) (f64 (2 ^ 24)).

(** The time in seconds of a clock, and appending steps at given clocks. *)
Definition at_clock (c : Z) : double := fdiv (f64 c) (f64 (2 ^ 24)).
Fixpoint append_all (sc : stepcompress) (sdir : Z) (cs : list Z) : outcome :=
  match cs with
  | [] => Returns 0 sc
  | c :: cs => try sc := stepcompress_append sc sdir (at_clock c) (f64 0) in append_all sc sdir cs
  end.

(** 600 steps at one rate, 424 more behind a pause, one that is far away, and
    one more. *)
Definition overrun_clocks : list Z :=
  map (fun i => Z.of_nat i * 1000 + 1000) (seq 0 600)
    ++ map (fun i => Z.of_nat i * 1500 + 100000000) (seq 0 424)
    ++ [805606368; 805700000].


(** ** Witnesses *)

Definition outcome_state (r : outcome) : stepcompress :=
  match r with Returns _ sc => sc | _ => fresh_sc end.

(** Five steps appended: four in the queue, one pending. *)
Definition sample_clocks : list Z := [1000; 2000; 3010; 4030].
Definition sample_sc : stepcompress :=
  outcome_state (append_all fresh_sc 1 (sample_clocks ++ [5060])).

Lemma sample_queue_ok : queue_ok sample_sc sample_clocks.
Proof.
  constructor.
  - vm_compute. lia.
  - vm_compute. reflexivity.
  - vm_compute. repeat split; reflexivity.
  - repeat constructor; vm_compute; reflexivity.
  - vm_compute. split; [discriminate|reflexivity].
  - repeat constructor; vm_compute; reflexivity.
Qed.

Lemma sample_error : 0 <= sc_max_error sample_sc <= max_error_bound.
Proof. vm_compute. split; discriminate. Qed.




(** The state after a flush of the sample. *)
Definition flushed_sc : stepcompress := outcome_state (queue_flush sample_sc UINT64_MAX).

Lemma find_past_position_linear_witness :
  stepcompress_find_past_position
    (flushed_sc <| sc_history_list := [mkHistory 9000 9000 4 1 5000 0; mkHistory 1000 4000 0 4 1000 0] |>)
    2500 = Some 2.
Proof.
  rewrite (find_past_position_linear _ 2500 [mkHistory 9000 9000 4 1 5000 0]
    (mkHistory 1000 4000 0 4 1000 0) [] 4).
  - vm_compute. reflexivity.
  - reflexivity.
  - repeat constructor.
  - reflexivity.
  - cbn. lia.
  - cbn. lia.
  - lia.
  - reflexivity.
  - reflexivity.
  - cbn. lia.
  - lia.
  - cbn. lia.
Defined.

