(* ===== verification/SteppersyncProps.v ===== *)
(** * The heap and the merge of steppersync.c

    [heap_replace] keeps a binary heap of the clocks at which the nodes of the
    micro-controller's move queue become free, and [steppersync_flush] merges
    the command queues of the steppers by time.  The hand-over of work between
    the main thread and the background thread of an emitter has the effect of
    working on every request at once. *)
From stdpp Require Import list sorting.
From S2P Require Import Prelude Double Protocol Msgblock Serialqueue Stepcompress Trapq Kinematics Itersolve ItersolveProps Steppersync.
Import Msgblock.

(** ** The heap *)

(** Every entry is at most its children. *)
Definition heap_ok (mc : list Z) : Prop :=
  forall i x, mc !! i = Some x ->
    x <= child_clock mc (2 * i + 1) /\ x <= child_clock mc (2 * i + 2).

Definition clocks_ok (mc : list Z) : Prop := Forall (fun x => x <= UINT64_MAX) mc.

Lemma child_clock_lookup mc i x : mc !! i = Some x -> child_clock mc i = x.
Proof. unfold child_clock. intros E. by apply nth_lookup_Some with (d := UINT64_MAX) in E. Qed.

Lemma child_clock_inside mc i : child_clock mc i < UINT64_MAX -> mc !! i = Some (child_clock mc i).
Proof.
  intros Hc. destruct (mc !! i) as [x|] eqn:E; [by rewrite (child_clock_lookup _ _ _ E)|].
  unfold child_clock in Hc. rewrite nth_overflow in Hc; [lia|]. by apply lookup_ge_None.
Qed.

Lemma child_clock_insert mc i x j : (i < length mc)%nat ->
  child_clock (<[i:=x]> mc) j = if decide (i = j) then x else child_clock mc j.
Proof.
  intros Hi. unfold child_clock. rewrite !nth_lookup. destruct (decide (i = j)) as [<-|Hn].
  - by rewrite list_lookup_insert_eq.
  - by rewrite list_lookup_insert_ne.
Qed.

(** Moving the content of one place to another. *)
Lemma insert_swap_perm (l : list Z) i j c x : i <> j -> (i < length l)%nat -> l !! j = Some c ->
  <[j:=x]> (<[i:=c]> l) ≡ₚ <[i:=x]> l.
Proof.
  intros Hn Hi Hj. destruct (lookup_lt_is_Some_2 l i Hi) as [y Hy].
  apply (inj (cons y)).
  assert (forall (k : list Z) n a b, k !! n = Some a -> b :: k ≡ₚ a :: <[n:=b]> k) as Hk.
  { intros k. induction k as [|z k IH]; intros [|n] a b; try done.
    - intros [= ->]. apply Permutation_swap.
    - intros Ha. cbn. rewrite Permutation_swap, (IH n a b Ha). apply Permutation_swap. }
  assert (Hy2 : (<[j:=x]> (<[i:=c]> l)) !! i = Some c).
  { rewrite list_lookup_insert_ne by done. by apply list_lookup_insert_eq. }
  assert (c :: <[j:=x]> (<[i:=c]> l) ≡ₚ x :: <[i:=c]> l) as E1.
  { symmetry. apply Hk. by rewrite list_lookup_insert_ne. }
  assert (c :: l ≡ₚ y :: <[i:=c]> l) as E2 by by apply Hk.
  assert (x :: l ≡ₚ y :: <[i:=x]> l) as E3 by by apply Hk.
  apply (inj (cons c)). rewrite (Permutation_swap _ _ (<[j:=x]> (<[i:=c]> l))), E1, Permutation_swap, <- E2.
  rewrite Permutation_swap, E3. done.
Qed.

(** The loop of [heap_replace]: the entry above [pos] is at most the new
    clock. *)
Lemma heap_sift_ok req : req <= UINT64_MAX -> forall fuel mc pos,
  heap_ok mc -> (pos < length mc)%nat -> (length mc <= pos + fuel)%nat ->
  (forall i x, mc !! i = Some x -> pos = (2 * i + 1)%nat \/ pos = (2 * i + 2)%nat -> x <= req) ->
  heap_ok (heap_sift fuel mc pos req) /\ heap_sift fuel mc pos req ≡ₚ <[pos:=req]> mc.
Proof.
  intros Hr. induction fuel as [|fuel IH]; intros mc pos Hh Hp Hf Hu; [lia|].
  cbn [heap_sift]. set (p1 := (2 * pos + 1)%nat). set (p2 := (2 * pos + 2)%nat).
  destruct (lookup_lt_is_Some_2 mc pos Hp) as [y Hy].
  assert (forall c p, child_clock mc p = c -> c < req -> c <= child_clock mc p1 ->
    c <= child_clock mc p2 -> p = p1 \/ p = p2 ->
    heap_ok (heap_sift fuel (<[pos:=c]> mc) p req) /\
    heap_sift fuel (<[pos:=c]> mc) p req ≡ₚ <[pos:=req]> mc) as Hdown.
  { intros c p Hc Hcr H1 H2 Hpp.
    assert (mc !! p = Some c) as Hl by (rewrite <- Hc; apply child_clock_inside; lia).
    pose proof (lookup_lt_Some _ _ _ Hl) as Hlt. assert (pos <> p) as Hne by lia.
    rewrite <- (insert_swap_perm mc pos p c req Hne Hp Hl).
    apply IH; rewrite ?length_insert; try lia.
    - intros i x Hi. rewrite !child_clock_insert by done.
      apply list_lookup_insert_Some in Hi as [(<- & <- & _)|(Hin & Hi)].
      + rewrite !decide_False by lia. done.
      + destruct (Hh i x Hi) as [A B], (Hh pos y Hy) as [C D]. fold p1 in C. fold p2 in D.
        assert (y <= c) as Hyc by (destruct Hpp as [->| ->]; lia).
        split; destruct (decide _) as [Heq|]; try lia.
        * rewrite <- Heq, (child_clock_lookup _ _ _ Hy) in A. lia.
        * rewrite <- Heq, (child_clock_lookup _ _ _ Hy) in B. lia.
    - intros i x Hi Hor. assert (i = pos) as -> by lia.
      rewrite list_lookup_insert_eq in Hi by done. injection Hi as <-. lia. }
  destruct (_ && _) eqn:Hb.
  - apply andb_true_iff in Hb as [Hb1%Z.leb_le Hb2%Z.leb_le]. split; [|done].
    intros i x Hi. rewrite !child_clock_insert by done.
    apply list_lookup_insert_Some in Hi as [(<- & <- & _)|(Hin & Hi)].
    + rewrite !decide_False by lia. done.
    + destruct (Hh i x Hi) as [A B]. split; destruct (decide _) as [Heq|]; try done.
      * apply (Hu i x Hi). lia.
      * apply (Hu i x Hi). lia.
  - apply andb_false_iff in Hb. destruct (Z.ltb_spec (child_clock mc p1) (child_clock mc p2)) as [Hc|Hc].
    + apply Hdown; [done| |lia..|by left]. destruct Hb as [Hb%Z.leb_gt|Hb%Z.leb_gt]; lia.
    + apply Hdown; [done| |lia..|by right]. destruct Hb as [Hb%Z.leb_gt|Hb%Z.leb_gt]; lia.
Qed.

(** The first entry is the smallest. *)
Lemma heap_head_min mc x : heap_ok mc -> clocks_ok mc -> head mc = Some x ->
  Forall (fun y => x <= y) mc.
Proof.
  intros Hh Hc Hx. apply Forall_lookup. intros i. induction (lt_wf i) as [i _ IH]. intros y Hy.
  destruct (Nat.eq_dec i 0) as [->|Hi]; [destruct mc; [done|]; simpl in *; by simplify_eq|].
  set (p := ((i - 1) / 2)%nat).
  assert (p < i)%nat as Hp by (apply Nat.Div0.div_lt_upper_bound; lia).
  assert (i = 2 * p + 1 \/ i = 2 * p + 2)%nat as Hor.
  { pose proof (Nat.div_mod_eq (i - 1) 2). pose proof (Nat.mod_upper_bound (i - 1) 2). fold p in H. lia. }
  pose proof (lookup_lt_Some _ _ _ Hy). destruct (lookup_lt_is_Some_2 mc p ltac:(lia)) as [z Hz].
  specialize (IH p Hp z Hz). destruct (Hh p z Hz) as [A B].
  apply child_clock_lookup in Hy. destruct Hor as [E|E]; rewrite <- E, Hy in *; lia.
Qed.

(** C24: [heap_replace] takes the smallest entry of the heap and puts the new
    clock in its place: the result is a heap again with otherwise the same
    entries. *)
Theorem heap_replace_correct mc x req : heap_ok mc -> clocks_ok mc -> head mc = Some x ->
  req <= UINT64_MAX ->
  Forall (fun y => x <= y) mc /\
  heap_ok (heap_replace mc req) /\ x :: heap_replace mc req ≡ₚ req :: mc.
Proof.
  intros Hh Hc Hx Hr. split; [by apply heap_head_min|]. unfold heap_replace.
  destruct mc as [|x' mc]; [done|]. injection Hx as ->.
  destruct (heap_sift_ok req Hr (length (x :: mc)) (x :: mc) 0) as [H1 H2];
    [done|simpl; lia|simpl; lia|intros; lia|].
  split; [done|]. rewrite H2. cbn. apply Permutation_swap.
Qed.

(** ** The merge *)

(** [merge ls l]: [l] takes elements from the fronts of the lists [ls] until
    they are empty. *)
Inductive merge {A} : list (list A) -> list A -> Prop :=
| merge_nil ls : Forall (fun q => q = []) ls -> merge ls []
| merge_cons ls i x q l : ls !! i = Some (x :: q) -> merge (<[i:=q]> ls) l -> merge ls (x :: l).

(** The same command, whatever its [min_clock]. *)
Definition same_command (a b : queue_message) : Prop :=
  qm_msg a = qm_msg b /\ qm_req_clock a = qm_req_clock b /\ qm_notify_id a = qm_notify_id b.

Definition by_req (a b : queue_message) : Prop := qm_req_clock a <= qm_req_clock b.

(** Every head of the queues requires at least the clock [c]. *)
Definition heads_from (c : Z) (qs : list (list queue_message)) : Prop :=
  Forall (fun q => match q with m :: _ => c <= qm_req_clock m | [] => True end) qs.

Definition queues_of (ses : list syncemitter) : list (list queue_message) := map msg_queue ses.

Lemma msg_queue_set q se : msg_queue (set_msg_queue q se) = q.
Proof. unfold msg_queue, set_msg_queue. destruct (se_sc se) eqn:E; cbn; by rewrite ?E. Qed.

Lemma queues_of_pop ses i m q : queues_of ses !! i = Some (m :: q) ->
  queues_of (alter (fun se => set_msg_queue (tail (msg_queue se)) se) i ses)
    = <[i:=q]> (queues_of ses).
Proof.
  unfold queues_of. revert i. induction ses as [|se ses IH]; intros [|i]; try done; cbn.
  - intros [= E]. by rewrite msg_queue_set, E.
  - intros E. f_equal. by apply IH.
Qed.

Lemma heads_from_mono c c' qs : heads_from c' qs -> c <= c' -> heads_from c qs.
Proof. intros Hq Hc. eapply Forall_impl; [exact Hq|]. intros [|m q]; [done|]. intros; lia. Qed.

(** The scan for the lowest request clock. *)
Lemma find_lowest_ok ses : forall i c best,
  (find_lowest ses i c best = best /\ heads_from c (queues_of ses)) \/
  (exists j m q, find_lowest ses i c best = Some ((i + j)%nat, m) /\
     queues_of ses !! j = Some (m :: q) /\ qm_req_clock m < c /\
     heads_from (qm_req_clock m) (queues_of ses)).
Proof.
  induction ses as [|se ses IH]; intros i c best; [left; split; [done|constructor]|].
  cbn [find_lowest queues_of map]. destruct (msg_queue se) as [|m q] eqn:Eq.
  - destruct (IH (S i) c best) as [[-> Hh]|(j & m & q & -> & Hj & Hc & Hh)].
    + left. split; [done|]. by constructor.
    + right. exists (S j), m, q. split_and!; [f_equal; f_equal; lia|done..|]. by constructor.
  - destruct (Z.ltb_spec (qm_req_clock m) c) as [Hlt|Hge].
    + destruct (IH (S i) (qm_req_clock m) (Some (i, m))) as [[-> Hh]|(j & m' & q' & -> & Hj & Hc & Hh)].
      * right. exists 0%nat, m, q. rewrite Nat.add_0_r. split_and!; [done..|]. constructor; [lia|done].
      * right. exists (S j), m', q'. split_and!; [f_equal; f_equal; lia|done|lia|].
        constructor; [lia|done].
    + destruct (IH (S i) c best) as [[-> Hh]|(j & m' & q' & -> & Hj & Hc & Hh)].
      * left. split; [done|]. by constructor.
      * right. exists (S j), m', q'. split_and!; [f_equal; f_equal; lia|done..|].
        constructor; [lia|done].
Qed.

Lemma pending_pop qs i (m : queue_message) q : qs !! i = Some (m :: q) ->
  list_sum (map length qs) = S (list_sum (map length (<[i:=q]> qs))).
Proof.
  unfold list_sum. revert i. induction qs as [|x qs IH]; intros [|i]; try done; cbn.
  - intros [= ->]. done.
  - intros E. rewrite (IH i E). symmetry. apply plus_n_Sm.
Qed.

Lemma pending_queues ses : pending_msgs ses = list_sum (map length (queues_of ses)).
Proof. unfold pending_msgs, queues_of. by rewrite map_map. Qed.

(** Taking the head of one sent list back to the front of its queue. *)
Lemma zip_app_pop qs (sent rest : list (list queue_message)) i m q :
  length sent = length rest -> <[i:=q]> qs = zip_with app sent rest -> qs !! i = Some (m :: q) ->
  exists s, sent !! i = Some s /\ qs = zip_with app (<[i:=m :: s]> sent) rest /\
    length (<[i:=m :: s]> sent) = length rest.
Proof.
  revert qs rest i. induction sent as [|s sent IH]; intros [|x qs] [|r rest] [|i] Hl Hz Hq;
    try done; cbn in *; simplify_eq.
  - exists s. split_and!; [done|done|simpl; lia].
  - apply (IH qs rest i) in Hq as (s' & E1 & E2 & E3); [|lia|done].
    exists s'. split_and!; [exact E1|by rewrite E2 at 1|by apply (f_equal S)].
Qed.

(** The queues are ordered by [req_clock] up to the clock [MAX_CLOCK]. *)
Definition queues_sorted (qs : list (list queue_message)) : Prop :=
  Forall (StronglySorted by_req) qs.

Lemma queues_sorted_pop qs i m q : queues_sorted qs -> qs !! i = Some (m :: q) ->
  queues_sorted (<[i:=q]> qs) /\ Forall (by_req m) q.
Proof.
  intros Hs Hq. pose proof Hs as Hm. eapply Forall_lookup_1 in Hm; [|exact Hq].
  apply StronglySorted_inv in Hm as [Hm1 Hm2]. split; [|done]. by apply Forall_insert.
Qed.

Lemma heads_from_pop qs i m q : queues_sorted qs -> qs !! i = Some (m :: q) ->
  heads_from (qm_req_clock m) qs -> heads_from (qm_req_clock m) (<[i:=q]> qs).
Proof.
  intros Hs Hq Hh. apply Forall_insert; [done|]. destruct (queues_sorted_pop qs i m q Hs Hq) as [_ Hf].
  destruct q; [done|]. by inversion Hf.
Qed.

(** What stops the loop: every message left is for later. *)
Definition stop_ok (move_clock : Z) (qs : list (list queue_message)) : Prop :=
  heads_from MAX_CLOCK qs \/
  exists i m q, qs !! i = Some (m :: q) /\ qm_min_clock m <> 0 /\
    move_clock < qm_req_clock m /\ heads_from (qm_req_clock m) qs.

Lemma heap_replace_nonempty mc req : mc <> [] -> heap_replace mc req <> [].
Proof.
  intros Hm E. apply Hm. apply length_zero_iff_nil. rewrite <- (length_nil (A := Z)), <- E.
  unfold heap_replace. generalize (length mc) at 2. intros fuel. generalize 0%nat. clear.
  revert mc. induction fuel as [|fuel IH]; intros mc pos; [done|]. cbn [heap_sift].
  repeat case_match; rewrite <- ?IH; by rewrite length_insert.
Qed.

(** The result of the loop: the messages [new] it adds to the batch, the
    messages it takes from each queue and the order in which it takes them. *)
Definition flushed (move_clock : Z) (ses : list syncemitter) (msgs : list queue_message)
    (res : option (list syncemitter * list Z * list queue_message)) : Prop :=
  exists ses' mc' new sent merged,
    res = Some (ses', mc', msgs ++ new) /\ length sent = length (queues_of ses') /\
    queues_of ses = zip_with app sent (queues_of ses') /\
    merge sent merged /\ Forall2 same_command merged new /\
    StronglySorted by_req new /\ stop_ok move_clock (queues_of ses') /\
    queues_sorted (queues_of ses') /\
    (forall c, heads_from c (queues_of ses) -> Forall (fun m => c <= qm_req_clock m) new).

Lemma flushed_stop move_clock ses mc msgs : stop_ok move_clock (queues_of ses) ->
  queues_sorted (queues_of ses) -> flushed move_clock ses msgs (Some (ses, mc, msgs)).
Proof.
  intros Hst Hs. exists ses, mc, [], (map (fun _ => []) (queues_of ses)), [].
  rewrite app_nil_r, length_map. split_and!; try done; try constructor.
  - clear. induction (queues_of ses) as [|x y IHy]; [done|]. cbn. by rewrite <- IHy.
  - apply Forall_map, Forall_forall. done.
Qed.

(** One message taken. *)
Lemma flushed_step move_clock ses j m q msgs x res : queues_sorted (queues_of ses) ->
  queues_of ses !! j = Some (m :: q) -> heads_from (qm_req_clock m) (queues_of ses) ->
  flushed move_clock (alter (fun se => set_msg_queue (tail (msg_queue se)) se) j ses)
    (msgs ++ [mkQM (qm_msg m) x (qm_req_clock m) (qm_notify_id m)]) res ->
  flushed move_clock ses msgs res.
Proof.
  intros Hs Hj Hh (ses' & mc' & new & sent & merged & -> & Hl & Hz & Hmg & Hsame & Hsort & Hst & Hs' & Hge).
  rewrite (queues_of_pop ses j m q Hj) in Hz, Hge. set (qm := mkQM _ x _ _).
  destruct (zip_app_pop _ sent _ j m q Hl Hz Hj) as (s & Hsj & Hz' & Hl').
  exists ses', mc', (qm :: new), (<[j:=m :: s]> sent), (m :: merged). split_and!; try done.
  - by rewrite <- app_assoc.
  - eapply (merge_cons _ j m s).
    + apply list_lookup_insert_eq. by apply lookup_lt_Some in Hsj.
    + by rewrite list_insert_insert_eq, list_insert_id.
  - by constructor.
  - constructor; [done|]. apply Hge. exact (heads_from_pop _ j m q Hs Hj Hh).
  - intros c Hc'. assert (c <= qm_req_clock m) as Hcm
      by (unfold heads_from in Hc'; eapply Forall_lookup_1 in Hc'; [|exact Hj]; done).
    constructor; [done|]. apply Hge.
    eapply heads_from_mono; [by apply heads_from_pop|done].
Qed.

Lemma flush_msgs_ok move_clock : forall fuel ses mc msgs,
  (list_sum (map length (queues_of ses)) < fuel)%nat -> mc <> [] -> queues_sorted (queues_of ses) ->
  flushed move_clock ses msgs (flush_msgs fuel move_clock ses mc msgs).
Proof.
  induction fuel as [|fuel IH]; intros ses mc msgs Hf Hmc Hs; [lia|]. cbn [flush_msgs].
  destruct (find_lowest_ok ses 0 MAX_CLOCK None) as [[-> Hh]|(j & m & q & -> & Hj & Hc & Hh)].
  { apply flushed_stop; [by left|done]. }
  destruct (negb (qm_min_clock m =? 0) && _) eqn:Hb.
  { apply flushed_stop; [|done]. right. apply andb_true_iff in Hb as [Hb1%negb_true_iff Hb2%Z.ltb_lt].
    apply Z.eqb_neq in Hb1. by exists j, m, q. }
  destruct mc as [|x mc]; [done|]. cbn [head hd_error mbind option_bind Nat.add].
  eapply flushed_step; [done..|]. apply IH.
  - rewrite (queues_of_pop ses j m q Hj). rewrite (pending_pop _ j m q Hj) in Hf. lia.
  - case_match; [by apply heap_replace_nonempty|done].
  - rewrite (queues_of_pop ses j m q Hj). by apply (queues_sorted_pop _ j m q).
Qed.

(** What is left in the queues is for later. *)
Lemma stop_left move_clock qs : stop_ok move_clock qs -> queues_sorted qs ->
  Forall (Forall (fun m => move_clock < qm_req_clock m \/ MAX_CLOCK <= qm_req_clock m)) qs.
Proof.
  intros Hst Hs.
  assert (exists c, heads_from c qs /\ (move_clock < c \/ MAX_CLOCK <= c)) as (c & Hc & Hor).
  { destruct Hst as [Hh|(i & m & q & _ & _ & Hlt & Hh)]; [exists MAX_CLOCK|exists (qm_req_clock m)].
    - split; [done|by right].
    - split; [done|by left]. }
  apply Forall_lookup. intros i q Hq. unfold heads_from in Hc. eapply Forall_lookup_1 in Hc; [|exact Hq].
  eapply Forall_lookup_1 in Hs; [|exact Hq]. destruct q as [|m q]; [done|].
  apply StronglySorted_inv in Hs as [_ Hf].
  constructor; [lia|]. eapply Forall_impl; [exact Hf|]. unfold by_req. intros; lia.
Qed.


(** ** The two threads of an emitter *)

Section Handshake.
Context `{Libm}.
Variable fuel : nat.

(** The calls one after the other: a request is worked on at once. *)
Definition spec_call (c : se_call) (st : syncemitter * trapqs) : option (list Z * (syncemitter * trapqs)) :=
  match c with
  | StartGen t fc cc =>
      se ← se_start_gen_steps t fc cc st.1;
      se ← se_background_iter fuel st.2 se;
      Some ([], (se, st.2))
  | FinalizeGen => res ← se_finalize_gen_steps st.1; Some ([res], st)
  | FreeEmitter =>
      Some ([], (match se_sc st.1 with Some _ => st.1 <| se_have_work := -1 |> | None => st.1 end, st.2))
  | Access f => Some ([], f st)
  end.

Fixpoint spec_calls (cs : list se_call) (st : syncemitter * trapqs)
    : option (list Z * (syncemitter * trapqs)) :=
  match cs with
  | [] => Some ([], st)
  | c :: cs =>
      '(r, st) ← spec_call c st;
      '(rs, st) ← spec_calls cs st;
      Some (r ++ rs, st)
  end.

(** The main thread waits for a request to be finished before it uses the
    emitter, leaves [have_work] alone, and frees it last. *)
Fixpoint disciplined (pending : bool) (cs : list se_call) : Prop :=
  match cs with
  | [] => True
  | StartGen _ _ _ :: cs => disciplined true cs
  | FinalizeGen :: cs => disciplined false cs
  | FreeEmitter :: cs => cs = []
  | Access f :: cs =>
      pending = false /\ (forall st, se_have_work (f st).1 = se_have_work st.1) /\ disciplined false cs
  end.

Lemma disciplined_weaken b cs : disciplined b cs -> disciplined false cs.
Proof. destruct cs as [|[]]; cbn; tauto. Qed.

(** The calls that have not taken effect. *)
Definition todo (s : handshake) : list se_call :=
  match hs_main s with
  | M_lock c | M_test c | M_wait c | M_woken c => c :: hs_calls s
  | _ => hs_calls s
  end.

(** The emitter and the motion queues when requested work is done, and what the
    calls will have returned in the end. *)
Definition settled (s : handshake) : option (syncemitter * trapqs) :=
  if 0 <? se_have_work (hs_se s)
  then se ← se_background_iter fuel (hs_tqs s) (hs_se s); Some (se, hs_tqs s)
  else Some (hs_se s, hs_tqs s).

Definition outcome (s : handshake) : option (list Z * (syncemitter * trapqs)) :=
  st ← settled s; '(rs, st) ← spec_calls (todo s) st; Some (hs_results s ++ rs, st).

(** *** The invariant *)

Definition holder (m : caller_pc) (b : bg_pc) : option thread :=
  match m, b with
  | (M_test _ | M_unlock), _ => Some MainThread
  | _, (B_test | B_work) => Some BgThread
  | _, _ => None
  end.

Definition exclusive (m : caller_pc) (b : bg_pc) : Prop :=
  match m, b with (M_test _ | M_unlock), (B_test | B_work) => False | _, _ => True end.

Definition call_ok (se : syncemitter) (c : se_call) : Prop :=
  match c with
  | StartGen _ _ _ | FinalizeGen => generating se = true
  | FreeEmitter => se_sc se <> None
  | Access _ => False
  end.

Definition main_ok (m : caller_pc) (se : syncemitter) (calls : list se_call) : Prop :=
  let hw := se_have_work se in
  match m with
  | M_idle | M_signal => hw = 0 \/ hw = 1
  | M_lock c | M_test c | M_woken c => (hw = 0 \/ hw = 1) /\ call_ok se c
  | M_wait c => hw = 1 /\ call_ok se c
  | M_unlock | M_join => hw = -1 /\ calls = []
  | M_freed => (hw = 0 \/ hw = -1) /\ calls = []
  end.

(** A waiting background thread has nothing to do or is about to be woken. *)
Definition bg_ok (b : bg_pc) (m : caller_pc) (hw : Z) : Prop :=
  match b with
  | B_lock | B_woken | B_test => True
  | B_wait => hw = 0 \/ hw = 1 /\ m = M_signal
  | B_work => hw = 1
  | B_exit => hw = -1
  end.

Record hs_inv (s : handshake) : Prop := {
  hi_owner : hs_owner s = holder (hs_main s) (hs_bg s);
  hi_excl : exclusive (hs_main s) (hs_bg s);
  hi_main : main_ok (hs_main s) (hs_se s) (hs_calls s);
  hi_bg : bg_ok (hs_bg s) (hs_main s) (se_have_work (hs_se s));
  hi_gen : se_have_work (hs_se s) = 1 -> generating (hs_se s) = true;
  hi_disc : disciplined (se_have_work (hs_se s) =? 1) (todo s) }.

(** What the work of the background thread leaves. *)
Lemma background_iter_kept tqs se se' : se_have_work se = 1 -> se_background_iter fuel tqs se = Some se' ->
  se_have_work se' = 0 /\ generating se' = generating se /\ (se_sc se <> None -> se_sc se' <> None).
Proof.
  intros Hw. unfold se_background_iter. rewrite Hw. cbn [Z.leb Z.compare].
  destruct (se_generate_steps fuel tqs se) as [[ret se1]|] eqn:E; [|done]. cbn [mbind option_bind].
  intros [= <-]. split; [done|]. unfold generating. cbn [se_sc se_sk upd eta eta_syncemitter]. revert E.
  unfold se_generate_steps.
  destruct (se_sc se) as [sc|] eqn:Esc; [|by intros [= _ <-]; rewrite Esc].
  destruct (se_sk se) as [sk|] eqn:Esk; [|by intros [= _ <-]; rewrite Esc, Esk].
  destruct (sk_trapq tqs sk); [|done]. cbn [mbind option_bind].
  destruct (itersolve_generate_steps _ _ _ _ _); try done.
  case_match; [by intros [= _ <-]|]. destruct (stepcompress_flush _ _); try done.
  case_match; by intros [= _ <-].
Qed.

Lemma call_ok_iter tqs se se' c : se_have_work se = 1 -> se_background_iter fuel tqs se = Some se' ->
  call_ok se c -> call_ok se' c.
Proof.
  intros Hw E. destruct (background_iter_kept _ _ _ Hw E) as (_ & Hg & Hs). destruct c; cbn; try done; congruence || auto.
Qed.
(** *** Every step keeps the invariant and the outcome *)

Definition hs_kept (s s' : handshake) : Prop := hs_inv s' /\ outcome s' = outcome s.

Ltac hs_split :=
  split; [constructor; cbn [hs_owner hs_main hs_bg hs_se hs_calls hs_tqs hs_results upd eta eta_handshake]|].

(** Without pending work the next call takes effect at once. *)
Lemma outcome_call s c cs : se_have_work (hs_se s) <= 0 -> todo s = c :: cs ->
  outcome s = '(r, st) ← spec_call c (hs_se s, hs_tqs s); '(rs, st) ← spec_calls cs st;
              Some ((hs_results s ++ r) ++ rs, st).
Proof.
  intros Hw Ht. unfold outcome, settled. rewrite (proj2 (Z.ltb_ge _ _) Hw), Ht. cbn [mbind option_bind spec_calls].
  destruct (spec_call c _) as [[r st]|]; [|done]. cbn [mbind option_bind].
  destruct (spec_calls cs st) as [[rs st']|]; [|done]. cbn. by rewrite app_assoc.
Qed.

Lemma outcome_settled s : se_have_work (hs_se s) <= 0 ->
  outcome s = '(rs, st) ← spec_calls (todo s) (hs_se s, hs_tqs s); Some (hs_results s ++ rs, st).
Proof. intros Hw. unfold outcome, settled. by rewrite (proj2 (Z.ltb_ge _ _) Hw). Qed.

Lemma start_idle t fc cc tqs se : se_have_work se = 0 -> generating se = false ->
  spec_call (StartGen t fc cc) (se, tqs) = Some ([], (se, tqs)).
Proof.
  unfold generating. cbn. unfold se_start_gen_steps, se_background_iter. intros Hw Eg.
  destruct (se_sc se), (se_sk se); try done; cbn; by rewrite Hw.
Qed.

Lemma finalize_idle tqs se : generating se = false -> spec_call FinalizeGen (se, tqs) = Some ([0], (se, tqs)).
Proof. unfold generating. cbn. unfold se_finalize_gen_steps. by destruct (se_sc se), (se_sk se). Qed.

(** The outcome on both sides of the goal. *)
Ltac hs_call Ht :=
  etrans; [apply outcome_settled; cbn; lia|]; symmetry; etrans; [eapply outcome_call; [cbn; lia|exact Ht]|];
  cbn [hs_se hs_tqs hs_results hs_main hs_calls todo upd eta eta_handshake].

Lemma main_call_kept c cs s : hs_inv s -> hs_main s = M_idle -> hs_calls s = c :: cs ->
  hs_kept s (main_call c (s <| hs_calls := cs |>)).
Proof.
  destruct s as [se tqs o m b calls res]. cbn [hs_main hs_calls]. intros [Ho He Hm Hb Hg Hd] -> ->.
  cbn in Ho, He, Hm, Hb, Hg, Hd. unfold todo in Hd. cbn [hs_main hs_calls] in Hd.
  assert (Hb' : forall m', bg_ok b m' (se_have_work se)).
  { intros m'. destruct b; cbn in *; try done. destruct Hb as [Hb|[_ Hb]]; [by left|done]. }
  pose (s := mkHS se tqs o M_idle b (c :: cs) res). assert (todo s = c :: cs) as Ht by done.
  assert (se_have_work se = 0 -> se_have_work se =? 1 = false) as Hw1 by (intros ->; done).
  destruct c as [t fc cc| | |f]; cbn [main_call hs_se upd eta eta_handshake].
  1-2: destruct (generating se) eqn:Eg; [hs_split; try done; try (by destruct b)|].
  1-2: assert (se_have_work se = 0) as Hw by (destruct Hm as [|Hm]; [done|by specialize (Hg Hm)]).
  - hs_split; try done; try (intros; lia); [rewrite Hw1 by done; exact (disciplined_weaken _ _ Hd)|].
    hs_call Ht. rewrite start_idle by done. cbn [mbind option_bind]. by rewrite app_nil_r.
  - hs_split; try done; try (intros; lia); [rewrite Hw1 by done; exact Hd|].
    hs_call Ht. by rewrite finalize_idle.
  - destruct (se_sc se) as [sc|] eqn:Esc; [hs_split; try done; (by destruct b) || by split; [|cbn; rewrite Esc]|].
    assert (se_have_work se = 0) as Hw.
    { destruct Hm as [|Hm]; [done|]. specialize (Hg Hm). unfold generating in Hg. by rewrite Esc in Hg. }
    cbn in Hd. subst cs. hs_split; try done; try (intros; lia); try (by destruct b); try (by split; [cbn; lia|]).
    hs_call Ht. cbn. by rewrite Esc, !app_nil_r.
  - destruct Hd as (Hp & Hf & Hd). assert (se_have_work se = 0) as Hw.
    { destruct Hm as [|Hm]; [done|]. by rewrite Hm in Hp. }
    pose proof (Hf (se, tqs)) as Hf1. cbn [fst] in Hf1. cbn [hs_se hs_tqs upd eta eta_handshake].
    destruct (f (se, tqs)) as [se' tqs'] eqn:Ef. cbn [fst snd] in *. rewrite <- Hf1 in Hw, Hb'. rewrite ?Ef.
    hs_split; try done; try (intros; lia); try (by left); try (by rewrite Hw).
    hs_call Ht. cbn [spec_call]. rewrite Ef. cbn [mbind option_bind]. by rewrite app_nil_r.
Qed.
Lemma start_gen t fc cc se : generating se = true -> se_have_work se = 0 ->
  exists se', se_start_gen_steps t fc cc se = Some se' /\ se_have_work se' = 1 /\ generating se' = true.
Proof.
  unfold generating, se_start_gen_steps. intros Hg Hw. destruct (se_sc se) eqn:Esc, (se_sk se) eqn:Esk; try done.
  rewrite Hw. eexists. split; [reflexivity|]. split; [done|]. cbn. by rewrite Esc, Esk.
Qed.

Lemma finalize_gen se : generating se = true -> se_have_work se = 0 ->
  se_finalize_gen_steps se = Some (se_bg_result se).
Proof.
  unfold generating, se_finalize_gen_steps. intros Hg Hw. destruct (se_sc se), (se_sk se); try done. by rewrite Hw.
Qed.

Ltac hs_bg := cbn in *; first [done|lia|by left|by right|naive_solver lia].

(** The body of a call, with the mutex. *)
Lemma main_body_kept c s s' : hs_inv s -> hs_main s = M_test c -> se_have_work (hs_se s) = 0 ->
  main_body c s = Some s' -> hs_kept s s'.
Proof.
  destruct s as [se tqs o m b calls res]. cbn [hs_main hs_se]. intros [Ho He Hm Hb Hg Hd] -> Hw.
  destruct Hm as [_ Hc]. cbn in Ho, He, Hc, Hb, Hg, Hd. unfold todo in Hd. cbn [hs_main hs_calls] in Hd.
  pose (s := mkHS se tqs o (M_test c) b calls res). assert (todo s = c :: calls) as Ht by done.
  destruct c as [t fc cc| | |f]; cbn [main_body hs_se]; [..|done].
  - destruct (start_gen t fc cc se Hc Hw) as (se' & Es & Hw' & Hg'). rewrite Es. intros [= <-].
    hs_split; try done; [by destruct b|by right|rewrite Hw'; destruct b; hs_bg|by rewrite Hw'|].
    symmetry. etrans; [eapply outcome_call; [cbn; lia|exact Ht]|]. cbn [spec_call hs_se hs_tqs fst snd]. rewrite Es.
    unfold outcome, settled. cbn. rewrite Hw'. cbn. destruct (se_background_iter _ _ _); [|done]. cbn. by rewrite app_nil_r.
  - rewrite (finalize_gen se Hc Hw). intros [= <-].
    hs_split; try done; try (intros; lia); [by destruct b|by left|destruct b; hs_bg|by rewrite Hw|].
    hs_call Ht. cbn [spec_call fst]. by rewrite (finalize_gen se Hc Hw).
  - intros [= <-]. cbn in Hd. subst calls. hs_split; try done; [by destruct b|destruct b; hs_bg|].
    hs_call Ht. cbn. destruct (se_sc se) eqn:Esc; [|done]. cbn. by rewrite app_nil_r.
Qed.

(** Taking the mutex, and waiting for the condition. *)
Lemma main_acquire_kept c s : hs_inv s -> hs_main s = M_lock c \/ hs_main s = M_woken c -> hs_owner s = None ->
  hs_kept s (s <| hs_main := M_test c |> <| hs_owner := Some MainThread |>).
Proof.
  destruct s as [se tqs o m b calls res]. cbn [hs_main hs_owner]. intros [Ho He Hm Hb Hg Hd] Em ->. cbn in *.
  hs_split; try done; destruct Em as [-> | ->]; try done; destruct b; hs_bg.
Qed.

Lemma main_wait_kept c s : hs_inv s -> hs_main s = M_test c -> se_have_work (hs_se s) <> 0 ->
  hs_kept s (s <| hs_main := M_wait c |> <| hs_owner := None |>).
Proof.
  destruct s as [se tqs o m b calls res]. cbn [hs_main hs_se]. intros [Ho He Hm Hb Hg Hd] -> Hw. cbn in *.
  assert (se_have_work se = 1) as Hw1 by (destruct Hm as [[] _]; lia).
  hs_split; try done; [by destruct b|by destruct Hm as [_ Hc]|destruct b; hs_bg].
Qed.

Lemma main_next_kept s s' : hs_inv s -> main_next s = Some s' -> hs_kept s s'.
Proof.
  intros Hi. unfold main_next. destruct (hs_main s) as [|c|c|c|c| | | |] eqn:Em; try done.
  - destruct (hs_calls s) as [|c cs] eqn:Ec; [done|]. intros [= <-]. by apply main_call_kept.
  - destruct (hs_owner s) eqn:Eo; [done|]. intros [= <-]. by apply main_acquire_kept; [|left|].
  - destruct (Z.eqb_spec (se_have_work (hs_se s)) 0); cbn [negb]; [by apply main_body_kept|].
    intros [= <-]. by apply main_wait_kept.
  - destruct (hs_owner s) eqn:Eo; [done|]. intros [= <-]. by apply main_acquire_kept; [|right|].
  - intros [= <-]. destruct s as [se tqs o m b calls res], Hi as [Ho He Hm Hb Hg Hd]. cbn in *. subst m.
    hs_split; try done; destruct b; hs_bg.
  - intros [= <-]. destruct s as [se tqs o m b calls res], Hi as [Ho He Hm Hb Hg Hd]. cbn in *. subst m.
    hs_split; try done; destruct b; hs_bg.
  - destruct (hs_bg s) eqn:Eb; try done. intros [= <-].
    destruct s as [se tqs o m b calls res], Hi as [Ho He Hm Hb Hg Hd]. cbn in *. subst m b.
    hs_split; try done. hs_bg.
Qed.

(** The work is done: the waiting main thread is woken. *)
Lemma bg_work_kept s se : hs_inv s -> hs_bg s = B_work -> se_background_iter fuel (hs_tqs s) (hs_se s) = Some se ->
  hs_kept s (s <| hs_se := se |> <| hs_main ::= signal_main |> <| hs_bg := B_test |>).
Proof.
  destruct s as [se0 tqs o m b calls res]. cbn [hs_bg hs_tqs hs_se]. intros [Ho He Hm Hb Hg Hd] -> E. cbn in *.
  destruct (background_iter_kept _ _ _ Hb E) as (Hw & Hgen & _).
  pose proof (fun c => call_ok_iter _ _ _ c Hb E) as Hc.
  hs_split; try (intros; lia); try (by destruct m).
  - destruct m; cbn in *; try done; try (by left); try (split; [by left|]; apply Hc); by destruct Hm; try lia.
  - rewrite Hw. apply disciplined_weaken in Hd. by destruct m.
  - unfold outcome, settled. cbn. rewrite Hw, Hb, E. cbn. by destruct m.
Qed.

Lemma bg_next_kept s s' : hs_inv s -> bg_next fuel s = Some s' -> hs_kept s s'.
Proof.
  intros Hi. unfold bg_next. destruct (hs_bg s) eqn:Eb; try done.
  1,3: destruct (hs_owner s) eqn:Eo; [done|]; intros [= <-];
    destruct s as [se tqs o m b calls res], Hi as [Ho He Hm Hb Hg Hd]; cbn in *; subst b o;
    hs_split; try done; by destruct m.
  - destruct s as [se tqs o m b calls res], Hi as [Ho He Hm Hb Hg Hd]. cbn in *. subst b.
    assert (exclusive m B_wait) as He' by by destruct m.
    assert (holder m B_wait = None /\ holder m B_exit = None /\ holder m B_work = holder m B_test) as (H1 & H2 & H3)
      by by destruct m.
    destruct (Z.eqb_spec (se_have_work se) 0) as [Hw|Hw]; [|destruct (Z.ltb_spec (se_have_work se) 0) as [Hw2|Hw2]];
      intros [= <-]; (hs_split; try done; try congruence); try (by left); try (by destruct m);
      destruct m; hs_bg.
  - destruct (se_background_iter _ _ _) as [se|] eqn:E; [|done]. intros [= <-]. by apply bg_work_kept.
Qed.
Lemma hs_next_kept c s s' : hs_inv s -> hs_next fuel c s = Some s' -> hs_kept s s'.
Proof.
  intros Hi. destruct c as [[]|[]]; cbn [hs_next]; [by apply main_next_kept|by apply bg_next_kept|..].
  - destruct (hs_main s) eqn:Em; try done. intros [= <-].
    destruct s as [se tqs o m b calls res], Hi as [Ho He Hm Hb Hg Hd]. cbn in *. subst m.
    hs_split; try done; [by destruct Hm; split; [right|]|destruct b; hs_bg].
  - destruct (hs_bg s) eqn:Eb; try done. intros [= <-].
    destruct s as [se tqs o m b calls res], Hi as [Ho He Hm Hb Hg Hd]. cbn in *. subst b.
    hs_split; try done; by destruct m.
Qed.

(** *** Progress *)

Definition finished (s : handshake) : Prop :=
  hs_main s = M_freed \/ hs_main s = M_idle /\ hs_calls s = [].

Lemma bg_can_run s r : hs_inv s -> outcome s = Some r -> hs_main s <> M_signal -> se_have_work (hs_se s) <> 0 ->
  holder (hs_main s) (hs_bg s) <> Some MainThread -> hs_bg s <> B_exit -> bg_next fuel s <> None.
Proof.
  intros [Ho He Hm Hb Hg Hd] Hr Hs Hw Hh Hx. unfold bg_next. rewrite Ho.
  destruct (hs_bg s) eqn:Eb; try done.
  - by destruct (hs_main s).
  - by repeat case_match.
  - destruct Hb as [|[_ ?]]; done.
  - by destruct (hs_main s).
  - cbn in Hb. revert Hr. unfold outcome, settled. rewrite Hb. cbn. by destruct (se_background_iter _ _ _).
Qed.

Lemma bg_holding_runs s r : hs_inv s -> outcome s = Some r -> hs_owner s = Some BgThread ->
  bg_next fuel s <> None.
Proof.
  intros [Ho _ _ Hb _ _] Hr Eo. unfold bg_next. rewrite Eo in *.
  destruct (hs_bg s) eqn:Eb; [by destruct (hs_main s)|by repeat case_match|by destruct (hs_main s)..| |by destruct (hs_main s)].
  cbn in Hb. revert Hr. unfold outcome, settled. rewrite Hb. cbn. by destruct (se_background_iter _ _ _).
Qed.

Lemma main_body_runs s c : hs_inv s -> hs_main s = M_test c -> main_next s <> None.
Proof.
  intros [_ _ Hm _ _ _] Em. unfold main_next. rewrite Em in *. destruct Hm as [_ Hc].
  destruct (Z.eqb_spec (se_have_work (hs_se s)) 0) as [Hw|]; cbn [negb]; [|done].
  destruct c as [t fc cc| | |f]; cbn in *; try done.
  - by destruct (start_gen t fc cc _ Hc Hw) as (se' & -> & _).
  - by rewrite (finalize_gen _ Hc Hw).
Qed.

Lemma main_locks s r c : hs_inv s -> outcome s = Some r -> hs_main s = M_lock c \/ hs_main s = M_woken c ->
  exists t, hs_next fuel (Run t) s <> None.
Proof.
  intros Hi Hr Em. destruct (hs_owner s) as [[]|] eqn:Eo.
  - rewrite (hi_owner _ Hi) in Eo. by destruct Em as [Em|Em]; rewrite Em in Eo; destruct (hs_bg s).
  - exists BgThread. by eapply bg_holding_runs.
  - exists MainThread. cbn. unfold main_next. by destruct Em as [-> | ->]; rewrite Eo.
Qed.

Lemma hs_progress s r : hs_inv s -> outcome s = Some r -> ~ finished s ->
  exists t, hs_next fuel (Run t) s <> None.
Proof.
  intros Hi Hr Hf. pose proof (bg_can_run s r Hi Hr) as Hbg. pose proof (hi_main _ Hi) as Hm.
  pose proof (hi_bg _ Hi) as Hb. destruct (hs_main s) as [|c|c|c|c| | | |] eqn:Em.
  - exists MainThread. cbn. unfold main_next. rewrite Em. destruct (hs_calls s) eqn:Ec; [|done].
    destruct Hf. by right.
  - by eapply main_locks; [| |left].
  - exists MainThread. by eapply main_body_runs.
  - destruct Hm as [Hw _]. exists BgThread. apply Hbg; [done|lia|by destruct (hs_bg s)|].
    intros Eb. rewrite Eb, Hw in Hb. done.
  - by eapply main_locks; [| |right].
  - exists MainThread. cbn. unfold main_next. by rewrite Em.
  - exists MainThread. cbn. unfold main_next. by rewrite Em.
  - destruct Hm as [Hw _]. destruct (hs_bg s) eqn:Eb; try (exists BgThread; apply Hbg; done || lia).
    exists MainThread. cbn. unfold main_next. by rewrite Em, Eb.
  - destruct Hf. by left.
Qed.

(** *** The number of steps *)

Definition main_weight (m : caller_pc) : nat :=
  match m with
  | M_idle | M_freed => 0 | M_lock _ | M_woken _ => 11 | M_test _ => 10 | M_wait _ => 9
  | M_signal => 3 | M_unlock => 5 | M_join => 4
  end.

Definition bg_weight (b : bg_pc) : nat :=
  match b with B_wait | B_work | B_exit => 0 | B_test => 1 | B_lock | B_woken => 2 end.

(** The steps that are left at most, if nothing wakes without reason. *)
Definition hs_weight (s : handshake) : nat :=
  20 * length (hs_calls s) + main_weight (hs_main s) + bg_weight (hs_bg s) +
  (if se_have_work (hs_se s) =? 1 then 4 else 0).

Lemma main_call_weight c cs s : hs_inv s -> hs_main s = M_idle -> hs_calls s = c :: cs ->
  (hs_weight (main_call c (s <| hs_calls := cs |>)) < hs_weight s)%nat.
Proof.
  intros Hi Em Ec. pose proof (hi_disc _ Hi) as Hd. unfold todo in Hd. rewrite Em, Ec in Hd.
  unfold hs_weight. rewrite Em, Ec. destruct c as [t fc cc| | |f]; cbn [main_call]; cbn in Hd |- *.
  - destruct (generating _); cbn; rewrite ?Em; cbn; lia.
  - destruct (generating _); cbn; rewrite ?Em; cbn; lia.
  - destruct (se_sc _); cbn; lia.
  - destruct Hd as (_ & Hf & _). specialize (Hf (hs_se s, hs_tqs s)).
    destruct (f _) as [se' tqs']. cbn in Hf |- *. rewrite Hf, Em. cbn. lia.
Qed.

Lemma signal_bg_weight b : (bg_weight (signal_bg b) <= bg_weight b + 2)%nat.
Proof. destruct b; cbn; lia. Qed.

Lemma signal_main_weight m : (main_weight (signal_main m) <= main_weight m + 2)%nat.
Proof. destruct m; cbn; lia. Qed.

Lemma main_next_weight s s' : hs_inv s -> main_next s = Some s' -> (hs_weight s' < hs_weight s)%nat.
Proof.
  intros Hi. unfold main_next. destruct (hs_main s) as [|c|c|c|c| | | |] eqn:Em; try done.
  - destruct (hs_calls s) as [|c cs] eqn:Ec; [done|]. intros [= <-]. by apply main_call_weight.
  - destruct (hs_owner s); [done|]. intros [= <-]. unfold hs_weight. rewrite Em. cbn. lia.
  - destruct (Z.eqb_spec (se_have_work (hs_se s)) 0) as [Hw|Hw]; cbn [negb].
    2: { intros [= <-]. unfold hs_weight. rewrite Em. cbn. lia. }
    pose proof (hi_main _ Hi) as Hm. rewrite Em in Hm. destruct Hm as [_ Hc].
    unfold hs_weight. rewrite Em, Hw. destruct c as [t fc cc| | |f]; cbn in Hc |- *; [..|done].
    + destruct (start_gen t fc cc _ Hc Hw) as (se' & -> & Hw' & _). intros [= <-]. cbn. rewrite Hw'. cbn. lia.
    + rewrite (finalize_gen _ Hc Hw). intros [= <-]. cbn. rewrite Hw. cbn. lia.
    + intros [= <-]. cbn. pose proof (signal_bg_weight (hs_bg s)). lia.
  - destruct (hs_owner s); [done|]. intros [= <-]. unfold hs_weight. rewrite Em. cbn. lia.
  - intros [= <-]. unfold hs_weight. rewrite Em. cbn. pose proof (signal_bg_weight (hs_bg s)). lia.
  - intros [= <-]. unfold hs_weight. rewrite Em. cbn. lia.
  - destruct (hs_bg s) eqn:Eb; try done. intros [= <-]. unfold hs_weight. cbn. rewrite Em, Eb. cbn. lia.
Qed.

Lemma bg_next_weight s s' : hs_inv s -> bg_next fuel s = Some s' -> (hs_weight s' < hs_weight s)%nat.
Proof.
  intros Hi. unfold bg_next. destruct (hs_bg s) eqn:Eb; try done.
  - destruct (hs_owner s); [done|]. intros [= <-]. unfold hs_weight. rewrite Eb. cbn. lia.
  - case_match; [|case_match]; intros [= <-]; unfold hs_weight; rewrite Eb; cbn; lia.
  - destruct (hs_owner s); [done|]. intros [= <-]. unfold hs_weight. rewrite Eb. cbn. lia.
  - destruct (se_background_iter _ _ _) as [se|] eqn:E; [|done]. intros [= <-].
    pose proof (hi_bg _ Hi) as Hb. rewrite Eb in Hb. cbn in Hb.
    destruct (background_iter_kept _ _ _ Hb E) as (Hw & _). unfold hs_weight. rewrite Eb. cbn. rewrite Hw, Hb. cbn.
    pose proof (signal_main_weight (hs_main s)). lia.
Qed.
Definition is_run (c : choice) : bool := match c with Run _ => true | Spurious _ => false end.
Definition run_steps (sched : list choice) : nat := length (List.filter is_run sched).
Definition spurious_steps (sched : list choice) : nat := length (List.filter (fun c => negb (is_run c)) sched).

Lemma spurious_weight t s s' : hs_next fuel (Spurious t) s = Some s' -> (hs_weight s' <= hs_weight s + 2)%nat.
Proof.
  destruct t; cbn [hs_next].
  - destruct (hs_main s) eqn:Em; try done. intros [= <-]. unfold hs_weight. rewrite Em. cbn. lia.
  - destruct (hs_bg s) eqn:Eb; try done. intros [= <-]. unfold hs_weight. rewrite Eb. cbn. lia.
Qed.

Lemma hs_run_kept sched : forall s s', hs_inv s -> hs_run fuel sched s = Some s' ->
  hs_kept s s' /\ (run_steps sched + hs_weight s' <= hs_weight s + 2 * spurious_steps sched)%nat.
Proof.
  unfold run_steps, spurious_steps. induction sched as [|c sched IH]; intros s s' Hi; cbn [hs_run].
  { intros [= <-]. split; [done|cbn; lia]. }
  destruct (hs_next fuel c s) as [s1|] eqn:E1; [|done]. cbn [mbind option_bind]. intros E.
  destruct (hs_next_kept _ _ _ Hi E1) as [Hi1 Ho1]. destruct (IH _ _ Hi1 E) as [[Hi2 Ho2] Hn].
  split; [split; [done|by rewrite Ho2]|]. destruct c as [[]|t]; cbn [hs_next List.filter is_run negb length] in *.
  - pose proof (main_next_weight _ _ Hi E1). lia.
  - pose proof (bg_next_weight _ _ Hi E1). lia.
  - pose proof (spurious_weight t _ _ E1). lia.
Qed.

Lemma hs_init_inv cs se tqs : se_have_work se = 0 -> disciplined false cs -> hs_inv (hs_init cs se tqs).
Proof. intros Hw Hd. constructor; try done; cbn; [by left|lia|by rewrite Hw]. Qed.

End Handshake.

Lemma heap_replace_correct_witness :
  heap_replace [1; 3; 2] 5 = [2; 3; 5] /\ heap_ok (heap_replace [1; 3; 2] 5).
Proof.
  split; [reflexivity|]. apply (heap_replace_correct [1; 3; 2] 1 5).
  - intros [|[|[|i]]] x Hx; inversion Hx; subst; vm_compute; split; discriminate.
  - repeat constructor; vm_compute; discriminate.
  - reflexivity.
  - vm_compute. discriminate.
Defined.

(** Two steppers with one and two commands. *)
Definition sample_emitter (msgs : list queue_message) : syncemitter :=
  mkSE msgs None None 0 (f64 0) 0 0 0.

Definition sample_steppersync : steppersync :=
  mkSS (Some 1)
    [sample_emitter [mkQM [1] 10 30 0; mkQM [2] 40 90 0]; sample_emitter [mkQM [3] 0 20 0]]
    (mkCE 0 0 (f64 0) (f64 0)) [0; 0].


(** An emitter whose background thread generates the steps of a move, while the
    main thread asks for them, waits, queues a message and frees the emitter. *)
Definition working_emitter : syncemitter :=
  (syncemitter_alloc true) <| se_sc := Some sample_sc |> <| se_sk := Some sample_sk |>.

Definition working_trapqs : trapqs := {[0 := trapq_check_sentinels sample_trapq]}.

Definition working_calls : list se_call :=
  [StartGen (f64 2) 18000000 0; FinalizeGen;
   Access (fun st => (syncemitter_queue_msg 18000000 [4] st.1, st.2)); FreeEmitter].

(** The main thread runs until it waits, is woken for no reason and waits again;
    the background thread does the work; the main thread goes on until it waits
    for the end of the background thread. *)
Definition working_schedule : list choice :=
  replicate 7 (Run MainThread) ++ [Spurious MainThread; Run MainThread; Run MainThread]
  ++ replicate 4 (Run BgThread) ++ replicate 7 (Run MainThread) ++ replicate 2 (Run BgThread)
  ++ [Run MainThread].

